(** * XStateNet test-migration scripts: rewrite pipelines

    The repository holds seven small Python scripts.  Five of them rewrite
    FluentAssertions calls ([x.Should().M(v)]) into xUnit calls
    ([Assert.M(v, x)]) with ordered lists of [re.sub] rules; two rewrite
    doubled double quotes inside C# verbatim strings.

    The scripts are text -> text functions wrapped in a file loop.  The
    embedding follows that shape:

    - a Python [str] is a Rocq [string] (code points below 256);
    - [re.sub] is a backtracking matcher over the pattern syntax the
      scripts use (literals, character classes, greedy and lazy repetition
      of a single-character atom, capture groups, back-references);
    - the patterns and templates are kept as the text the scripts contain
      and compiled by [compile] / [template];
    - the file loop is explicit state passing over a small file store. *)

From Stdlib Require Import String Ascii List Bool Arith Lia DecimalString.
Import ListNotations.
Open Scope list_scope.
Open Scope string_scope.

(** ** Characters and strings *)

(** The double-quote character (code 34). *)
Definition DQ : ascii := ascii_of_nat 34.
(** The backslash character (code 92). *)
Definition BSL : ascii := ascii_of_nat 92.
(** The line-feed character (code 10). *)
Definition LF : ascii := ascii_of_nat 10.

Definition dq : string := String DQ "".
Definition bsl : string := String BSL "".

(** [s.startswith(p)]. *)
Fixpoint starts_with (p s : string) : bool :=
  match p with
  | "" => true
  | String a p' =>
      match s with
      | "" => false
      | String b s' => Ascii.eqb a b && starts_with p' s'
      end
  end.

(** [p in s] on Python strings. *)
Fixpoint contains (p s : string) : bool :=
  starts_with p s ||
  match s with
  | "" => false
  | String _ s' => contains p s'
  end.

(** [c in s] for a single character. *)
Fixpoint has_char (c : ascii) (s : string) : bool :=
  match s with
  | "" => false
  | String d s' => Ascii.eqb c d || has_char c s'
  end.

(** [s[:n]]. *)
Fixpoint take (n : nat) (s : string) : string :=
  match n, s with
  | S k, String c s' => String c (take k s')
  | _, _ => ""
  end.

(** [s[n:]]. *)
Fixpoint drop (n : nat) (s : string) : string :=
  match n, s with
  | S k, String _ s' => drop k s'
  | _, _ => s
  end.

(** [s.endswith(p)]. *)
Definition ends_with (p s : string) : bool :=
  Nat.leb (String.length p) (String.length s) &&
  String.eqb (drop (String.length s - String.length p) s) p.

(** ** [str.replace]

    [s.replace(old, new)] replaces the non-overlapping occurrences of [old],
    scanning from the left.  [skip] counts the characters of an occurrence
    still to be passed over.  With an empty [old] Python inserts [new]
    before every character and at the end. *)
Fixpoint replace_from (old new : string) (skip : nat) (s : string) : string :=
  match skip with
  | S k =>
      match s with
      | "" => ""
      | String _ s' => replace_from old new k s'
      end
  | O =>
      match s with
      | "" => if starts_with old "" then new else ""
      | String c s' =>
          if starts_with old s
          then new ++ match String.length old with
                      | O => String c (replace_from old new 0 s')
                      | S k => replace_from old new k s'
                      end
          else String c (replace_from old new 0 s')
      end
  end.

Definition replace (old new s : string) : string := replace_from old new 0 s.

(** ** [str.split] on one separator character and [str.join] *)

(** [s.split(sep)] for a one-character [sep]; [cur] is the piece being read. *)
Fixpoint split_from (sep : ascii) (cur : string) (s : string) : list string :=
  match s with
  | "" => [cur]
  | String c s' =>
      if Ascii.eqb c sep
      then cur :: split_from sep "" s'
      else split_from sep (cur ++ String c "") s'
  end.

Definition split (sep : ascii) (s : string) : list string := split_from sep "" s.

(** [sep.join(pieces)]. *)
Fixpoint join (sep : string) (pieces : list string) : string :=
  match pieces with
  | [] => ""
  | [p] => p
  | p :: rest => p ++ sep ++ join sep rest
  end.

(** ** Regular expressions: the fragment of [re] the scripts use *)

(** A character set: a list of inclusive code ranges, possibly negated. *)
Record cset : Type := CSet { cs_neg : bool; cs_ranges : list (nat * nat) }.

Definition in_ranges (rs : list (nat * nat)) (c : ascii) : bool :=
  existsb (fun r => Nat.leb (fst r) (nat_of_ascii c) && Nat.leb (nat_of_ascii c) (snd r)) rs.

Definition in_cset (cs : cset) (c : ascii) : bool :=
  xorb (cs_neg cs) (in_ranges (cs_ranges cs) c).

(** The classes [\d], [\w] and [\s] of a [str] pattern, on code points
    below 256. *)
Definition digit_ranges : list (nat * nat) := [(48, 57)].
Definition word_ranges : list (nat * nat) :=
  [(48, 57); (65, 90); (95, 95); (97, 122); (170, 170); (178, 179); (181, 181);
   (185, 186); (188, 190); (192, 214); (216, 246); (248, 255)].
Definition space_ranges : list (nat * nat) :=
  [(9, 13); (28, 32); (133, 133); (160, 160)].

(** A pattern is a sequence of items; a group [( ... )] is the pair of
    markers [Open n] ... [Close n] around its body. *)
Inductive item : Type :=
| Lit (c : ascii)
| Set_ (cs : cset)
| Rep (greedy : bool) (cs : cset)
| Open (n : nat)
| Close (n : nat)
| Ref (n : nat).

Definition pattern : Type := list item.

Definition single (c : ascii) : cset :=
  CSet false [(nat_of_ascii c, nat_of_ascii c)].

(** *** Pattern syntax *)

Inductive pmode : Type :=
| PNormal
| PEsc
| PClassStart
| PClass (neg : bool) (acc : list (nat * nat)) (pend : option ascii) (dash : bool)
| PClassEsc (neg : bool) (acc : list (nat * nat)).

Record pstate : Type := PState {
  ps_out : list item;          (* items read so far, last first *)
  ps_next : nat;               (* number of the next group *)
  ps_stack : list nat;         (* groups still open *)
  ps_quant : bool              (* the last item is a fresh [*] or [+] *)
}.

Definition emit (i : item) (st : pstate) : pstate :=
  PState (i :: ps_out st) (ps_next st) (ps_stack st) false.

Definition flush (acc : list (nat * nat)) (pend : option ascii) (dash : bool)
  : list (nat * nat) :=
  let acc1 := match pend with
              | Some p => (acc ++ [(nat_of_ascii p, nat_of_ascii p)])%list
              | None => acc
              end in
  if dash then (acc1 ++ [(45, 45)])%list else acc1.

Definition is_digit (c : ascii) : bool := in_ranges digit_ranges c.

(** One character of pattern text. *)
Definition pstep (m : pmode) (st : pstate) (c : ascii) : option (pmode * pstate) :=
  match m with
  | PNormal =>
      if Ascii.eqb c BSL then Some (PEsc, st)
      else if Ascii.eqb c "[" then Some (PClassStart, st)
      else if Ascii.eqb c "(" then
        Some (PNormal, PState (Open (ps_next st) :: ps_out st) (S (ps_next st))
                              (ps_next st :: ps_stack st) false)
      else if Ascii.eqb c ")" then
        match ps_stack st with
        | n :: rest => Some (PNormal, PState (Close n :: ps_out st) (ps_next st) rest false)
        | [] => None
        end
      else if Ascii.eqb c "*" then
        match ps_quant st, ps_out st with
        | false, Lit a :: out =>
            Some (PNormal, PState (Rep true (single a) :: out) (ps_next st) (ps_stack st) true)
        | false, Set_ cs :: out =>
            Some (PNormal, PState (Rep true cs :: out) (ps_next st) (ps_stack st) true)
        | _, _ => None
        end
      else if Ascii.eqb c "+" then
        match ps_quant st, ps_out st with
        | false, Lit a :: out =>
            Some (PNormal, PState (Rep true (single a) :: Lit a :: out)
                                  (ps_next st) (ps_stack st) true)
        | false, Set_ cs :: out =>
            Some (PNormal, PState (Rep true cs :: Set_ cs :: out)
                                  (ps_next st) (ps_stack st) true)
        | _, _ => None
        end
      else if Ascii.eqb c "?" then
        match ps_quant st, ps_out st with
        | true, Rep true cs :: out =>
            Some (PNormal, PState (Rep false cs :: out) (ps_next st) (ps_stack st) false)
        | _, _ => None
        end
      else if Ascii.eqb c "." || Ascii.eqb c "|" || Ascii.eqb c "^" || Ascii.eqb c "$"
              || Ascii.eqb c "{" then None
      else Some (PNormal, emit (Lit c) st)
  | PEsc =>
      if Ascii.eqb c "d" then Some (PNormal, emit (Set_ (CSet false digit_ranges)) st)
      else if Ascii.eqb c "w" then Some (PNormal, emit (Set_ (CSet false word_ranges)) st)
      else if Ascii.eqb c "s" then Some (PNormal, emit (Set_ (CSet false space_ranges)) st)
      else if is_digit c then Some (PNormal, emit (Ref (nat_of_ascii c - 48)) st)
      else if in_ranges word_ranges c then None
      else Some (PNormal, emit (Lit c) st)
  | PClassStart =>
      if Ascii.eqb c "^" then Some (PClass true [] None false, st)
      else if Ascii.eqb c BSL then Some (PClassEsc false [], st)
      else if Ascii.eqb c "]" then None
      else Some (PClass false [] (Some c) false, st)
  | PClass neg acc pend dash =>
      if Ascii.eqb c "]" then
        match flush acc pend dash with
        | [] => None
        | rs => Some (PNormal, emit (Set_ (CSet neg rs)) st)
        end
      else if Ascii.eqb c BSL then Some (PClassEsc neg (flush acc pend dash), st)
      else if Ascii.eqb c "-" then
        match pend, dash with
        | Some _, false => Some (PClass neg acc pend true, st)
        | _, _ => Some (PClass neg (flush acc pend dash) (Some c) false, st)
        end
      else
        match pend, dash with
        | Some p, true =>
            if Nat.leb (nat_of_ascii p) (nat_of_ascii c)
            then Some (PClass neg (acc ++ [(nat_of_ascii p, nat_of_ascii c)])%list None false, st)
            else None
        | _, _ => Some (PClass neg (flush acc pend false) (Some c) false, st)
        end
  | PClassEsc neg acc =>
      if Ascii.eqb c "d" then Some (PClass neg (acc ++ digit_ranges)%list None false, st)
      else if Ascii.eqb c "w" then Some (PClass neg (acc ++ word_ranges)%list None false, st)
      else if Ascii.eqb c "s" then Some (PClass neg (acc ++ space_ranges)%list None false, st)
      else if in_ranges word_ranges c then None
      else Some (PClass neg acc (Some c) false, st)
  end.

Fixpoint prun (m : pmode) (st : pstate) (s : string) : option pattern :=
  match s with
  | "" =>
      match m, ps_stack st with
      | PNormal, [] => Some (rev (ps_out st))
      | _, _ => None
      end
  | String c s' =>
      match pstep m st c with
      | Some (m', st') => prun m' st' s'
      | None => None
      end
  end.

(** [re.compile(src)]; text outside the fragment compiles to the pattern
    that matches nowhere. *)
Definition never : pattern := [Set_ (CSet false [])].

Definition compile (src : string) : pattern :=
  match prun PNormal (PState [] 1 [] false) src with
  | Some p => p
  | None => never
  end.

(** *** Matching *)

(** Captures: [closed] holds the text of every finished group, [opened] the
    input that was left when an unfinished group began. *)
Record mstate : Type := MState {
  closed : list (nat * string);
  opened : list (nat * string)
}.

Definition mstate0 : mstate := MState [] [].

Fixpoint lookup (n : nat) (l : list (nat * string)) : option string :=
  match l with
  | [] => None
  | (k, v) :: l' => if Nat.eqb n k then Some v else lookup n l'
  end.

Definition open_group (n : nat) (s : string) (st : mstate) : mstate :=
  MState (closed st) ((n, s) :: opened st).

Definition close_group (n : nat) (s : string) (st : mstate) : mstate :=
  match lookup n (opened st) with
  | Some s0 =>
      MState ((n, take (String.length s0 - String.length s) s0) :: closed st) (opened st)
  | None => st
  end.

(** [strip p s] is the rest of [s] after its prefix [p]. *)
Fixpoint strip (p s : string) : option string :=
  match p with
  | "" => Some s
  | String a p' =>
      match s with
      | "" => None
      | String b s' => if Ascii.eqb a b then strip p' s' else None
      end
  end.

(** [re_match p s st]: match [p] at the start of [s], in the order of a
    backtracking matcher; the result is the unread input and the captures.
    A greedy repetition tries one more character before it tries the rest
    of the pattern, a lazy one tries the rest of the pattern first. *)
Fixpoint re_match (p : pattern) : string -> mstate -> option (string * mstate) :=
  match p with
  | [] => fun s st => Some (s, st)
  | Lit c :: p' => fun s st =>
      match s with
      | String d s' => if Ascii.eqb c d then re_match p' s' st else None
      | "" => None
      end
  | Set_ cs :: p' => fun s st =>
      match s with
      | String d s' => if in_cset cs d then re_match p' s' st else None
      | "" => None
      end
  | Rep true cs :: p' =>
      fix more (s : string) : mstate -> option (string * mstate) := fun st =>
        match match s with
              | String d s' => if in_cset cs d then more s' st else None
              | "" => None
              end with
        | Some r => Some r
        | None => re_match p' s st
        end
  | Rep false cs :: p' =>
      fix more (s : string) : mstate -> option (string * mstate) := fun st =>
        match re_match p' s st with
        | Some r => Some r
        | None =>
            match s with
            | String d s' => if in_cset cs d then more s' st else None
            | "" => None
            end
        end
  | Open n :: p' => fun s st => re_match p' s (open_group n s st)
  | Close n :: p' => fun s st => re_match p' s (close_group n s st)
  | Ref n :: p' => fun s st =>
      match lookup n (closed st) with
      | Some t =>
          match strip t s with
          | Some s' => re_match p' s' st
          | None => None
          end
      | None => None
      end
  end.

(** *** Replacement templates *)

Inductive titem : Type :=
| TChr (c : ascii)
| TGrp (n : nat).

(** A template is literal text with [\1] ... [\9] group references; the
    templates of the scripts hold no other escape. *)
Fixpoint template_from (esc : bool) (s : string) : list titem :=
  match s with
  | "" => if esc then [TChr BSL] else []
  | String c s' =>
      if esc then
        (if is_digit c then TGrp (nat_of_ascii c - 48) else TChr c) :: template_from false s'
      else if Ascii.eqb c BSL then template_from true s'
      else TChr c :: template_from false s'
  end.

Definition template (s : string) : list titem := template_from false s.

Fixpoint expand (t : list titem) (caps : list (nat * string)) : string :=
  match t with
  | [] => ""
  | TChr c :: t' => String c (expand t' caps)
  | TGrp n :: t' =>
      match lookup n caps with
      | Some v => v
      | None => ""
      end ++ expand t' caps
  end.

(** *** [re.sub]

    The leftmost match is replaced and the scan goes on after it; [skip]
    counts the characters of the match still to be passed over.  No pattern
    of the scripts matches the empty string; for one that does, the
    replacement is inserted and the scan moves on by one character. *)
Fixpoint sub_from (p : pattern) (t : list titem) (skip : nat) (s : string) : string :=
  match skip with
  | S k =>
      match s with
      | "" => ""
      | String _ s' => sub_from p t k s'
      end
  | O =>
      match re_match p s mstate0 with
      | Some (rest, st) =>
          expand t (closed st) ++
          match s with
          | "" => ""
          | String c s' =>
              match String.length s - String.length rest with
              | O => String c (sub_from p t 0 s')
              | S k => sub_from p t k s'
              end
          end
      | None =>
          match s with
          | "" => ""
          | String c s' => String c (sub_from p t 0 s')
          end
      end
  end.

(** [re.sub(pat, repl, s)] with both pattern and replacement given as text. *)
Definition re_sub (pat repl : string) (s : string) : string :=
  sub_from (compile pat) (template repl) 0 s.

(** ** The file store and the output of a run *)

(** Files under the directory a script works on: path and text.  [os.walk]
    lists them in this order; a name ends in [.cs] exactly when its path
    does. *)
Definition store : Type := list (string * string).

Fixpoint read (fs : store) (path : string) : option string :=
  match fs with
  | [] => None
  | (p, c) :: fs' => if String.eqb p path then Some c else read fs' path
  end.

(** [open(path, 'w')] followed by [write]: the file is replaced, or created. *)
Fixpoint update (fs : store) (path content : string) : store :=
  match fs with
  | [] => [(path, content)]
  | (p, c) :: fs' =>
      if String.eqb p path then (p, content) :: fs'
      else (p, c) :: update fs' path content
  end.

Record world : Type := World {
  files : store;
  writes : list (string * string);   (* every write issued, oldest first *)
  stdout : list string               (* every line printed, oldest first *)
}.

Definition fwrite (path content : string) (w : world) : world :=
  World (update (files w) path content) (writes w ++ [(path, content)])%list (stdout w).

Definition print (line : string) (w : world) : world :=
  World (files w) (writes w) (stdout w ++ [line])%list.

Definition walk (w : world) : list string := map fst (files w).

(** [os.path.basename] on the paths of a Windows tree: the text behind the
    last backslash or slash; [cur] is the component being read. *)
Fixpoint basename_from (cur path : string) : string :=
  match path with
  | "" => cur
  | String c path' =>
      if Ascii.eqb c BSL || Ascii.eqb c "/"
      then basename_from "" path'
      else basename_from (cur ++ String c "") path'
  end.

Definition basename (path : string) : string := basename_from "" path.

(** [os.path.join(path, name)] for a [name] that is relative and has no
    drive, as the file names fix_remaining_should.py lists are: [name] is
    put behind [path], with the separator [sep] of the platform ([os.sep])
    between them unless [path] is empty or ends in a separator already.
    [/] counts as a separator beside [sep], as it does on Windows; a
    [path] that is a bare drive ([C:]) is outside this model. *)
Fixpoint last_char (s : string) : option ascii :=
  match s with
  | "" => None
  | String c "" => Some c
  | String _ s' => last_char s'
  end.

Definition path_join (sep : ascii) (path name : string) : string :=
  match last_char path with
  | None => name
  | Some c =>
      if Ascii.eqb c sep || Ascii.eqb c "/"
      then path ++ name
      else path ++ String sep name
  end.

Definition str_of_nat (n : nat) : string := NilEmpty.string_of_uint (Nat.to_uint n).

(** ** fix_all_should.py *)
Module FixAllShould.

Definition fix_all_should_patterns (content : string) : string :=
  let content := re_sub "([a-zA-Z_][a-zA-Z0-9_.\[\]()]*?)\.Should\(\)\.NotBeNull\(\)"
                        "Assert.NotNull(\1)" content in
  let content := re_sub "([a-zA-Z_][a-zA-Z0-9_.\[\]()]*?)\.Should\(\)\.BeNull\(\)"
                        "Assert.Null(\1)" content in
  let content := re_sub "([a-zA-Z_][a-zA-Z0-9_.\[\]()]*?)\.Should\(\)\.Be\(([^)]+)\)"
                        "Assert.Equal(\2, \1)" content in
  let content := re_sub "([a-zA-Z_][a-zA-Z0-9_.\[\]()]*?)\.Should\(\)\.BeTrue\(\)"
                        "Assert.True(\1)" content in
  let content := re_sub "([a-zA-Z_][a-zA-Z0-9_.\[\]()]*?)\.Should\(\)\.BeFalse\(\)"
                        "Assert.False(\1)" content in
  let content := re_sub "([a-zA-Z_][a-zA-Z0-9_.\[\]()]*?)\.Should\(\)\.Contain\(([^)]+)\)"
                        "Assert.Contains(\2, \1)" content in
  let content := re_sub "([a-zA-Z_][a-zA-Z0-9_.\[\]()]*?)\.Should\(\)\.NotContain\(([^)]+)\)"
                        "Assert.DoesNotContain(\2, \1)" content in
  let content := re_sub "([a-zA-Z_][a-zA-Z0-9_.\[\]()]*?)\.Should\(\)\.HaveCount\(([^)]+)\)"
                        "Assert.Equal(\2, \1.Count)" content in
  let content := re_sub "([a-zA-Z_][a-zA-Z0-9_.\[\]()]*?)\.Should\(\)\.BeEmpty\(\)"
                        "Assert.Empty(\1)" content in
  let content := re_sub "([a-zA-Z_][a-zA-Z0-9_.\[\]()]*?)\.Should\(\)\.NotBeEmpty\(\)"
                        "Assert.NotEmpty(\1)" content in
  let content := re_sub "([a-zA-Z_][a-zA-Z0-9_.\[\]()]*?)\.Should\(\)\.BeGreaterThan\(([^)]+)\)"
                        "Assert.True(\1 > \2)" content in
  let content := re_sub "([a-zA-Z_][a-zA-Z0-9_.\[\]()]*?)\.Should\(\)\.BeLessThan\(([^)]+)\)"
                        "Assert.True(\1 < \2)" content in
  let content := re_sub "([a-zA-Z_][a-zA-Z0-9_.\[\]()]*?)\.Should\(\)\.BeGreaterOrEqualTo\(([^)]+)\)"
                        "Assert.True(\1 >= \2)" content in
  let content := re_sub "([a-zA-Z_][a-zA-Z0-9_.\[\]()]*?)\.Should\(\)\.StartWith\(([^)]+)\)"
                        "Assert.StartsWith(\2, \1)" content in
  let content := re_sub "([a-zA-Z_][a-zA-Z0-9_.\[\]()]*?)\.Should\(\)\.EndWith\(([^)]+)\)"
                        "Assert.EndsWith(\2, \1)" content in
  let content := re_sub "([a-zA-Z_][a-zA-Z0-9_.\[\]()]*?)\.Should\(\)\.BeEquivalentTo\(([^)]+)\)"
                        "Assert.Equal(\2, \1)" content in
  let content := re_sub "([a-zA-Z_][a-zA-Z0-9_.\[\]()]*?)\.Should\(\)\.NotBe\(([^)]+)\)"
                        "Assert.NotEqual(\2, \1)" content in
  let content := re_sub "([a-zA-Z_][a-zA-Z0-9_]*?)\.Assert\.Contains\(([^,]+), ([a-zA-Z_][a-zA-Z0-9_]*?)\)"
                        "Assert.Contains(\2, \1.\3)" content in
  let content := re_sub "([a-zA-Z_][a-zA-Z0-9_]*?)\.Assert\.Equal\(([^,]+), ([a-zA-Z_][a-zA-Z0-9_]*?)\)"
                        "Assert.Equal(\2, \1.\3)" content in
  let content := re_sub "pingHits\.Assert\.Contains\(([^)]+)\)"
                        "Assert.Contains(\1, pingHits)" content in
  let content := re_sub "pongHits\.Assert\.Contains\(([^)]+)\)"
                        "Assert.Contains(\1, pongHits)" content in
  content.

(** The body of the loop over the [.cs] files. *)
Definition visit (file_path : string) (acc : world * nat) : world * nat :=
  let (w, fixed_count) := acc in
  match read (files w) file_path with
  | None => acc                       (* the walk lists files of the store *)
  | Some content =>
      if negb (contains ".Should()" content) && negb (contains ".Assert." content)
      then acc
      else
        let original := content in
        let content := fix_all_should_patterns content in
        if negb (String.eqb content original)
        then (print ("Fixed: " ++ file_path) (fwrite file_path content w), S fixed_count)
        else acc
  end.

Definition main (w : world) : world :=
  let (w', fixed_count) :=
    fold_left (fun acc file => if ends_with ".cs" file then visit file acc else acc)
              (walk w) (w, 0) in
  print (String LF "Total files fixed: " ++ str_of_nat fixed_count) w'.

End FixAllShould.

(** ** fix_complex_should.py *)
Module FixComplexShould.

Definition fix_complex_should_patterns (content : string) : string :=
  let content := re_sub "([a-zA-Z_][a-zA-Z0-9_.\[\]()]*?)\.Contains\(([^)]+)\)\.Should\(\)\.BeTrue\(\)"
                        "Assert.Contains(\2, \1)" content in
  let content := re_sub "([a-zA-Z_][a-zA-Z0-9_.\[\]()]*?)\.Contains\(([^)]+)\)\.Should\(\)\.BeFalse\(\)"
                        "Assert.DoesNotContain(\2, \1)" content in
  let content := re_sub "([a-zA-Z_][a-zA-Z0-9_.\[\]()<>=!\s]*?)\.Should\(\)\.BeTrue\(\)"
                        "Assert.True(\1)" content in
  let content := re_sub "([a-zA-Z_][a-zA-Z0-9_.\[\]()<>=!\s]*?)\.Should\(\)\.BeFalse\(\)"
                        "Assert.False(\1)" content in
  let content := re_sub "([a-zA-Z_][a-zA-Z0-9_.\[\]()!]*?)\.Should\(\)\.NotBeNull\(\)"
                        "Assert.NotNull(\1)" content in
  let content := re_sub "([a-zA-Z_][a-zA-Z0-9_.\[\]()!]*?)\.Should\(\)\.BeNull\(\)"
                        "Assert.Null(\1)" content in
  let content := re_sub "([a-zA-Z_][a-zA-Z0-9_.\[\]()!]*?)\.Should\(\)\.Be\(([^)]+)\)"
                        "Assert.Equal(\2, \1)" content in
  let content := re_sub "([a-zA-Z_][a-zA-Z0-9_.\[\]()!]*?)\.Should\(\)\.NotBe\(([^)]+)\)"
                        "Assert.NotEqual(\2, \1)" content in
  let content := re_sub "([a-zA-Z_][a-zA-Z0-9_.\[\]()!]*?)\.Should\(\)\.Contain\(([^)]+)\)"
                        "Assert.Contains(\2, \1)" content in
  let content := re_sub "([a-zA-Z_][a-zA-Z0-9_.\[\]()!]*?)\.Should\(\)\.HaveCount\(([^)]+)\)"
                        "Assert.Equal(\2, \1.Count)" content in
  let content := re_sub "([a-zA-Z_][a-zA-Z0-9_.\[\]()!]*?)\.Should\(\)\.StartWith\(([^)]+)\)"
                        "Assert.StartsWith(\2, \1)" content in
  let content := re_sub "([a-zA-Z_][a-zA-Z0-9_.\[\]()!]*?)\.Should\(\)\.EndWith\(([^)]+)\)"
                        "Assert.EndsWith(\2, \1)" content in
  let content := re_sub "\(([^)]+)\s*!=\s*null\s*\?\s*([^:]+)\s*:\s*([^)]+)\)\.Should\(\)\.Be\(([^)]+)\)"
                        "Assert.Equal(\4, \1 != null ? \2 : \3)" content in
  content.

Definition visit (file_path : string) (acc : world * nat) : world * nat :=
  let (w, fixed_count) := acc in
  match read (files w) file_path with
  | None => acc                       (* the walk lists files of the store *)
  | Some content =>
      if negb (contains ".Should()" content)
      then acc
      else
        let original := content in
        let content := fix_complex_should_patterns content in
        if negb (String.eqb content original)
        then (print ("Fixed: " ++ file_path) (fwrite file_path content w), S fixed_count)
        else acc
  end.

Definition main (w : world) : world :=
  let (w', fixed_count) :=
    fold_left (fun acc file => if ends_with ".cs" file then visit file acc else acc)
              (walk w) (w, 0) in
  print (String LF "Total files fixed: " ++ str_of_nat fixed_count) w'.

End FixComplexShould.

(** ** fix_final_should.py *)
Module FixFinalShould.

Definition fix_all_should_patterns (content : string) : string :=
  let content := re_sub "([a-zA-Z_][a-zA-Z0-9_.\[\]()!]*?)\.Should\(\)\.NotBeNull\(\)"
                        "Assert.NotNull(\1)" content in
  let content := re_sub "([a-zA-Z_][a-zA-Z0-9_.\[\]()!]*?)\.Should\(\)\.BeNull\(\)"
                        "Assert.Null(\1)" content in
  let content := re_sub "([a-zA-Z_][a-zA-Z0-9_.\[\]()!]*?)\.Should\(\)\.Be\(([^)]+)\)"
                        "Assert.Equal(\2, \1)" content in
  let content := re_sub "([a-zA-Z_][a-zA-Z0-9_.\[\]()!]*?)\.Should\(\)\.NotBe\(([^)]+)\)"
                        "Assert.NotEqual(\2, \1)" content in
  let content := re_sub "([a-zA-Z_][a-zA-Z0-9_.\[\]()!]*?)\.Should\(\)\.Contain\(([^)]+)\)"
                        "Assert.Contains(\2, \1)" content in
  let content := re_sub "([a-zA-Z_][a-zA-Z0-9_.\[\]()!]*?)\.Should\(\)\.BeGreaterThan\(([^)]+)\)"
                        "Assert.True(\1 > \2)" content in
  let content := re_sub "([a-zA-Z_][a-zA-Z0-9_.\[\]()!]*?)\.Should\(\)\.BeGreaterThanOrEqualTo\(([^)]+)\)"
                        "Assert.True(\1 >= \2)" content in
  let content := re_sub "([a-zA-Z_][a-zA-Z0-9_.\[\]()!]*?)\.Should\(\)\.BeLessThan\(([^)]+)\)"
                        "Assert.True(\1 < \2)" content in
  let content := re_sub "([a-zA-Z_][a-zA-Z0-9_.\[\]()!]*?)\.Should\(\)\.BeLessThanOrEqualTo\(([^)]+)\)"
                        "Assert.True(\1 <= \2)" content in
  let content := re_sub "([a-zA-Z_][a-zA-Z0-9_.\[\]()!]*?)\.Should\(\)\.BeTrue\([^)]*\)"
                        "Assert.True(\1)" content in
  let content := re_sub "([a-zA-Z_][a-zA-Z0-9_.\[\]()!]*?)\.Should\(\)\.BeFalse\([^)]*\)"
                        "Assert.False(\1)" content in
  let content := re_sub "\(([^)]*is[^)]*\?[^)]*:[^)]*)\)\.Should\(\)\.Be\(([^)]+)\)"
                        "Assert.Equal(\2, \1)" content in
  content.

Definition visit (file_path : string) (acc : world * nat) : world * nat :=
  let (w, fixed_count) := acc in
  match read (files w) file_path with
  | None => acc                       (* the walk lists files of the store *)
  | Some content =>
      if negb (contains ".Should()" content)
      then acc
      else
        let original := content in
        let content := fix_all_should_patterns content in
        if negb (String.eqb content original)
        then (print ("Fixed: " ++ file_path) (fwrite file_path content w), S fixed_count)
        else acc
  end.

Definition main (w : world) : world :=
  let (w', fixed_count) :=
    fold_left (fun acc file => if ends_with ".cs" file then visit file acc else acc)
              (walk w) (w, 0) in
  print (String LF "Total files fixed: " ++ str_of_nat fixed_count) w'.

End FixFinalShould.

(** ** fix_remaining_should.py *)
Module FixRemainingShould.

Definition test_dir : string := "C:\Develop25\XStateNet\Test".

Definition fix_remaining_patterns (content : string) : string :=
  let content := re_sub ("_contextValues\[" ++ dq ++ "counter" ++ dq ++ "\]\.Should\(\)\.Be\((\d+)\)")
                        ("Assert.Equal(\1, _contextValues[" ++ dq ++ "counter" ++ dq ++ "])") content in
  let content := re_sub ("_stateMachine\.ContextMap!\[" ++ dq ++ "value" ++ dq ++ "\]\.Should\(\)\.Be\(" ++ dq ++ "([^" ++ dq ++ "]+)" ++ dq ++ "\)")
                        ("Assert.Equal(" ++ dq ++ "\1" ++ dq ++ ", _stateMachine.ContextMap![" ++ dq ++ "value" ++ dq ++ "])") content in
  let content := re_sub ("_stateMachine\.ContextMap\[" ++ dq ++ "value" ++ dq ++ "\]\.Should\(\)\.Be\(" ++ dq ++ "([^" ++ dq ++ "]+)" ++ dq ++ "\)")
                        ("Assert.Equal(" ++ dq ++ "\1" ++ dq ++ ", _stateMachine.ContextMap[" ++ dq ++ "value" ++ dq ++ "])") content in
  let content := re_sub "\(([a-zA-Z_][a-zA-Z0-9_]*) is Newtonsoft\.Json\.Linq\.JValue ([a-zA-Z_][a-zA-Z0-9_]*) \? \2\.ToObject<int>\(\) : \(int\)\(\1 \?\? 0\)\)\.Should\(\)\.Be\((\d+)\)"
                        "Assert.Equal(\3, \1 is Newtonsoft.Json.Linq.JValue \2 ? \2.ToObject<int>() : (int)(\1 ?? 0))" content in
  let content := re_sub ("_stateMachine\.ContextMap!\[" ++ dq ++ "data" ++ dq ++ "\]\.Should\(\)\.Be\(" ++ dq ++ "([^" ++ dq ++ "]+)" ++ dq ++ "\)")
                        ("Assert.Equal(" ++ dq ++ "\1" ++ dq ++ ", _stateMachine.ContextMap![" ++ dq ++ "data" ++ dq ++ "])") content in
  content.

Definition files_to_fix : list string :=
  ["UnitTest_InternalTransitions.cs"; "UnitTest_InvokeServices.cs"].

(** The body of the loop, from [os.path.exists(file_path)] on; [file_path]
    is the joined path, which the loop reads, writes and prints. *)
Definition visit (file_path : string) (acc : world * nat) : world * nat :=
  let (w, fixed_count) := acc in
  match read (files w) file_path with
  | None => acc                       (* not os.path.exists(file_path) *)
  | Some content =>
      let original := content in
      let content := fix_remaining_patterns content in
      if negb (String.eqb content original)
      then (print ("Fixed: " ++ file_path) (fwrite file_path content w), S fixed_count)
      else acc
  end.

(** The module body, on a platform whose [os.sep] is [sep]: each name of
    [files_to_fix] is joined to [test_dir] and the joined path visited. *)
Definition run (sep : ascii) (w : world) : world :=
  let (w', fixed_count) :=
    fold_left (fun acc file_name => visit (path_join sep test_dir file_name) acc)
              files_to_fix (w, 0) in
  print (String LF "Total files fixed: " ++ str_of_nat fixed_count) w'.

(** The run on Windows, where [test_dir] lies: [os.sep] is the backslash. *)
Definition main (w : world) : world := run BSL w.

End FixRemainingShould.

(** ** fix_integration_tests.py *)
Module FixIntegrationTests.

Definition target : string :=
  "C:\Develop25\XStateNet\SemiStandard.Tests\StateMachineIntegrationTests.cs".

Definition replacements : list (string * string) :=
  [
    ("carrier\.Should\(\)\.BeTrue\(\)",
     "Assert.True(carrier)");
    ("(\w+)\.Should\(\)\.BeTrue\(\)",
     "Assert.True(\1)");
    ("(\w+)\.Should\(\)\.BeFalse\(\)",
     "Assert.False(\1)");
    ("(\w+)\.Should\(\)\.NotBeNull\(\)",
     "Assert.NotNull(\1)");
    ("(\w+)\.Should\(\)\.BeNull\(\)",
     "Assert.Null(\1)");
    ("(\w+)\.Should\(\)\.NotBeEmpty\(\)",
     "Assert.NotEmpty(\1)");
    (("(\w+)\.GetCurrentState\(\)\.Should\(\)\.Contain\(" ++ dq ++ "([^" ++ dq ++ "]+)" ++ dq ++ "\)"),
     ("Assert.Contains(" ++ dq ++ "\2" ++ dq ++ ", \1.GetCurrentState())"));
    (("(\w+)\.GetCurrentState\(\)\.Should\(\)\.NotContain\(" ++ dq ++ "([^" ++ dq ++ "]+)" ++ dq ++ "\)"),
     ("Assert.DoesNotContain(" ++ dq ++ "\2" ++ dq ++ ", \1.GetCurrentState())"));
    ("(\w+)\.Should\(\)\.HaveCount\((\d+)\)",
     "Assert.Equal(\2, \1.Count)");
    ("(\w+)\.Should\(\)\.Be\((\d+)\)",
     "Assert.Equal(\2, \1)");
    (("(\w+)\.EventLog\.Should\(\)\.Contain\(" ++ dq ++ "([^" ++ dq ++ "]+)" ++ dq ++ "\)"),
     ("Assert.Contains(" ++ dq ++ "\2" ++ dq ++ ", \1.EventLog)"));
    ("(\w+)\.GetAllJobs\(\)\.Should\(\)\.HaveCount\((\d+)\)",
     "Assert.Equal(\2, \1.GetAllJobs().Count)");
    (("(\w+)\.Should\(\)\.Contain\(" ++ dq ++ "([^" ++ dq ++ "]+)" ++ dq ++ "\)"),
     ("Assert.Contains(" ++ dq ++ "\2" ++ dq ++ ", \1)"));
    (("(\w+)\.HasMapping\(" ++ dq ++ "([^" ++ dq ++ "]+)" ++ dq ++ ", " ++ dq ++ "([^" ++ dq ++ "]+)" ++ dq ++ "\)\.Should\(\)\.BeTrue\(\)"),
     ("Assert.True(\1.HasMapping(" ++ dq ++ "\2" ++ dq ++ ", " ++ dq ++ "\3" ++ dq ++ "))"))
  ].

Definition rewrite (content : string) : string :=
  fold_left (fun content r => re_sub (fst r) (snd r) content) replacements content.

(** The script reads the one file, applies the rules and writes the file
    back; a missing file ends the run with the exception of [open]. *)
Definition main (w : world) : option world :=
  match read (files w) target with
  | None => None
  | Some content =>
      let content := rewrite content in
      Some (print "Fixed all FluentAssertions patterns in StateMachineIntegrationTests.cs"
                  (fwrite target content w))
  end.

End FixIntegrationTests.

(** ** replace_quotes.py *)
Module ReplaceQuotes.

Definition replace_double_quotes_in_json (content : string) : string :=
  let content := re_sub (dq ++ dq ++ "([^" ++ dq ++ "]+)" ++ dq ++ dq) "'\1'" content in
  let content := re_sub (dq ++ "([^" ++ dq ++ "]+)" ++ dq ++ ":\s*" ++ dq ++ "([^" ++ dq ++ "]+)" ++ dq)
                        "'\1': '\2'" content in
  content.

(** [process_file]: the new world and the returned flag.  The [except]
    branch is the failing [open]; the message of the exception is left
    out of the printed line. *)
Definition process_file (filepath : string) (w : world) : world * bool :=
  match read (files w) filepath with
  | None => (print ("Error processing " ++ filepath) w, false)
  | Some content =>
      if contains (dq ++ dq) content then
        let new_content := replace_double_quotes_in_json content in
        if negb (String.eqb new_content content)
        then (fwrite filepath new_content w, true)
        else (w, false)
      else (w, false)
  end.

(** The body of the loop of [main] over the files. *)
Definition visit (filepath : string) (acc : world * nat) : world * nat :=
  let (w, modified_count) := acc in
  let (w1, changed) := process_file filepath w in
  if changed
  then (print ("Modified: " ++ basename filepath) w1, S modified_count)
  else (w1, modified_count).

Definition main (w : world) : world :=
  let cs_files := filter (ends_with ".cs") (walk w) in
  let w := print ("Found " ++ str_of_nat (List.length cs_files)
                   ++ " C# files in test directory") w in
  let (w', modified_count) :=
    fold_left (fun acc filepath => visit filepath acc) cs_files (w, 0) in
  print (String LF "Modified " ++ str_of_nat modified_count ++ " files") w'.

End ReplaceQuotes.

(** ** replace_all_quotes.py *)
Module ReplaceAllQuotes.

Definition markers : list string :=
  [dq ++ dq; "@" ++ dq; "json"; "script"; "Script"; "stateMachine"].

Definition TEMP_ESCAPED : string := "__TEMP_ESCAPED__".

(** The body of the loop over the lines. *)
Definition fix_line (line : string) : string :=
  if existsb (fun pattern => contains pattern line) markers then
    let line := replace (bsl ++ dq ++ dq) TEMP_ESCAPED line in
    let line := replace (dq ++ dq) "'" line in
    let line := replace TEMP_ESCAPED (bsl ++ dq) line in
    line
  else line.

Definition replace_double_quotes_comprehensive (content : string) : string :=
  let lines := split LF content in
  let modified_lines := map fix_line lines in
  join (String LF "") modified_lines.

Definition process_file (filepath : string) (w : world) : world * bool :=
  match read (files w) filepath with
  | None => (print ("Error processing " ++ filepath) w, false)
  | Some content =>
      if contains (dq ++ dq) content then
        let new_content := replace_double_quotes_comprehensive content in
        if negb (String.eqb new_content content)
        then
          let backup_path := filepath ++ ".bak" in
          let w := fwrite backup_path content w in
          let w := fwrite filepath new_content w in
          (print ("Modified: " ++ basename filepath) w, true)
        else (w, false)
      else (w, false)
  end.

(** The body of the loop of [main] over the files. *)
Definition visit (filepath : string) (acc : world * nat) : world * nat :=
  let (w, modified_count) := acc in
  let (w1, changed) := process_file filepath w in
  if changed then (w1, S modified_count) else (w1, modified_count).

Definition main (w : world) : world :=
  let cs_files := filter (ends_with ".cs") (walk w) in
  let w := print ("Found " ++ str_of_nat (List.length cs_files)
                   ++ " C# files in test directory") w in
  let (w', modified_count) :=
    fold_left (fun acc filepath => visit filepath acc) cs_files (w, 0) in
  print (String LF "Modified " ++ str_of_nat modified_count ++ " files") w'.

End ReplaceAllQuotes.

(** ** Vocabulary of the statements *)

(** The pattern of a literal text. *)
Fixpoint lits (s : string) : pattern :=
  match s with
  | "" => []
  | String c s' => Lit c :: lits s'
  end.

(** [lits L] stands at the head of [p]. *)
Fixpoint lits_at (L : string) (p : pattern) : bool :=
  match L with
  | "" => true
  | String c L' =>
      match p with
      | Lit d :: p' => Ascii.eqb c d && lits_at L' p'
      | _ => false
      end
  end.

(** [p] holds the literal text [L]: every match of [p] passes through [L]. *)
Fixpoint requires (L : string) (p : pattern) : bool :=
  lits_at L p ||
  match p with
  | [] => false
  | _ :: p' => requires L p'
  end.

(** The literal runs of a pattern, in order. *)
Fixpoint runs_from (cur : string) (p : pattern) : list string :=
  match p with
  | [] => [cur]
  | Lit c :: p' => runs_from (cur ++ String c "") p'
  | _ :: p' => cur :: runs_from "" p'
  end.

(** The first longest literal run of [p]. *)
Definition longest_lits (p : pattern) : string :=
  fold_left (fun best r => if Nat.ltb (String.length best) (String.length r) then r else best)
            (runs_from "" p) "".

(** Every character of [s] is in [cs]. *)
Fixpoint all_in (cs : cset) (s : string) : bool :=
  match s with
  | "" => true
  | String c s' => in_cset cs c && all_in cs s'
  end.

(** [r] is matched whole by [[a][b]*]. *)
Definition is_recv (a b : cset) (r : string) : bool :=
  match r with
  | "" => false
  | String c r' => in_cset a c && all_in b r'
  end.

(** The next character is not in [cs], or the text is over. *)
Definition stops (cs : cset) (s : string) : bool :=
  match s with
  | "" => true
  | String c _ => negb (in_cset cs c)
  end.

(** No proper, non-empty tail of [K] starts [K] again. *)
Fixpoint no_border (K t : string) : bool :=
  match t with
  | "" => true
  | String _ t' => negb (starts_with t K) && no_border K t'
  end.

Definition unbordered (K : string) : bool :=
  match K with
  | "" => false
  | String _ t => no_border K t
  end.

(** The character classes of the rules. *)
Definition ident_start : cset := CSet false [(97, 122); (65, 90); (95, 95)].
Definition ident_char : cset := CSet false [(97, 122); (65, 90); (48, 57); (95, 95)].
(** [[a-zA-Z0-9_.\[\]()]] *)
Definition recv_char : cset :=
  CSet false [(97, 122); (65, 90); (48, 57); (95, 95); (46, 46); (91, 91); (93, 93);
              (40, 40); (41, 41)].
(** [[a-zA-Z0-9_.\[\]()!]] *)
Definition recv_bang : cset :=
  CSet false [(97, 122); (65, 90); (48, 57); (95, 95); (46, 46); (91, 91); (93, 93);
              (40, 40); (41, 41); (33, 33)].
Definition not_paren : cset := CSet true [(41, 41)].
Definition not_comma : cset := CSet true [(44, 44)].
Definition not_dq : cset := CSet true [(34, 34)].
Definition space : cset := CSet false space_ranges.

(** A capture group around [[a][b]*?], and one around [[c]+]. *)
Definition lazy_group (n : nat) (a b : cset) : pattern :=
  [Open n; Set_ a; Rep false b; Close n].
Definition plus_group (n : nat) (c : cset) : pattern :=
  [Open n; Set_ c; Rep true c; Close n].

(** The state after group [n] has matched [u] in front of [s]. *)
Definition captured (n : nat) (u s : string) (st : mstate) : mstate :=
  MState ((n, u) :: closed st) ((n, u ++ s) :: opened st).






(** A piece of a line between two escaped quotes: no double quote, no
    underscore (so no sentinel), no line break. *)
Definition plain_segment (s : string) : bool :=
  negb (has_char DQ s) && negb (has_char "_" s) && negb (has_char LF s).

(** No occurrence of [old] starts inside [seg] when [seg] stands at the end
    of a text or in front of an occurrence of [old]. *)
Definition clean (old seg : string) : Prop :=
  forall w1 w2 rest, seg = w1 ++ w2 -> w2 <> "" ->
                     rest = "" \/ starts_with old rest = true ->
                     starts_with old (w2 ++ rest) = false.

(** ** Vocabulary of the statements about whole runs and single rules *)
(** What a run over the tree leaves in a file: the files chosen by [sel]
    hold the text [g] makes of their old text, the others their old text. *)
Definition rewritten (sel : string -> bool) (g : string -> string)
           (pc : string * string) : string * string :=
  (fst pc, if sel (fst pc) then g (snd pc) else snd pc).

(** The files of the store, in its order, that [sel] chooses and [g]
    changes. *)
Definition changed_files (sel : string -> bool) (g : string -> string)
           (fs : store) : store :=
  filter (fun pc => sel (fst pc) && negb (String.eqb (g (snd pc)) (snd pc))) fs.

(** The rewrite behind a check [gate]: files that fail the check keep their
    text. *)
Definition gated (gate : string -> bool) (f : string -> string) (c : string) : string :=
  if gate c then f c else c.

(** The state a loop over the tree ends in: every chosen file holds its
    rewritten text, the changed files were written and reported in the
    order of the tree, and counted. *)
Definition run_result (sel : string -> bool) (g : string -> string)
           (report : string -> string) (w : world) : world * nat :=
  let ch := changed_files sel g (files w) in
  (World (map (rewritten sel g) (files w))
         (writes w ++ map (fun pc => (fst pc, g (snd pc))) ch)%list
         (stdout w ++ map (fun pc => report (fst pc)) ch)%list,
   List.length ch).

(** [p] is one of the names [ns]. *)
Definition named (ns : list string) (p : string) : bool := existsb (String.eqb p) ns.

(** The files among the names [ns], in the order of [ns], that exist in the
    store and that [g] changes; with their old text. *)
Definition picked (g : string -> string) (ns : list string) (fs : store) : store :=
  flat_map (fun name => match read fs name with
                        | Some c => if negb (String.eqb (g c) c) then [(name, c)] else []
                        | None => []
                        end) ns.

(** A small tree: two [.cs] files, one of them with a fluent call, and a
    text file that is no [.cs] file. *)
Definition sample_tree : world :=
  World [("A.cs", "x.Should().BeNull();");
         ("notes.txt", "y.Should().BeNull();");
         ("B.cs", "int z;")] [] [].

(** A small tree with doubled double quotes in one [.cs] file. *)
Definition sample_quotes : world :=
  World [("A.cs", "var json = @" ++ dq ++ "{" ++ dq ++ dq ++ "id" ++ dq ++ dq ++ "}" ++ dq ++ ";");
         ("notes.txt", dq ++ dq ++ "id" ++ dq ++ dq);
         ("B.cs", "int z;")] [] [].

(** A tree with one of the two files fix_remaining_should.py names, under
    the path the script builds, a file it does not name, and a file of a
    listed name in another folder. *)
Definition sample_named : world :=
  World [("C:\Develop25\XStateNet\Test\UnitTest_InvokeServices.cs",
          "_contextValues[" ++ dq ++ "counter" ++ dq ++ "].Should().Be(2);");
         ("C:\Develop25\XStateNet\Test\Other.cs",
          "_contextValues[" ++ dq ++ "counter" ++ dq ++ "].Should().Be(2);");
         ("C:\Develop25\XStateNet\Test\Sub\UnitTest_InvokeServices.cs",
          "_contextValues[" ++ dq ++ "counter" ++ dq ++ "].Should().Be(2);")] [] [].

(** A piece of a line between two doubled quotes: a plain segment without
    a backslash. *)
Definition bare_segment (s : string) : bool :=
  plain_segment s && negb (has_char BSL s).

(** The three replacements of replace_all_quotes.py, applied to a line
    without looking at the line first. *)
Definition requote (line : string) : string :=
  replace ReplaceAllQuotes.TEMP_ESCAPED (bsl ++ dq)
    (replace (dq ++ dq) "'"
       (replace (bsl ++ dq ++ dq) ReplaceAllQuotes.TEMP_ESCAPED line)).

(** A text of tokens: each item is a stretch of text and a token that
    stands between the quotes [q1] and [q2]; [tail] ends the text. *)
Fixpoint tokens (q1 q2 : string) (items : list (string * string)) (tail : string) : string :=
  match items with
  | [] => tail
  | (s, k) :: rest => s ++ q1 ++ k ++ q2 ++ tokens q1 q2 rest tail
  end.

(** The stretches hold no double quote; the tokens are non-empty and hold
    none. *)
Definition quote_free_item (sk : string * string) : bool :=
  negb (has_char DQ (fst sk)) && negb (has_char DQ (snd sk))
  && negb (String.eqb (snd sk) "").

(** The class [\d]. *)
Definition digit : cset := CSet false digit_ranges.

(** The receivers fix_remaining_should.py names. *)
Definition context_counter : string := "_contextValues[" ++ dq ++ "counter" ++ dq ++ "]".
Definition context_map (bang key : string) : string :=
  "_stateMachine.ContextMap" ++ bang ++ "[" ++ dq ++ key ++ dq ++ "]".

(** A capture group around [[a][b]*], greedy. *)
Definition greedy_group (n : nat) (a b : cset) : pattern :=
  [Open n; Set_ a; Rep true b; Close n].

(** The texts of the cast expression fix_remaining_should.py names. *)
Definition is_jvalue : string := " is Newtonsoft.Json.Linq.JValue ".
Definition to_object : string := ".ToObject<int>() : (int)(".

(** [(x is Newtonsoft.Json.Linq.JValue jv ? jv'.ToObject<int>() : (int)(x' ?? 0))],
    without its parentheses. *)
Definition jvalue_cast (x jv jv' x' : string) : string :=
  x ++ is_jvalue ++ jv ++ " ? " ++ jv' ++ to_object ++ x' ++ " ?? 0)".

(** The class [\w], and the characters a fluent call [w.Should().M("s")] on
    a word is made of. *)
Definition word : cset := CSet false word_ranges.
Definition call_char : cset :=
  CSet false (word_ranges ++ [(46, 46); (40, 40); (41, 41); (34, 34)]).

(** [[a-zA-Z0-9_.\[\]()<>=!\s]], the receiver class of the [BeTrue] and
    [BeFalse] rules of fix_complex_should.py. *)
Definition recv_wide : cset :=
  CSet false ([(97, 122); (65, 90); (48, 57); (95, 95); (46, 46); (91, 91); (93, 93);
               (40, 40); (41, 41); (60, 60); (62, 62); (61, 61); (33, 33)] ++ space_ranges).

(** ** Buffers of fluent calls and texts of quoted tokens *)

(** The assertions fix_all_should.py has a rule for, in the order of its
    rules. *)
Inductive method : Type :=
| NotBeNull | BeNull | Be | BeTrue | BeFalse | Contain | NotContain | HaveCount
| BeEmpty | NotBeEmpty | BeGreaterThan | BeLessThan | BeGreaterOrEqualTo
| StartWith | EndWith | BeEquivalentTo | NotBe.

Definition methods : list method :=
  [NotBeNull; BeNull; Be; BeTrue; BeFalse; Contain; NotContain; HaveCount;
   BeEmpty; NotBeEmpty; BeGreaterThan; BeLessThan; BeGreaterOrEqualTo;
   StartWith; EndWith; BeEquivalentTo; NotBe].

Definition method_name (m : method) : string :=
  match m with
  | NotBeNull => "NotBeNull" | BeNull => "BeNull" | Be => "Be"
  | BeTrue => "BeTrue" | BeFalse => "BeFalse" | Contain => "Contain"
  | NotContain => "NotContain" | HaveCount => "HaveCount" | BeEmpty => "BeEmpty"
  | NotBeEmpty => "NotBeEmpty" | BeGreaterThan => "BeGreaterThan"
  | BeLessThan => "BeLessThan" | BeGreaterOrEqualTo => "BeGreaterOrEqualTo"
  | StartWith => "StartWith" | EndWith => "EndWith"
  | BeEquivalentTo => "BeEquivalentTo" | NotBe => "NotBe"
  end.

(** The rule for [m] has the argument group [([^)]+)]. *)
Definition takes_argument (m : method) : bool :=
  match m with
  | NotBeNull | BeNull | BeTrue | BeFalse | BeEmpty | NotBeEmpty => false
  | _ => true
  end.

(** The literal text of the rule for [m]: [.Should().M(], and [.Should().M()]
    for a rule without argument. *)
Definition rule_text (m : method) : string :=
  ".Should()." ++ method_name m ++ (if takes_argument m then "(" else "()").

(** The call [r.Should().M(v)]; a call without argument has no [v]. *)
Definition fluent (r : string) (m : method) (v : string) : string :=
  r ++ rule_text m ++ (if takes_argument m then v ++ ")" else "").

(** The text the template of the rule for [m] gives for receiver [r] and
    argument [v]. *)
Definition assertion (m : method) (r v : string) : string :=
  match m with
  | NotBeNull => "Assert.NotNull(" ++ r ++ ")"
  | BeNull => "Assert.Null(" ++ r ++ ")"
  | Be => "Assert.Equal(" ++ v ++ ", " ++ r ++ ")"
  | BeTrue => "Assert.True(" ++ r ++ ")"
  | BeFalse => "Assert.False(" ++ r ++ ")"
  | Contain => "Assert.Contains(" ++ v ++ ", " ++ r ++ ")"
  | NotContain => "Assert.DoesNotContain(" ++ v ++ ", " ++ r ++ ")"
  | HaveCount => "Assert.Equal(" ++ v ++ ", " ++ r ++ ".Count)"
  | BeEmpty => "Assert.Empty(" ++ r ++ ")"
  | NotBeEmpty => "Assert.NotEmpty(" ++ r ++ ")"
  | BeGreaterThan => "Assert.True(" ++ r ++ " > " ++ v ++ ")"
  | BeLessThan => "Assert.True(" ++ r ++ " < " ++ v ++ ")"
  | BeGreaterOrEqualTo => "Assert.True(" ++ r ++ " >= " ++ v ++ ")"
  | StartWith => "Assert.StartsWith(" ++ v ++ ", " ++ r ++ ")"
  | EndWith => "Assert.EndsWith(" ++ v ++ ", " ++ r ++ ")"
  | BeEquivalentTo => "Assert.Equal(" ++ v ++ ", " ++ r ++ ")"
  | NotBe => "Assert.NotEqual(" ++ v ++ ", " ++ r ++ ")"
  end.

(** A text that no rule of fix_all_should.py applies to: it holds none of
    the rule texts and no [.Assert.].  It may hold [.Should()], in a call
    the script has no rule for. *)
Definition quiet (q : string) : bool :=
  negb (contains ".Assert." q)
  && forallb (fun m => negb (contains (rule_text m) q)) methods.

(** A receiver of the receiver grammar without a fluent call or an
    assertion of its own. *)
Definition plain_receiver (r : string) : bool :=
  is_recv ident_start recv_char r
  && negb (contains ".Should()" r) && negb (contains ".Assert" r).

(** An argument the group [([^)]+)] takes whole. *)
Definition plain_argument (m : method) (v : string) : bool :=
  if takes_argument m
  then negb (String.eqb v "") && negb (has_char ")" v) && negb (contains ".Assert." v)
  else true.

(** A piece of a buffer: a text the rules pass over, or one fluent call. *)
Inductive chunk : Type :=
| Plain (q : string)
| Fluent (r : string) (m : method) (v : string).

Definition chunk_text (k : chunk) : string :=
  match k with
  | Plain q => q
  | Fluent r m v => fluent r m v
  end.

Definition chunk_ok (k : chunk) : bool :=
  match k with
  | Plain q => quiet q
  | Fluent r m v => plain_receiver r && plain_argument m v
  end.

(** A buffer: pieces, each followed by one separating character, and a last
    piece. *)
Fixpoint buffer (front : list (chunk * ascii)) (last : chunk) : string :=
  match front with
  | [] => chunk_text last
  | (k, c) :: front' => chunk_text k ++ String c (buffer front' last)
  end.

(** The pieces are as above and the separating characters stand outside
    the receiver class (a blank, a line break, [;], [=], a quote, ...). *)
Definition buffer_ok (front : list (chunk * ascii)) (last : chunk) : bool :=
  forallb (fun kc => chunk_ok (fst kc) && negb (in_cset recv_char (snd kc))) front
  && chunk_ok last.

(** The rule for [m0] applied to a piece. *)
Definition method_eqb (a b : method) : bool :=
  String.eqb (method_name a) (method_name b).

Definition step (m0 : method) (k : chunk) : chunk :=
  match k with
  | Plain q => Plain q
  | Fluent r m v => if method_eqb m m0 then Plain (assertion m r v) else Fluent r m v
  end.

(** Every call of a piece rewritten. *)
Definition settle (k : chunk) : chunk :=
  match k with
  | Plain q => Plain q
  | Fluent r m v => Plain (assertion m r v)
  end.

Definition on_pieces (g : chunk -> chunk) (front : list (chunk * ascii))
  : list (chunk * ascii) :=
  map (fun kc => (g (fst kc), snd kc)) front.

(** A stretch of text between quoted tokens: it may hold double quotes, but
    no two in a row and none in front of a colon. *)
Definition loose_text (s : string) : bool :=
  negb (contains (dq ++ dq) s) && negb (contains (dq ++ ":") s).

(** A stretch and the token behind it; the token is non-empty and holds no
    double quote. *)
Definition loose_item (sk : string * string) : bool :=
  loose_text (fst sk) && negb (has_char DQ (snd sk)) && negb (String.eqb (snd sk) "").

(** * Properties *)

(** ** Strings *)

Lemma append_nil_r (s : string) : s ++ "" = s.
Proof. induction s; simpl; congruence. Qed.

Lemma append_assoc (a b c : string) : (a ++ b) ++ c = a ++ (b ++ c).
Proof. induction a; simpl; congruence. Qed.

Lemma length_append (a b : string) :
  String.length (a ++ b) = String.length a + String.length b.
Proof. induction a; simpl; congruence. Qed.

Lemma take_app (u s : string) :
  take (String.length (u ++ s) - String.length s) (u ++ s) = u.
Proof.
  rewrite length_append.
  replace (String.length u + String.length s - String.length s)
    with (String.length u) by lia.
  induction u; simpl.
  - destruct s; reflexivity.
  - congruence.
Qed.

Lemma starts_with_app (p s : string) : starts_with p (p ++ s) = true.
Proof. induction p; simpl; [reflexivity|]. now rewrite Ascii.eqb_refl. Qed.

Lemma starts_with_inv (p s : string) :
  starts_with p s = true -> exists t, s = p ++ t.
Proof.
  revert s; induction p as [|a p IH]; intros s H; simpl in *.
  - now exists s.
  - destruct s as [|b s]; [discriminate|].
    apply andb_true_iff in H as [Hab H].
    apply Ascii.eqb_eq in Hab; subst b.
    destruct (IH _ H) as [t ->]. now exists t.
Qed.

Lemma starts_with_left (p q s : string) :
  starts_with (p ++ q) s = true -> starts_with p s = true.
Proof.
  revert s; induction p as [|a p IH]; intros s H; simpl in *; [reflexivity|].
  destruct s as [|b s]; [discriminate|].
  apply andb_true_iff in H as [-> H]. simpl. eauto.
Qed.

(** A prefix test on [w ++ S] either succeeds inside [w] or runs over its
    end. *)
Lemma starts_with_app_inv (L w S : string) :
  starts_with L (w ++ S) = true ->
  (exists w2, w = L ++ w2) \/ (exists L2, L = w ++ L2 /\ starts_with L2 S = true).
Proof.
  revert w; induction L as [|a L IH]; intros w H.
  - left. now exists w.
  - destruct w as [|b w]; simpl in H.
    + right. exists (String a L). split; [reflexivity|exact H].
    + apply andb_true_iff in H as [Hab H].
      apply Ascii.eqb_eq in Hab; subst b.
      destruct (IH _ H) as [[w2 ->]|[L2 [-> H2]]].
      * left. now exists w2.
      * right. now exists L2.
Qed.

Lemma contains_app_r (p a s : string) :
  contains p s = true -> contains p (a ++ s) = true.
Proof.
  intros H; induction a as [|c a IH]; simpl; [exact H|].
  rewrite IH. apply orb_true_r.
Qed.

Lemma contains_intro (p a b : string) : contains p (a ++ p ++ b) = true.
Proof.
  apply contains_app_r. destruct (p ++ b) eqn:E; simpl.
  - destruct p; [reflexivity|discriminate].
  - rewrite <- E, starts_with_app. reflexivity.
Qed.

Lemma contains_inv (p s : string) :
  contains p s = true -> exists a b, s = a ++ p ++ b.
Proof.
  induction s as [|c s IH]; simpl; intros H.
  - rewrite orb_false_r in H. apply starts_with_inv in H as [t ->].
    now exists "", t.
  - apply orb_true_iff in H as [H|H].
    + apply starts_with_inv in H as [t ->]. now exists "", t.
    + destruct (IH H) as (a & b & ->). now exists (String c a), b.
Qed.

Lemma contains_false_tail (p : string) (c : ascii) (s : string) :
  contains p (String c s) = false -> contains p s = false.
Proof. simpl. intros H. now apply orb_false_iff in H. Qed.

Lemma contains_false_head (p s : string) :
  contains p s = false -> starts_with p s = false.
Proof. destruct s; simpl; intros H; now apply orb_false_iff in H. Qed.

Lemma contains_false_app_r (p a s : string) :
  contains p (a ++ s) = false -> contains p s = false.
Proof.
  intros H. destruct (contains p s) eqn:E; [|reflexivity].
  now rewrite (contains_app_r _ a _ E) in H.
Qed.

Lemma contains_false_app_l (p a s : string) :
  contains p (a ++ s) = false -> contains p a = false.
Proof.
  intros H. destruct (contains p a) eqn:E; [|reflexivity].
  apply contains_inv in E as (x & y & ->).
  now rewrite !append_assoc, contains_intro in H.
Qed.

(** A text that lacks a piece of [L] lacks [L]. *)
Lemma contains_part (a K b s : string) :
  contains K s = false -> contains (a ++ K ++ b) s = false.
Proof.
  intros H. destruct (contains (a ++ K ++ b) s) eqn:E; [|reflexivity].
  apply contains_inv in E as (x & y & ->).
  rewrite !append_assoc in H. rewrite <- (append_assoc x a) in H.
  now rewrite contains_intro in H.
Qed.

Lemma has_char_app (c : ascii) (a b : string) :
  has_char c (a ++ b) = has_char c a || has_char c b.
Proof. induction a; simpl; [reflexivity|]. now rewrite IHa, orb_assoc. Qed.

(** A text without the character [c] holds no string that has [c]. *)
Lemma contains_needs_char (c : ascii) (L s : string) :
  has_char c L = true -> has_char c s = false -> contains L s = false.
Proof.
  intros HL Hs. destruct (contains L s) eqn:E; [|reflexivity].
  apply contains_inv in E as (x & y & ->).
  rewrite !has_char_app, HL in Hs. now rewrite orb_true_r in Hs.
Qed.

(** Across a character that [L] does not have, [L] lies on one side. *)
Lemma contains_sep (c : ascii) (L u v : string) :
  has_char c L = false ->
  contains L u = false -> contains L v = false ->
  contains L (u ++ String c v) = false.
Proof.
  intros Hc Hu Hv. induction u as [|d u IH]; simpl.
  - rewrite Hv, orb_false_r.
    destruct L as [|a L]; [now destruct v|]. simpl in *.
    apply orb_false_iff in Hc as [Hc _].
    now rewrite Ascii.eqb_sym, Hc.
  - rewrite IH by (eapply contains_false_tail; eauto).
    rewrite orb_false_r.
    destruct (starts_with L (String d (u ++ String c v))) eqn:E; [|reflexivity].
    change (String d (u ++ String c v)) with (String d u ++ String c v) in E.
    apply starts_with_app_inv in E as [[w2 E]|[L2 [E E2]]].
    + apply contains_false_head in Hu. now rewrite E, starts_with_app in Hu.
    + apply contains_false_head in Hu.
      destruct L2 as [|e L2].
      * rewrite append_nil_r in E. subst L.
        pose proof (starts_with_app (String d u) "") as Q.
        rewrite append_nil_r in Q. congruence.
      * simpl in E2. apply andb_true_iff in E2 as [E2 _].
        apply Ascii.eqb_eq in E2. subst e L.
        rewrite has_char_app in Hc. simpl in Hc.
        rewrite Ascii.eqb_refl in Hc. simpl in Hc.
        now rewrite orb_true_r in Hc.
Qed.

(** ** The matcher *)

Lemma rep_greedy_eq (cs : cset) (q : pattern) (s : string) (st : mstate) :
  re_match (Rep true cs :: q) s st =
  match match s with
        | String d s' => if in_cset cs d then re_match (Rep true cs :: q) s' st else None
        | "" => None
        end with
  | Some r => Some r
  | None => re_match q s st
  end.
Proof. destruct s; reflexivity. Qed.

Lemma rep_lazy_eq (cs : cset) (q : pattern) (s : string) (st : mstate) :
  re_match (Rep false cs :: q) s st =
  match re_match q s st with
  | Some r => Some r
  | None =>
      match s with
      | String d s' => if in_cset cs d then re_match (Rep false cs :: q) s' st else None
      | "" => None
      end
  end.
Proof. destruct s; reflexivity. Qed.

Lemma strip_inv (t s s' : string) : strip t s = Some s' -> s = t ++ s'.
Proof.
  revert s; induction t as [|a t IH]; intros s H; simpl in *.
  - congruence.
  - destruct s as [|b s]; [discriminate|].
    destruct (Ascii.eqb_spec a b); [|discriminate].
    subst. f_equal. auto.
Qed.

(** A match of [pre ++ q] holds a match of [q] further on in the text. *)
Lemma re_match_cont (pre q : pattern) :
  forall s st r, re_match (pre ++ q)%list s st = Some r ->
  exists u s1 st1, s = u ++ s1 /\ re_match q s1 st1 = Some r.
Proof.
  induction pre as [|i pre IH]; intros s st r H.
  - exists "", s, st. auto.
  - destruct i as [c|cs|g cs|n|n|n]; simpl app in H.
    + simpl in H. destruct s as [|d s]; [discriminate|].
      destruct (Ascii.eqb c d); [|discriminate].
      destruct (IH _ _ _ H) as (u & s1 & st1 & -> & H1).
      exists (String d u), s1, st1. auto.
    + simpl in H. destruct s as [|d s]; [discriminate|].
      destruct (in_cset cs d); [|discriminate].
      destruct (IH _ _ _ H) as (u & s1 & st1 & -> & H1).
      exists (String d u), s1, st1. auto.
    + revert H. induction s as [|d s IHs]; intros H.
      * destruct g; [rewrite rep_greedy_eq in H|rewrite rep_lazy_eq in H].
        -- destruct (IH _ _ _ H) as (u & s1 & st1 & E & H1). eauto.
        -- destruct (re_match (pre ++ q)%list "" st) eqn:E; [|discriminate].
           injection H as <-.
           destruct (IH _ _ _ E) as (u & s1 & st1 & E1 & H1). eauto.
      * assert (Hs : re_match (Rep g cs :: pre ++ q)%list s st = Some r ->
                     exists u s1 st1, String d s = u ++ s1 /\ re_match q s1 st1 = Some r).
        { intros H'. destruct (IHs H') as (u & s1 & st1 & -> & H1).
          exists (String d u), s1, st1. auto. }
        destruct g; [rewrite rep_greedy_eq in H|rewrite rep_lazy_eq in H].
        -- destruct (in_cset cs d).
           ++ destruct (re_match (Rep true cs :: pre ++ q)%list s st) eqn:E.
              ** injection H as <-. auto.
              ** eauto.
           ++ eauto.
        -- destruct (re_match (pre ++ q)%list (String d s) st) eqn:E.
           ++ injection H as <-. eauto.
           ++ destruct (in_cset cs d); [auto|discriminate].
    + simpl in H. eauto.
    + simpl in H. eauto.
    + simpl in H. destruct (lookup n (closed st)) as [t|]; [|discriminate].
      destruct (strip t s) as [s'|] eqn:E; [|discriminate].
      apply strip_inv in E. subst s.
      destruct (IH _ _ _ H) as (u & s1 & st1 & -> & H1).
      exists (t ++ u), s1, st1. rewrite append_assoc. auto.
Qed.

Lemma re_match_lits (L : string) (q : pattern) (s : string) (st : mstate) :
  re_match (lits L ++ q)%list (L ++ s) st = re_match q s st.
Proof.
  induction L as [|c L IH]; simpl; [reflexivity|].
  now rewrite Ascii.eqb_refl.
Qed.

Lemma re_match_lits_inv (L : string) (q : pattern) (s : string) (st : mstate) r :
  re_match (lits L ++ q)%list s st = Some r ->
  exists s1, s = L ++ s1 /\ re_match q s1 st = Some r.
Proof.
  revert s; induction L as [|c L IH]; intros s H; simpl in *.
  - eauto.
  - destruct s as [|d s]; [discriminate|].
    destruct (Ascii.eqb_spec c d); [|discriminate]. subst d.
    destruct (IH _ H) as (s1 & -> & H1). eauto.
Qed.

Lemma lits_at_inv (L : string) (p : pattern) :
  lits_at L p = true -> exists post, p = (lits L ++ post)%list.
Proof.
  revert p; induction L as [|c L IH]; intros p H; simpl in *.
  - eauto.
  - destruct p as [|[d|?|? ?|?|?|?] p]; try discriminate.
    apply andb_true_iff in H as [E H]. apply Ascii.eqb_eq in E. subst d.
    destruct (IH _ H) as [post ->]. eauto.
Qed.

Lemma requires_inv (L : string) (p : pattern) :
  requires L p = true -> exists pre post, p = (pre ++ lits L ++ post)%list.
Proof.
  induction p as [|i p IH]; simpl; intros H.
  - rewrite orb_false_r in H. apply lits_at_inv in H as [post ->].
    now exists [], post.
  - apply orb_true_iff in H as [H|H].
    + apply lits_at_inv in H as [post ->]. now exists [], post.
    + destruct (IH H) as (pre & post & ->). now exists (i :: pre), post.
Qed.

(** A pattern that holds the literal [L] matches only where [L] follows. *)
Lemma requires_match (L : string) (p : pattern) (s : string) (st : mstate) r :
  requires L p = true -> re_match p s st = Some r -> contains L s = true.
Proof.
  intros HL H. apply requires_inv in HL as (pre & post & ->).
  apply re_match_cont in H as (u & s1 & st1 & -> & H).
  apply re_match_lits_inv in H as (s2 & -> & _).
  apply contains_intro.
Qed.

Lemma no_match (L : string) (p : pattern) (s : string) (st : mstate) :
  requires L p = true -> contains L s = false -> re_match p s st = None.
Proof.
  intros HL Hs. destruct (re_match p s st) eqn:E; [|reflexivity].
  now rewrite (requires_match _ _ _ _ _ HL E) in Hs.
Qed.

(** ** [re.sub] *)

Lemma sub_from_skip (p : pattern) (t : list titem) (u s : string) :
  sub_from p t (String.length u) (u ++ s) = sub_from p t 0 s.
Proof. induction u; simpl; auto. Qed.

Lemma sub_from_none (p : pattern) (t : list titem) (c : ascii) (s : string) :
  re_match p (String c s) mstate0 = None ->
  sub_from p t 0 (String c s) = String c (sub_from p t 0 s).
Proof. intros H. simpl. now rewrite H. Qed.

Lemma sub_from_eq (p : pattern) (t : list titem) (c : ascii) (s : string) :
  sub_from p t 0 (String c s) =
  match re_match p (String c s) mstate0 with
  | Some (rest, st) =>
      expand t (closed st) ++
      match String.length (String c s) - String.length rest with
      | O => String c (sub_from p t 0 s)
      | S k => sub_from p t k s
      end
  | None => String c (sub_from p t 0 s)
  end.
Proof. reflexivity. Qed.

(** A match of a non-empty text [u] at the head is replaced, and the scan
    resumes behind it. *)
Lemma sub_from_fire (p : pattern) (t : list titem) (u s : string) (st : mstate) :
  u <> "" ->
  re_match p (u ++ s) mstate0 = Some (s, st) ->
  sub_from p t 0 (u ++ s) = expand t (closed st) ++ sub_from p t 0 s.
Proof.
  intros Hu H. destruct u as [|c u]; [congruence|].
  simpl append in *. rewrite sub_from_eq, H. f_equal.
  replace (String.length (String c (u ++ s)) - String.length s)
    with (S (String.length u))
    by (change (String.length (String c (u ++ s))) with (S (String.length (u ++ s)));
        rewrite length_append; lia).
  apply sub_from_skip.
Qed.

(** The text in front of the first match is copied. *)
Lemma sub_from_copy (p : pattern) (t : list titem) (pre s : string) :
  (forall w1 w2, pre = w1 ++ w2 -> w2 <> "" -> re_match p (w2 ++ s) mstate0 = None) ->
  sub_from p t 0 (pre ++ s) = pre ++ sub_from p t 0 s.
Proof.
  induction pre as [|c pre IH]; intros H; [reflexivity|].
  simpl append. rewrite sub_from_none.
  - f_equal. apply IH. intros w1 w2 E. apply (H (String c w1)). simpl. now f_equal.
  - apply (H "" (String c pre)); [reflexivity|discriminate].
Qed.

(** Where the literal of a rule is absent the rule changes nothing. *)
Lemma sub_from_id (L : string) (p : pattern) (t : list titem) (s : string) :
  requires L p = true -> contains L s = false -> sub_from p t 0 s = s.
Proof.
  intros HL. induction s as [|c s IH]; intros Hs.
  - simpl. now rewrite (no_match _ _ _ _ HL Hs).
  - rewrite sub_from_none by (now apply (no_match L)).
    f_equal. apply IH. eapply contains_false_tail; eauto.
Qed.

Lemma re_sub_id (L pat repl s : string) :
  requires L (compile pat) = true -> contains L s = false -> re_sub pat repl s = s.
Proof. intros. unfold re_sub. eapply sub_from_id; eauto. Qed.

(** ** Repetitions and groups *)

(** A lazy repetition passes over [v] when the rest of the pattern fails at
    every point inside [v]. *)
Lemma lazy_run (cs : cset) (q : pattern) (v s : string) (st : mstate) :
  all_in cs v = true ->
  (forall w1 w2, v = w1 ++ w2 -> w2 <> "" -> re_match q (w2 ++ s) st = None) ->
  re_match (Rep false cs :: q) (v ++ s) st = re_match (Rep false cs :: q) s st.
Proof.
  induction v as [|c v IH]; intros Hv Hf; [reflexivity|].
  simpl in Hv. apply andb_true_iff in Hv as [Hc Hv].
  simpl append. rewrite rep_lazy_eq.
  assert (H0 : re_match q (String c (v ++ s)) st = None)
    by (apply (Hf "" (String c v)); [reflexivity|discriminate]).
  rewrite H0, Hc. apply IH; [exact Hv|].
  intros w1 w2 E. apply (Hf (String c w1)). simpl. now f_equal.
Qed.

Lemma lazy_stop (cs : cset) (q : pattern) (s : string) (st : mstate) res :
  re_match q s st = Some res -> re_match (Rep false cs :: q) s st = Some res.
Proof. intros H. now rewrite rep_lazy_eq, H. Qed.

(** A greedy repetition takes all of [v] when the text stops being in the
    class behind [v] and the rest of the pattern matches there. *)
Lemma greedy_run (cs : cset) (q : pattern) (v s : string) (st : mstate) res :
  all_in cs v = true -> stops cs s = true ->
  re_match q s st = Some res ->
  re_match (Rep true cs :: q) (v ++ s) st = Some res.
Proof.
  intros Hv Hs H. induction v as [|c v IH].
  - simpl append. rewrite rep_greedy_eq, H.
    destruct s as [|d s]; [reflexivity|].
    simpl in Hs. apply negb_true_iff in Hs. now rewrite Hs.
  - simpl in Hv. apply andb_true_iff in Hv as [Hc Hv].
    simpl append. rewrite rep_greedy_eq, Hc, (IH Hv). reflexivity.
Qed.

Lemma close_open (n : nat) (u s : string) (st : mstate) :
  close_group n s (open_group n (u ++ s) st) = captured n u s st.
Proof.
  unfold close_group, open_group, captured. simpl.
  now rewrite Nat.eqb_refl, take_app.
Qed.

Lemma lazy_group_run (n : nat) (a b : cset) (q : pattern) (r s : string)
      (st : mstate) res :
  is_recv a b r = true ->
  (forall w1 w2 st', r = w1 ++ w2 -> w1 <> "" -> w2 <> "" ->
                     re_match (Close n :: q) (w2 ++ s) st' = None) ->
  re_match q s (captured n r s st) = Some res ->
  re_match (lazy_group n a b ++ q)%list (r ++ s) st = Some res.
Proof.
  intros Hr Hf H. destruct r as [|c r]; [discriminate|].
  simpl in Hr. apply andb_true_iff in Hr as [Hc Hr].
  unfold lazy_group. simpl app.
  change (re_match (Open n :: Set_ a :: Rep false b :: Close n :: q) (String c r ++ s) st)
    with (if in_cset a c
          then re_match (Rep false b :: Close n :: q) (r ++ s)
                        (open_group n (String c r ++ s) st)
          else None).
  rewrite Hc, lazy_run.
  - apply lazy_stop.
    change (re_match q s (close_group n s (open_group n (String c r ++ s) st)) = Some res).
    now rewrite close_open.
  - exact Hr.
  - intros w1 w2 E Hw. apply (Hf (String c w1)); [simpl; now f_equal|discriminate|exact Hw].
Qed.

Lemma plus_group_run (n : nat) (c : cset) (q : pattern) (v s : string)
      (st : mstate) res :
  v <> "" -> all_in c v = true -> stops c s = true ->
  re_match q s (captured n v s st) = Some res ->
  re_match (plus_group n c ++ q)%list (v ++ s) st = Some res.
Proof.
  intros Hne Hv Hs H. destruct v as [|d v]; [congruence|].
  simpl in Hv. apply andb_true_iff in Hv as [Hd Hv].
  unfold plus_group. simpl app.
  change (re_match (Open n :: Set_ c :: Rep true c :: Close n :: q) (String d v ++ s) st)
    with (if in_cset c d
          then re_match (Rep true c :: Close n :: q) (v ++ s)
                        (open_group n (String d v ++ s) st)
          else None).
  rewrite Hd. apply greedy_run; [exact Hv|exact Hs|].
  change (re_match q s (close_group n s (open_group n (String d v ++ s) st)) = Some res).
  now rewrite close_open.
Qed.

(** ** Where a literal can stand *)

Lemma starts_with_short (L K T : string) :
  starts_with L (K ++ T) = true -> String.length L <= String.length K ->
  starts_with L K = true.
Proof.
  revert K; induction L as [|a L IH]; intros K H Hlen; [reflexivity|].
  destruct K as [|b K]; simpl in *; [lia|].
  apply andb_true_iff in H as [-> H]. simpl. apply IH; [exact H|lia].
Qed.

Lemma no_border_inv (K t x y : string) :
  no_border K t = true -> t = x ++ y -> y <> "" -> starts_with y K = false.
Proof.
  revert t; induction x as [|d x IH]; intros t H E Hy; simpl in E; subst t.
  - destruct y; [congruence|]. simpl in H.
    apply andb_true_iff in H as [H _]. now apply negb_true_iff in H.
  - simpl in H. apply andb_true_iff in H as [_ H]. eapply IH; eauto.
Qed.

(** In front of an occurrence of [K], a text without [K] cannot make [K]
    start earlier, as [K] does not overlap itself. *)
Lemma anchor (K w T : string) :
  unbordered K = true -> contains K w = false ->
  starts_with K (w ++ K ++ T) = true -> w = "".
Proof.
  intros HK Hw H. destruct w as [|c w]; [reflexivity|exfalso].
  apply starts_with_app_inv in H as [[w2 E]|[L2 [E H2]]].
  - apply contains_false_head in Hw. now rewrite E, starts_with_app in Hw.
  - destruct L2 as [|e L2].
    + rewrite append_nil_r in E. subst K.
      apply contains_false_head in Hw.
      pose proof (starts_with_app (String c w) "") as Q.
      rewrite append_nil_r in Q. congruence.
    + subst K. simpl in HK.
      apply starts_with_short in H2.
      * change (String c w ++ String e L2) with (String c (w ++ String e L2)) in H2.
        rewrite (no_border_inv _ _ w (String e L2) HK eq_refl) in H2;
          [discriminate|discriminate].
      * change (String c w ++ String e L2) with (String c (w ++ String e L2)).
        simpl. rewrite length_append. simpl. lia.
Qed.

(** The lazy receiver group in front of the literal [K]: a receiver that
    does not hold [K] is captured whole. *)
Lemma lazy_group_anchor (n : nat) (a b : cset) (K : string) (q : pattern)
      (r s : string) (st : mstate) res :
  is_recv a b r = true -> unbordered K = true -> contains K r = false ->
  re_match q s (captured n r (K ++ s) st) = Some res ->
  re_match (lazy_group n a b ++ lits K ++ q)%list (r ++ K ++ s) st = Some res.
Proof.
  intros Hr HK Hc H. apply lazy_group_run; [exact Hr| |now rewrite re_match_lits].
  intros w1 w2 st' E _ Hw.
  destruct (re_match (Close n :: lits K ++ q)%list (w2 ++ K ++ s) st') eqn:M;
    [exfalso|reflexivity].
  change (re_match (lits K ++ q)%list (w2 ++ K ++ s) (close_group n (w2 ++ K ++ s) st')
          = Some p) in M.
  apply re_match_lits_inv in M as (s1 & E1 & _).
  assert (S : starts_with K (w2 ++ K ++ s) = true)
    by (rewrite E1; apply starts_with_app).
  apply anchor in S; [congruence|exact HK|].
  subst r. eapply contains_false_app_r; eauto.
Qed.

(** The lazy group in front of a literal character that its class lacks. *)
Lemma lazy_group_char (n : nat) (a b : cset) (k : ascii) (q : pattern)
      (r s : string) (st : mstate) res :
  is_recv a b r = true -> in_cset b k = false ->
  re_match q s (captured n r (String k s) st) = Some res ->
  re_match (lazy_group n a b ++ Lit k :: q)%list (r ++ String k s) st = Some res.
Proof.
  intros Hr Hk H. apply lazy_group_run; [exact Hr| |simpl; now rewrite Ascii.eqb_refl].
  intros w1 w2 st' E Hw1 Hw2.
  destruct w2 as [|d w2]; [congruence|].
  assert (Hd : in_cset b d = true).
  { subst r. destruct w1 as [|c w1]; [congruence|]. simpl in Hr.
    apply andb_true_iff in Hr as [_ Hr]. clear -Hr.
    induction w1 as [|e w1 IH]; simpl in Hr; apply andb_true_iff in Hr as [Hd Hr]; auto. }
  simpl. destruct (Ascii.eqb_spec k d); [congruence|reflexivity].
Qed.

Lemma append_eq_char (c : ascii) (a u v : string) :
  a ++ String c "" = u ++ String c v -> has_char c a = false -> v = "".
Proof.
  revert u; induction a as [|e a IH]; intros u E H; simpl in *.
  - destruct u as [|d u]; simpl in E; [congruence|].
    injection E as _ E. destruct u; discriminate.
  - apply orb_false_iff in H as [He H].
    destruct u as [|d u]; simpl in E.
    + injection E as E _. subst. now rewrite Ascii.eqb_refl in He.
    + injection E as _ E. eauto.
Qed.

(** In [a ++ c], with no [c] in [a], nothing can follow a [c]. *)
Lemma contains_char_end (c : ascii) (L1 L2 a : string) :
  has_char c a = false -> L2 <> "" ->
  contains (L1 ++ String c L2) (a ++ String c "") = false.
Proof.
  intros Ha HL.
  destruct (contains (L1 ++ String c L2) (a ++ String c "")) eqn:E;
    [exfalso|reflexivity].
  apply contains_inv in E as (x & y & E).
  rewrite append_assoc in E. simpl in E. rewrite <- append_assoc in E.
  apply append_eq_char in E; [|exact Ha].
  destruct L2; [congruence|discriminate].
Qed.

Lemma append_eq_snoc (c : ascii) (r u v : string) :
  r ++ String c "" = u ++ v ->
  (v = "" /\ u = r ++ String c "") \/ (exists v', v = v' ++ String c "" /\ r = u ++ v').
Proof.
  revert u; induction r as [|e r IH]; intros u E; simpl in E.
  - destruct u as [|d u]; simpl in E.
    + right. exists "". auto.
    + injection E as <- E. destruct u; [|discriminate]. simpl in E. subst v. auto.
  - destruct u as [|d u]; simpl in E.
    + right. exists (String e r). auto.
    + injection E as <- E. destruct (IH _ E) as [[-> ->]|(v' & -> & ->)].
      * auto.
      * right. exists v'. auto.
Qed.

Lemma snoc_inj (a b : string) (c d : ascii) :
  a ++ String d "" = b ++ String c "" -> d = c.
Proof.
  revert b; induction a as [|e a IH]; intros b E; simpl in E.
  - destruct b as [|f b]; simpl in E; [congruence|].
    injection E as _ E. destruct b; discriminate.
  - destruct b as [|f b]; simpl in E.
    + injection E as _ E. destruct a; discriminate.
    + injection E as _ E. eauto.
Qed.

(** A literal that does not end in [c] does not end at a final [c]. *)
Lemma contains_snoc (c : ascii) (L1 : string) (d : ascii) (r : string) :
  Ascii.eqb d c = false ->
  contains (L1 ++ String d "") r = false ->
  contains (L1 ++ String d "") (r ++ String c "") = false.
Proof.
  intros Hd Hr.
  destruct (contains (L1 ++ String d "") (r ++ String c "")) eqn:E;
    [exfalso|reflexivity].
  apply contains_inv in E as (x & y & E).
  apply append_eq_snoc in E as [[E _]|(v' & E & ->)].
  - destruct L1; discriminate.
  - symmetry in E. apply append_eq_snoc in E as [[-> E]|(y' & -> & ->)].
    + symmetry in E. apply snoc_inj in E. subst.
      now rewrite Ascii.eqb_refl in Hd.
    + now rewrite contains_intro in Hr.
Qed.

Lemma contains_anchor (K M X T : string) :
  unbordered K = true -> contains K X = false ->
  contains (K ++ M) (K ++ T) = false ->
  contains (K ++ M) (X ++ K ++ T) = false.
Proof.
  intros HK HX HT. induction X as [|c X IH]; [exact HT|].
  simpl append. simpl contains. rewrite IH by (eapply contains_false_tail; eauto).
  rewrite orb_false_r.
  destruct (starts_with (K ++ M) (String c (X ++ K ++ T))) eqn:E; [|reflexivity].
  apply starts_with_left in E.
  change (String c (X ++ K ++ T)) with (String c X ++ K ++ T) in E.
  apply anchor in E; [discriminate|exact HK|exact HX].
Qed.

(** ** Character classes *)

Lemma in_single_neg (c d : ascii) :
  in_cset (CSet true [(nat_of_ascii c, nat_of_ascii c)]) d = negb (Ascii.eqb c d).
Proof.
  unfold in_cset, in_ranges. simpl. rewrite orb_false_r.
  destruct (Ascii.eqb_spec c d) as [->|N].
  - now rewrite Nat.leb_refl.
  - destruct (Nat.leb_spec (nat_of_ascii c) (nat_of_ascii d)); [|reflexivity].
    destruct (Nat.leb_spec (nat_of_ascii d) (nat_of_ascii c)); [|reflexivity].
    exfalso. apply N.
    rewrite <- (ascii_nat_embedding c), <- (ascii_nat_embedding d). f_equal. lia.
Qed.

Lemma all_in_without (c : ascii) (a : string) :
  has_char c a = false -> all_in (CSet true [(nat_of_ascii c, nat_of_ascii c)]) a = true.
Proof.
  induction a as [|d a IH]; simpl; intros H; [reflexivity|].
  apply orb_false_iff in H as [H1 H2].
  now rewrite in_single_neg, H1, IH.
Qed.

(** A text in a class has no character from outside the class. *)
Lemma all_in_lacks (cs : cset) (c : ascii) (s : string) :
  in_cset cs c = false -> all_in cs s = true -> has_char c s = false.
Proof.
  intros Hc. induction s as [|d s IH]; simpl; intros H; [reflexivity|].
  apply andb_true_iff in H as [Hd H]. rewrite (IH H), orb_false_r.
  destruct (Ascii.eqb_spec c d); [congruence|reflexivity].
Qed.

Lemma is_recv_lacks (a b : cset) (c : ascii) (r : string) :
  in_cset a c = false -> in_cset b c = false -> is_recv a b r = true ->
  has_char c r = false.
Proof.
  intros Ha Hb. destruct r as [|d r]; [discriminate|]. simpl. intros H.
  apply andb_true_iff in H as [Hd H]. rewrite (all_in_lacks _ _ _ Hb H), orb_false_r.
  destruct (Ascii.eqb_spec c d); [congruence|reflexivity].
Qed.

Lemma is_recv_nonempty (a b : cset) (X : string) : is_recv a b X = true -> X <> "".
Proof. destruct X; discriminate. Qed.

(** ** Rules that fire *)

Lemma re_sub_empty (pat repl : string) :
  re_match (compile pat) "" mstate0 = None -> re_sub pat repl "" = "".
Proof. intros H. unfold re_sub. simpl. now rewrite H. Qed.

Lemma re_sub_fire (pat repl u s : string) (st : mstate) :
  u <> "" -> re_match (compile pat) (u ++ s) mstate0 = Some (s, st) ->
  re_sub pat repl (u ++ s) = expand (template repl) (closed st) ++ re_sub pat repl s.
Proof. intros. unfold re_sub. now apply sub_from_fire. Qed.

(** The rule shape [(recv)K]: a lazy receiver group and a literal. *)
Lemma fire_recv (pat repl K : string) (a b : cset) (X tail : string) :
  compile pat = (lazy_group 1 a b ++ lits K ++ [])%list ->
  is_recv a b X = true -> unbordered K = true -> contains K X = false ->
  re_sub pat repl (X ++ K ++ tail)
  = expand (template repl) [(1, X)] ++ re_sub pat repl tail.
Proof.
  intros Hp HX HK HKX.
  replace (X ++ K ++ tail) with ((X ++ K) ++ tail) by apply append_assoc.
  rewrite (re_sub_fire pat repl (X ++ K) tail (captured 1 X (K ++ tail) mstate0)).
  - reflexivity.
  - apply is_recv_nonempty in HX. destruct X; [congruence|discriminate].
  - rewrite Hp, append_assoc. now apply lazy_group_anchor.
Qed.

(** The rule shape [(recv)K[c]*\)]: the argument is matched and dropped. *)
Lemma fire_recv_star (pat repl K : string) (a b c : cset) (X v tail : string) :
  compile pat = (lazy_group 1 a b ++ lits K ++ [Rep true c; Lit ")"%char])%list ->
  is_recv a b X = true -> unbordered K = true -> contains K X = false ->
  all_in c v = true -> in_cset c ")" = false ->
  re_sub pat repl (X ++ K ++ v ++ String ")" tail)
  = expand (template repl) [(1, X)] ++ re_sub pat repl tail.
Proof.
  intros Hp HX HK HKX Hv Hc.
  replace (X ++ K ++ v ++ String ")" tail) with ((X ++ K ++ v ++ ")") ++ tail)
    by (now rewrite !append_assoc).
  rewrite (re_sub_fire pat repl (X ++ K ++ v ++ ")") tail
                       (captured 1 X (K ++ v ++ String ")" tail) mstate0)).
  - reflexivity.
  - apply is_recv_nonempty in HX. destruct X; [congruence|discriminate].
  - rewrite Hp, !append_assoc. apply lazy_group_anchor; try assumption.
    apply greedy_run; [assumption|simpl; now rewrite Hc|].
    simpl. reflexivity.
Qed.

(** The rule shape [(recv)K([c]+)\)]: receiver and argument are captured. *)
Lemma fire_recv_plus (pat repl K : string) (a b c : cset) (X v tail : string) :
  compile pat = (lazy_group 1 a b ++ lits K ++ plus_group 2 c ++ [Lit ")"%char])%list ->
  is_recv a b X = true -> unbordered K = true -> contains K X = false ->
  v <> "" -> all_in c v = true -> in_cset c ")" = false ->
  re_sub pat repl (X ++ K ++ v ++ String ")" tail)
  = expand (template repl) [(2, v); (1, X)] ++ re_sub pat repl tail.
Proof.
  intros Hp HX HK HKX Hne Hv Hc.
  replace (X ++ K ++ v ++ String ")" tail) with ((X ++ K ++ v ++ ")") ++ tail)
    by (now rewrite !append_assoc).
  rewrite (re_sub_fire pat repl (X ++ K ++ v ++ ")") tail
             (captured 2 v (String ")" tail)
                (captured 1 X (K ++ v ++ String ")" tail) mstate0))).
  - reflexivity.
  - apply is_recv_nonempty in HX. destruct X; [congruence|discriminate].
  - rewrite Hp, !append_assoc. apply lazy_group_anchor; try assumption.
    apply plus_group_run; [assumption|assumption|simpl; now rewrite Hc|].
    simpl. reflexivity.
Qed.

(** ** Tactics for a pipeline *)

(** Drop the rule applied to [s]: its longest literal is absent from [s],
    which [tac] proves. *)
Ltac skip_on s tac :=
  match goal with
  | |- context [re_sub ?pat ?repl s] =>
      let L := eval vm_compute in (longest_lits (compile pat)) in
      rewrite (re_sub_id L pat repl s) by (first [exact eq_refl | tac L])
  end.

(** Drop the rules applied to [s] that hold the literal [L], absent from
    [s] by [H]. *)
Ltac skip_all L s H :=
  repeat (rewrite (re_sub_id L _ _ s) by (first [exact eq_refl | exact H])).

(** Name the text the innermost rule is applied to. *)
Ltac name_buffer id :=
  match goal with
  | |- context [re_sub _ _ (String ?c ?r)] => set (id := String c r)
  end.

(** ** More on where a literal can stand *)

Lemma split_first (c : ascii) (L1 L2 w L2' : string) :
  L1 ++ String c L2 = w ++ L2' -> has_char c w = false -> has_char c L1 = false ->
  exists z, L1 = w ++ z /\ L2' = z ++ String c L2.
Proof.
  revert L1; induction w as [|e w IH]; intros L1 E Hw HL; simpl in *.
  - exists L1. auto.
  - apply orb_false_iff in Hw as [He Hw].
    destruct L1 as [|d L1]; simpl in *.
    + injection E as E _. subst. now rewrite Ascii.eqb_refl in He.
    + apply orb_false_iff in HL as [_ HL].
      injection E as -> E. destruct (IH _ E Hw HL) as (z & -> & ->).
      exists z. auto.
Qed.

(** Behind a text [a] without [c], a literal whose first [c] is at a known
    place has that [c] on the [c] after [a], or stands further on. *)
Lemma contains_first_char (c : ascii) (L1 L2 a rest : string) :
  has_char c a = false -> has_char c L1 = false ->
  starts_with L2 rest = false ->
  contains (L1 ++ String c L2) rest = false ->
  contains (L1 ++ String c L2) (a ++ String c rest) = false.
Proof.
  intros Ha HL H2 Hr. induction a as [|e a IH].
  - simpl append. simpl contains. rewrite Hr, orb_false_r.
    destruct L1 as [|d L1]; simpl in *.
    + now rewrite Ascii.eqb_refl, H2.
    + apply orb_false_iff in HL as [HL _]. now rewrite Ascii.eqb_sym, HL.
  - simpl append. simpl contains.
    simpl in Ha. pose proof Ha as Ha'. apply orb_false_iff in Ha' as [He Ha'].
    rewrite (IH Ha'), orb_false_r.
    destruct (starts_with (L1 ++ String c L2) (String e (a ++ String c rest))) eqn:E;
      [exfalso|reflexivity].
    change (String e (a ++ String c rest)) with (String e a ++ String c rest) in E.
    apply starts_with_app_inv in E as [[w2 E]|(L2' & E & E2)].
    + assert (Q : has_char c (String e a) = true).
      { rewrite E, !has_char_app. simpl. rewrite Ascii.eqb_refl.
        now rewrite orb_true_r. }
      simpl in Q. congruence.
    + apply split_first in E as (z & -> & ->); [|exact Ha|exact HL].
      destruct z as [|d z]; simpl in E2.
      * rewrite Ascii.eqb_refl in E2. simpl in E2. congruence.
      * apply andb_true_iff in E2 as [E2 _]. apply Ascii.eqb_eq in E2. subst d.
        rewrite has_char_app in HL. simpl in HL. rewrite Ascii.eqb_refl in HL.
        simpl in HL. now rewrite orb_true_r in HL.
Qed.

(** [contains_sep] with one more character in front of the separator. *)
Lemma contains_sep2 (c d : ascii) (L u v : string) :
  has_char c L = false ->
  contains L (u ++ String d "") = false -> contains L v = false ->
  contains L (u ++ String d (String c v)) = false.
Proof.
  intros Hc Hu Hv.
  change (u ++ String d (String c v)) with (u ++ (String d "" ++ String c v)).
  rewrite <- append_assoc. now apply contains_sep.
Qed.

(** [[a-zA-Z0-9_.\[\]()]] lies inside [[a-zA-Z0-9_.\[\]()!]]. *)
Lemma recv_char_bang (c : ascii) :
  in_cset recv_char c = true -> in_cset recv_bang c = true.
Proof.
  unfold in_cset, recv_char, recv_bang, in_ranges. simpl.
  intros H. repeat (apply orb_true_iff in H as [H|H]; [rewrite H; now rewrite ?orb_true_r|]).
  discriminate.
Qed.

Lemma is_recv_bang (r : string) :
  is_recv ident_start recv_char r = true -> is_recv ident_start recv_bang r = true.
Proof.
  destruct r as [|c r]; [discriminate|]. simpl. intros H.
  apply andb_true_iff in H as [-> H]. simpl.
  induction r as [|d r IH]; [reflexivity|]. simpl in *.
  apply andb_true_iff in H as [Hd H]. now rewrite (recv_char_bang _ Hd), IH.
Qed.

(** The rule shape [(recv)K1([c]+)K2]. *)
Lemma fire_recv_mid (pat repl K1 K2 : string) (a b c : cset) (X v tail : string) :
  compile pat = (lazy_group 1 a b ++ lits K1 ++ plus_group 2 c ++ lits K2 ++ [])%list ->
  is_recv a b X = true -> unbordered K1 = true -> contains K1 X = false ->
  v <> "" -> all_in c v = true -> stops c (K2 ++ tail) = true ->
  re_sub pat repl (X ++ K1 ++ v ++ K2 ++ tail)
  = expand (template repl) [(2, v); (1, X)] ++ re_sub pat repl tail.
Proof.
  intros Hp HX HK HKX Hne Hv Hc.
  replace (X ++ K1 ++ v ++ K2 ++ tail) with ((X ++ K1 ++ v ++ K2) ++ tail)
    by (now rewrite !append_assoc).
  rewrite (re_sub_fire pat repl (X ++ K1 ++ v ++ K2) tail
             (captured 2 v (K2 ++ tail)
                (captured 1 X (K1 ++ v ++ K2 ++ tail) mstate0))).
  - reflexivity.
  - apply is_recv_nonempty in HX. destruct X; [congruence|discriminate].
  - rewrite Hp, !append_assoc. apply lazy_group_anchor; try assumption.
    apply plus_group_run; [assumption|assumption|assumption|].
    now rewrite re_match_lits.
Qed.

(** The shape of the correction rules: [(ident)K([^,]+), (ident)\)]. *)
Lemma fire_correction (pat repl K : string) (X a Y tail : string) :
  compile pat = (lazy_group 1 ident_start ident_char ++ lits K ++ plus_group 2 not_comma
                 ++ lits ", " ++ lazy_group 3 ident_start ident_char
                 ++ [Lit ")"%char])%list ->
  is_recv ident_start ident_char X = true ->
  unbordered K = true -> contains K X = false ->
  a <> "" -> has_char "," a = false ->
  is_recv ident_start ident_char Y = true ->
  re_sub pat repl (X ++ K ++ a ++ ", " ++ Y ++ String ")" tail)
  = expand (template repl) [(3, Y); (2, a); (1, X)] ++ re_sub pat repl tail.
Proof.
  intros Hp HX HK HKX Hne Ha HY.
  replace (X ++ K ++ a ++ ", " ++ Y ++ String ")" tail)
    with ((X ++ K ++ a ++ ", " ++ Y ++ ")") ++ tail)
    by (now rewrite !append_assoc).
  rewrite (re_sub_fire pat repl (X ++ K ++ a ++ ", " ++ Y ++ ")") tail
             (captured 3 Y (String ")" tail)
                (captured 2 a (", " ++ Y ++ String ")" tail)
                   (captured 1 X (K ++ a ++ ", " ++ Y ++ String ")" tail) mstate0)))).
  - reflexivity.
  - apply is_recv_nonempty in HX. destruct X; [congruence|discriminate].
  - rewrite Hp, !append_assoc. apply lazy_group_anchor; try assumption.
    apply plus_group_run; [assumption|apply (all_in_without ","), Ha|reflexivity|].
    rewrite re_match_lits.
    apply (lazy_group_char 3 ident_start ident_char ")" []); [assumption|reflexivity|].
    reflexivity.
Qed.

(** ** The patterns as compiled, and the scenarios of the specification *)

Example compile_be :
  compile "([a-zA-Z_][a-zA-Z0-9_.\[\]()]*?)\.Should\(\)\.Be\(([^)]+)\)"
  = (lazy_group 1 ident_start recv_char ++ lits ".Should().Be("
       ++ plus_group 2 not_paren ++ [Lit ")"%char])%list.
Proof. reflexivity. Qed.

Example compile_correction :
  compile "([a-zA-Z_][a-zA-Z0-9_]*?)\.Assert\.Contains\(([^,]+), ([a-zA-Z_][a-zA-Z0-9_]*?)\)"
  = (lazy_group 1 ident_start ident_char ++ lits ".Assert.Contains("
       ++ plus_group 2 not_comma ++ lits ", "
       ++ lazy_group 3 ident_start ident_char ++ [Lit ")"%char])%list.
Proof. reflexivity. Qed.

Example scenario_not_null :
  FixAllShould.fix_all_should_patterns "result.Should().NotBeNull();"
  = "Assert.NotNull(result);".
Proof. vm_compute. reflexivity. Qed.

Example scenario_have_count :
  FixAllShould.fix_all_should_patterns "list.Should().HaveCount(3);"
  = "Assert.Equal(3, list.Count);".
Proof. vm_compute. reflexivity. Qed.

Example scenario_greater_or_equal :
  FixAllShould.fix_all_should_patterns "value.Should().BeGreaterOrEqualTo(10);"
  = "Assert.True(value >= 10);".
Proof. vm_compute. reflexivity. Qed.

Example scenario_doubled_quotes :
  ReplaceAllQuotes.replace_double_quotes_comprehensive
    (dq ++ dq ++ "id" ++ dq ++ dq ++ ": " ++ dq ++ dq ++ "start" ++ dq ++ dq)
  = "'id': 'start'".
Proof. vm_compute. reflexivity. Qed.

Example scenario_back_reference :
  FixRemainingShould.fix_remaining_patterns
    "(counterVal is Newtonsoft.Json.Linq.JValue jv ? jv.ToObject<int>() : (int)(counterVal ?? 0)).Should().Be(2)"
  = "Assert.Equal(2, counterVal is Newtonsoft.Json.Linq.JValue jv ? jv.ToObject<int>() : (int)(counterVal ?? 0))".
Proof. vm_compute. reflexivity. Qed.

(** ** Buffers without the marker of a pipeline *)

Lemma all_id (content : string) :
  contains ".Should()" content = false -> contains ".Assert." content = false ->
  FixAllShould.fix_all_should_patterns content = content.
Proof.
  intros H1 H2. unfold FixAllShould.fix_all_should_patterns. cbv zeta.
  skip_all ".Should()" content H1. skip_all ".Assert." content H2. reflexivity.
Qed.

Lemma complex_id (content : string) :
  contains ".Should()" content = false ->
  FixComplexShould.fix_complex_should_patterns content = content.
Proof.
  intros H. unfold FixComplexShould.fix_complex_should_patterns. cbv zeta.
  skip_all ".Should()" content H. reflexivity.
Qed.

Lemma final_id (content : string) :
  contains ".Should()" content = false ->
  FixFinalShould.fix_all_should_patterns content = content.
Proof.
  intros H. unfold FixFinalShould.fix_all_should_patterns. cbv zeta.
  skip_all ".Should()" content H. reflexivity.
Qed.

Lemma remaining_id (content : string) :
  contains ".Should()" content = false ->
  FixRemainingShould.fix_remaining_patterns content = content.
Proof.
  intros H. unfold FixRemainingShould.fix_remaining_patterns. cbv zeta.
  skip_all ".Should()" content H. reflexivity.
Qed.

(** Both rules of replace_quotes.py need a double quote. *)
Lemma quotes_id (content : string) :
  has_char DQ content = false ->
  ReplaceQuotes.replace_double_quotes_in_json content = content.
Proof.
  intros H. assert (H' : contains dq content = false)
    by (apply (contains_needs_char DQ); [reflexivity|exact H]).
  unfold ReplaceQuotes.replace_double_quotes_in_json. cbv zeta.
  skip_all dq content H'. reflexivity.
Qed.

(** *** [str.replace], [split] and [join] on texts without the old text *)

Lemma replace_id (old new s : string) :
  contains old s = false -> replace old new s = s.
Proof.
  unfold replace. induction s as [|c s IH]; intros H.
  - simpl. simpl in H. rewrite orb_false_r in H. now rewrite H.
  - change (replace_from old new 0 (String c s))
      with (if starts_with old (String c s)
            then new ++ match String.length old with
                        | O => String c (replace_from old new 0 s)
                        | S k => replace_from old new k s
                        end
            else String c (replace_from old new 0 s)).
    rewrite (contains_false_head _ _ H), IH; [reflexivity|].
    eapply contains_false_tail; eauto.
Qed.

Lemma split_from_nonempty (sep : ascii) (cur s : string) : split_from sep cur s <> [].
Proof.
  revert cur; induction s as [|c s IH]; intros cur; simpl; [discriminate|].
  destruct (Ascii.eqb c sep); [discriminate|apply IH].
Qed.

Lemma join_cons (sep p : string) (rest : list string) :
  rest <> [] -> join sep (p :: rest) = p ++ sep ++ join sep rest.
Proof. destruct rest; [congruence|reflexivity]. Qed.

Lemma join_split_from (sep : ascii) (cur s : string) :
  join (String sep "") (split_from sep cur s) = cur ++ s.
Proof.
  revert cur; induction s as [|c s IH]; intros cur; simpl.
  - now rewrite append_nil_r.
  - destruct (Ascii.eqb_spec c sep) as [->|N].
    + rewrite join_cons by apply split_from_nonempty. now rewrite IH.
    + rewrite IH, append_assoc. reflexivity.
Qed.

(** Every line of a text is a part of the text. *)
Lemma split_from_part (sep : ascii) (cur s l : string) :
  In l (split_from sep cur s) -> exists a b, cur ++ s = a ++ l ++ b.
Proof.
  revert cur; induction s as [|c s IH]; intros cur H; simpl in H.
  - destruct H as [<-|[]]. exists "", "". now rewrite !append_nil_r.
  - destruct (Ascii.eqb c sep).
    + destruct H as [<-|H].
      * exists "", (String c s). reflexivity.
      * destruct (IH _ H) as (a & b & E). simpl in E.
        exists (cur ++ String c a), b. rewrite E, append_assoc. reflexivity.
    + destruct (IH _ H) as (a & b & E). exists a, b.
      rewrite <- E, append_assoc. reflexivity.
Qed.

Lemma split_line_lacks (L s l : string) :
  contains L s = false -> In l (split LF s) -> contains L l = false.
Proof.
  intros H Hl. apply split_from_part in Hl as (a & b & E). simpl in E. subst s.
  apply contains_false_app_r in H. now apply contains_false_app_l in H.
Qed.

Lemma fix_line_id (line : string) :
  contains (dq ++ dq) line = false ->
  contains ReplaceAllQuotes.TEMP_ESCAPED line = false ->
  ReplaceAllQuotes.fix_line line = line.
Proof.
  intros H1 H2. unfold ReplaceAllQuotes.fix_line.
  destruct (existsb _ _); [|reflexivity]. cbv zeta.
  rewrite (replace_id (bsl ++ dq ++ dq))
    by (apply (contains_part bsl (dq ++ dq) ""), H1).
  rewrite (replace_id (dq ++ dq)) by exact H1.
  now rewrite replace_id.
Qed.

Lemma all_quotes_id (content : string) :
  contains (dq ++ dq) content = false ->
  contains ReplaceAllQuotes.TEMP_ESCAPED content = false ->
  ReplaceAllQuotes.replace_double_quotes_comprehensive content = content.
Proof.
  intros H1 H2. unfold ReplaceAllQuotes.replace_double_quotes_comprehensive. cbv zeta.
  rewrite (map_ext_in _ (fun l => l)).
  - rewrite map_id. apply (join_split_from LF "" content).
  - intros l Hl. apply fix_line_id; eapply split_line_lacks; eauto.
Qed.

(** C2, as stated, fails for the quote pipelines: the second rule of
    replace_quotes.py rewrites a text without any doubled quote, and
    replace_all_quotes.py rewrites a marked line that holds its own
    sentinel.  The check in front of them decides the result. *)
Lemma precheck_gates_quotes :
  ~ (forall b, contains (dq ++ dq) b = false ->
               ReplaceQuotes.replace_double_quotes_in_json b = b) /\
  ~ (forall b, contains (dq ++ dq) b = false ->
               ReplaceAllQuotes.replace_double_quotes_comprehensive b = b).
Proof.
  split; intros H.
  - specialize (H (dq ++ "k" ++ dq ++ ": " ++ dq ++ "v" ++ dq) eq_refl).
    vm_compute in H. discriminate.
  - specialize (H "json __TEMP_ESCAPED__" eq_refl).
    vm_compute in H. discriminate.
Qed.

(** C2 (amended): for the fluent-assertion pipelines the check is a
    short-cut: a buffer without [.Should()] (and, for fix_all_should.py,
    without [.Assert.]) is returned unchanged.  For replace_all_quotes.py
    this holds of a buffer that has neither a doubled quote nor the
    sentinel [__TEMP_ESCAPED__]; for replace_quotes.py the check decides
    the result. *)
Theorem precheck_is_shortcut (content text : string) :
  contains ".Should()" content = false ->
  contains (dq ++ dq) text = false ->
  contains ReplaceAllQuotes.TEMP_ESCAPED text = false ->
  (contains ".Assert." content = false ->
   FixAllShould.fix_all_should_patterns content = content) /\
  FixComplexShould.fix_complex_should_patterns content = content /\
  FixFinalShould.fix_all_should_patterns content = content /\
  ReplaceAllQuotes.replace_double_quotes_comprehensive text = text.
Proof.
  intros H1 H2 H3. split; [intros H4; now apply all_id|].
  split; [now apply complex_id|]. split; [now apply final_id|].
  now apply all_quotes_id.
Qed.

Lemma precheck_is_shortcut_witness :
  contains ".Should()" "Assert.NotNull(result);" = false /\
  contains (dq ++ dq) "var json = 1;" = false /\
  contains ReplaceAllQuotes.TEMP_ESCAPED "var json = 1;" = false /\
  (contains ".Assert." "Assert.NotNull(result);" = false ->
   FixAllShould.fix_all_should_patterns "Assert.NotNull(result);"
   = "Assert.NotNull(result);") /\
  FixComplexShould.fix_complex_should_patterns "Assert.NotNull(result);"
  = "Assert.NotNull(result);" /\
  FixFinalShould.fix_all_should_patterns "Assert.NotNull(result);"
  = "Assert.NotNull(result);" /\
  ReplaceAllQuotes.replace_double_quotes_comprehensive "var json = 1;" = "var json = 1;".
Proof.
  split; [reflexivity|]. split; [reflexivity|]. split; [reflexivity|].
  apply (precheck_is_shortcut "Assert.NotNull(result);" "var json = 1;"); reflexivity.
Defined.

(** ** Running a pipeline twice *)

(** C1, as stated, fails: a chained fluent call is rewritten once per run,
    and the second rule of replace_quotes.py can make a new match for the
    first. *)
Lemma second_run_changes_output :
  ~ (forall x, FixAllShould.fix_all_should_patterns
                 (FixAllShould.fix_all_should_patterns x)
               = FixAllShould.fix_all_should_patterns x) /\
  ~ (forall x, ReplaceQuotes.replace_double_quotes_in_json
                 (ReplaceQuotes.replace_double_quotes_in_json x)
               = ReplaceQuotes.replace_double_quotes_in_json x).
Proof.
  split; intros H.
  - specialize (H "a.Should().NotBeNull().Should().NotBeNull()").
    vm_compute in H. discriminate.
  - specialize (H (dq ++ dq ++ " " ++ dq ++ "a" ++ dq ++ ":" ++ dq ++ "b" ++ dq
                      ++ " " ++ dq ++ dq)).
    vm_compute in H. discriminate.
Qed.

(** ** The sentinel of replace_all_quotes.py *)

Lemma replace_from_skip (old new u s : string) :
  replace_from old new (String.length u) (u ++ s) = replace_from old new 0 s.
Proof. induction u; simpl; auto. Qed.

Lemma replace_from_eq (old new : string) (c : ascii) (s : string) :
  replace_from old new 0 (String c s) =
  if starts_with old (String c s)
  then new ++ match String.length old with
              | O => String c (replace_from old new 0 s)
              | S k => replace_from old new k s
              end
  else String c (replace_from old new 0 s).
Proof. reflexivity. Qed.

(** An occurrence at the head is replaced. *)
Lemma replace_hit (old new s : string) :
  old <> "" -> replace old new (old ++ s) = new ++ replace old new s.
Proof.
  unfold replace. intros H. destruct old as [|c old]; [congruence|].
  simpl append. rewrite replace_from_eq.
  change (String c (old ++ s)) with (String c old ++ s).
  rewrite starts_with_app. simpl String.length. f_equal. apply replace_from_skip.
Qed.

(** A text inside which no occurrence starts is copied. *)
Lemma replace_copy (old new seg rest : string) :
  (forall w1 w2, seg = w1 ++ w2 -> w2 <> "" -> starts_with old (w2 ++ rest) = false) ->
  replace old new (seg ++ rest) = seg ++ replace old new rest.
Proof.
  unfold replace. induction seg as [|c seg IH]; intros H; [reflexivity|].
  simpl append. rewrite replace_from_eq.
  change (String c (seg ++ rest)) with (String c seg ++ rest).
  rewrite (H "" (String c seg) eq_refl) by discriminate.
  f_equal. apply IH. intros w1 w2 E. apply (H (String c w1)). simpl. now f_equal.
Qed.

Lemma replace_join (old new : string) (segs : list string) :
  old <> "" -> Forall (clean old) segs ->
  replace old new (join old segs) = join new segs.
Proof.
  intros Ho H. induction H as [|s segs Hs H IH]; simpl.
  - unfold replace. simpl. destruct old; [congruence|reflexivity].
  - destruct segs as [|s' segs].
    + rewrite <- (append_nil_r s) at 1. rewrite replace_copy.
      * unfold replace. simpl. destruct old; [congruence|]. simpl.
        now rewrite append_nil_r.
      * intros w1 w2 E Hw. apply (Hs w1 w2 "" E Hw). now left.
    + rewrite replace_copy.
      * now rewrite replace_hit, IH.
      * intros w1 w2 E Hw. apply (Hs w1 w2 _ E Hw). right. apply starts_with_app.
Qed.

Lemma has_char_suffix (c : ascii) (w1 w2 : string) :
  has_char c (w1 ++ w2) = false -> has_char c w2 = false.
Proof. rewrite has_char_app. intros H. now apply orb_false_iff in H. Qed.

(** Inside a text without a double quote no escaped doubled quote starts:
    the character after the backslash is not a double quote. *)
Lemma clean_escaped (seg : string) :
  has_char DQ seg = false -> clean (bsl ++ dq ++ dq) seg.
Proof.
  intros H w1 w2 rest E Hw Hr. subst seg. apply has_char_suffix in H.
  destruct w2 as [|c w2]; [congruence|].
  change (has_char DQ (String c w2)) with (Ascii.eqb DQ c || has_char DQ w2) in H.
  apply orb_false_iff in H as [_ H].
  change (Ascii.eqb BSL c && starts_with (dq ++ dq) (w2 ++ rest) = false).
  apply andb_false_iff. right.
  destruct w2 as [|d w2].
  - destruct Hr as [->|Hr]; [reflexivity|].
    destruct rest as [|e rest]; [reflexivity|].
    change (Ascii.eqb BSL e && starts_with (dq ++ dq) rest = true) in Hr.
    apply andb_true_iff in Hr as [Hr _]. apply Ascii.eqb_eq in Hr. subst e.
    reflexivity.
  - change (has_char DQ (String d w2)) with (Ascii.eqb DQ d || has_char DQ w2) in H.
    apply orb_false_iff in H as [H _].
    change (Ascii.eqb DQ d && starts_with dq (w2 ++ rest) = false).
    now rewrite H.
Qed.

(** Inside a text without an underscore no sentinel starts. *)
Lemma clean_sentinel (seg : string) :
  has_char "_" seg = false -> clean ReplaceAllQuotes.TEMP_ESCAPED seg.
Proof.
  intros H w1 w2 rest E Hw _. subst seg. apply has_char_suffix in H.
  destruct w2 as [|c w2]; [congruence|]. simpl in H.
  apply orb_false_iff in H as [H _]. simpl. now rewrite H.
Qed.

Lemma has_char_join (c : ascii) (sep : string) (segs : list string) :
  has_char c sep = false -> Forall (fun s => has_char c s = false) segs ->
  has_char c (join sep segs) = false.
Proof.
  intros Hs H. induction H as [|s segs H1 H IH]; [reflexivity|].
  simpl. destruct segs as [|s' segs]; [exact H1|].
  now rewrite !has_char_app, H1, Hs, IH.
Qed.

Lemma split_no_sep (sep : ascii) (cur s : string) :
  has_char sep s = false -> split_from sep cur s = [cur ++ s].
Proof.
  revert cur; induction s as [|c s IH]; intros cur H; simpl.
  - now rewrite append_nil_r.
  - simpl in H. apply orb_false_iff in H as [Hc H].
    rewrite Ascii.eqb_sym, Hc, IH by exact H. now rewrite append_assoc.
Qed.

Lemma plain_segment_inv (s : string) :
  plain_segment s = true ->
  has_char DQ s = false /\ has_char "_" s = false /\ has_char LF s = false.
Proof.
  unfold plain_segment. intros H.
  apply andb_true_iff in H as [H H3]. apply andb_true_iff in H as [H1 H2].
  apply negb_true_iff in H1, H2, H3. auto.
Qed.

Lemma plain_segments (segs : list string) :
  forallb plain_segment segs = true ->
  Forall (fun s => has_char DQ s = false) segs /\
  Forall (fun s => has_char "_" s = false) segs /\
  Forall (fun s => has_char LF s = false) segs.
Proof.
  induction segs as [|s segs IH]; simpl; intros H; [auto|].
  apply andb_true_iff in H as [Hs H]. apply plain_segment_inv in Hs as (A & B & C).
  destruct (IH H) as (IA & IB & IC). auto.
Qed.

(** The line of the segments [segs] with an escaped doubled quote between
    them: every such quote comes out one double quote shorter. *)
Lemma fix_line_escaped (segs : list string) :
  forallb plain_segment segs = true -> 2 <= List.length segs ->
  ReplaceAllQuotes.fix_line (join (bsl ++ dq ++ dq) segs) = join (bsl ++ dq) segs.
Proof.
  intros H Hlen. apply plain_segments in H as (HQ & HU & _).
  unfold ReplaceAllQuotes.fix_line.
  assert (C : contains (dq ++ dq) (join (bsl ++ dq ++ dq) segs) = true).
  { destruct segs as [|s0 [|s1 segs]]; simpl in Hlen; try lia.
    change (join (bsl ++ dq ++ dq) (s0 :: s1 :: segs))
      with (s0 ++ (bsl ++ dq ++ dq) ++ join (bsl ++ dq ++ dq) (s1 :: segs)).
    replace (s0 ++ (bsl ++ dq ++ dq) ++ join (bsl ++ dq ++ dq) (s1 :: segs))
      with ((s0 ++ bsl) ++ (dq ++ dq) ++ join (bsl ++ dq ++ dq) (s1 :: segs))
      by (now rewrite !append_assoc).
    apply contains_intro. }
  assert (E : existsb (fun pattern => contains pattern (join (bsl ++ dq ++ dq) segs))
                      ReplaceAllQuotes.markers = true).
  { unfold ReplaceAllQuotes.markers.
    change (contains (dq ++ dq) (join (bsl ++ dq ++ dq) segs)
            || existsb (fun pattern => contains pattern (join (bsl ++ dq ++ dq) segs))
                 ["@" ++ dq; "json"; "script"; "Script"; "stateMachine"] = true).
    now rewrite C. }
  rewrite E. cbv zeta.
  rewrite replace_join;
    [ | discriminate
      | eapply Forall_impl; [|exact HQ]; intros s Hs; now apply clean_escaped ].
  rewrite (replace_id (dq ++ dq)).
  - apply replace_join; [discriminate|].
    eapply Forall_impl; [|exact HU]. intros s Hs. now apply clean_sentinel.
  - apply (contains_needs_char DQ); [reflexivity|].
    apply has_char_join; [reflexivity|exact HQ].
Qed.

(** C3: what replace_all_quotes.py does to escaped quotes.  On a line of
    segments free of double quotes, underscores and line breaks, joined by
    the escaped doubled quote (backslash, quote, quote), every escaped
    quote comes out as backslash and one quote: the sentinel is restored
    to a shorter text than the one it stood for, and the line is changed. *)
Theorem escaped_quote_is_shortened (segs : list string) :
  forallb plain_segment segs = true -> 2 <= List.length segs ->
  ReplaceAllQuotes.replace_double_quotes_comprehensive (join (bsl ++ dq ++ dq) segs)
  = join (bsl ++ dq) segs.
Proof.
  intros H Hlen. unfold ReplaceAllQuotes.replace_double_quotes_comprehensive. cbv zeta.
  unfold split. rewrite split_no_sep.
  - simpl. now apply fix_line_escaped.
  - apply has_char_join; [reflexivity|]. now apply plain_segments in H.
Qed.

Lemma escaped_quote_is_shortened_witness :
  forallb plain_segment ["json = x"; "y"] = true /\
  2 <= List.length ["json = x"; "y"] /\
  ReplaceAllQuotes.replace_double_quotes_comprehensive
    (join (bsl ++ dq ++ dq) ["json = x"; "y"])
  = join (bsl ++ dq) ["json = x"; "y"] /\
  join (bsl ++ dq) ["json = x"; "y"] <> join (bsl ++ dq ++ dq) ["json = x"; "y"].
Proof.
  split; [reflexivity|]. split; [simpl; lia|].
  split; [apply (escaped_quote_is_shortened ["json = x"; "y"]); [reflexivity|simpl; lia]|].
  discriminate.
Defined.

(** ** [Be]: the argument ends at the first closing parenthesis *)

(** No rule in front of the firing one matches [X.Should().T a)], where [T]
    starts the name of the firing rule and [a] has no [)]. *)
Ltac absent_before X a HK Ha T L :=
  let M := eval vm_compute in (drop 9 L) in
  apply (contains_anchor ".Should()" M X (T ++ a ++ ")")); [reflexivity|exact HK|];
  simpl; apply (contains_char_end ")" ".Should(" M); [exact Ha|discriminate].

(** The output [Assert.M(v, r)] holds no [.Should().]. *)
Lemma output_no_should (v r : string) :
  has_char ")" v = false -> contains ".Should()" r = false ->
  contains ".Should()." (v ++ ", " ++ r ++ ")") = false.
Proof.
  intros Hv Hr. apply (contains_sep "," ".Should()." v); [reflexivity| |].
  - now apply (contains_needs_char ")").
  - simpl. apply (contains_snoc ")" ".Should()" "."); [reflexivity|].
    apply (contains_part "" ".Should()" "."), Hr.
Qed.

(** The output [Assert.M(v, r)] holds no [.Assert.]. *)
Lemma output_no_assert (v r : string) :
  contains ".Assert." v = false -> contains ".Assert." r = false ->
  contains ".Assert." (v ++ ", " ++ r ++ ")") = false.
Proof.
  intros Hv Hr. apply (contains_sep "," ".Assert." v); [reflexivity|exact Hv|].
  simpl. now apply (contains_sep ")" ".Assert." r "").
Qed.

Lemma all_be (r v : string) :
  is_recv ident_start recv_char r = true ->
  contains ".Should()" r = false -> contains ".Assert." r = false ->
  v <> "" -> has_char ")" v = false -> contains ".Assert." v = false ->
  FixAllShould.fix_all_should_patterns (r ++ ".Should().Be(" ++ v ++ ")")
  = "Assert.Equal(" ++ v ++ ", " ++ r ++ ")".
Proof.
  intros Hr HK HA Hne Hv HAv. unfold FixAllShould.fix_all_should_patterns. cbv zeta.
  set (B := r ++ ".Should().Be(" ++ v ++ ")").
  do 2 skip_on B ltac:(fun L => unfold B; absent_before r v HK Hv ".Be(" L).
  unfold B.
  rewrite (fire_recv_plus _ _ ".Should().Be(" ident_start recv_char not_paren r v "");
    [ | reflexivity | exact Hr | reflexivity
      | apply (contains_part "" ".Should()" ".Be("), HK
      | exact Hne | apply (all_in_without ")"), Hv | reflexivity ].
  rewrite re_sub_empty by reflexivity. simpl expand. rewrite append_nil_r.
  name_buffer Out.
  assert (HO : contains ".Should()." Out = false)
    by (unfold Out; simpl; now apply output_no_should).
  assert (HO' : contains ".Assert." Out = false)
    by (unfold Out; simpl; now apply output_no_assert).
  skip_all ".Should()." Out HO. skip_all ".Assert." Out HO'. reflexivity.
Qed.

Lemma complex_be (r v : string) :
  is_recv ident_start recv_bang r = true ->
  contains ".Should()" r = false ->
  v <> "" -> has_char ")" v = false ->
  FixComplexShould.fix_complex_should_patterns (r ++ ".Should().Be(" ++ v ++ ")")
  = "Assert.Equal(" ++ v ++ ", " ++ r ++ ")".
Proof.
  intros Hr HK Hne Hv. unfold FixComplexShould.fix_complex_should_patterns. cbv zeta.
  set (B := r ++ ".Should().Be(" ++ v ++ ")").
  rewrite (re_sub_id ".Should().BeTrue()" _ _ B)
    by (first [exact eq_refl | unfold B; absent_before r v HK Hv ".Be(" ".Should().BeTrue()"]).
  rewrite (re_sub_id ".Should().BeFalse()" _ _ B)
    by (first [exact eq_refl | unfold B; absent_before r v HK Hv ".Be(" ".Should().BeFalse()"]).
  do 4 skip_on B ltac:(fun L => unfold B; absent_before r v HK Hv ".Be(" L).
  unfold B.
  rewrite (fire_recv_plus _ _ ".Should().Be(" ident_start recv_bang not_paren r v "");
    [ | reflexivity | exact Hr | reflexivity
      | apply (contains_part "" ".Should()" ".Be("), HK
      | exact Hne | apply (all_in_without ")"), Hv | reflexivity ].
  rewrite re_sub_empty by reflexivity. simpl expand. rewrite append_nil_r.
  name_buffer Out.
  assert (HO : contains ".Should()." Out = false)
    by (unfold Out; simpl; now apply output_no_should).
  skip_all ".Should()." Out HO. reflexivity.
Qed.

(** C6, as stated, fails: the argument class is [[^)]+], so the match
    closes at the first [)] of a nested call. *)
Lemma be_argument_nested_call :
  FixAllShould.fix_all_should_patterns ("r" ++ ".Should().Be(" ++ "Foo(1)" ++ ")")
  = "Assert.Equal(Foo(1, r))" /\
  FixComplexShould.fix_complex_should_patterns ("r" ++ ".Should().Be(" ++ "Foo(1)" ++ ")")
  = "Assert.Equal(Foo(1, r))" /\
  FixAllShould.fix_all_should_patterns ("r" ++ ".Should().Be(" ++ "Foo(1)" ++ ")")
  <> "Assert.Equal(" ++ "Foo(1)" ++ ", " ++ "r" ++ ")" /\
  FixComplexShould.fix_complex_should_patterns ("r" ++ ".Should().Be(" ++ "Foo(1)" ++ ")")
  <> "Assert.Equal(" ++ "Foo(1)" ++ ", " ++ "r" ++ ")".
Proof.
  assert (E1 : FixAllShould.fix_all_should_patterns
                 ("r" ++ ".Should().Be(" ++ "Foo(1)" ++ ")")
               = "Assert.Equal(Foo(1, r))") by (vm_compute; reflexivity).
  assert (E2 : FixComplexShould.fix_complex_should_patterns
                 ("r" ++ ".Should().Be(" ++ "Foo(1)" ++ ")")
               = "Assert.Equal(Foo(1, r))") by (vm_compute; reflexivity).
  rewrite E1, E2. repeat split; discriminate.
Qed.

(** C6 (amended): the argument of [Be] is the text up to the first [)].
    For every receiver [r] of the receiver grammar that holds neither
    [.Should()] nor [.Assert.] and every non-empty argument [v] without [)]
    and without [.Assert.], both pipelines turn [r.Should().Be(v)] into
    [Assert.Equal(v, r)]. *)
Theorem be_argument_to_first_paren (r v : string) :
  is_recv ident_start recv_char r = true ->
  contains ".Should()" r = false -> contains ".Assert." r = false ->
  v <> "" -> has_char ")" v = false -> contains ".Assert." v = false ->
  FixAllShould.fix_all_should_patterns (r ++ ".Should().Be(" ++ v ++ ")")
  = "Assert.Equal(" ++ v ++ ", " ++ r ++ ")" /\
  FixComplexShould.fix_complex_should_patterns (r ++ ".Should().Be(" ++ v ++ ")")
  = "Assert.Equal(" ++ v ++ ", " ++ r ++ ")".
Proof.
  intros Hr HK HA Hne Hv HAv. split.
  - now apply all_be.
  - apply complex_be; auto. now apply is_recv_bang.
Qed.

Lemma be_argument_to_first_paren_witness :
  is_recv ident_start recv_char "list[0].Name" = true /\
  contains ".Should()" "list[0].Name" = false /\
  contains ".Assert." "list[0].Name" = false /\
  "Foo(1" <> "" /\
  has_char ")" "Foo(1" = false /\
  contains ".Assert." "Foo(1" = false /\
  FixAllShould.fix_all_should_patterns ("list[0].Name" ++ ".Should().Be(" ++ "Foo(1" ++ ")")
  = "Assert.Equal(" ++ "Foo(1" ++ ", " ++ "list[0].Name" ++ ")" /\
  FixComplexShould.fix_complex_should_patterns
    ("list[0].Name" ++ ".Should().Be(" ++ "Foo(1" ++ ")")
  = "Assert.Equal(" ++ "Foo(1" ++ ", " ++ "list[0].Name" ++ ")".
Proof.
  split; [reflexivity|]. split; [reflexivity|]. split; [reflexivity|].
  split; [discriminate|]. split; [reflexivity|]. split; [reflexivity|].
  apply (be_argument_to_first_paren "list[0].Name" "Foo(1");
    first [reflexivity | discriminate].
Defined.

(** ** The composed [Contains] rules *)

Lemma complex_contains_true (r i : string) :
  is_recv ident_start recv_char r = true ->
  contains ".Contains(" r = false -> contains ".Should()" r = false ->
  i <> "" -> has_char ")" i = false ->
  FixComplexShould.fix_complex_should_patterns
    (r ++ ".Contains(" ++ i ++ ").Should().BeTrue()")
  = "Assert.Contains(" ++ i ++ ", " ++ r ++ ")".
Proof.
  intros Hr HC HK Hne Hi. unfold FixComplexShould.fix_complex_should_patterns. cbv zeta.
  rewrite (fire_recv_mid _ _ ".Contains(" ").Should().BeTrue()"
             ident_start recv_char not_paren r i "");
    [ | reflexivity | exact Hr | reflexivity | exact HC | exact Hne
      | apply (all_in_without ")"), Hi | reflexivity ].
  rewrite re_sub_empty by reflexivity. simpl expand. rewrite append_nil_r.
  name_buffer Out.
  assert (HO : contains ".Should()." Out = false)
    by (unfold Out; simpl; now apply output_no_should).
  skip_all ".Should()." Out HO. reflexivity.
Qed.

Lemma complex_contains_false (r i : string) :
  is_recv ident_start recv_char r = true ->
  contains ".Contains(" r = false -> contains ".Should()" r = false ->
  i <> "" -> has_char ")" i = false ->
  FixComplexShould.fix_complex_should_patterns
    (r ++ ".Contains(" ++ i ++ ").Should().BeFalse()")
  = "Assert.DoesNotContain(" ++ i ++ ", " ++ r ++ ")".
Proof.
  intros Hr HC HK Hne Hi. unfold FixComplexShould.fix_complex_should_patterns. cbv zeta.
  set (B := r ++ ".Contains(" ++ i ++ ").Should().BeFalse()").
  assert (HB : contains ".Should().BeTrue()" B = false).
  { unfold B. apply (contains_sep2 "C" "." ".Should().BeTrue()" r); [reflexivity| |].
    - apply (contains_snoc "." ".Should().BeTrue(" ")"); [reflexivity|].
      apply (contains_part "" ".Should()" ".BeTrue()"), HK.
    - simpl.
      apply (contains_first_char ")" ".Should(" ".BeTrue()" i ".Should().BeFalse()");
        [exact Hi|reflexivity|reflexivity|reflexivity]. }
  rewrite (re_sub_id ".Should().BeTrue()" _ _ B) by (first [exact eq_refl | exact HB]).
  unfold B.
  rewrite (fire_recv_mid _ _ ".Contains(" ").Should().BeFalse()"
             ident_start recv_char not_paren r i "");
    [ | reflexivity | exact Hr | reflexivity | exact HC | exact Hne
      | apply (all_in_without ")"), Hi | reflexivity ].
  rewrite re_sub_empty by reflexivity. simpl expand. rewrite append_nil_r.
  name_buffer Out.
  assert (HO : contains ".Should()." Out = false)
    by (unfold Out; simpl; now apply output_no_should).
  skip_all ".Should()." Out HO. reflexivity.
Qed.

(** C4, as stated, fails for a receiver of the receiver grammar that holds
    a [.Contains(] of its own: the lazy receiver stops in front of the first
    one. *)
Lemma composed_contains_inner_call :
  is_recv ident_start recv_char "a.Contains(b" = true /\
  all_in not_paren "c" = true /\
  FixComplexShould.fix_complex_should_patterns
    ("a.Contains(b" ++ ".Contains(" ++ "c" ++ ").Should().BeTrue()")
  = "Assert.Contains(b.Contains(c, a)" /\
  FixComplexShould.fix_complex_should_patterns
    ("a.Contains(b" ++ ".Contains(" ++ "c" ++ ").Should().BeTrue()")
  <> "Assert.Contains(" ++ "c" ++ ", " ++ "a.Contains(b" ++ ")".
Proof.
  assert (E : FixComplexShould.fix_complex_should_patterns
                ("a.Contains(b" ++ ".Contains(" ++ "c" ++ ").Should().BeTrue()")
              = "Assert.Contains(b.Contains(c, a)") by (vm_compute; reflexivity).
  rewrite E. repeat split; discriminate.
Qed.

(** C4 (amended): in the complex-pattern pipeline the composed rules run
    first.  For every receiver [r] of the receiver grammar that holds
    neither [.Contains(] nor [.Should()] and every non-empty item [i]
    without [)], [r.Contains(i).Should().BeTrue()] becomes
    [Assert.Contains(i, r)] and [r.Contains(i).Should().BeFalse()] becomes
    [Assert.DoesNotContain(i, r)]; the statement of the scenario, with its
    semicolon, is the last part. *)
Theorem composed_contains_first (r i : string) :
  is_recv ident_start recv_char r = true ->
  contains ".Contains(" r = false -> contains ".Should()" r = false ->
  i <> "" -> has_char ")" i = false ->
  FixComplexShould.fix_complex_should_patterns
    (r ++ ".Contains(" ++ i ++ ").Should().BeTrue()")
  = "Assert.Contains(" ++ i ++ ", " ++ r ++ ")" /\
  FixComplexShould.fix_complex_should_patterns
    (r ++ ".Contains(" ++ i ++ ").Should().BeFalse()")
  = "Assert.DoesNotContain(" ++ i ++ ", " ++ r ++ ")" /\
  FixComplexShould.fix_complex_should_patterns
    ("text.Contains(" ++ dq ++ "ok" ++ dq ++ ").Should().BeTrue();")
  = "Assert.Contains(" ++ dq ++ "ok" ++ dq ++ ", text);".
Proof.
  intros. split; [now apply complex_contains_true|].
  split; [now apply complex_contains_false|].
  vm_compute. reflexivity.
Qed.

Lemma composed_contains_first_witness :
  is_recv ident_start recv_char "text" = true /\
  contains ".Contains(" "text" = false /\
  contains ".Should()" "text" = false /\
  (dq ++ "ok" ++ dq) <> "" /\
  has_char ")" (dq ++ "ok" ++ dq) = false /\
  FixComplexShould.fix_complex_should_patterns
    ("text" ++ ".Contains(" ++ (dq ++ "ok" ++ dq) ++ ").Should().BeTrue()")
  = "Assert.Contains(" ++ (dq ++ "ok" ++ dq) ++ ", " ++ "text" ++ ")" /\
  FixComplexShould.fix_complex_should_patterns
    ("text" ++ ".Contains(" ++ (dq ++ "ok" ++ dq) ++ ").Should().BeFalse()")
  = "Assert.DoesNotContain(" ++ (dq ++ "ok" ++ dq) ++ ", " ++ "text" ++ ")" /\
  FixComplexShould.fix_complex_should_patterns
    ("text.Contains(" ++ dq ++ "ok" ++ dq ++ ").Should().BeTrue();")
  = "Assert.Contains(" ++ dq ++ "ok" ++ dq ++ ", text);".
Proof.
  split; [reflexivity|]. split; [reflexivity|]. split; [reflexivity|].
  split; [discriminate|]. split; [reflexivity|].
  apply (composed_contains_first "text" (dq ++ "ok" ++ dq));
    first [reflexivity | discriminate].
Defined.

(** ** Text around a fluent call *)

Lemma lazy_inv (b : cset) (q : pattern) (s : string) (st : mstate) res :
  re_match (Rep false b :: q) s st = Some res ->
  exists v s', s = v ++ s' /\ all_in b v = true /\ re_match q s' st = Some res.
Proof.
  induction s as [|c s IH]; intros H; rewrite rep_lazy_eq in H.
  - destruct (re_match q "" st) eqn:E; [|discriminate].
    exists "", "". rewrite E. auto.
  - destruct (re_match q (String c s) st) eqn:E.
    + exists "", (String c s). rewrite E. auto.
    + destruct (in_cset b c) eqn:Hc; [|discriminate].
      destruct (IH H) as (v & s' & -> & Hv & H').
      exists (String c v), s'. simpl. rewrite Hc, Hv. auto.
Qed.

(** A rule with a receiver group matches a receiver and what follows. *)
Lemma lazy_group_inv (n : nat) (a b : cset) (q : pattern) (s : string)
      (st : mstate) res :
  re_match (lazy_group n a b ++ q)%list s st = Some res ->
  exists r s' st', s = r ++ s' /\ is_recv a b r = true /\ re_match q s' st' = Some res.
Proof.
  unfold lazy_group. simpl app. intros H.
  destruct s as [|c s]; [discriminate|].
  change ((if in_cset a c
           then re_match (Rep false b :: Close n :: q) s
                         (open_group n (String c s) st)
           else None) = Some res) in H.
  destruct (in_cset a c) eqn:Hc; [|discriminate].
  apply lazy_inv in H as (v & s' & -> & Hv & H').
  exists (String c v), s', (close_group n s' (open_group n (String c (v ++ s')) st)).
  simpl. rewrite Hc, Hv. auto.
Qed.

Lemma prefix_before_char (c : ascii) (w rest u s : string) :
  w ++ String c rest = u ++ s -> has_char c u = false -> exists z, w = u ++ z.
Proof.
  revert w; induction u as [|e u IH]; intros w E H; simpl in *.
  - now exists w.
  - apply orb_false_iff in H as [He H].
    destruct w as [|d w]; simpl in E.
    + injection E as E _. subst. now rewrite Ascii.eqb_refl in He.
    + injection E as -> E. destruct (IH _ E H) as [z ->]. now exists z.
Qed.

(** A receiver rule does not match across a character that neither its
    receiver nor its literal can hold, unless the literal stands in front
    of that character. *)
Lemma recv_rule_blocked (a b : cset) (L : string) (q : pattern)
      (w rest : string) (c : ascii) (st : mstate) :
  in_cset a c = false -> in_cset b c = false -> has_char c L = false ->
  contains L w = false ->
  re_match (lazy_group 1 a b ++ lits L ++ q)%list (w ++ String c rest) st = None.
Proof.
  intros Ha Hb HL Hw.
  destruct (re_match _ _ _) eqn:E; [exfalso|reflexivity].
  apply lazy_group_inv in E as (r & s' & st' & E & Hr & M).
  apply re_match_lits_inv in M as (s2 & -> & _).
  rewrite <- append_assoc in E.
  apply prefix_before_char in E as [z ->].
  - rewrite append_assoc in Hw.
    now rewrite (contains_intro L r z) in Hw.
  - rewrite has_char_app, (is_recv_lacks a b c r Ha Hb Hr), HL. reflexivity.
Qed.

(** In front of such a character a receiver rule copies a text that lacks
    its literal. *)
Lemma re_sub_copy_blocked (pat repl L : string) (a b : cset) (q : pattern)
      (pre s : string) (c : ascii) :
  compile pat = (lazy_group 1 a b ++ lits L ++ q)%list ->
  in_cset a c = false -> in_cset b c = false -> has_char c L = false ->
  contains L pre = false ->
  re_sub pat repl (pre ++ String c s) = pre ++ String c (re_sub pat repl s).
Proof.
  intros Hp Ha Hb HL Hpre. unfold re_sub. rewrite Hp.
  change (pre ++ String c s) with (pre ++ (String c "" ++ s)).
  rewrite <- append_assoc, sub_from_copy.
  - now rewrite append_assoc.
  - intros w1 w2 E Hw2.
    apply append_eq_snoc in E as [[-> _]|(w & -> & ->)]; [congruence|].
    rewrite append_assoc. simpl append.
    apply recv_rule_blocked; try assumption.
    eapply contains_false_app_r; eauto.
Qed.

Lemma ident_start_recv (c : ascii) :
  in_cset recv_char c = false -> in_cset ident_start c = false.
Proof.
  intros H. destruct (in_cset ident_start c) eqn:E; [|reflexivity].
  revert E H. unfold in_cset, recv_char, ident_start, in_ranges. simpl.
  intros E. repeat (apply orb_true_iff in E as [E|E]; [rewrite E; now rewrite ?orb_true_r|]).
  discriminate.
Qed.

(** A character outside the receiver class is in no rule literal. *)
Lemma outside_lacks (sep : ascii) (L : string) :
  in_cset recv_char sep = false -> all_in recv_char L = true -> has_char sep L = false.
Proof. intros H HL. now apply (all_in_lacks recv_char). Qed.








(** ** The correction pass *)

Lemma ident_no_paren (X : string) :
  is_recv ident_start ident_char X = true -> has_char "(" X = false.
Proof. now apply is_recv_lacks. Qed.

Lemma ident_no_dot (X : string) :
  is_recv ident_start ident_char X = true -> has_char "." X = false.
Proof. now apply is_recv_lacks. Qed.

(** [X.Y)] has no opening parenthesis. *)
Lemma qualified_no_paren (X Y : string) :
  is_recv ident_start ident_char X = true ->
  is_recv ident_start ident_char Y = true ->
  has_char "(" (X ++ String "." (Y ++ ")")) = false.
Proof.
  intros HX HY. rewrite has_char_app, (ident_no_paren _ HX). simpl.
  rewrite has_char_app, (ident_no_paren _ HY). reflexivity.
Qed.

(** The repaired call is left alone by the later correction rules: their
    literal [L] has a [(] and no comma, and stands in [a] at best. *)
Ltac absent_after_repair a X Y HA HX HY pre post :=
  simpl;
  match goal with
  | |- contains ?L _ = false =>
      apply (contains_sep "," L a);
        [ reflexivity
        | apply (contains_part pre ".Assert." post), HA
        | simpl; apply (contains_needs_char "("); [reflexivity|];
          now apply qualified_no_paren ]
  end.

Lemma all_correct_contains (X a Y : string) :
  is_recv ident_start ident_char X = true ->
  is_recv ident_start ident_char Y = true ->
  a <> "" -> has_char "," a = false ->
  contains ".Should()" a = false -> contains ".Assert." a = false ->
  FixAllShould.fix_all_should_patterns (X ++ ".Assert.Contains(" ++ a ++ ", " ++ Y ++ ")")
  = "Assert.Contains(" ++ a ++ ", " ++ X ++ "." ++ Y ++ ")".
Proof.
  intros HX HY Hne Hc HS HA. unfold FixAllShould.fix_all_should_patterns. cbv zeta.
  set (B := X ++ ".Assert.Contains(" ++ a ++ ", " ++ Y ++ ")").
  assert (HB : contains ".Should()" B = false).
  { unfold B. apply (contains_sep2 "A" "." ".Should()" X); [reflexivity| |].
    - apply (contains_needs_char "("); [reflexivity|].
      rewrite has_char_app, (ident_no_paren _ HX). reflexivity.
    - simpl. apply (contains_sep "," ".Should()" a); [reflexivity|exact HS|].
      simpl. apply (contains_needs_char "("); [reflexivity|].
      rewrite has_char_app, (ident_no_paren _ HY). reflexivity. }
  skip_all ".Should()" B HB.
  unfold B.
  rewrite (fire_correction _ _ ".Assert.Contains(" X a Y "");
    [ | reflexivity | exact HX | reflexivity
      | apply (contains_needs_char "."); [reflexivity|now apply ident_no_dot]
      | exact Hne | exact Hc | exact HY ].
  rewrite re_sub_empty by reflexivity. simpl expand. rewrite append_nil_r.
  name_buffer Out.
  rewrite (re_sub_id ".Assert.Equal(" _ _ Out)
    by (first [exact eq_refl | unfold Out; absent_after_repair a X Y HA HX HY "" "Equal("]).
  rewrite (re_sub_id "pingHits.Assert.Contains(" _ _ Out)
    by (first [exact eq_refl
              | unfold Out; absent_after_repair a X Y HA HX HY "pingHits" "Contains("]).
  rewrite (re_sub_id "pongHits.Assert.Contains(" _ _ Out)
    by (first [exact eq_refl
              | unfold Out; absent_after_repair a X Y HA HX HY "pongHits" "Contains("]).
  reflexivity.
Qed.

Lemma all_correct_equal (X a Y : string) :
  is_recv ident_start ident_char X = true ->
  is_recv ident_start ident_char Y = true ->
  a <> "" -> has_char "," a = false ->
  contains ".Should()" a = false -> contains ".Assert." a = false ->
  FixAllShould.fix_all_should_patterns (X ++ ".Assert.Equal(" ++ a ++ ", " ++ Y ++ ")")
  = "Assert.Equal(" ++ a ++ ", " ++ X ++ "." ++ Y ++ ")".
Proof.
  intros HX HY Hne Hc HS HA. unfold FixAllShould.fix_all_should_patterns. cbv zeta.
  set (B := X ++ ".Assert.Equal(" ++ a ++ ", " ++ Y ++ ")").
  assert (HB : contains ".Should()" B = false).
  { unfold B. apply (contains_sep2 "A" "." ".Should()" X); [reflexivity| |].
    - apply (contains_needs_char "("); [reflexivity|].
      rewrite has_char_app, (ident_no_paren _ HX). reflexivity.
    - simpl. apply (contains_sep "," ".Should()" a); [reflexivity|exact HS|].
      simpl. apply (contains_needs_char "("); [reflexivity|].
      rewrite has_char_app, (ident_no_paren _ HY). reflexivity. }
  skip_all ".Should()" B HB.
  assert (HB' : contains ".Assert.Contains(" B = false).
  { unfold B.
    apply (contains_anchor ".Assert" ".Contains(" X (".Equal(" ++ a ++ ", " ++ Y ++ ")"));
      [reflexivity| |].
    - apply (contains_needs_char "."); [reflexivity|now apply ident_no_dot].
    - simpl. apply (contains_sep "," ".Assert.Contains(" a); [reflexivity| |].
      + apply (contains_part "" ".Assert." "Contains("), HA.
      + simpl. apply (contains_needs_char "("); [reflexivity|].
        rewrite has_char_app, (ident_no_paren _ HY). reflexivity. }
  rewrite (re_sub_id ".Assert.Contains(" _ _ B) by (first [exact eq_refl | exact HB']).
  unfold B.
  rewrite (fire_correction _ _ ".Assert.Equal(" X a Y "");
    [ | reflexivity | exact HX | reflexivity
      | apply (contains_needs_char "."); [reflexivity|now apply ident_no_dot]
      | exact Hne | exact Hc | exact HY ].
  rewrite re_sub_empty by reflexivity. simpl expand. rewrite append_nil_r.
  name_buffer Out.
  rewrite (re_sub_id "pingHits.Assert.Contains(" _ _ Out)
    by (first [exact eq_refl
              | unfold Out; absent_after_repair a X Y HA HX HY "pingHits" "Contains("]).
  rewrite (re_sub_id "pongHits.Assert.Contains(" _ _ Out)
    by (first [exact eq_refl
              | unfold Out; absent_after_repair a X Y HA HX HY "pongHits" "Contains("]).
  reflexivity.
Qed.

(** C8, as stated, fails: an argument without a comma can hold a fluent
    call, and the rules in front of the correction pass rewrite it first. *)
Lemma repair_argument_with_fluent_call :
  is_recv ident_start ident_char "X" = true /\
  is_recv ident_start ident_char "Y" = true /\
  has_char "," "q.Should().NotBeNull()" = false /\
  FixAllShould.fix_all_should_patterns
    ("X" ++ ".Assert.Contains(" ++ "q.Should().NotBeNull()" ++ ", " ++ "Y" ++ ")")
  = "Assert.NotNull(Assert.Contains(q), X.Y)" /\
  FixAllShould.fix_all_should_patterns
    ("X" ++ ".Assert.Contains(" ++ "q.Should().NotBeNull()" ++ ", " ++ "Y" ++ ")")
  <> "Assert.Contains(" ++ "q.Should().NotBeNull()" ++ ", " ++ "X" ++ "." ++ "Y" ++ ")".
Proof.
  assert (E : FixAllShould.fix_all_should_patterns
                ("X" ++ ".Assert.Contains(" ++ "q.Should().NotBeNull()" ++ ", " ++ "Y" ++ ")")
              = "Assert.NotNull(Assert.Contains(q), X.Y)") by (vm_compute; reflexivity).
  rewrite E. repeat split; discriminate.
Qed.

(** C8 (amended): for all identifiers [X] and [Y] and every non-empty
    argument text [a] that holds no comma, no [.Should()] and no [.Assert.],
    fix_all_should.py turns [X.Assert.Contains(a, Y)] into
    [Assert.Contains(a, X.Y)] and [X.Assert.Equal(a, Y)] into
    [Assert.Equal(a, X.Y)]. *)
Theorem correction_requalifies (X a Y : string) :
  is_recv ident_start ident_char X = true ->
  is_recv ident_start ident_char Y = true ->
  a <> "" -> has_char "," a = false ->
  contains ".Should()" a = false -> contains ".Assert." a = false ->
  FixAllShould.fix_all_should_patterns (X ++ ".Assert.Contains(" ++ a ++ ", " ++ Y ++ ")")
  = "Assert.Contains(" ++ a ++ ", " ++ X ++ "." ++ Y ++ ")" /\
  FixAllShould.fix_all_should_patterns (X ++ ".Assert.Equal(" ++ a ++ ", " ++ Y ++ ")")
  = "Assert.Equal(" ++ a ++ ", " ++ X ++ "." ++ Y ++ ")".
Proof.
  intros. split; [now apply all_correct_contains|now apply all_correct_equal].
Qed.

Lemma correction_requalifies_witness :
  is_recv ident_start ident_char "actor" = true /\
  is_recv ident_start ident_char "log" = true /\
  (dq ++ "x" ++ dq) <> "" /\
  has_char "," (dq ++ "x" ++ dq) = false /\
  contains ".Should()" (dq ++ "x" ++ dq) = false /\
  contains ".Assert." (dq ++ "x" ++ dq) = false /\
  FixAllShould.fix_all_should_patterns
    ("actor" ++ ".Assert.Contains(" ++ (dq ++ "x" ++ dq) ++ ", " ++ "log" ++ ")")
  = "Assert.Contains(" ++ (dq ++ "x" ++ dq) ++ ", " ++ "actor" ++ "." ++ "log" ++ ")" /\
  FixAllShould.fix_all_should_patterns
    ("actor" ++ ".Assert.Equal(" ++ (dq ++ "x" ++ dq) ++ ", " ++ "log" ++ ")")
  = "Assert.Equal(" ++ (dq ++ "x" ++ dq) ++ ", " ++ "actor" ++ "." ++ "log" ++ ")".
Proof.
  split; [reflexivity|]. split; [reflexivity|]. split; [discriminate|].
  split; [reflexivity|]. split; [reflexivity|]. split; [reflexivity|].
  apply (correction_requalifies "actor" (dq ++ "x" ++ dq) "log");
    first [reflexivity | discriminate].
Defined.

(** ** The simple quote normalizer *)

Lemma re_sub_fire_end (pat repl u : string) (st : mstate) :
  u <> "" -> re_match (compile pat) "" mstate0 = None ->
  re_match (compile pat) u mstate0 = Some ("", st) ->
  re_sub pat repl u = expand (template repl) (closed st).
Proof.
  intros Hu H0 H. rewrite <- (append_nil_r u) in H |- *.
  rewrite (re_sub_fire pat repl u "" st Hu H).
  now rewrite (re_sub_empty pat repl H0), append_nil_r.
Qed.

(** A quoted, non-empty, quote-free text holds no doubled quote. *)
Lemma quoted_no_doubled (k rest : string) :
  k <> "" -> has_char DQ k = false ->
  starts_with dq rest = false -> contains (dq ++ dq) rest = false ->
  contains (dq ++ dq) (String DQ (k ++ String DQ rest)) = false.
Proof.
  intros Hne Hk H1 H2.
  pose proof (contains_first_char DQ "" dq k rest Hk eq_refl H1 H2) as Q.
  change ("" ++ String DQ dq) with (dq ++ dq) in Q.
  change (starts_with (dq ++ dq) (String DQ (k ++ String DQ rest))
          || contains (dq ++ dq) (k ++ String DQ rest) = false).
  rewrite Q, orb_false_r.
  destruct k as [|c k]; [congruence|].
  change (Ascii.eqb DQ c || has_char DQ k = false) in Hk.
  apply orb_false_iff in Hk as [Hc _].
  change (Ascii.eqb DQ DQ && (Ascii.eqb DQ c && true) = false).
  now rewrite Hc, andb_false_r.
Qed.

Lemma pair_no_doubled (k v : string) :
  k <> "" -> v <> "" -> has_char DQ k = false -> has_char DQ v = false ->
  contains (dq ++ dq) (dq ++ k ++ dq ++ ": " ++ dq ++ v ++ dq) = false.
Proof.
  intros Hk Hv Hkq Hvq.
  apply (quoted_no_doubled k (": " ++ dq ++ v ++ dq)); [exact Hk|exact Hkq|reflexivity|].
  change (contains (dq ++ dq) (String ":" (String " " (String DQ (v ++ String DQ ""))))
          = false).
  change (starts_with (dq ++ dq) (String ":" (String " " (String DQ (v ++ String DQ ""))))
          || (starts_with (dq ++ dq) (String " " (String DQ (v ++ String DQ "")))
              || contains (dq ++ dq) (String DQ (v ++ String DQ ""))) = false).
  rewrite (quoted_no_doubled v ""); [reflexivity|exact Hv|exact Hvq|reflexivity|reflexivity].
Qed.

(** The second rule of replace_quotes.py on a plain pair. *)
Lemma pair_match (k v : string) (p : pattern) :
  k <> "" -> v <> "" -> has_char DQ k = false -> has_char DQ v = false ->
  p = (Lit DQ :: plus_group 1 not_dq
         ++ Lit DQ :: Lit ":"%char :: Rep true space :: Lit DQ :: plus_group 2 not_dq
         ++ [Lit DQ])%list ->
  re_match p (dq ++ k ++ dq ++ ": " ++ dq ++ v ++ dq) mstate0
  = Some ("", captured 2 v dq (captured 1 k (dq ++ ": " ++ dq ++ v ++ dq) mstate0)).
Proof.
  intros Hk Hv Hkq Hvq ->.
  change (re_match (plus_group 1 not_dq
                      ++ Lit DQ :: Lit ":"%char :: Rep true space :: Lit DQ
                           :: plus_group 2 not_dq ++ [Lit DQ])%list
                   (k ++ dq ++ ": " ++ dq ++ v ++ dq) mstate0
          = Some ("", captured 2 v dq (captured 1 k (dq ++ ": " ++ dq ++ v ++ dq) mstate0))).
  apply plus_group_run; [exact Hk|apply (all_in_without DQ), Hkq|reflexivity|].
  change (re_match (Rep true space :: Lit DQ :: plus_group 2 not_dq ++ [Lit DQ])%list
                   (" " ++ String DQ (v ++ dq))
                   (captured 1 k (dq ++ ": " ++ dq ++ v ++ dq) mstate0)
          = Some ("", captured 2 v dq (captured 1 k (dq ++ ": " ++ dq ++ v ++ dq) mstate0))).
  apply greedy_run; [reflexivity|reflexivity|].
  change (re_match (plus_group 2 not_dq ++ [Lit DQ])%list (v ++ dq)
                   (captured 1 k (dq ++ ": " ++ dq ++ v ++ dq) mstate0)
          = Some ("", captured 2 v dq (captured 1 k (dq ++ ": " ++ dq ++ v ++ dq) mstate0))).
  apply plus_group_run; [exact Hv|apply (all_in_without DQ), Hvq|reflexivity|].
  reflexivity.
Qed.

(** C9: the second rule of the simple quote normalizer rewrites a plain
    pair.  For all non-empty [k] and [v] without a double quote, the text
    made of [k] in double quotes, a colon, a blank and [v] in double quotes
    has no doubled double quote, and [replace_double_quotes_in_json] turns
    it into ['k': 'v'], a different text. *)
Theorem plain_pair_is_rewritten (k v : string) :
  k <> "" -> v <> "" -> has_char DQ k = false -> has_char DQ v = false ->
  contains (dq ++ dq) (dq ++ k ++ dq ++ ": " ++ dq ++ v ++ dq) = false /\
  ReplaceQuotes.replace_double_quotes_in_json (dq ++ k ++ dq ++ ": " ++ dq ++ v ++ dq)
  = "'" ++ k ++ "': '" ++ v ++ "'" /\
  ReplaceQuotes.replace_double_quotes_in_json (dq ++ k ++ dq ++ ": " ++ dq ++ v ++ dq)
  <> dq ++ k ++ dq ++ ": " ++ dq ++ v ++ dq.
Proof.
  intros Hk Hv Hkq Hvq.
  pose proof (pair_no_doubled k v Hk Hv Hkq Hvq) as HD.
  assert (E : ReplaceQuotes.replace_double_quotes_in_json
                (dq ++ k ++ dq ++ ": " ++ dq ++ v ++ dq)
              = "'" ++ k ++ "': '" ++ v ++ "'").
  { unfold ReplaceQuotes.replace_double_quotes_in_json. cbv zeta.
    rewrite (re_sub_id (dq ++ dq) _ _ (dq ++ k ++ dq ++ ": " ++ dq ++ v ++ dq))
      by (first [exact eq_refl | exact HD]).
    rewrite (re_sub_fire_end _ _ _
               (captured 2 v dq (captured 1 k (dq ++ ": " ++ dq ++ v ++ dq) mstate0))).
    - reflexivity.
    - discriminate.
    - reflexivity.
    - apply pair_match; try assumption. reflexivity. }
  split; [exact HD|]. split; [exact E|].
  rewrite E. discriminate.
Qed.

Lemma plain_pair_is_rewritten_witness :
  "id" <> "" /\ "start" <> "" /\
  has_char DQ "id" = false /\ has_char DQ "start" = false /\
  contains (dq ++ dq) (dq ++ "id" ++ dq ++ ": " ++ dq ++ "start" ++ dq) = false /\
  ReplaceQuotes.replace_double_quotes_in_json
    (dq ++ "id" ++ dq ++ ": " ++ dq ++ "start" ++ dq)
  = "'" ++ "id" ++ "': '" ++ "start" ++ "'" /\
  ReplaceQuotes.replace_double_quotes_in_json
    (dq ++ "id" ++ dq ++ ": " ++ dq ++ "start" ++ dq)
  <> dq ++ "id" ++ dq ++ ": " ++ dq ++ "start" ++ dq.
Proof.
  split; [discriminate|]. split; [discriminate|].
  split; [reflexivity|]. split; [reflexivity|].
  apply (plain_pair_is_rewritten "id" "start");
    first [reflexivity | discriminate].
Defined.

(** ** The final pass: [BeTrue] and [BeFalse] with an argument *)

Lemma final_true (X a : string) :
  is_recv ident_start recv_bang X = true -> contains ".Should()" X = false ->
  has_char ")" a = false ->
  FixFinalShould.fix_all_should_patterns (X ++ ".Should().BeTrue(" ++ a ++ ")")
  = "Assert.True(" ++ X ++ ")".
Proof.
  intros HX HK Ha. unfold FixFinalShould.fix_all_should_patterns. cbv zeta.
  set (B := X ++ ".Should().BeTrue(" ++ a ++ ")").
  do 9 skip_on B ltac:(fun L => unfold B; absent_before X a HK Ha ".BeTrue(" L).
  unfold B.
  rewrite (fire_recv_star _ _ ".Should().BeTrue(" ident_start recv_bang not_paren X a "");
    [ | reflexivity | exact HX | reflexivity
      | apply (contains_part "" ".Should()" ".BeTrue("), HK
      | apply (all_in_without ")"), Ha | reflexivity ].
  rewrite re_sub_empty by reflexivity. simpl expand. rewrite append_nil_r.
  name_buffer Out.
  assert (HO : contains ".Should()." Out = false).
  { unfold Out. simpl. apply (contains_snoc ")" ".Should()" "."); [reflexivity|].
    apply (contains_part "" ".Should()" "."), HK. }
  skip_all ".Should()." Out HO. reflexivity.
Qed.

Lemma final_false (X a : string) :
  is_recv ident_start recv_bang X = true -> contains ".Should()" X = false ->
  has_char ")" a = false ->
  FixFinalShould.fix_all_should_patterns (X ++ ".Should().BeFalse(" ++ a ++ ")")
  = "Assert.False(" ++ X ++ ")".
Proof.
  intros HX HK Ha. unfold FixFinalShould.fix_all_should_patterns. cbv zeta.
  set (B := X ++ ".Should().BeFalse(" ++ a ++ ")").
  do 10 skip_on B ltac:(fun L => unfold B; absent_before X a HK Ha ".BeFalse(" L).
  unfold B.
  rewrite (fire_recv_star _ _ ".Should().BeFalse(" ident_start recv_bang not_paren X a "");
    [ | reflexivity | exact HX | reflexivity
      | apply (contains_part "" ".Should()" ".BeFalse("), HK
      | apply (all_in_without ")"), Ha | reflexivity ].
  rewrite re_sub_empty by reflexivity. simpl expand. rewrite append_nil_r.
  name_buffer Out.
  assert (HO : contains ".Should()." Out = false).
  { unfold Out. simpl. apply (contains_snoc ")" ".Should()" "."); [reflexivity|].
    apply (contains_part "" ".Should()" "."), HK. }
  skip_all ".Should()." Out HO. reflexivity.
Qed.

(** C10, as stated, fails: a receiver made of receiver characters can hold
    a fluent call of its own, and then the rule fires inside it. *)
Lemma final_bool_nested_receiver :
  is_recv ident_start recv_bang "x.Should().BeTrue()" = true /\
  has_char ")" "because" = false /\
  FixFinalShould.fix_all_should_patterns
    ("x.Should().BeTrue()" ++ ".Should().BeTrue(" ++ "because" ++ ")")
  = "Assert.True(x).Should().BeTrue(because)" /\
  FixFinalShould.fix_all_should_patterns
    ("x.Should().BeTrue()" ++ ".Should().BeTrue(" ++ "because" ++ ")")
  <> "Assert.True(" ++ "x.Should().BeTrue()" ++ ")".
Proof.
  assert (E : FixFinalShould.fix_all_should_patterns
                ("x.Should().BeTrue()" ++ ".Should().BeTrue(" ++ "because" ++ ")")
              = "Assert.True(x).Should().BeTrue(because)") by (vm_compute; reflexivity).
  repeat split; try reflexivity; try exact E.
  rewrite E. discriminate.
Qed.

(** C10 (amended): for every receiver [X] of the receiver grammar that holds
    no [.Should()] of its own and every argument text [a] without [)], the
    final pass turns [X.Should().BeTrue(a)] into [Assert.True(X)] and
    [X.Should().BeFalse(a)] into [Assert.False(X)]: the argument is
    dropped. *)
Theorem final_bool_drops_argument (X a : string) :
  is_recv ident_start recv_bang X = true ->
  contains ".Should()" X = false ->
  has_char ")" a = false ->
  FixFinalShould.fix_all_should_patterns (X ++ ".Should().BeTrue(" ++ a ++ ")")
  = "Assert.True(" ++ X ++ ")" /\
  FixFinalShould.fix_all_should_patterns (X ++ ".Should().BeFalse(" ++ a ++ ")")
  = "Assert.False(" ++ X ++ ")".
Proof.
  intros HX HK Ha. split; [now apply final_true|now apply final_false].
Qed.

Lemma final_bool_drops_argument_witness :
  is_recv ident_start recv_bang "result.IsValid" = true /\
  contains ".Should()" "result.IsValid" = false /\
  has_char ")" "because it was set" = false /\
  FixFinalShould.fix_all_should_patterns
    ("result.IsValid" ++ ".Should().BeTrue(" ++ "because it was set" ++ ")")
  = "Assert.True(" ++ "result.IsValid" ++ ")" /\
  FixFinalShould.fix_all_should_patterns
    ("result.IsValid" ++ ".Should().BeFalse(" ++ "because it was set" ++ ")")
  = "Assert.False(" ++ "result.IsValid" ++ ")".
Proof.
  split; [reflexivity|]. split; [reflexivity|]. split; [reflexivity|].
  apply (final_bool_drops_argument "result.IsValid" "because it was set");
    reflexivity.
Defined.

(** ** The file loop *)







Lemma all_visit_eq (p : string) (w : world) (n : nat) :
  FixAllShould.visit p (w, n) =
  match read (files w) p with
  | None => (w, n)
  | Some content =>
      if negb (contains ".Should()" content) && negb (contains ".Assert." content)
      then (w, n)
      else if negb (String.eqb (FixAllShould.fix_all_should_patterns content) content)
           then (print ("Fixed: " ++ p)
                       (fwrite p (FixAllShould.fix_all_should_patterns content) w), S n)
           else (w, n)
  end.
Proof. reflexivity. Qed.

Lemma complex_visit_eq (p : string) (w : world) (n : nat) :
  FixComplexShould.visit p (w, n) =
  match read (files w) p with
  | None => (w, n)
  | Some content =>
      if negb (contains ".Should()" content)
      then (w, n)
      else if negb (String.eqb (FixComplexShould.fix_complex_should_patterns content)
                               content)
           then (print ("Fixed: " ++ p)
                       (fwrite p (FixComplexShould.fix_complex_should_patterns content) w),
                 S n)
           else (w, n)
  end.
Proof. reflexivity. Qed.

Lemma final_visit_eq (p : string) (w : world) (n : nat) :
  FixFinalShould.visit p (w, n) =
  match read (files w) p with
  | None => (w, n)
  | Some content =>
      if negb (contains ".Should()" content)
      then (w, n)
      else if negb (String.eqb (FixFinalShould.fix_all_should_patterns content) content)
           then (print ("Fixed: " ++ p)
                       (fwrite p (FixFinalShould.fix_all_should_patterns content) w), S n)
           else (w, n)
  end.
Proof. reflexivity. Qed.







Lemma fold_left_paths (A B C : Type) (h : A -> B -> A) (j : C -> B) (l : list C) (a : A) :
  fold_left (fun acc x => h acc (j x)) l a = fold_left h (map j l) a.
Proof. revert a; induction l as [|x l IH]; intros a; [reflexivity|]. simpl. apply IH. Qed.






(** * Whole runs, single rules and their edge cases *)
(** ** Whole runs over a tree without duplicate paths *)

Lemma read_app_skip (done todo : store) (p : string) :
  ~ In p (map fst done) -> read (done ++ todo)%list p = read todo p.
Proof.
  induction done as [|[q c] done IH]; intros H; [reflexivity|].
  simpl. destruct (String.eqb_spec q p) as [->|N].
  - exfalso. apply H. now left.
  - apply IH. intros Q. apply H. now right.
Qed.

Lemma update_app_skip (done todo : store) (p x : string) :
  ~ In p (map fst done) -> update (done ++ todo)%list p x = (done ++ update todo p x)%list.
Proof.
  induction done as [|[q c] done IH]; intros H; [reflexivity|].
  simpl. destruct (String.eqb_spec q p) as [->|N].
  - exfalso. apply H. now left.
  - f_equal. apply IH. intros Q. apply H. now right.
Qed.

Lemma map_fst_rewritten (sel : string -> bool) (g : string -> string) (fs : store) :
  map fst (map (rewritten sel g) fs) = map fst fs.
Proof. rewrite map_map. apply map_ext. reflexivity. Qed.

Lemma NoDup_app_head (done : store) (p c : string) (rest : store) :
  NoDup (map fst (done ++ (p, c) :: rest)%list) -> ~ In p (map fst done).
Proof.
  rewrite map_app. simpl. intros H Q.
  apply NoDup_remove_2 in H. apply H. apply in_or_app. now left.
Qed.

Section Run.

Variable sel : string -> bool.
Variable g : string -> string.
Variable report : string -> string.
Variable visit : string -> world * nat -> world * nat.

Hypothesis visit_some :
  forall p w n c, read (files w) p = Some c ->
    visit p (w, n) =
    if negb (String.eqb (g c) c)
    then (print (report p) (fwrite p (g c) w), S n)
    else (w, n).

(** The loop, file by file: [done] has been visited, [todo] is to come. *)
Lemma run_fold (todo : store) :
  forall (done : store) (wr : list (string * string)) (out : list string) (n : nat),
  NoDup (map fst (done ++ todo)%list) ->
  fold_left (fun acc p => if sel p then visit p acc else acc) (map fst todo)
            (World (map (rewritten sel g) done ++ todo)%list wr out, n)
  = (World (map (rewritten sel g) (done ++ todo)%list)
           (wr ++ map (fun pc => (fst pc, g (snd pc))) (changed_files sel g todo))%list
           (out ++ map (fun pc => report (fst pc)) (changed_files sel g todo))%list,
     n + List.length (changed_files sel g todo)).
Proof.
  induction todo as [|[p c] rest IH]; intros done wr out n ND.
  - simpl. now rewrite !List.app_nil_r, Nat.add_0_r.
  - assert (Hp : ~ In p (map fst (map (rewritten sel g) done)))
      by (rewrite map_fst_rewritten; eapply NoDup_app_head; eauto).
    assert (ND' : NoDup (map fst ((done ++ [(p, c)]) ++ rest)%list))
      by (now rewrite <- List.app_assoc).
    simpl map. simpl fold_left. unfold changed_files. simpl filter.
    destruct (sel p) eqn:Hs.
    + rewrite (visit_some p _ n c)
        by (simpl files; rewrite read_app_skip by exact Hp; simpl; now rewrite String.eqb_refl).
      destruct (negb (String.eqb (g c) c)) eqn:E.
      * unfold fwrite, print. simpl files. simpl writes. simpl stdout.
        rewrite update_app_skip by exact Hp. simpl update. rewrite String.eqb_refl.
        replace (map (rewritten sel g) done ++ (p, g c) :: rest)%list
          with (map (rewritten sel g) (done ++ [(p, c)]) ++ rest)%list
          by (rewrite map_app, <- List.app_assoc; unfold rewritten at 2; simpl;
              now rewrite Hs).
        rewrite (IH _ _ _ _ ND'). simpl andb. cbv iota. simpl map. simpl List.length.
        rewrite <- !List.app_assoc. simpl app.
        f_equal. unfold changed_files. lia.
      * apply negb_false_iff, String.eqb_eq in E.
        replace (map (rewritten sel g) done ++ (p, c) :: rest)%list
          with (map (rewritten sel g) (done ++ [(p, c)]) ++ rest)%list
          by (rewrite map_app, <- List.app_assoc; unfold rewritten at 2; simpl;
              now rewrite Hs, E).
        rewrite (IH _ _ _ _ ND'). rewrite <- !List.app_assoc. reflexivity.
    + replace (map (rewritten sel g) done ++ (p, c) :: rest)%list
        with (map (rewritten sel g) (done ++ [(p, c)]) ++ rest)%list
        by (rewrite map_app, <- List.app_assoc; unfold rewritten at 2; simpl;
            now rewrite Hs).
      rewrite (IH _ _ _ _ ND'). rewrite <- !List.app_assoc. reflexivity.
Qed.

Lemma run_walk (w : world) :
  NoDup (walk w) ->
  fold_left (fun acc p => if sel p then visit p acc else acc) (walk w) (w, 0)
  = run_result sel g report w.
Proof.
  intros ND. destruct w as [fs wr out]. unfold walk, run_result. simpl files.
  apply (run_fold fs [] wr out 0 ND).
Qed.

End Run.

Lemma fold_left_filter (A B : Type) (sel : B -> bool) (step : A -> B -> A) (l : list B) :
  forall acc, fold_left step (filter sel l) acc
              = fold_left (fun acc p => if sel p then step acc p else acc) l acc.
Proof.
  induction l as [|x l IH]; intros acc; [reflexivity|].
  simpl. destruct (sel x); simpl; apply IH.
Qed.

Lemma all_visit_some (p : string) (w : world) (n : nat) (c : string) :
  read (files w) p = Some c ->
  FixAllShould.visit p (w, n) =
  if negb (String.eqb (FixAllShould.fix_all_should_patterns c) c)
  then (print ("Fixed: " ++ p) (fwrite p (FixAllShould.fix_all_should_patterns c) w), S n)
  else (w, n).
Proof.
  intros R. rewrite all_visit_eq, R.
  destruct (negb (contains ".Should()" c) && negb (contains ".Assert." c)) eqn:G;
    [|reflexivity].
  apply andb_true_iff in G as [G1 G2]. apply negb_true_iff in G1, G2.
  now rewrite all_id, String.eqb_refl.
Qed.

Lemma complex_visit_some (p : string) (w : world) (n : nat) (c : string) :
  read (files w) p = Some c ->
  FixComplexShould.visit p (w, n) =
  if negb (String.eqb (FixComplexShould.fix_complex_should_patterns c) c)
  then (print ("Fixed: " ++ p)
              (fwrite p (FixComplexShould.fix_complex_should_patterns c) w), S n)
  else (w, n).
Proof.
  intros R. rewrite complex_visit_eq, R.
  destruct (negb (contains ".Should()" c)) eqn:G; [|reflexivity].
  apply negb_true_iff in G. now rewrite complex_id, String.eqb_refl.
Qed.

Lemma final_visit_some (p : string) (w : world) (n : nat) (c : string) :
  read (files w) p = Some c ->
  FixFinalShould.visit p (w, n) =
  if negb (String.eqb (FixFinalShould.fix_all_should_patterns c) c)
  then (print ("Fixed: " ++ p) (fwrite p (FixFinalShould.fix_all_should_patterns c) w), S n)
  else (w, n).
Proof.
  intros R. rewrite final_visit_eq, R.
  destruct (negb (contains ".Should()" c)) eqn:G; [|reflexivity].
  apply negb_true_iff in G. now rewrite final_id, String.eqb_refl.
Qed.

Lemma quotes_visit_some (p : string) (w : world) (n : nat) (c : string) :
  read (files w) p = Some c ->
  ReplaceQuotes.visit p (w, n) =
  if negb (String.eqb (gated (contains (dq ++ dq))
                             ReplaceQuotes.replace_double_quotes_in_json c) c)
  then (print ("Modified: " ++ basename p)
              (fwrite p (gated (contains (dq ++ dq))
                               ReplaceQuotes.replace_double_quotes_in_json c) w), S n)
  else (w, n).
Proof.
  intros R. unfold ReplaceQuotes.visit, ReplaceQuotes.process_file, gated. rewrite R.
  destruct (contains (dq ++ dq) c); [|now rewrite String.eqb_refl].
  now destruct (negb (String.eqb (ReplaceQuotes.replace_double_quotes_in_json c) c)).
Qed.

(** X1: a run of fix_all_should.py, fix_complex_should.py or
    fix_final_should.py over a tree whose paths are distinct ends with every
    [.cs] file holding its rewritten text and every other file its old
    text; the files whose text changed are written once each and reported
    with [Fixed: path], in the order of the walk, and the last line printed
    is [Total files fixed: ] with their number. *)
Theorem fix_run_rewrites_tree (w : world) :
  NoDup (walk w) ->
  FixAllShould.main w
  = (let r := run_result (ends_with ".cs") FixAllShould.fix_all_should_patterns
                         (fun p => "Fixed: " ++ p) w in
     print (String LF "Total files fixed: " ++ str_of_nat (snd r)) (fst r)) /\
  FixComplexShould.main w
  = (let r := run_result (ends_with ".cs") FixComplexShould.fix_complex_should_patterns
                         (fun p => "Fixed: " ++ p) w in
     print (String LF "Total files fixed: " ++ str_of_nat (snd r)) (fst r)) /\
  FixFinalShould.main w
  = (let r := run_result (ends_with ".cs") FixFinalShould.fix_all_should_patterns
                         (fun p => "Fixed: " ++ p) w in
     print (String LF "Total files fixed: " ++ str_of_nat (snd r)) (fst r)).
Proof.
  intros ND. split; [|split].
  - unfold FixAllShould.main.
    now rewrite (run_walk _ _ _ _ all_visit_some w ND).
  - unfold FixComplexShould.main.
    now rewrite (run_walk _ _ _ _ complex_visit_some w ND).
  - unfold FixFinalShould.main.
    now rewrite (run_walk _ _ _ _ final_visit_some w ND).
Qed.

(** X2: a run of replace_quotes.py over a tree whose paths are distinct
    first prints [Found n C# files in test directory] with the number of
    [.cs] files; then every [.cs] file with a doubled double quote holds the
    text replace_double_quotes_in_json makes of it, every other file its
    old text; the changed files are written once each and reported with
    [Modified: ] and their base name, and the last line is
    [Modified k files]. *)
Theorem quotes_run_rewrites_tree (w : world) :
  NoDup (walk w) ->
  ReplaceQuotes.main w
  = (let found := "Found " ++ str_of_nat (List.length (filter (ends_with ".cs") (walk w)))
                   ++ " C# files in test directory" in
     let r := run_result (ends_with ".cs")
                (gated (contains (dq ++ dq)) ReplaceQuotes.replace_double_quotes_in_json)
                (fun p => "Modified: " ++ basename p) (print found w) in
     print (String LF "Modified " ++ str_of_nat (snd r) ++ " files") (fst r)).
Proof.
  intros ND. unfold ReplaceQuotes.main. cbv zeta.
  rewrite (fold_left_filter _ _ (ends_with ".cs")
             (fun acc filepath => ReplaceQuotes.visit filepath acc)).
  set (W := print ("Found " ++ str_of_nat (List.length (filter (ends_with ".cs") (walk w)))
                     ++ " C# files in test directory") w).
  pose proof (run_walk (ends_with ".cs") _ _ _ quotes_visit_some W ND) as H.
  change (walk W) with (walk w) in H. now rewrite H.
Qed.

(** *** Reading and writing the store *)

Lemma read_update_same (fs : store) (a x : string) : read (update fs a x) a = Some x.
Proof.
  induction fs as [|[q c] fs IH]; simpl.
  - now rewrite String.eqb_refl.
  - destruct (String.eqb_spec q a) as [->|N]; simpl.
    + now rewrite String.eqb_refl.
    + destruct (String.eqb_spec q a); [congruence|exact IH].
Qed.

Lemma read_update_other (fs : store) (a x p : string) :
  a <> p -> read (update fs a x) p = read fs p.
Proof.
  intros N. induction fs as [|[q c] fs IH]; simpl.
  - destruct (String.eqb_spec a p); [congruence|reflexivity].
  - destruct (String.eqb_spec q a) as [->|Nq]; simpl.
    + destruct (String.eqb_spec a p); [congruence|reflexivity].
    + now rewrite IH.
Qed.

Lemma read_none_notin (fs : store) (a : string) :
  read fs a = None -> ~ In a (map fst fs).
Proof.
  induction fs as [|[q c] fs IH]; simpl; intros H; [tauto|].
  destruct (String.eqb_spec q a) as [->|N]; [discriminate|].
  intros [E|E]; [congruence|now apply IH].
Qed.

Lemma read_some_in (fs : store) (a c : string) :
  read fs a = Some c -> In a (map fst fs).
Proof.
  induction fs as [|[q d] fs IH]; simpl; intros H; [discriminate|].
  destruct (String.eqb_spec q a) as [->|N]; [now left|right; auto].
Qed.

(** Without duplicate paths, writing an existing file changes its entry and
    no other. *)
Lemma update_as_map (fs : store) (a c x : string) :
  NoDup (map fst fs) -> read fs a = Some c ->
  update fs a x = map (fun pc => if String.eqb (fst pc) a then (a, x) else pc) fs.
Proof.
  induction fs as [|[q d] fs IH]; simpl; intros ND R; [discriminate|].
  inversion ND as [|? ? Hq ND']; subst.
  destruct (String.eqb_spec q a) as [->|N].
  - f_equal. rewrite <- (map_id fs) at 1. apply map_ext_in.
    intros [q' d'] Hin. simpl.
    destruct (String.eqb_spec q' a) as [->|]; [|reflexivity].
    exfalso. apply Hq. change a with (fst (a, d')). now apply in_map.
  - f_equal. now apply IH.
Qed.

Lemma read_unique (fs : store) (a c d : string) :
  NoDup (map fst fs) -> read fs a = Some c -> In (a, d) fs -> d = c.
Proof.
  induction fs as [|[q e] fs IH]; simpl; intros ND R Hin; [tauto|].
  inversion ND as [|? ? Hq ND']; subst.
  destruct (String.eqb_spec q a) as [->|N].
  - destruct Hin as [E|Hin]; [congruence|].
    exfalso. apply Hq. change a with (fst (a, d)). now apply in_map.
  - destruct Hin as [E|Hin]; [congruence|]. now apply IH.
Qed.

Section Names.

Variable g : string -> string.
Variable report : string -> string.
Variable visit : string -> world * nat -> world * nat.

Hypothesis visit_eq :
  forall p w n,
    visit p (w, n) =
    match read (files w) p with
    | None => (w, n)
    | Some c =>
        if negb (String.eqb (g c) c)
        then (print (report p) (fwrite p (g c) w), S n)
        else (w, n)
    end.

Lemma picked_other (ns : list string) (fs : store) (a x : string) :
  ~ In a ns -> picked g ns (update fs a x) = picked g ns fs.
Proof.
  intros H. unfold picked. induction ns as [|b ns IH]; [reflexivity|].
  simpl. rewrite read_update_other by (intros ->; apply H; now left).
  f_equal. apply IH. intros Q. apply H. now right.
Qed.

Lemma named_notin (ns : list string) (a : string) : ~ In a ns -> named ns a = false.
Proof.
  unfold named. induction ns as [|b ns IH]; intros H; [reflexivity|].
  simpl. destruct (String.eqb_spec a b) as [->|N]; [exfalso; apply H; now left|].
  apply IH. intros Q. apply H. now right.
Qed.

(** A loop over a list of file names: the named files that exist are
    rewritten, a missing one is passed over. *)
Lemma names_fold (ns : list string) :
  forall (fs : store) (wr : list (string * string)) (out : list string) (n : nat),
  NoDup (map fst fs) -> NoDup ns ->
  fold_left (fun acc name => visit name acc) ns (World fs wr out, n)
  = (World (map (rewritten (named ns) g) fs)
           (wr ++ map (fun pc => (fst pc, g (snd pc))) (picked g ns fs))%list
           (out ++ map (fun pc => report (fst pc)) (picked g ns fs))%list,
     n + List.length (picked g ns fs)).
Proof.
  induction ns as [|a ns IH]; intros fs wr out n NDf NDn.
  - simpl. rewrite !List.app_nil_r, Nat.add_0_r. f_equal. f_equal.
    rewrite <- (map_id fs) at 1. apply map_ext. now intros [p c].
  - inversion NDn as [|? ? Ha NDn']; subst.
    simpl fold_left. rewrite visit_eq. simpl files.
    unfold picked. simpl flat_map. fold (picked g ns fs).
    destruct (read fs a) as [c|] eqn:R.
    + destruct (negb (String.eqb (g c) c)) eqn:E.
      * unfold fwrite, print. simpl files. simpl writes. simpl stdout.
        rewrite IH;
          [ | rewrite (update_as_map fs a c (g c) NDf R), map_map;
              erewrite map_ext; [exact NDf|]; intros [q d]; simpl;
              now destruct (String.eqb_spec q a)
            | exact NDn' ].
        rewrite (picked_other ns fs a (g c) Ha).
        simpl app. simpl map. simpl List.length. rewrite <- !List.app_assoc. simpl app.
        f_equal; [|lia]. f_equal.
        rewrite (update_as_map fs a c (g c) NDf R), map_map.
        apply map_ext_in. intros [q d] Hin. unfold rewritten. simpl.
        destruct (String.eqb_spec q a) as [->|N]; simpl.
        -- rewrite (named_notin ns a Ha).
           now rewrite (read_unique fs a c d NDf R Hin).
        -- reflexivity.
      * apply negb_false_iff, String.eqb_eq in E.
        rewrite IH by assumption. simpl app. f_equal. f_equal.
        apply map_ext_in. intros [q d] Hin. unfold rewritten. simpl.
        destruct (String.eqb_spec q a) as [->|N]; simpl; [|reflexivity].
        rewrite (read_unique fs a c d NDf R Hin), E. now destruct (named ns a).
    + rewrite IH by assumption. simpl app. f_equal. f_equal.
      apply map_ext_in. intros [q d] Hin. unfold rewritten. simpl.
      destruct (String.eqb_spec q a) as [->|N]; simpl; [|reflexivity].
      exfalso. apply (read_none_notin fs a R). change a with (fst (a, d)).
      now apply in_map.
Qed.

End Names.

Lemma remaining_visit_match (p : string) (w : world) (n : nat) :
  FixRemainingShould.visit p (w, n) =
  match read (files w) p with
  | None => (w, n)
  | Some c =>
      if negb (String.eqb (FixRemainingShould.fix_remaining_patterns c) c)
      then (print ("Fixed: " ++ p)
                  (fwrite p (FixRemainingShould.fix_remaining_patterns c) w), S n)
      else (w, n)
  end.
Proof. reflexivity. Qed.

(** The two paths the script builds are distinct, whatever the separator. *)
Lemma remaining_paths_nodup (sep : ascii) :
  NoDup (map (path_join sep FixRemainingShould.test_dir) FixRemainingShould.files_to_fix).
Proof.
  unfold path_join. simpl last_char. cbv beta iota.
  destruct (Ascii.eqb "t" sep || Ascii.eqb "t" "/");
    repeat constructor; simpl; intuition discriminate.
Qed.

(** X3: a run of fix_remaining_should.py touches the two paths it builds,
    [os.path.join(test_dir, file_name)] for the two names of its list, and
    no other, whatever the separator of the platform: in a tree whose
    paths are distinct, a file under such a path holds its rewritten text
    after the run, every other file, also one of the same name in another
    folder, its old text; the files under these paths whose text changes
    are written and reported with [Fixed: ] and the joined path, in the
    order of the list; a path with no file is passed over; and the last
    line is [Total files fixed: ] with the number of files written. *)
Theorem remaining_run_rewrites_named (sep : ascii) (w : world) :
  NoDup (walk w) ->
  FixRemainingShould.run sep w
  = (let paths := map (path_join sep FixRemainingShould.test_dir)
                      FixRemainingShould.files_to_fix in
     let ch := picked FixRemainingShould.fix_remaining_patterns paths (files w) in
     print (String LF "Total files fixed: " ++ str_of_nat (List.length ch))
       (World (map (rewritten (named paths)
                              FixRemainingShould.fix_remaining_patterns) (files w))
              (writes w ++ map (fun pc => (fst pc,
                                  FixRemainingShould.fix_remaining_patterns (snd pc))) ch)%list
              (stdout w ++ map (fun pc => ("Fixed: " ++ fst pc)%string) ch)%list)).
Proof.
  intros ND. unfold FixRemainingShould.run. destruct w as [fs wr out].
  rewrite (fold_left_paths _ _ _ (fun acc p => FixRemainingShould.visit p acc)
             (path_join sep FixRemainingShould.test_dir)).
  rewrite (names_fold _ _ _ remaining_visit_match _ fs wr out 0 ND
             (remaining_paths_nodup sep)).
  reflexivity.
Qed.

(** *** Backups *)

Lemma take_drop (n : nat) (s : string) : take n s ++ drop n s = s.
Proof.
  revert s; induction n as [|n IH]; intros s; [reflexivity|].
  destruct s as [|c s]; [reflexivity|]. simpl. now rewrite IH.
Qed.

Lemma ends_with_inv (p s : string) : ends_with p s = true -> exists t, s = t ++ p.
Proof.
  unfold ends_with. intros H. apply andb_true_iff in H as [_ H].
  apply String.eqb_eq in H.
  exists (take (String.length s - String.length p) s).
  rewrite <- H at 2. symmetry. apply take_drop.
Qed.

Lemma append_inv_tail (s p q : string) : p ++ s = q ++ s -> p = q.
Proof.
  revert q; induction p as [|c p IH]; intros q E.
  - destruct q as [|d q]; [reflexivity|exfalso].
    apply (f_equal String.length) in E. simpl in E. rewrite length_append in E. lia.
  - destruct q as [|d q].
    + exfalso. apply (f_equal String.length) in E. simpl in E.
      rewrite length_append in E. lia.
    + simpl in E. injection E as -> E. f_equal. now apply IH.
Qed.

(** A backup path is no [.cs] path. *)
Lemma backup_not_cs (p q : string) : ends_with ".cs" p = true -> p <> q ++ ".bak".
Proof.
  intros H E. apply ends_with_inv in H as [t ->].
  change (t ++ ".cs") with (t ++ ".c" ++ String "s" "") in E.
  change (q ++ ".bak") with (q ++ ".ba" ++ String "k" "") in E.
  rewrite <- !append_assoc in E. apply snoc_inj in E. discriminate.
Qed.

Lemma backup_not_self (p : string) : p ++ ".bak" <> p.
Proof.
  intros E. apply (f_equal String.length) in E. rewrite length_append in E.
  simpl in E. lia.
Qed.

(** A visit of [q] touches [q] and its backup only. *)
Lemma all_quotes_visit_frame (q x : string) (acc : world * nat) :
  x <> q -> x <> q ++ ".bak" ->
  read (files (fst (ReplaceAllQuotes.visit q acc))) x = read (files (fst acc)) x.
Proof.
  intros N1 N2. destruct acc as [w n].
  unfold ReplaceAllQuotes.visit, ReplaceAllQuotes.process_file.
  destruct (read (files w) q) as [c|]; [|reflexivity].
  destruct (contains (dq ++ dq) c); [|reflexivity].
  destruct (negb (String.eqb (ReplaceAllQuotes.replace_double_quotes_comprehensive c) c));
    [|reflexivity].
  simpl. rewrite !read_update_other; auto.
Qed.

Lemma all_quotes_fold_frame (ps : list string) (x : string) :
  forall acc,
  (forall q, In q ps -> x <> q /\ x <> q ++ ".bak") ->
  read (files (fst (fold_left (fun acc filepath => ReplaceAllQuotes.visit filepath acc)
                              ps acc))) x
  = read (files (fst acc)) x.
Proof.
  induction ps as [|q ps IH]; intros acc H; [reflexivity|].
  simpl. rewrite IH by (intros q' Hq; apply H; now right).
  destruct (H q (or_introl eq_refl)). now apply all_quotes_visit_frame.
Qed.

(** A visit of [p] leaves the gated rewrite in [p], and the old text in the
    backup when the text has changed. *)
Lemma all_quotes_visit_self (p c : string) (w : world) (n : nat) :
  read (files w) p = Some c ->
  read (files (fst (ReplaceAllQuotes.visit p (w, n)))) p
  = Some (gated (contains (dq ++ dq))
                ReplaceAllQuotes.replace_double_quotes_comprehensive c) /\
  (gated (contains (dq ++ dq)) ReplaceAllQuotes.replace_double_quotes_comprehensive c <> c ->
   read (files (fst (ReplaceAllQuotes.visit p (w, n)))) (p ++ ".bak") = Some c).
Proof.
  intros R. unfold ReplaceAllQuotes.visit, ReplaceAllQuotes.process_file, gated.
  rewrite R. destruct (contains (dq ++ dq) c); [|split; [exact R|congruence]].
  destruct (String.eqb_spec (ReplaceAllQuotes.replace_double_quotes_comprehensive c) c)
    as [E|N]; simpl.
  - split; [now rewrite E|congruence].
  - split; [apply read_update_same|].
    intros _. rewrite read_update_other by (intros Q; now apply (backup_not_self p)).
    apply read_update_same.
Qed.

Lemma all_quotes_main_files (w : world) :
  files (ReplaceAllQuotes.main w)
  = files (fst (fold_left (fun acc filepath => ReplaceAllQuotes.visit filepath acc)
                          (filter (ends_with ".cs") (walk w))
                          (print ("Found "
                                    ++ str_of_nat (List.length (filter (ends_with ".cs") (walk w)))
                                    ++ " C# files in test directory") w, 0))).
Proof.
  unfold ReplaceAllQuotes.main. cbv zeta. now destruct (fold_left _ _ _).
Qed.

(** X4: after a run of replace_all_quotes.py over a tree whose paths are
    distinct, a [.cs] file [p] that held [c] holds the rewritten text when
    [c] has a doubled double quote and [c] otherwise; when the text
    changed, [p.bak] holds the old text [c]; and a path [x] that is neither
    a [.cs] file of the tree nor the backup of one reads as before. *)
Theorem all_quotes_run_keeps_backup (w : world) (p c x : string) :
  NoDup (walk w) ->
  read (files w) p = Some c -> ends_with ".cs" p = true ->
  (forall q, In q (walk w) -> ends_with ".cs" q = true -> x <> q /\ x <> q ++ ".bak") ->
  read (files (ReplaceAllQuotes.main w)) p
  = Some (gated (contains (dq ++ dq))
                ReplaceAllQuotes.replace_double_quotes_comprehensive c) /\
  (gated (contains (dq ++ dq)) ReplaceAllQuotes.replace_double_quotes_comprehensive c <> c ->
   read (files (ReplaceAllQuotes.main w)) (p ++ ".bak") = Some c) /\
  read (files (ReplaceAllQuotes.main w)) x = read (files w) x.
Proof.
  intros ND R Hcs Hx. rewrite all_quotes_main_files.
  set (W := print _ w).
  assert (Hin : In p (filter (ends_with ".cs") (walk w))).
  { apply filter_In. split; [|exact Hcs]. eapply read_some_in; eauto. }
  assert (NDf : NoDup (filter (ends_with ".cs") (walk w))) by now apply NoDup_filter.
  split; [|split].
  - apply in_split in Hin as (l1 & l2 & E). rewrite E in NDf |- *.
    rewrite fold_left_app. simpl fold_left.
    assert (Hall : forall q, In q (l1 ++ p :: l2)%list -> ends_with ".cs" q = true)
      by (intros q Hq; rewrite <- E in Hq; now apply filter_In in Hq).
    rewrite all_quotes_fold_frame.
    + destruct (fold_left _ l1 (W, 0)) as [w1 n1] eqn:F1.
      apply all_quotes_visit_self.
      change w1 with (fst (w1, n1)). rewrite <- F1.
      rewrite all_quotes_fold_frame; [exact R|].
      intros q Hq. split; [|now apply backup_not_cs].
      intros ->. apply NoDup_remove_2 in NDf. apply NDf, in_or_app. now left.
    + intros q Hq. split; [|now apply backup_not_cs].
      intros ->. apply NoDup_remove_2 in NDf. apply NDf, in_or_app. now right.
  - intros Hg. apply in_split in Hin as (l1 & l2 & E). rewrite E in NDf |- *.
    rewrite fold_left_app. simpl fold_left.
    assert (Hall : forall q, In q (l1 ++ p :: l2)%list -> ends_with ".cs" q = true)
      by (intros q Hq; rewrite <- E in Hq; now apply filter_In in Hq).
    rewrite all_quotes_fold_frame.
    + destruct (fold_left _ l1 (W, 0)) as [w1 n1] eqn:F1.
      apply all_quotes_visit_self; [|exact Hg].
      change w1 with (fst (w1, n1)). rewrite <- F1.
      rewrite all_quotes_fold_frame; [exact R|].
      intros q Hq. split; [|now apply backup_not_cs].
      intros ->. apply NoDup_remove_2 in NDf. apply NDf, in_or_app. now left.
    + intros q Hq. split.
      * intros <-. apply (backup_not_cs (p ++ ".bak") p); [|reflexivity].
        apply Hall, in_or_app. right. now right.
      * intros Q. apply append_inv_tail in Q. subst q.
        apply NoDup_remove_2 in NDf. apply NDf, in_or_app. now right.
  - rewrite all_quotes_fold_frame; [reflexivity|].
    intros q Hq. apply filter_In in Hq as [Hq1 Hq2]. now apply Hx.
Qed.

Lemma sample_tree_nodup : NoDup (walk sample_tree).
Proof. repeat constructor; simpl; intuition discriminate. Defined.

Lemma sample_quotes_nodup : NoDup (walk sample_quotes).
Proof. repeat constructor; simpl; intuition discriminate. Defined.

Lemma sample_named_nodup : NoDup (walk sample_named).
Proof. repeat constructor; simpl; intuition discriminate. Defined.

Lemma fix_run_rewrites_tree_witness :
  NoDup (walk sample_tree) /\
  FixAllShould.main sample_tree
  = World [("A.cs", "Assert.Null(x);");
           ("notes.txt", "y.Should().BeNull();");
           ("B.cs", "int z;")]
          [("A.cs", "Assert.Null(x);")]
          ["Fixed: A.cs"; String LF "Total files fixed: 1"].
Proof.
  split; [exact sample_tree_nodup|].
  rewrite (proj1 (fix_run_rewrites_tree sample_tree sample_tree_nodup)).
  vm_compute. reflexivity.
Defined.

Lemma quotes_run_rewrites_tree_witness :
  NoDup (walk sample_quotes) /\
  ReplaceQuotes.main sample_quotes
  = World [("A.cs", "var json = @" ++ dq ++ "{'id'}" ++ dq ++ ";");
           ("notes.txt", dq ++ dq ++ "id" ++ dq ++ dq);
           ("B.cs", "int z;")]
          [("A.cs", "var json = @" ++ dq ++ "{'id'}" ++ dq ++ ";")]
          ["Found 2 C# files in test directory"; "Modified: A.cs";
           String LF "Modified 1 files"].
Proof.
  split; [exact sample_quotes_nodup|].
  rewrite (quotes_run_rewrites_tree sample_quotes sample_quotes_nodup).
  vm_compute. reflexivity.
Defined.

Lemma remaining_run_rewrites_named_witness :
  NoDup (walk sample_named) /\
  FixRemainingShould.main sample_named
  = World [("C:\Develop25\XStateNet\Test\UnitTest_InvokeServices.cs",
            "Assert.Equal(2, _contextValues[" ++ dq ++ "counter" ++ dq ++ "]);");
           ("C:\Develop25\XStateNet\Test\Other.cs",
            "_contextValues[" ++ dq ++ "counter" ++ dq ++ "].Should().Be(2);");
           ("C:\Develop25\XStateNet\Test\Sub\UnitTest_InvokeServices.cs",
            "_contextValues[" ++ dq ++ "counter" ++ dq ++ "].Should().Be(2);")]
          [("C:\Develop25\XStateNet\Test\UnitTest_InvokeServices.cs",
            "Assert.Equal(2, _contextValues[" ++ dq ++ "counter" ++ dq ++ "]);")]
          ["Fixed: C:\Develop25\XStateNet\Test\UnitTest_InvokeServices.cs";
           String LF "Total files fixed: 1"].
Proof.
  split; [exact sample_named_nodup|].
  change (FixRemainingShould.main sample_named)
    with (FixRemainingShould.run BSL sample_named).
  rewrite (remaining_run_rewrites_named BSL sample_named sample_named_nodup).
  vm_compute. reflexivity.
Defined.

Lemma all_quotes_run_keeps_backup_witness :
  NoDup (walk sample_quotes) /\
  read (files sample_quotes) "A.cs"
  = Some ("var json = @" ++ dq ++ "{" ++ dq ++ dq ++ "id" ++ dq ++ dq ++ "}" ++ dq ++ ";") /\
  ends_with ".cs" "A.cs" = true /\
  read (files (ReplaceAllQuotes.main sample_quotes)) "A.cs"
  = Some ("var json = @" ++ dq ++ "{'id'}" ++ dq ++ ";") /\
  read (files (ReplaceAllQuotes.main sample_quotes)) ("A.cs" ++ ".bak")
  = Some ("var json = @" ++ dq ++ "{" ++ dq ++ dq ++ "id" ++ dq ++ dq ++ "}" ++ dq ++ ";") /\
  read (files (ReplaceAllQuotes.main sample_quotes)) "notes.txt"
  = Some (dq ++ dq ++ "id" ++ dq ++ dq).
Proof.
  split; [exact sample_quotes_nodup|]. split; [reflexivity|]. split; [reflexivity|].
  assert (Hx : forall q, In q (walk sample_quotes) -> ends_with ".cs" q = true ->
                         "notes.txt" <> q /\ "notes.txt" <> q ++ ".bak").
  { intros q [<-|[<-|[<-|[]]]] H; try discriminate H; split; discriminate. }
  destruct (all_quotes_run_keeps_backup sample_quotes "A.cs" _ "notes.txt"
              sample_quotes_nodup eq_refl eq_refl Hx) as (H1 & H2 & H3).
  split; [rewrite H1; vm_compute; reflexivity|].
  split; [rewrite H2; [reflexivity|vm_compute; discriminate]|].
  rewrite H3. reflexivity.
Defined.

(** ** replace_all_quotes.py, line by line *)

(** [str.replace] brings in no character that the new text lacks. *)
Lemma replace_from_keeps_free (c : ascii) (old new : string) (s : string) :
  has_char c new = false ->
  forall skip, has_char c s = false -> has_char c (replace_from old new skip s) = false.
Proof.
  intros Hn. induction s as [|d s IH]; intros skip H.
  - destruct skip; simpl; [|reflexivity]. now destruct (starts_with old "").
  - simpl in H. apply orb_false_iff in H as [Hd Hs].
    destruct skip as [|k]; [|simpl; now apply IH].
    rewrite replace_from_eq.
    destruct (starts_with old (String d s)).
    + rewrite has_char_app, Hn. simpl.
      destruct (String.length old); [simpl; rewrite Hd|]; now apply IH.
    + simpl. rewrite Hd. now apply IH.
Qed.

Lemma fix_line_keeps_free (c : ascii) (line : string) :
  has_char c ReplaceAllQuotes.TEMP_ESCAPED = false ->
  Ascii.eqb c "'" = false -> Ascii.eqb c BSL = false -> Ascii.eqb c DQ = false ->
  has_char c line = false -> has_char c (ReplaceAllQuotes.fix_line line) = false.
Proof.
  intros H1 H2 H3 H4 H. unfold ReplaceAllQuotes.fix_line.
  destruct (existsb _ _); [|exact H]. cbv zeta. unfold replace.
  apply replace_from_keeps_free; [simpl; now rewrite H3, H4|].
  apply replace_from_keeps_free; [simpl; now rewrite H2|].
  apply replace_from_keeps_free; [exact H1|exact H].
Qed.

Lemma split_from_line_free (sep : ascii) (s cur l : string) :
  has_char sep cur = false -> In l (split_from sep cur s) -> has_char sep l = false.
Proof.
  revert cur; induction s as [|c s IH]; intros cur Hc H; simpl in H.
  - destruct H as [<-|[]]. exact Hc.
  - destruct (Ascii.eqb_spec c sep) as [->|N].
    + destruct H as [<-|H]; [exact Hc|]. now apply (IH "").
    + apply (IH (cur ++ String c "")); [|exact H].
      rewrite has_char_app, Hc. simpl.
      destruct (Ascii.eqb_spec sep c); [congruence|reflexivity].
Qed.

Lemma split_from_app (sep : ascii) (l cur s : string) :
  has_char sep l = false ->
  split_from sep cur (l ++ String sep s) = (cur ++ l) :: split_from sep "" s.
Proof.
  revert cur; induction l as [|c l IH]; intros cur H; simpl.
  - now rewrite Ascii.eqb_refl, append_nil_r.
  - simpl in H. apply orb_false_iff in H as [Hc H].
    rewrite Ascii.eqb_sym, Hc, IH by exact H. now rewrite append_assoc.
Qed.

(** Splitting a text joined from lines gives the lines back. *)
Lemma split_join (sep : ascii) (ls : list string) :
  ls <> [] -> Forall (fun l => has_char sep l = false) ls ->
  split sep (join (String sep "") ls) = ls.
Proof.
  unfold split. intros Hne H. induction H as [|l ls Hl H IH]; [congruence|].
  destruct ls as [|l2 ls].
  - simpl. now rewrite split_no_sep.
  - rewrite join_cons by discriminate. simpl append.
    rewrite split_from_app by exact Hl. simpl. f_equal. apply IH. discriminate.
Qed.

(** X5: replace_double_quotes_comprehensive works line by line: the lines
    of its output are the lines of the input, each put through the line
    rewrite, so no line is added, dropped or joined. *)
Theorem all_quotes_is_line_local (content : string) :
  split LF (ReplaceAllQuotes.replace_double_quotes_comprehensive content)
  = map ReplaceAllQuotes.fix_line (split LF content) /\
  List.length (split LF (ReplaceAllQuotes.replace_double_quotes_comprehensive content))
  = List.length (split LF content).
Proof.
  assert (E : split LF (ReplaceAllQuotes.replace_double_quotes_comprehensive content)
              = map ReplaceAllQuotes.fix_line (split LF content)).
  { unfold ReplaceAllQuotes.replace_double_quotes_comprehensive. cbv zeta.
    apply split_join.
    - unfold split. destruct (split_from LF "" content) eqn:E; [|discriminate].
      now apply split_from_nonempty in E.
    - apply Forall_forall. intros l Hl. apply in_map_iff in Hl as (l0 & <- & Hl0).
      apply fix_line_keeps_free; try reflexivity.
      now apply (split_from_line_free LF content "" l0). }
  split; [exact E|]. now rewrite E, length_map.
Qed.

(** Inside a text without a double quote no doubled quote starts. *)
Lemma clean_doubled (seg : string) :
  has_char DQ seg = false -> clean (dq ++ dq) seg.
Proof.
  intros H w1 w2 rest E Hw _. subst seg. apply has_char_suffix in H.
  destruct w2 as [|c w2]; [congruence|].
  change (has_char DQ (String c w2)) with (Ascii.eqb DQ c || has_char DQ w2) in H.
  apply orb_false_iff in H as [H _].
  change (Ascii.eqb DQ c && starts_with dq (w2 ++ rest) = false).
  now rewrite H.
Qed.

Lemma bare_segments (segs : list string) :
  forallb bare_segment segs = true ->
  forallb plain_segment segs = true /\
  Forall (fun s => has_char BSL s = false) segs.
Proof.
  induction segs as [|s segs IH]; simpl; intros H; [auto|].
  apply andb_true_iff in H as [Hs H]. unfold bare_segment in Hs.
  apply andb_true_iff in Hs as [Hp Hb]. apply negb_true_iff in Hb.
  destruct (IH H) as [IA IB]. rewrite Hp, IA. auto.
Qed.

Lemma fix_line_doubled (segs : list string) :
  forallb bare_segment segs = true -> 2 <= List.length segs ->
  ReplaceAllQuotes.fix_line (join (dq ++ dq) segs) = join "'" segs.
Proof.
  intros H Hlen. apply bare_segments in H as [H HB].
  apply plain_segments in H as (HQ & HU & _).
  unfold ReplaceAllQuotes.fix_line.
  assert (C : contains (dq ++ dq) (join (dq ++ dq) segs) = true).
  { destruct segs as [|s0 [|s1 segs]]; simpl in Hlen; try lia.
    change (join (dq ++ dq) (s0 :: s1 :: segs))
      with (s0 ++ (dq ++ dq) ++ join (dq ++ dq) (s1 :: segs)).
    apply contains_intro. }
  assert (E : existsb (fun pattern => contains pattern (join (dq ++ dq) segs))
                      ReplaceAllQuotes.markers = true).
  { unfold ReplaceAllQuotes.markers.
    change (contains (dq ++ dq) (join (dq ++ dq) segs)
            || existsb (fun pattern => contains pattern (join (dq ++ dq) segs))
                 ["@" ++ dq; "json"; "script"; "Script"; "stateMachine"] = true).
    now rewrite C. }
  rewrite E. cbv zeta.
  rewrite (replace_id (bsl ++ dq ++ dq))
    by (apply (contains_needs_char BSL); [reflexivity|];
        apply has_char_join; [reflexivity|exact HB]).
  rewrite replace_join;
    [ | discriminate
      | eapply Forall_impl; [|exact HQ]; intros s Hs; now apply clean_doubled ].
  apply replace_id. apply (contains_needs_char "_"); [reflexivity|].
  apply has_char_join; [reflexivity|exact HU].
Qed.

(** X6: on one line made of two or more pieces joined by doubled double
    quotes, the pieces holding no quote, backslash, line break or [_],
    replace_double_quotes_comprehensive puts one single quote for every
    doubled double quote and keeps the pieces. *)
Theorem doubled_quote_becomes_single (segs : list string) :
  forallb bare_segment segs = true -> 2 <= List.length segs ->
  ReplaceAllQuotes.replace_double_quotes_comprehensive (join (dq ++ dq) segs)
  = join "'" segs.
Proof.
  intros H Hlen. unfold ReplaceAllQuotes.replace_double_quotes_comprehensive. cbv zeta.
  unfold split. rewrite split_no_sep.
  - simpl. now apply fix_line_doubled.
  - apply has_char_join; [reflexivity|].
    apply bare_segments in H as [H _]. now apply plain_segments in H.
Qed.

Lemma doubled_quote_becomes_single_witness :
  forallb bare_segment ["{ "; "id"; ": "; "start"; " }"] = true /\
  2 <= List.length ["{ "; "id"; ": "; "start"; " }"] /\
  ReplaceAllQuotes.replace_double_quotes_comprehensive
    (join (dq ++ dq) ["{ "; "id"; ": "; "start"; " }"])
  = "{ 'id': 'start' }".
Proof.
  split; [reflexivity|]. split; [simpl; lia|].
  apply (doubled_quote_becomes_single ["{ "; "id"; ": "; "start"; " }"]);
    [reflexivity|simpl; lia].
Defined.

(** *** What [replace] leaves behind *)

(** After the doubled quotes are replaced none is left. *)
Lemma replace_from_no_doubled (s : string) :
  forall skip, contains (dq ++ dq) (replace_from (dq ++ dq) "'" skip s) = false.
Proof.
  induction s as [|d s IH]; intros skip.
  - destruct skip; reflexivity.
  - destruct skip as [|k]; [|simpl; apply IH].
    rewrite replace_from_eq.
    destruct (starts_with (dq ++ dq) (String d s)) eqn:E.
    + change (contains (dq ++ dq) (String "'" (replace_from (dq ++ dq) "'" 1 s)) = false).
      change (false || contains (dq ++ dq) (replace_from (dq ++ dq) "'" 1 s) = false).
      apply IH.
    + change (Ascii.eqb DQ d && starts_with dq (replace_from (dq ++ dq) "'" 0 s)
              || contains (dq ++ dq) (replace_from (dq ++ dq) "'" 0 s) = false).
      rewrite IH, orb_false_r.
      change (Ascii.eqb DQ d && starts_with dq s = false) in E.
      destruct (Ascii.eqb DQ d); [|reflexivity].
      rewrite andb_true_l in E |- *.
      destruct s as [|e s]; [reflexivity|].
      change (Ascii.eqb DQ e && true = false) in E. rewrite andb_true_r in E.
      rewrite replace_from_eq.
      change (starts_with (dq ++ dq) (String e s))
        with (Ascii.eqb DQ e && starts_with dq s).
      rewrite E, andb_false_l.
      change (Ascii.eqb DQ e && true = false). now rewrite E.
Qed.

(** A text without a single quote that starts the output of the
    replacement starts its input. *)
Lemma starts_with_replaced (L : string) :
  has_char "'" L = false ->
  forall t, starts_with L (replace_from (dq ++ dq) "'" 0 t) = true ->
            starts_with L t = true.
Proof.
  induction L as [|a L IH]; intros HL t H; [reflexivity|].
  simpl in HL. apply orb_false_iff in HL as [Ha HL].
  destruct t as [|d t]; [discriminate H|].
  rewrite replace_from_eq in H.
  destruct (starts_with (dq ++ dq) (String d t)).
  - simpl in H. apply andb_true_iff in H as [H _].
    apply Ascii.eqb_eq in H. subst a. discriminate Ha.
  - simpl in H |- *. apply andb_true_iff in H as [-> H]. simpl. now apply IH.
Qed.

Lemma replace_from_keeps_absent (L : string) (s : string) :
  has_char "'" L = false ->
  forall skip, contains L s = false ->
               contains L (replace_from (dq ++ dq) "'" skip s) = false.
Proof.
  intros HL. induction s as [|d s IH]; intros skip H.
  - destruct skip; simpl; exact H.
  - destruct skip as [|k]; [|simpl; apply IH; eapply contains_false_tail; eauto].
    destruct (contains L (replace_from (dq ++ dq) "'" 0 (String d s))) eqn:C;
      [exfalso|reflexivity].
    rewrite replace_from_eq in C.
    destruct (starts_with (dq ++ dq) (String d s)) eqn:E.
    + change (starts_with L (String "'" (replace_from (dq ++ dq) "'" 1 s))
              || contains L (replace_from (dq ++ dq) "'" 1 s) = true) in C.
      rewrite IH in C by (eapply contains_false_tail; eauto).
      rewrite orb_false_r in C.
      destruct L as [|a L]; [discriminate H|]. simpl in HL, C.
      apply orb_false_iff in HL as [Ha _]. apply andb_true_iff in C as [C _].
      apply Ascii.eqb_eq in C. subst a. discriminate Ha.
    + change (starts_with L (String d (replace_from (dq ++ dq) "'" 0 s))
              || contains L (replace_from (dq ++ dq) "'" 0 s) = true) in C.
      rewrite IH in C by (eapply contains_false_tail; eauto).
      rewrite orb_false_r in C.
      assert (Q : starts_with L (replace_from (dq ++ dq) "'" 0 (String d s)) = true)
        by (now rewrite replace_from_eq, E).
      apply starts_with_replaced in Q; [|exact HL].
      apply contains_false_head in H. congruence.
Qed.

(** A line without the sentinel: the check for markers makes no
    difference. *)
Lemma fix_line_requote (line : string) :
  contains ReplaceAllQuotes.TEMP_ESCAPED line = false ->
  ReplaceAllQuotes.fix_line line = requote line.
Proof.
  intros HT. unfold ReplaceAllQuotes.fix_line, requote.
  destruct (existsb _ _) eqn:E; [reflexivity|].
  unfold ReplaceAllQuotes.markers in E.
  change (contains (dq ++ dq) line
          || existsb (fun pattern => contains pattern line)
               ["@" ++ dq; "json"; "script"; "Script"; "stateMachine"] = false) in E.
  apply orb_false_iff in E as [E _].
  rewrite (replace_id (bsl ++ dq ++ dq))
    by (apply (contains_part bsl (dq ++ dq) ""), E).
  rewrite (replace_id (dq ++ dq)) by exact E.
  now rewrite replace_id.
Qed.

(** A line with neither an escaped doubled quote nor the sentinel comes out
    with no doubled quote and no sentinel. *)
Lemma fix_line_settles (line : string) :
  contains (bsl ++ dq ++ dq) line = false ->
  contains ReplaceAllQuotes.TEMP_ESCAPED line = false ->
  contains (dq ++ dq) (ReplaceAllQuotes.fix_line line) = false /\
  contains ReplaceAllQuotes.TEMP_ESCAPED (ReplaceAllQuotes.fix_line line) = false.
Proof.
  intros HE HT. rewrite (fix_line_requote line HT). unfold requote.
  rewrite (replace_id (bsl ++ dq ++ dq)) by exact HE.
  assert (Q : contains ReplaceAllQuotes.TEMP_ESCAPED (replace (dq ++ dq) "'" line) = false)
    by (apply replace_from_keeps_absent; [reflexivity|exact HT]).
  rewrite (replace_id ReplaceAllQuotes.TEMP_ESCAPED) by exact Q.
  split; [apply replace_from_no_doubled|exact Q].
Qed.

Lemma contains_join (c : ascii) (L : string) (ls : list string) :
  has_char c L = false -> Forall (fun l => contains L l = false) ls ->
  contains L "" = false ->
  contains L (join (String c "") ls) = false.
Proof.
  intros Hc H H0. induction H as [|l ls Hl H IH]; [exact H0|].
  destruct ls as [|l2 ls]; [exact Hl|].
  rewrite join_cons by discriminate. simpl append.
  apply contains_sep; [exact Hc|exact Hl|exact IH].
Qed.

(** X7: on a text with no escaped doubled quote (backslash, quote, quote)
    and without the sentinel text, the output of
    replace_double_quotes_comprehensive has no doubled double quote left,
    and a second pass returns it unchanged. *)
Theorem all_quotes_settles_without_escapes (content : string) :
  contains (bsl ++ dq ++ dq) content = false ->
  contains ReplaceAllQuotes.TEMP_ESCAPED content = false ->
  contains (dq ++ dq) (ReplaceAllQuotes.replace_double_quotes_comprehensive content) = false /\
  ReplaceAllQuotes.replace_double_quotes_comprehensive
    (ReplaceAllQuotes.replace_double_quotes_comprehensive content)
  = ReplaceAllQuotes.replace_double_quotes_comprehensive content.
Proof.
  intros HE HT.
  assert (A : Forall (fun l => contains (dq ++ dq) l = false /\
                               contains ReplaceAllQuotes.TEMP_ESCAPED l = false)
                     (map ReplaceAllQuotes.fix_line (split LF content))).
  { apply Forall_forall. intros l Hl. apply in_map_iff in Hl as (l0 & <- & Hl0).
    apply fix_line_settles; eapply split_line_lacks; eauto. }
  assert (B : contains (dq ++ dq)
                (ReplaceAllQuotes.replace_double_quotes_comprehensive content) = false).
  { unfold ReplaceAllQuotes.replace_double_quotes_comprehensive. cbv zeta.
    apply contains_join; [reflexivity| |reflexivity].
    eapply Forall_impl; [|exact A]. now intros l [H _]. }
  assert (C : contains ReplaceAllQuotes.TEMP_ESCAPED
                (ReplaceAllQuotes.replace_double_quotes_comprehensive content) = false).
  { unfold ReplaceAllQuotes.replace_double_quotes_comprehensive. cbv zeta.
    apply contains_join; [reflexivity| |reflexivity].
    eapply Forall_impl; [|exact A]. now intros l [_ H]. }
  split; [exact B|]. now apply all_quotes_id.
Qed.

Lemma all_quotes_settles_without_escapes_witness :
  contains (bsl ++ dq ++ dq) (dq ++ dq ++ dq ++ "a" ++ dq ++ dq ++ dq ++ dq ++ "b") = false /\
  contains ReplaceAllQuotes.TEMP_ESCAPED
    (dq ++ dq ++ dq ++ "a" ++ dq ++ dq ++ dq ++ dq ++ "b") = false /\
  ReplaceAllQuotes.replace_double_quotes_comprehensive
    (dq ++ dq ++ dq ++ "a" ++ dq ++ dq ++ dq ++ dq ++ "b")
  = "'" ++ dq ++ "a''b" /\
  contains (dq ++ dq)
    (ReplaceAllQuotes.replace_double_quotes_comprehensive
       (dq ++ dq ++ dq ++ "a" ++ dq ++ dq ++ dq ++ dq ++ "b")) = false /\
  ReplaceAllQuotes.replace_double_quotes_comprehensive
    (ReplaceAllQuotes.replace_double_quotes_comprehensive
       (dq ++ dq ++ dq ++ "a" ++ dq ++ dq ++ dq ++ dq ++ "b"))
  = ReplaceAllQuotes.replace_double_quotes_comprehensive
      (dq ++ dq ++ dq ++ "a" ++ dq ++ dq ++ dq ++ dq ++ "b").
Proof.
  split; [reflexivity|]. split; [reflexivity|]. split; [vm_compute; reflexivity|].
  apply (all_quotes_settles_without_escapes
           (dq ++ dq ++ dq ++ "a" ++ dq ++ dq ++ dq ++ dq ++ "b")); reflexivity.
Defined.

(** X8: the marker test of replace_double_quotes_comprehensive only
    matters for lines with the sentinel text: on a text without it, the
    function equals the three replacements applied to every line, marked
    or not. *)
Theorem all_quotes_markers_are_idle (content : string) :
  contains ReplaceAllQuotes.TEMP_ESCAPED content = false ->
  ReplaceAllQuotes.replace_double_quotes_comprehensive content
  = join (String LF "") (map requote (split LF content)).
Proof.
  intros HT. unfold ReplaceAllQuotes.replace_double_quotes_comprehensive. cbv zeta.
  f_equal. apply map_ext_in. intros l Hl. apply fix_line_requote.
  eapply split_line_lacks; eauto.
Qed.

Lemma all_quotes_markers_are_idle_witness :
  contains ReplaceAllQuotes.TEMP_ESCAPED
    ("int x;" ++ String LF ("s = " ++ dq ++ dq ++ "a" ++ dq ++ dq ++ ";")) = false /\
  ReplaceAllQuotes.replace_double_quotes_comprehensive
    ("int x;" ++ String LF ("s = " ++ dq ++ dq ++ "a" ++ dq ++ dq ++ ";"))
  = join (String LF "")
      (map requote (split LF ("int x;" ++ String LF ("s = " ++ dq ++ dq ++ "a" ++ dq ++ dq ++ ";")))).
Proof.
  split; [reflexivity|].
  apply (all_quotes_markers_are_idle
           ("int x;" ++ String LF ("s = " ++ dq ++ dq ++ "a" ++ dq ++ dq ++ ";")));
    reflexivity.
Defined.

(** ** replace_quotes.py: the first rule *)

Lemma re_sub_copy (pat repl pre s : string) :
  (forall w1 w2, pre = w1 ++ w2 -> w2 <> "" ->
                 re_match (compile pat) (w2 ++ s) mstate0 = None) ->
  re_sub pat repl (pre ++ s) = pre ++ re_sub pat repl s.
Proof. intros H. unfold re_sub. now apply sub_from_copy. Qed.

(** A pattern that begins with the character [c] matches nowhere inside a
    text without [c]. *)
Lemma lit_head_blocked (c : ascii) (q : pattern) (pre s : string) :
  has_char c pre = false ->
  forall w1 w2, pre = w1 ++ w2 -> w2 <> "" ->
                re_match (Lit c :: q) (w2 ++ s) mstate0 = None.
Proof.
  intros H w1 w2 E Hw. subst pre. apply has_char_suffix in H.
  destruct w2 as [|d w2]; [congruence|].
  change (has_char c (String d w2)) with (Ascii.eqb c d || has_char c w2) in H.
  apply orb_false_iff in H as [H _].
  change ((if Ascii.eqb c d then re_match q (w2 ++ s) mstate0 else None) = None).
  now rewrite H.
Qed.

Lemma quote_free_item_inv (s k : string) :
  quote_free_item (s, k) = true ->
  has_char DQ s = false /\ has_char DQ k = false /\ k <> "".
Proof.
  unfold quote_free_item. simpl. intros H.
  apply andb_true_iff in H as [H H3]. apply andb_true_iff in H as [H1 H2].
  apply negb_true_iff in H1, H2, H3. apply String.eqb_neq in H3. auto.
Qed.

Lemma tokens_quote_free (items : list (string * string)) (tail : string) :
  forallb quote_free_item items = true -> has_char DQ tail = false ->
  has_char DQ (tokens "'" "'" items tail) = false.
Proof.
  intros H Ht. induction items as [|[s k] items IH]; [exact Ht|].
  simpl in H. apply andb_true_iff in H as [Hi H].
  apply quote_free_item_inv in Hi as (Hs & Hk & _).
  simpl tokens. rewrite has_char_app, Hs. simpl. rewrite has_char_app, Hk. simpl.
  exact (IH H).
Qed.

Lemma first_rule_tokens (items : list (string * string)) (tail : string) :
  forallb quote_free_item items = true -> has_char DQ tail = false ->
  re_sub (dq ++ dq ++ "([^" ++ dq ++ "]+)" ++ dq ++ dq) "'\1'"
         (tokens (dq ++ dq) (dq ++ dq) items tail)
  = tokens "'" "'" items tail.
Proof.
  intros H Ht. induction items as [|[s k] items IH].
  - simpl tokens. apply (re_sub_id dq); [reflexivity|].
    apply (contains_needs_char DQ); [reflexivity|exact Ht].
  - simpl in H. apply andb_true_iff in H as [Hi H].
    apply quote_free_item_inv in Hi as (Hs & Hk & Hne).
    change (tokens (dq ++ dq) (dq ++ dq) ((s, k) :: items) tail)
      with (s ++ (dq ++ dq) ++ k ++ (dq ++ dq) ++ tokens (dq ++ dq) (dq ++ dq) items tail).
    change (tokens "'" "'" ((s, k) :: items) tail)
      with (s ++ "'" ++ k ++ "'" ++ tokens "'" "'" items tail).
    rewrite re_sub_copy by (now apply lit_head_blocked).
    f_equal.
    replace ((dq ++ dq) ++ k ++ (dq ++ dq) ++ tokens (dq ++ dq) (dq ++ dq) items tail)
      with (((dq ++ dq) ++ k ++ (dq ++ dq)) ++ tokens (dq ++ dq) (dq ++ dq) items tail)
      by (now rewrite !append_assoc).
    rewrite (re_sub_fire _ _ _ _
               (captured 1 k ((dq ++ dq) ++ tokens (dq ++ dq) (dq ++ dq) items tail)
                         mstate0)).
    + rewrite (IH H). simpl expand. simpl append. now rewrite append_assoc.
    + discriminate.
    + rewrite (append_assoc (dq ++ dq)), (append_assoc k).
      change (compile (dq ++ dq ++ "([^" ++ dq ++ "]+)" ++ dq ++ dq))
        with (lits (dq ++ dq) ++ plus_group 1 not_dq ++ lits (dq ++ dq) ++ [])%list.
      rewrite re_match_lits.
      apply plus_group_run; [exact Hne|apply (all_in_without DQ), Hk|reflexivity|].
      now rewrite re_match_lits.
Qed.

(** X9: in a text made of stretches without a double quote and of
    non-empty tokens without one, each token between doubled double quotes,
    replace_double_quotes_in_json puts single quotes around every token and
    keeps stretches and tokens. *)
Theorem doubled_tokens_are_requoted (items : list (string * string)) (tail : string) :
  forallb quote_free_item items = true -> has_char DQ tail = false ->
  ReplaceQuotes.replace_double_quotes_in_json (tokens (dq ++ dq) (dq ++ dq) items tail)
  = tokens "'" "'" items tail.
Proof.
  intros H Ht. unfold ReplaceQuotes.replace_double_quotes_in_json. cbv zeta.
  rewrite (first_rule_tokens items tail H Ht).
  apply (re_sub_id dq); [reflexivity|].
  apply (contains_needs_char DQ); [reflexivity|]. now apply tokens_quote_free.
Qed.

Lemma doubled_tokens_are_requoted_witness :
  forallb quote_free_item [("{ ", "id"); (": ", "start")] = true /\
  has_char DQ " }" = false /\
  ReplaceQuotes.replace_double_quotes_in_json
    (tokens (dq ++ dq) (dq ++ dq) [("{ ", "id"); (": ", "start")] " }")
  = "{ 'id': 'start' }".
Proof.
  split; [reflexivity|]. split; [reflexivity|].
  apply (doubled_tokens_are_requoted [("{ ", "id"); (": ", "start")] " }"); reflexivity.
Defined.

(** ** The one place where a literal stands *)

Lemma append_eq_app (u v x y : string) :
  u ++ v = x ++ y ->
  (exists z, u = x ++ z /\ y = z ++ v) \/ (exists z, x = u ++ z /\ v = z ++ y).
Proof.
  revert x; induction u as [|c u IH]; intros x E; simpl in E.
  - right. exists x. auto.
  - destruct x as [|d x]; simpl in E.
    + left. exists (String c u). auto.
    + injection E as <- E. destruct (IH _ E) as [(z & -> & ->)|(z & -> & ->)].
      * left. exists z. auto.
      * right. exists z. auto.
Qed.

Lemma append_inv_head (p s t : string) : p ++ s = p ++ t -> s = t.
Proof. induction p as [|c p IH]; simpl; intros E; [exact E|]. injection E as E. auto. Qed.

(** A literal that overlaps no copy of itself, in a text that holds it
    once: an occurrence is that one. *)
Lemma unique_occurrence (K X T x y : string) :
  unbordered K = true -> contains K X = false -> contains K T = false ->
  X ++ K ++ T = x ++ K ++ y -> x = X /\ y = T.
Proof.
  intros HK HX HT E.
  apply append_eq_app in E as [(z & -> & E)|(z & -> & E)].
  - assert (Hz : z = "").
    { apply (anchor K z T HK).
      + eapply contains_false_app_r; eauto.
      + rewrite <- E. apply starts_with_app. }
    subst z. rewrite append_nil_r. simpl in E. apply append_inv_head in E. auto.
  - destruct z as [|c z].
    + rewrite append_nil_r. simpl in E. apply append_inv_head in E. auto.
    + exfalso. apply append_eq_app in E as [(z2 & E1 & E2)|(z2 & E1 & E2)].
      * destruct z2 as [|d z2].
        -- simpl in E2. pose proof (contains_intro K "" y) as Q. simpl in Q.
           congruence.
        -- assert (P : starts_with (String d z2) K = true).
           { apply (starts_with_short _ _ y).
             - rewrite E2. apply starts_with_app.
             - rewrite E1, length_append. lia. }
           destruct K as [|k K]; [discriminate HK|]. simpl in HK.
           simpl in E1. injection E1 as -> E1.
           rewrite (no_border_inv _ _ z (String d z2) HK E1) in P; discriminate.
      * pose proof (contains_intro K z2 y) as Q. congruence.
Qed.

(** A longer literal around [K] stands where [K] stands. *)
Lemma aligned (K S C X T : string) :
  unbordered K = true -> contains K X = false -> contains K T = false ->
  contains (S ++ K ++ C) (X ++ K ++ T) = true ->
  (exists x, X = x ++ S) /\ starts_with C T = true.
Proof.
  intros HK HX HT H. apply contains_inv in H as (a & b & E).
  rewrite !append_assoc in E. rewrite <- (append_assoc a S) in E.
  apply unique_occurrence in E as [E1 E2]; try assumption.
  split; [now exists a|]. rewrite <- E2. apply starts_with_app.
Qed.

Lemma ends_with_app (s z : string) : ends_with s (z ++ s) = true.
Proof.
  unfold ends_with. rewrite length_append.
  replace (String.length z + String.length s - String.length s) with (String.length z) by lia.
  apply andb_true_iff. split; [apply Nat.leb_le; lia|].
  apply String.eqb_eq. induction z; simpl; [now destruct s|assumption].
Qed.

(** A text that ends in [A] ends in [S] only if [A] does, or [S] is
    longer. *)
Lemma suffix_of_suffix (pre A x S : string) :
  pre ++ A = x ++ S -> ends_with S A = true \/ String.length A < String.length S.
Proof.
  intros E. apply append_eq_app in E as [(z & -> & ->)|(z & -> & ->)].
  - destruct z as [|c z]; [left; apply (ends_with_app A "")|right].
    simpl. rewrite length_append. lia.
  - left. apply ends_with_app.
Qed.

(** [S ++ K ++ C] is absent when the text in front of the one [K] does not
    end in [S]. *)
Lemma absent_by_front (K S C pre A T : string) :
  unbordered K = true -> contains K (pre ++ A) = false -> contains K T = false ->
  ends_with S A = false -> String.length S <= String.length A ->
  contains (S ++ K ++ C) (pre ++ A ++ K ++ T) = false.
Proof.
  intros HK HX HT HS Hlen.
  destruct (contains (S ++ K ++ C) (pre ++ A ++ K ++ T)) eqn:E; [exfalso|reflexivity].
  rewrite <- (append_assoc pre A) in E.
  apply aligned in E as [[x E] _]; try assumption.
  apply suffix_of_suffix in E as [E|E]; [congruence|lia].
Qed.

(** [S ++ K ++ C] is absent when the text behind the one [K] does not
    start with [C]. *)
Lemma absent_by_back (K S C X T : string) :
  unbordered K = true -> contains K X = false -> contains K T = false ->
  starts_with C T = false ->
  contains (S ++ K ++ C) (X ++ K ++ T) = false.
Proof.
  intros HK HX HT HC.
  destruct (contains (S ++ K ++ C) (X ++ K ++ T)) eqn:E; [exfalso|reflexivity].
  apply aligned in E as [_ E]; try assumption. congruence.
Qed.

(** In a text without the first character of [L] no occurrence of [L]
    starts. *)
Lemma contains_skip (c : ascii) (L a s : string) :
  has_char c a = false -> contains (String c L) (a ++ s) = contains (String c L) s.
Proof.
  induction a as [|d a IH]; intros H; [reflexivity|].
  simpl in H. apply orb_false_iff in H as [Hd H].
  simpl append. simpl contains. rewrite Hd. simpl. now apply IH.
Qed.

(** ** fix_remaining_should.py: the rules *)

(** The rule shape [K1([c]+)K2], with a literal head. *)
Lemma fire_lit_plus (pat repl K1 K2 : string) (c : cset) (pre v tail : string) :
  compile pat = (lits K1 ++ plus_group 1 c ++ lits K2 ++ [])%list ->
  unbordered K1 = true -> contains K1 pre = false ->
  v <> "" -> all_in c v = true -> stops c (K2 ++ tail) = true ->
  re_sub pat repl (pre ++ K1 ++ v ++ K2 ++ tail)
  = pre ++ expand (template repl) [(1, v)] ++ re_sub pat repl tail.
Proof.
  intros Hp HK Hpre Hne Hv Hs.
  rewrite re_sub_copy.
  - f_equal.
    replace (K1 ++ v ++ K2 ++ tail) with ((K1 ++ v ++ K2) ++ tail)
      by (now rewrite !append_assoc).
    rewrite (re_sub_fire pat repl (K1 ++ v ++ K2) tail
               (captured 1 v (K2 ++ tail) mstate0)).
    + reflexivity.
    + destruct K1; [discriminate HK|discriminate].
    + rewrite Hp, !append_assoc, re_match_lits.
      apply plus_group_run; [exact Hne|exact Hv|exact Hs|].
      now rewrite re_match_lits.
  - intros w1 w2 E Hw. rewrite Hp.
    destruct (re_match _ _ _) eqn:M; [exfalso|reflexivity].
    apply re_match_lits_inv in M as (s1 & E1 & _).
    assert (Q : starts_with K1 (w2 ++ K1 ++ v ++ K2 ++ tail) = true)
      by (rewrite E1; apply starts_with_app).
    apply anchor in Q; [congruence|exact HK|].
    subst pre. eapply contains_false_app_r; eauto.
Qed.

Lemma digits_no_dot (n : string) : all_in digit n = true -> has_char "." n = false.
Proof. now apply all_in_lacks. Qed.

(** The one [.Should()] of a call is the only one of the buffer. *)
Lemma no_should_front (pre A : string) :
  contains ".Should()" pre = false -> contains ".Should()" (String "_" A) = false ->
  contains ".Should()" (pre ++ String "_" A) = false.
Proof.
  intros H1 H2. apply contains_sep; [reflexivity|exact H1|].
  simpl in H2. exact H2.
Qed.

Lemma no_should_digits (n post : string) :
  all_in digit n = true -> contains ".Should()" post = false ->
  contains ".Should()" (".Be(" ++ n ++ ")" ++ post) = false.
Proof.
  intros Hn Hp.
  change (contains ".Should()" (".Be(" ++ n ++ ")" ++ post))
    with (contains ".Should()" (n ++ ")" ++ post)).
  rewrite contains_skip by (now apply digits_no_dot).
  exact Hp.
Qed.

Lemma no_should_quoted (s post : string) :
  contains ".Should()" s = false -> contains ".Should()" post = false ->
  contains ".Should()" (".Be(" ++ dq ++ s ++ dq ++ ")" ++ post) = false.
Proof.
  intros Hs Hp.
  change (contains ".Should()" (".Be(" ++ dq ++ s ++ dq ++ ")" ++ post))
    with (contains ".Should()" (s ++ String DQ (")" ++ post))).
  apply contains_sep; [reflexivity|exact Hs|exact Hp].
Qed.

Lemma remaining_counter (pre post n : string) :
  contains ".Should()" pre = false -> contains ".Should()" post = false ->
  n <> "" -> all_in digit n = true ->
  FixRemainingShould.fix_remaining_patterns
    (pre ++ context_counter ++ ".Should().Be(" ++ n ++ ")" ++ post)
  = pre ++ "Assert.Equal(" ++ n ++ ", " ++ context_counter ++ ")" ++ post.
Proof.
  intros Hpre Hpost Hne Hn. unfold FixRemainingShould.fix_remaining_patterns. cbv zeta.
  replace (pre ++ context_counter ++ ".Should().Be(" ++ n ++ ")" ++ post)
    with (pre ++ (context_counter ++ ".Should().Be(") ++ n ++ ")" ++ post)
    by (now rewrite !append_assoc).
  rewrite (fire_lit_plus _ _ (context_counter ++ ".Should().Be(") ")" digit pre n post);
    [ | reflexivity | reflexivity
      | apply (contains_part context_counter ".Should()" ".Be("), Hpre
      | exact Hne | exact Hn | reflexivity ].
  rewrite (re_sub_id ".Should()" _ _ post) by (first [exact eq_refl | exact Hpost]).
  simpl expand. simpl append. rewrite !append_assoc. simpl append.
  match goal with |- context [re_sub _ _ (pre ++ ?r)] => set (Out := pre ++ r) end.
  assert (HO : contains ".Should()" Out = false).
  { unfold Out. apply (contains_sep "A"); [reflexivity|exact Hpre|].
    simpl. apply (contains_sep ","); [reflexivity| |simpl; exact Hpost].
    apply (contains_needs_char "."); [reflexivity|now apply digits_no_dot]. }
  skip_all ".Should()" Out HO. unfold Out. reflexivity.
Qed.

(** A rule literal [S.Should()C] is absent from a buffer whose one call
    has another receiver in front of [.Should()]. *)
Lemma rule_absent_quoted (S C A pre s post : string) :
  contains ".Should()" pre = false -> contains ".Should()" (String "_" A) = false ->
  contains ".Should()" s = false -> contains ".Should()" post = false ->
  ends_with S (String "_" A) = false ->
  String.length S <= String.length (String "_" A) ->
  contains (S ++ ".Should()" ++ C)
           (pre ++ String "_" A ++ ".Should()" ++ ".Be(" ++ dq ++ s ++ dq ++ ")" ++ post)
  = false.
Proof.
  intros Hpre HA Hs Hpost HS Hlen.
  apply absent_by_front; try assumption; [reflexivity| |].
  - now apply no_should_front.
  - now apply no_should_quoted.
Qed.

(** The output of a rule for a quoted argument holds no [.Should()]. *)
Lemma quoted_output_settled (pre s A post : string) :
  contains ".Should()" pre = false -> contains ".Should()" s = false ->
  contains ".Should()" (A ++ ")" ++ post) = false ->
  contains ".Should()" (pre ++ "Assert.Equal(" ++ dq ++ s ++ dq ++ ", " ++ A ++ ")" ++ post)
  = false.
Proof.
  intros Hpre Hs HA. apply (contains_sep "A"); [reflexivity|exact Hpre|].
  change (contains ".Should()" (s ++ String DQ (", " ++ A ++ ")" ++ post)) = false).
  apply contains_sep; [reflexivity|exact Hs|exact HA].
Qed.

Ltac remaining_skip S C A pre s post Hpre Hs Hpost :=
  rewrite (re_sub_id (S ++ ".Should()" ++ C) _ _
             (pre ++ A ++ ".Should().Be(" ++ dq ++ s ++ dq ++ ")" ++ post))
    by (first [ exact eq_refl
              | match eval vm_compute in A with
                | String "_" ?A' =>
                    apply (rule_absent_quoted S C A' pre s post Hpre eq_refl Hs Hpost eq_refl);
                    simpl; lia
                end ]).

Ltac remaining_fire A pre s post Hpre Hs Hne Hq Hpost :=
  replace (pre ++ A ++ ".Should().Be(" ++ dq ++ s ++ dq ++ ")" ++ post)
    with (pre ++ (A ++ ".Should().Be(" ++ dq) ++ s ++ (dq ++ ")") ++ post)
    by (now rewrite !append_assoc);
  rewrite (fire_lit_plus _ _ (A ++ ".Should().Be(" ++ dq) (dq ++ ")") not_dq pre s post);
    [ | reflexivity | reflexivity
      | apply (contains_part A ".Should()" (".Be(" ++ dq)), Hpre
      | exact Hne | apply (all_in_without DQ), Hq | reflexivity ];
  rewrite (re_sub_id ".Should()" _ _ post) by (first [exact eq_refl | exact Hpost]);
  simpl expand; simpl append; rewrite !append_assoc; simpl append.

Ltac remaining_settle pre s A post Hpre Hs Hpost :=
  match goal with
  | |- context [re_sub _ _ (pre ++ ?r)] =>
      let HO := fresh "HO" in
      assert (HO : contains ".Should()" (pre ++ r) = false)
        by (apply (quoted_output_settled pre s A post Hpre Hs); simpl; exact Hpost);
      skip_all ".Should()" (pre ++ r) HO; reflexivity
  end.

Lemma remaining_value_bang (pre post s : string) :
  contains ".Should()" pre = false -> contains ".Should()" post = false ->
  s <> "" -> has_char DQ s = false -> contains ".Should()" s = false ->
  FixRemainingShould.fix_remaining_patterns
    (pre ++ context_map "!" "value" ++ ".Should().Be(" ++ dq ++ s ++ dq ++ ")" ++ post)
  = pre ++ "Assert.Equal(" ++ dq ++ s ++ dq ++ ", " ++ context_map "!" "value" ++ ")" ++ post.
Proof.
  intros Hpre Hpost Hne Hq Hs. unfold FixRemainingShould.fix_remaining_patterns. cbv zeta.
  remaining_skip context_counter ".Be(" (context_map "!" "value") pre s post Hpre Hs Hpost.
  remaining_fire (context_map "!" "value") pre s post Hpre Hs Hne Hq Hpost.
  remaining_settle pre s (context_map "!" "value") post Hpre Hs Hpost.
Qed.

Lemma remaining_value (pre post s : string) :
  contains ".Should()" pre = false -> contains ".Should()" post = false ->
  s <> "" -> has_char DQ s = false -> contains ".Should()" s = false ->
  FixRemainingShould.fix_remaining_patterns
    (pre ++ context_map "" "value" ++ ".Should().Be(" ++ dq ++ s ++ dq ++ ")" ++ post)
  = pre ++ "Assert.Equal(" ++ dq ++ s ++ dq ++ ", " ++ context_map "" "value" ++ ")" ++ post.
Proof.
  intros Hpre Hpost Hne Hq Hs. unfold FixRemainingShould.fix_remaining_patterns. cbv zeta.
  remaining_skip context_counter ".Be(" (context_map "" "value") pre s post Hpre Hs Hpost.
  remaining_skip ("![" ++ dq ++ "value" ++ dq ++ "]") (".Be(" ++ dq)
                 (context_map "" "value") pre s post Hpre Hs Hpost.
  remaining_fire (context_map "" "value") pre s post Hpre Hs Hne Hq Hpost.
  remaining_settle pre s (context_map "" "value") post Hpre Hs Hpost.
Qed.

Lemma remaining_data_bang (pre post s : string) :
  contains ".Should()" pre = false -> contains ".Should()" post = false ->
  s <> "" -> has_char DQ s = false -> contains ".Should()" s = false ->
  FixRemainingShould.fix_remaining_patterns
    (pre ++ context_map "!" "data" ++ ".Should().Be(" ++ dq ++ s ++ dq ++ ")" ++ post)
  = pre ++ "Assert.Equal(" ++ dq ++ s ++ dq ++ ", " ++ context_map "!" "data" ++ ")" ++ post.
Proof.
  intros Hpre Hpost Hne Hq Hs. unfold FixRemainingShould.fix_remaining_patterns. cbv zeta.
  remaining_skip context_counter ".Be(" (context_map "!" "data") pre s post Hpre Hs Hpost.
  remaining_skip ("![" ++ dq ++ "value" ++ dq ++ "]") (".Be(" ++ dq)
                 (context_map "!" "data") pre s post Hpre Hs Hpost.
  remaining_skip ("p[" ++ dq ++ "value" ++ dq ++ "]") (".Be(" ++ dq)
                 (context_map "!" "data") pre s post Hpre Hs Hpost.
  remaining_skip "))" ".Be(" (context_map "!" "data") pre s post Hpre Hs Hpost.
  remaining_fire (context_map "!" "data") pre s post Hpre Hs Hne Hq Hpost.
  match goal with |- ?l = _ => change l with (pre ++ "Assert.Equal(" ++ dq ++ s ++ dq ++ ", " ++ context_map "!" "data" ++ ")" ++ post) end.
  reflexivity.
Qed.

(** No rule names [_stateMachine.ContextMap["data"]] without the [!]. *)
Lemma remaining_data_plain (pre post s : string) :
  contains ".Should()" pre = false -> contains ".Should()" post = false ->
  contains ".Should()" s = false ->
  FixRemainingShould.fix_remaining_patterns
    (pre ++ context_map "" "data" ++ ".Should().Be(" ++ dq ++ s ++ dq ++ ")" ++ post)
  = pre ++ context_map "" "data" ++ ".Should().Be(" ++ dq ++ s ++ dq ++ ")" ++ post.
Proof.
  intros Hpre Hpost Hs. unfold FixRemainingShould.fix_remaining_patterns. cbv zeta.
  remaining_skip context_counter ".Be(" (context_map "" "data") pre s post Hpre Hs Hpost.
  remaining_skip ("![" ++ dq ++ "value" ++ dq ++ "]") (".Be(" ++ dq)
                 (context_map "" "data") pre s post Hpre Hs Hpost.
  remaining_skip ("p[" ++ dq ++ "value" ++ dq ++ "]") (".Be(" ++ dq)
                 (context_map "" "data") pre s post Hpre Hs Hpost.
  remaining_skip "))" ".Be(" (context_map "" "data") pre s post Hpre Hs Hpost.
  remaining_skip ("![" ++ dq ++ "data" ++ dq ++ "]") (".Be(" ++ dq)
                 (context_map "" "data") pre s post Hpre Hs Hpost.
  reflexivity.
Qed.

(** *** Greedy groups *)

Lemma greedy_inv (b : cset) (q : pattern) (s : string) (st : mstate) res :
  re_match (Rep true b :: q) s st = Some res ->
  exists v s', s = v ++ s' /\ all_in b v = true /\ re_match q s' st = Some res.
Proof.
  induction s as [|c s IH]; intros H; rewrite rep_greedy_eq in H.
  - exists "", "". auto.
  - destruct (in_cset b c) eqn:Hc.
    + destruct (re_match (Rep true b :: q) s st) eqn:E.
      * injection H as <-. destruct (IH eq_refl) as (v & s' & -> & Hv & H').
        exists (String c v), s'. simpl. rewrite Hc, Hv. auto.
      * exists "", (String c s). auto.
    + exists "", (String c s). auto.
Qed.

Lemma greedy_group_inv (n : nat) (a b : cset) (q : pattern) (s : string)
      (st : mstate) res :
  re_match (greedy_group n a b ++ q)%list s st = Some res ->
  exists r s' st', s = r ++ s' /\ is_recv a b r = true /\ re_match q s' st' = Some res.
Proof.
  unfold greedy_group. simpl app. intros H.
  destruct s as [|c s]; [discriminate|].
  change ((if in_cset a c
           then re_match (Rep true b :: Close n :: q) s
                         (open_group n (String c s) st)
           else None) = Some res) in H.
  destruct (in_cset a c) eqn:Hc; [|discriminate].
  apply greedy_inv in H as (v & s' & -> & Hv & H').
  exists (String c v), s', (close_group n s' (open_group n (String c (v ++ s')) st)).
  simpl. rewrite Hc, Hv. auto.
Qed.


(** A rule with a group and a literal behind it does not match across a
    character that neither can hold, unless the literal stands in front of
    that character. *)
Lemma greedy_rule_blocked (n : nat) (a b : cset) (L : string) (q : pattern)
      (w rest : string) (c : ascii) (st : mstate) :
  in_cset a c = false -> in_cset b c = false -> has_char c L = false ->
  contains L w = false ->
  re_match (greedy_group n a b ++ lits L ++ q)%list (w ++ String c rest) st = None.
Proof.
  intros Ha Hb HL Hw.
  destruct (re_match _ _ _) eqn:E; [exfalso|reflexivity].
  apply greedy_group_inv in E as (r & s' & st' & E & Hr & M).
  apply re_match_lits_inv in M as (s2 & -> & _).
  rewrite <- append_assoc in E.
  apply prefix_before_char in E as [z ->].
  - rewrite append_assoc in Hw.
    now rewrite (contains_intro L r z) in Hw.
  - rewrite has_char_app, (is_recv_lacks a b c r Ha Hb Hr), HL. reflexivity.
Qed.



(** A literal that ends in [d] ends before a text without [d]. *)
Lemma contains_free_tail (d : ascii) (L1 u v : string) :
  has_char d v = false -> contains (L1 ++ String d "") u = false ->
  contains (L1 ++ String d "") (u ++ v) = false.
Proof.
  revert u; induction v as [|e v IH]; intros u Hv Hu.
  - now rewrite append_nil_r.
  - simpl in Hv. apply orb_false_iff in Hv as [He Hv].
    change (u ++ String e v) with (u ++ String e "" ++ v). rewrite <- append_assoc.
    apply IH; [exact Hv|]. apply contains_snoc; [exact He|exact Hu].
Qed.

(** *** The cast rule and its back-references *)


Lemma ident_no_close (X : string) :
  is_recv ident_start ident_char X = true -> has_char ")" X = false.
Proof. now apply is_recv_lacks. Qed.

Lemma no_should_cast (pre x jv jv' x' t : string) :
  contains ".Should()" pre = false ->
  is_recv ident_start ident_char x = true -> is_recv ident_start ident_char jv = true ->
  is_recv ident_start ident_char jv' = true -> is_recv ident_start ident_char x' = true ->
  contains ".Should()" t = false ->
  contains ".Should()"
    (pre ++ "(" ++ x ++ is_jvalue ++ jv ++ " ? " ++ jv' ++ to_object ++ x' ++ t) = false.
Proof.
  intros Hpre Hx Hj Hj' Hx' Ht.
  replace (pre ++ "(" ++ x ++ is_jvalue ++ jv ++ " ? " ++ jv' ++ to_object ++ x' ++ t)
    with (((pre ++ "(") ++ x)
            ++ String " " ("is Newtonsoft.Json.Linq.JValue "
                             ++ jv ++ " ? " ++ jv' ++ to_object ++ x' ++ t))
    by (now rewrite !append_assoc).
  apply contains_sep; [reflexivity| |].
  - apply (contains_free_tail ")" ".Should("); [now apply ident_no_close|].
    now apply (contains_snoc "(" ".Should(" ")").
  - change (contains ".Should()" (jv ++ " ? " ++ jv' ++ to_object ++ x' ++ t) = false).
    rewrite contains_skip by (now apply ident_no_dot).
    change (contains ".Should()" (jv' ++ to_object ++ x' ++ t) = false).
    rewrite contains_skip by (now apply ident_no_dot).
    change (contains ".Should()" (x' ++ t) = false).
    rewrite contains_skip by (now apply ident_no_dot).
    exact Ht.
Qed.

(** The buffer of a cast call, split at its one [.Should()]. *)
Lemma jvalue_buffer (pre x jv jv' x' n post : string) :
  pre ++ "(" ++ jvalue_cast x jv jv' x' ++ ").Should().Be(" ++ n ++ ")" ++ post
  = (pre ++ "(" ++ x ++ is_jvalue ++ jv ++ " ? " ++ jv' ++ to_object ++ x')
      ++ " ?? 0))" ++ ".Should()" ++ ".Be(" ++ n ++ ")" ++ post.
Proof. unfold jvalue_cast. now rewrite !append_assoc. Qed.

Lemma jvalue_rule_absent (S C pre x jv jv' x' n post : string) :
  contains ".Should()" pre = false -> contains ".Should()" post = false ->
  is_recv ident_start ident_char x = true -> is_recv ident_start ident_char jv = true ->
  is_recv ident_start ident_char jv' = true -> is_recv ident_start ident_char x' = true ->
  all_in digit n = true ->
  ends_with S " ?? 0))" = false -> String.length S <= 7 ->
  contains (S ++ ".Should()" ++ C)
    (pre ++ "(" ++ jvalue_cast x jv jv' x' ++ ").Should().Be(" ++ n ++ ")" ++ post) = false.
Proof.
  intros Hpre Hpost Hx Hj Hj' Hx' Hn HS Hlen. rewrite jvalue_buffer.
  apply absent_by_front; try assumption; [reflexivity| |].
  - rewrite !append_assoc. now apply no_should_cast.
  - now apply no_should_digits.
Qed.



(** *** A cast whose names do not recur *)

Lemma split_unique (c : ascii) (u v s1 s2 : string) :
  has_char c u = false -> has_char c v = false ->
  u ++ String c s1 = v ++ String c s2 -> u = v /\ s1 = s2.
Proof.
  revert v; induction u as [|d u IH]; intros v Hu Hv E.
  - destruct v as [|e v]; simpl in E.
    + injection E as E. auto.
    + injection E as E _. subst e. simpl in Hv. now rewrite Ascii.eqb_refl in Hv.
  - simpl in Hu. apply orb_false_iff in Hu as [Hd Hu].
    destruct v as [|e v]; simpl in E.
    + injection E as E _. subst d. now rewrite Ascii.eqb_refl in Hd.
    + injection E as -> E. simpl in Hv. apply orb_false_iff in Hv as [_ Hv].
      destruct (IH _ Hu Hv E) as [-> ->]. auto.
Qed.

Lemma greedy_group_inv_st (n : nat) (a b : cset) (q : pattern) (s : string)
      (st : mstate) res :
  re_match (greedy_group n a b ++ q)%list s st = Some res ->
  exists r s', s = r ++ s' /\ is_recv a b r = true /\
               re_match q s' (captured n r s' st) = Some res.
Proof.
  unfold greedy_group. simpl app. intros H.
  destruct s as [|c s]; [discriminate|].
  change ((if in_cset a c
           then re_match (Rep true b :: Close n :: q) s
                         (open_group n (String c s) st)
           else None) = Some res) in H.
  destruct (in_cset a c) eqn:Hc; [|discriminate].
  apply greedy_inv in H as (v & s' & -> & Hv & H').
  exists (String c v), s'. split; [reflexivity|]. split; [simpl; now rewrite Hc, Hv|].
  change (re_match q s' (close_group n s' (open_group n (String c v ++ s') st)) = Some res)
    in H'.
  now rewrite close_open in H'.
Qed.

(** A group in front of a literal whose first character [c] the group
    cannot hold: in a text [u ++ c ++ rest] with no [c] in [u] the group is
    [u]. *)
Lemma greedy_group_literal_at (n : nat) (a b : cset) (c : ascii) (L : string)
      (q : pattern) (u rest : string) (st : mstate) res :
  in_cset a c = false -> in_cset b c = false -> has_char c u = false ->
  re_match (greedy_group n a b ++ lits (String c L) ++ q)%list (u ++ String c rest) st
  = Some res ->
  exists s2, rest = L ++ s2 /\ is_recv a b u = true /\
             re_match q s2 (captured n u (String c rest) st) = Some res.
Proof.
  intros Ha Hb Hu H.
  apply greedy_group_inv_st in H as (r & s' & E & Hr & H).
  apply re_match_lits_inv in H as (s2 & -> & H).
  simpl append in E.
  apply split_unique in E as [-> ->];
    [ | exact Hu | now apply (is_recv_lacks a b) ].
  exists s2. auto.
Qed.

(** A back-reference in front of such a literal: the text is the text of
    the group. *)
Lemma ref_literal_at (n : nat) (c : ascii) (L : string) (q : pattern)
      (t u rest : string) (st : mstate) res :
  lookup n (closed st) = Some t -> has_char c t = false -> has_char c u = false ->
  re_match (Ref n :: lits (String c L) ++ q)%list (u ++ String c rest) st = Some res ->
  u = t /\ exists s2, rest = L ++ s2 /\ re_match q s2 st = Some res.
Proof.
  intros Hl Ht Hu H.
  change (match lookup n (closed st) with
          | Some t0 =>
              match strip t0 (u ++ String c rest) with
              | Some s' => re_match (lits (String c L) ++ q)%list s' st
              | None => None
              end
          | None => None
          end = Some res) in H.
  rewrite Hl in H.
  destruct (strip t (u ++ String c rest)) as [s'|] eqn:E; [|discriminate].
  apply strip_inv in E. apply re_match_lits_inv in H as (s2 & -> & H).
  simpl append in E. apply split_unique in E as [-> ->]; try assumption.
  split; [reflexivity|]. now exists s2.
Qed.

Lemma digit_not_start (d : ascii) :
  in_cset digit d = true -> in_cset ident_start d = false.
Proof.
  unfold in_cset, digit, ident_start, in_ranges, digit_ranges.
  cbn -[Nat.leb nat_of_ascii]. rewrite !orb_false_r. intros H.
  apply andb_true_iff in H as [H1 H2]. apply Nat.leb_le in H1, H2.
  repeat match goal with
         | |- context [Nat.leb ?a ?b] =>
             destruct (Nat.leb_spec a b); try lia
         end; reflexivity.
Qed.

Lemma ident_no_open_paren (X : string) :
  is_recv ident_start ident_char X = true -> has_char "(" X = false.
Proof. now apply is_recv_lacks. Qed.

Lemma ident_no_space (X : string) :
  is_recv ident_start ident_char X = true -> has_char " " X = false.
Proof. now apply is_recv_lacks. Qed.

Lemma digits_no_paren (n : string) : all_in digit n = true -> has_char "(" n = false.
Proof. now apply all_in_lacks. Qed.

(** The pattern of the cast rule. *)
Lemma compile_cast :
  compile "\(([a-zA-Z_][a-zA-Z0-9_]*) is Newtonsoft\.Json\.Linq\.JValue ([a-zA-Z_][a-zA-Z0-9_]*) \? \2\.ToObject<int>\(\) : \(int\)\(\1 \?\? 0\)\)\.Should\(\)\.Be\((\d+)\)"
  = (Lit "("%char :: greedy_group 1 ident_start ident_char ++ lits is_jvalue
       ++ greedy_group 2 ident_start ident_char ++ lits " ? " ++ Ref 2 :: lits to_object
       ++ Ref 1 :: lits " ?? 0)).Should().Be(" ++ plus_group 3 digit
       ++ [Lit ")"%char])%list.
Proof. reflexivity. Qed.

(** At the opening parenthesis of a cast whose names do not recur the rule
    fails on a back-reference. *)
Lemma cast_mismatch_blocked (x jv jv' x' rest : string) (q : pattern) :
  is_recv ident_start ident_char x = true -> is_recv ident_start ident_char jv = true ->
  is_recv ident_start ident_char jv' = true -> is_recv ident_start ident_char x' = true ->
  jv' <> jv \/ x' <> x ->
  re_match (Lit "("%char :: greedy_group 1 ident_start ident_char ++ lits is_jvalue
              ++ greedy_group 2 ident_start ident_char ++ lits " ? " ++ Ref 2 :: lits to_object
              ++ Ref 1 :: lits " ?? 0)).Should().Be(" ++ q)%list
           (String "(" (x ++ is_jvalue ++ jv ++ " ? " ++ jv' ++ to_object ++ x' ++ String " " rest))
           mstate0 = None.
Proof.
  intros Hx Hj Hj' Hx' Hneq.
  destruct (re_match _ _ _) eqn:M; [exfalso|reflexivity].
  change (re_match (greedy_group 1 ident_start ident_char
                      ++ lits (String " " "is Newtonsoft.Json.Linq.JValue ")
                      ++ (greedy_group 2 ident_start ident_char ++ lits (String " " "? ")
                            ++ (Ref 2 :: lits (String "." "ToObject<int>() : (int)(")
                                  ++ (Ref 1 :: lits (String " " "?? 0)).Should().Be(") ++ q))))%list
                   (x ++ String " " ("is Newtonsoft.Json.Linq.JValue "
                                       ++ jv ++ " ? " ++ jv' ++ to_object ++ x' ++ String " " rest))
                   mstate0 = Some p) in M.
  apply greedy_group_literal_at in M as (s2 & E & _ & M);
    [ | reflexivity | reflexivity | now apply ident_no_space ].
  apply append_inv_head in E. subst s2.
  change (jv ++ " ? " ++ jv' ++ to_object ++ x' ++ String " " rest)
    with (jv ++ String " " ("? " ++ jv' ++ to_object ++ x' ++ String " " rest)) in M.
  apply greedy_group_literal_at in M as (s3 & E & _ & M);
    [ | reflexivity | reflexivity | now apply ident_no_space ].
  apply append_inv_head in E. subst s3.
  change (jv' ++ to_object ++ x' ++ String " " rest)
    with (jv' ++ String "." ("ToObject<int>() : (int)(" ++ x' ++ String " " rest)) in M.
  apply (ref_literal_at 2 "." _ _ jv) in M as (E1 & s4 & E & M);
    [ | reflexivity | now apply ident_no_dot | now apply ident_no_dot ].
  apply append_inv_head in E. subst s4.
  apply (ref_literal_at 1 " " _ _ x) in M as (E2 & _);
    [ | reflexivity | now apply ident_no_space | now apply ident_no_space ].
  destruct Hneq; congruence.
Qed.

(** The cast rule leaves a cast whose names do not recur as it is. *)
Lemma cast_rule_idle (t : list titem) (pre x jv jv' x' n post : string) :
  contains ".Should()" post = false -> contains is_jvalue pre = false ->
  is_recv ident_start ident_char x = true -> is_recv ident_start ident_char jv = true ->
  is_recv ident_start ident_char jv' = true -> is_recv ident_start ident_char x' = true ->
  n <> "" -> all_in digit n = true -> jv' <> jv \/ x' <> x ->
  sub_from (Lit "("%char :: greedy_group 1 ident_start ident_char ++ lits is_jvalue
              ++ greedy_group 2 ident_start ident_char ++ lits " ? " ++ Ref 2 :: lits to_object
              ++ Ref 1 :: lits " ?? 0)).Should().Be(" ++ plus_group 3 digit
              ++ [Lit ")"%char])%list
           t 0
           (pre ++ String "(" (x ++ is_jvalue ++ jv ++ " ? " ++ jv' ++ to_object ++ x'
                                 ++ " ?? 0)).Should().Be(" ++ n ++ String ")" post))
  = pre ++ String "(" (x ++ is_jvalue ++ jv ++ " ? " ++ jv' ++ to_object ++ x'
                         ++ " ?? 0)).Should().Be(" ++ n ++ String ")" post).
Proof.
  intros Hpost Hpre Hx Hj Hj' Hx' Hne Hn Hneq.
  set (p := (Lit "("%char :: greedy_group 1 ident_start ident_char ++ lits is_jvalue
               ++ greedy_group 2 ident_start ident_char ++ lits " ? " ++ Ref 2 :: lits to_object
               ++ Ref 1 :: lits " ?? 0)).Should().Be(" ++ plus_group 3 digit
               ++ [Lit ")"%char])%list).
  rewrite sub_from_copy.
  2:{ intros w1 w2 E Hw. destruct w2 as [|d w2]; [congruence|].
      assert (Hw2 : contains is_jvalue w2 = false).
      { subst pre. apply contains_false_app_r in Hpre.
        exact (contains_false_tail _ _ _ Hpre). }
      change ((if Ascii.eqb "(" d
               then re_match (greedy_group 1 ident_start ident_char ++ lits is_jvalue
                    ++ greedy_group 2 ident_start ident_char ++ lits " ? " ++ Ref 2 :: lits to_object
                    ++ Ref 1 :: lits " ?? 0)).Should().Be(" ++ plus_group 3 digit
                    ++ [Lit ")"%char])%list
                      (w2 ++ String "(" (x ++ is_jvalue ++ jv ++ " ? " ++ jv' ++ to_object ++ x'
                                 ++ " ?? 0)).Should().Be(" ++ n ++ String ")" post))
                      mstate0
               else None) = None).
      destruct (Ascii.eqb "(" d); [|reflexivity].
      apply greedy_rule_blocked; [reflexivity|reflexivity|reflexivity|exact Hw2]. }
  f_equal.
  rewrite sub_from_none by (now apply cast_mismatch_blocked).
  f_equal.
  rewrite sub_from_copy by (apply lit_head_blocked; now apply ident_no_open_paren).
  f_equal. unfold is_jvalue. simpl append.
  repeat (rewrite sub_from_none by reflexivity; f_equal).
  rewrite sub_from_copy by (apply lit_head_blocked; now apply ident_no_open_paren).
  f_equal. simpl append.
  repeat (rewrite sub_from_none by reflexivity; f_equal).
  rewrite sub_from_copy by (apply lit_head_blocked; now apply ident_no_open_paren).
  f_equal. unfold to_object. simpl append.
  repeat (rewrite sub_from_none by reflexivity; f_equal).
  rewrite sub_from_none; [f_equal|].
  2:{ destruct (re_match _ _ _) eqn:M; [exfalso|reflexivity].
      change (re_match (greedy_group 1 ident_start ident_char
                          ++ lits (String " " "is Newtonsoft.Json.Linq.JValue ")
                          ++ (greedy_group 2 ident_start ident_char ++ lits " ? "
                                ++ Ref 2 :: lits to_object
                                ++ Ref 1 :: lits " ?? 0)).Should().Be(" ++ plus_group 3 digit
                                ++ [Lit ")"%char]))%list
                       (x' ++ String " " ("?? 0)).Should().Be(" ++ n ++ String ")" post))
                       mstate0 = Some p0) in M.
      apply greedy_group_literal_at in M as (s2 & E & _);
        [ | reflexivity | reflexivity | now apply ident_no_space ].
      discriminate E. }
  rewrite sub_from_copy by (apply lit_head_blocked; now apply ident_no_open_paren).
  f_equal. simpl append.
  repeat (rewrite sub_from_none by reflexivity; f_equal).
  rewrite sub_from_none; [f_equal|].
  2:{ destruct n as [|d n]; [congruence|]. simpl in Hn.
      apply andb_true_iff in Hn as [Hd _]. apply digit_not_start in Hd.
      change ((if in_cset ident_start d
               then re_match (Rep true ident_char :: Close 1 :: lits is_jvalue
                    ++ greedy_group 2 ident_start ident_char ++ lits " ? " ++ Ref 2 :: lits to_object
                    ++ Ref 1 :: lits " ?? 0)).Should().Be(" ++ plus_group 3 digit
                    ++ [Lit ")"%char])%list (n ++ String ")" post)
                    (open_group 1 (String d n ++ String ")" post) mstate0)
               else None) = None).
      now rewrite Hd. }
  rewrite sub_from_copy by (apply lit_head_blocked; now apply digits_no_paren).
  f_equal.
  rewrite sub_from_none by reflexivity. f_equal.
  apply (sub_from_id ".Should()"); [reflexivity|exact Hpost].
Qed.

Lemma jvalue_buffer_flat (pre x jv jv' x' n post : string) :
  pre ++ "(" ++ jvalue_cast x jv jv' x' ++ ").Should().Be(" ++ n ++ ")" ++ post
  = pre ++ String "(" (x ++ is_jvalue ++ jv ++ " ? " ++ jv' ++ to_object ++ x'
                         ++ " ?? 0)).Should().Be(" ++ n ++ String ")" post).
Proof. unfold jvalue_cast. rewrite !append_assoc. reflexivity. Qed.

Lemma remaining_jvalue_mismatch (pre post x jv jv' x' n : string) :
  contains ".Should()" pre = false -> contains is_jvalue pre = false ->
  contains ".Should()" post = false ->
  is_recv ident_start ident_char x = true -> is_recv ident_start ident_char jv = true ->
  is_recv ident_start ident_char jv' = true -> is_recv ident_start ident_char x' = true ->
  n <> "" -> all_in digit n = true -> jv' <> jv \/ x' <> x ->
  FixRemainingShould.fix_remaining_patterns
    (pre ++ "(" ++ jvalue_cast x jv jv' x' ++ ").Should().Be(" ++ n ++ ")" ++ post)
  = pre ++ "(" ++ jvalue_cast x jv jv' x' ++ ").Should().Be(" ++ n ++ ")" ++ post.
Proof.
  intros Hpre Hpre' Hpost Hx Hj Hj' Hx' Hne Hn Hneq.
  unfold FixRemainingShould.fix_remaining_patterns. cbv zeta.
  set (B := pre ++ "(" ++ jvalue_cast x jv jv' x' ++ ").Should().Be(" ++ n ++ ")" ++ post).
  rewrite (re_sub_id (("r" ++ dq ++ "]") ++ ".Should()" ++ ".Be(") _ _ B)
    by (first [exact eq_refl
              | apply jvalue_rule_absent; first [assumption | reflexivity | simpl; lia]]).
  rewrite (re_sub_id (("e" ++ dq ++ "]") ++ ".Should()" ++ ".Be(" ++ dq) _ _ B)
    by (first [exact eq_refl
              | apply jvalue_rule_absent; first [assumption | reflexivity | simpl; lia]]).
  rewrite (re_sub_id (("e" ++ dq ++ "]") ++ ".Should()" ++ ".Be(" ++ dq) _ _ B)
    by (first [exact eq_refl
              | apply jvalue_rule_absent; first [assumption | reflexivity | simpl; lia]]).
  assert (E : re_sub "\(([a-zA-Z_][a-zA-Z0-9_]*) is Newtonsoft\.Json\.Linq\.JValue ([a-zA-Z_][a-zA-Z0-9_]*) \? \2\.ToObject<int>\(\) : \(int\)\(\1 \?\? 0\)\)\.Should\(\)\.Be\((\d+)\)"
                     "Assert.Equal(\3, \1 is Newtonsoft.Json.Linq.JValue \2 ? \2.ToObject<int>() : (int)(\1 ?? 0))" B = B).
  { unfold re_sub. rewrite compile_cast. unfold B. rewrite jvalue_buffer_flat.
    now apply cast_rule_idle. }
  rewrite E.
  apply (re_sub_id (("a" ++ dq ++ "]") ++ ".Should()" ++ ".Be(" ++ dq));
    [reflexivity|].
  apply jvalue_rule_absent; first [assumption | reflexivity | simpl; lia].
Qed.

(** ** fix_integration_tests.py: the rules *)

Lemma call_char_word (c : ascii) : in_cset call_char c = false -> in_cset word c = false.
Proof.
  unfold in_cset, call_char, word, in_ranges. cbn -[Nat.leb nat_of_ascii].
  intros H. repeat (apply orb_false_iff in H as [?H H]).
  repeat match goal with Q : _ = false |- _ => rewrite Q; clear Q end. reflexivity.
Qed.

(** A character outside the call characters is in no rule literal. *)
Lemma call_char_lacks (c : ascii) (L : string) :
  in_cset call_char c = false -> all_in call_char L = true -> has_char c L = false.
Proof. intros H HL. now apply (all_in_lacks call_char). Qed.

Lemma word_no_dot (w : string) : all_in word w = true -> has_char "." w = false.
Proof. now apply all_in_lacks. Qed.

(** In front of a character that a greedy group and the literal behind it
    cannot hold, such a rule copies a text that lacks the literal. *)
Lemma re_sub_copy_greedy (pat repl L : string) (n : nat) (a b : cset) (q : pattern)
      (pre s : string) (c : ascii) :
  compile pat = (greedy_group n a b ++ lits L ++ q)%list ->
  in_cset a c = false -> in_cset b c = false -> has_char c L = false ->
  contains L pre = false ->
  re_sub pat repl (pre ++ String c s) = pre ++ String c (re_sub pat repl s).
Proof.
  intros Hp Ha Hb HL Hpre. unfold re_sub. rewrite Hp.
  change (pre ++ String c s) with (pre ++ (String c "" ++ s)).
  rewrite <- append_assoc, sub_from_copy.
  - now rewrite append_assoc.
  - intros w1 w2 E Hw2.
    apply append_eq_snoc in E as [[-> _]|(w & -> & ->)]; [congruence|].
    rewrite append_assoc. simpl append.
    apply greedy_rule_blocked; try assumption.
    eapply contains_false_app_r; eauto.
Qed.

(** The rule shape [(\w+)K]. *)
Lemma fire_word (pat repl K1 : string) (pre w tail : string) (s1 : ascii) :
  compile pat = (plus_group 1 word ++ lits K1 ++ [])%list ->
  in_cset word s1 = false -> has_char s1 K1 = false -> contains K1 pre = false ->
  w <> "" -> all_in word w = true -> stops word (K1 ++ tail) = true ->
  re_sub pat repl (pre ++ String s1 (w ++ K1 ++ tail))
  = pre ++ String s1 (expand (template repl) [(1, w)] ++ re_sub pat repl tail).
Proof.
  intros Hp H1 H2 Hpre Hne Hw Hs.
  rewrite (re_sub_copy_greedy pat repl K1 1 word word [] pre _ s1 Hp H1 H1 H2 Hpre).
  do 2 f_equal.
  replace (w ++ K1 ++ tail) with ((w ++ K1) ++ tail) by apply append_assoc.
  rewrite (re_sub_fire pat repl (w ++ K1) tail (captured 1 w (K1 ++ tail) mstate0)).
  - reflexivity.
  - destruct w; [congruence|discriminate].
  - rewrite Hp, append_assoc.
    apply plus_group_run; [exact Hne|exact Hw|exact Hs|].
    now rewrite re_match_lits.
Qed.

(** The rule shape [(\w+)K1([c]+)K2]. *)
Lemma fire_word_plus (pat repl K1 K2 : string) (c : cset) (pre w v tail : string)
      (s1 : ascii) :
  compile pat = (plus_group 1 word ++ lits K1 ++ plus_group 2 c ++ lits K2 ++ [])%list ->
  in_cset word s1 = false -> has_char s1 K1 = false -> contains K1 pre = false ->
  w <> "" -> all_in word w = true -> stops word (K1 ++ v ++ K2 ++ tail) = true ->
  v <> "" -> all_in c v = true -> stops c (K2 ++ tail) = true ->
  re_sub pat repl (pre ++ String s1 (w ++ K1 ++ v ++ K2 ++ tail))
  = pre ++ String s1 (expand (template repl) [(2, v); (1, w)] ++ re_sub pat repl tail).
Proof.
  intros Hp H1 H2 Hpre Hne Hw Hs Hnv Hv Hsv.
  rewrite (re_sub_copy_greedy pat repl K1 1 word word
             (plus_group 2 c ++ lits K2 ++ [])%list pre _ s1 Hp H1 H1 H2 Hpre).
  do 2 f_equal.
  replace (w ++ K1 ++ v ++ K2 ++ tail) with ((w ++ K1 ++ v ++ K2) ++ tail)
    by (now rewrite !append_assoc).
  rewrite (re_sub_fire pat repl (w ++ K1 ++ v ++ K2) tail
             (captured 2 v (K2 ++ tail) (captured 1 w (K1 ++ v ++ K2 ++ tail) mstate0))).
  - reflexivity.
  - destruct w; [congruence|discriminate].
  - rewrite Hp, !append_assoc.
    apply plus_group_run; [exact Hne|exact Hw|exact Hs|].
    rewrite re_match_lits.
    apply plus_group_run; [exact Hnv|exact Hv|exact Hsv|].
    now rewrite re_match_lits.
Qed.

(** The buffer of a call on a word, split at its one [.Should()]. *)
Lemma word_call_buffer (pre w T : string) (s1 : ascii) :
  pre ++ String s1 (w ++ ".Should()" ++ T) = (pre ++ String s1 w) ++ ".Should()" ++ T.
Proof. now rewrite append_assoc. Qed.

Lemma word_front_settled (pre w : string) (s1 : ascii) :
  in_cset call_char s1 = false -> contains ".Should()" pre = false ->
  all_in word w = true ->
  contains ".Should()" (pre ++ String s1 w) = false.
Proof.
  intros H1 Hpre Hw. apply contains_sep; [now apply call_char_lacks|exact Hpre|].
  apply (contains_needs_char "."); [reflexivity|now apply word_no_dot].
Qed.

(** The output [Assert.M(w)] and what follows hold no [.Should()]. *)
Lemma word_output_settled (pre A w rest : string) (s1 : ascii) :
  in_cset call_char s1 = false -> contains ".Should()" pre = false ->
  all_in word w = true ->
  (forall t, contains ".Should()" (A ++ t) = contains ".Should()" t) ->
  contains ".Should()" rest = false ->
  contains ".Should()" (pre ++ String s1 (A ++ w ++ rest)) = false.
Proof.
  intros H1 Hpre Hw HA Hrest. apply contains_sep; [now apply call_char_lacks|exact Hpre|].
  rewrite HA. rewrite contains_skip by (now apply word_no_dot).
  exact Hrest.
Qed.

(** Drop the rule applied to [X ++ ".Should()" ++ T]: behind [.Should()]
    its literal goes on with a text that [T] does not start with. *)
Ltac skip_by_back S C X T HX HT :=
  rewrite (re_sub_id (S ++ ".Should()" ++ C) _ _ (X ++ ".Should()" ++ T))
    by (first [ exact eq_refl
              | apply absent_by_back; [reflexivity|exact HX|exact HT|reflexivity] ]).

(** Bring a text to the form [a ++ (b ++ (c ++ ...))]. *)
Ltac flatten_text := repeat first [rewrite append_assoc | progress simpl append].

Ltac open_integration :=
  cbv beta iota delta [FixIntegrationTests.rewrite FixIntegrationTests.replacements
                       fold_left fst snd].

Lemma int_not_null (pre post w : string) (s1 : ascii) :
  in_cset call_char s1 = false ->
  contains ".Should()" pre = false -> contains ".Should()" post = false ->
  w <> "" -> all_in word w = true ->
  FixIntegrationTests.rewrite (pre ++ String s1 (w ++ ".Should().NotBeNull()" ++ post))
  = pre ++ String s1 ("Assert.NotNull(" ++ w ++ ")" ++ post).
Proof.
  intros H1 Hpre Hpost Hne Hw. open_integration.
  pose proof (word_front_settled pre w s1 H1 Hpre Hw) as HX.
  assert (HT : contains ".Should()" (".NotBeNull()" ++ post) = false) by exact Hpost.
  change (pre ++ String s1 (w ++ ".Should().NotBeNull()" ++ post))
    with (pre ++ String s1 (w ++ ".Should()" ++ ".NotBeNull()" ++ post)).
  rewrite word_call_buffer.
  skip_by_back "carrier" ".BeTrue()" (pre ++ String s1 w) (".NotBeNull()" ++ post) HX HT.
  skip_by_back "" ".BeTrue()" (pre ++ String s1 w) (".NotBeNull()" ++ post) HX HT.
  skip_by_back "" ".BeFalse()" (pre ++ String s1 w) (".NotBeNull()" ++ post) HX HT.
  rewrite <- word_call_buffer.
  rewrite (fire_word _ _ ".Should().NotBeNull()" pre w post s1);
    [ | reflexivity | now apply call_char_word | now apply call_char_lacks
      | apply (contains_part "" ".Should()" ".NotBeNull()"), Hpre
      | exact Hne | exact Hw | reflexivity ].
  rewrite (re_sub_id ".Should()" _ _ post) by (first [exact eq_refl | exact Hpost]).
  simpl expand. flatten_text.
  match goal with
  | |- context [re_sub _ _ (pre ++ ?r)] =>
      assert (HO : contains ".Should()" (pre ++ r) = false)
        by (apply (word_output_settled pre "Assert.NotNull(" w (")" ++ post) s1); auto);
      skip_all ".Should()" (pre ++ r) HO
  end.
  reflexivity.
Qed.

Lemma has_char_last (c : ascii) (p : string) : has_char c (p ++ String c "") = true.
Proof. rewrite has_char_app. simpl. now rewrite Ascii.eqb_refl, orb_true_r. Qed.

(** The literal of the carrier rule is absent when the word in front of
    [.Should()] does not end in [carrier]. *)
Lemma carrier_absent (pre w T C : string) (s1 : ascii) :
  in_cset call_char s1 = false -> ends_with "carrier" w = false ->
  contains ".Should()" (pre ++ String s1 w) = false -> contains ".Should()" T = false ->
  contains ("carrier" ++ ".Should()" ++ C) ((pre ++ String s1 w) ++ ".Should()" ++ T) = false.
Proof.
  intros H1 Hw HX HT.
  destruct (contains (("carrier" ++ ".Should()" ++ C)) _) eqn:E; [exfalso|reflexivity].
  apply aligned in E as [[x E] _]; try assumption; [|reflexivity].
  change (pre ++ String s1 w) with (pre ++ String s1 "" ++ w) in E.
  rewrite <- append_assoc in E.
  apply append_eq_app in E as [(z & E1 & E2)|(z & E1 & E2)].
  - destruct z as [|d z].
    + simpl in E2. subst w. discriminate Hw.
    + apply append_eq_snoc in E1 as [[Q _]|(v' & Q & _)];
        [discriminate Q|].
      assert (F : has_char s1 "carrier" = true).
      { rewrite E2, has_char_app, Q, has_char_last. reflexivity. }
      rewrite (call_char_lacks s1 "carrier" H1 eq_refl) in F. discriminate.
  - rewrite E2, ends_with_app in Hw. discriminate.
Qed.

Ltac settle_dots :=
  repeat first
    [ rewrite contains_skip
        by (first [ assumption | now apply word_no_dot | now apply digits_no_dot
                  | now apply ident_no_dot ])
    | progress simpl ].

Ltac int_settle pre s1 H1 Hpre Hpost :=
  simpl expand; flatten_text;
  match goal with
  | |- context [re_sub _ _ (pre ++ ?r)] =>
      let HO := fresh "HO" in
      assert (HO : contains ".Should()" (pre ++ r) = false)
        by (apply contains_sep; [now apply call_char_lacks|exact Hpre|];
            settle_dots; first [exact Hpost | reflexivity]);
      skip_all ".Should()" (pre ++ r) HO
  end;
  reflexivity.

Ltac int_fire K1 pre w post s1 H1 Hpre Hpost Hne Hw :=
  rewrite <- word_call_buffer;
  rewrite (fire_word _ _ K1 pre w post s1);
    [ | reflexivity | now apply call_char_word | now apply call_char_lacks
      | apply (contains_part "" ".Should()" (drop 9 K1)), Hpre
      | exact Hne | exact Hw | reflexivity ];
  rewrite (re_sub_id ".Should()" _ _ post) by (first [exact eq_refl | exact Hpost]).

Lemma int_true (pre post w : string) (s1 : ascii) :
  in_cset call_char s1 = false ->
  contains ".Should()" pre = false -> contains ".Should()" post = false ->
  w <> "" -> all_in word w = true -> ends_with "carrier" w = false ->
  FixIntegrationTests.rewrite (pre ++ String s1 (w ++ ".Should().BeTrue()" ++ post))
  = pre ++ String s1 ("Assert.True(" ++ w ++ ")" ++ post).
Proof.
  intros H1 Hpre Hpost Hne Hw Hc.
  assert (HT : contains ".Should()" (".BeTrue()" ++ post) = false) by exact Hpost.
  open_integration.
  pose proof (word_front_settled pre w s1 H1 Hpre Hw) as HX.
  change (pre ++ String s1 (w ++ ".Should().BeTrue()" ++ post))
    with (pre ++ String s1 (w ++ ".Should()" ++ ".BeTrue()" ++ post)).
  rewrite word_call_buffer.
  rewrite (re_sub_id ("carrier" ++ ".Should()" ++ ".BeTrue()") _ _
             ((pre ++ String s1 w) ++ ".Should()" ++ ".BeTrue()" ++ post))
    by (first [exact eq_refl | now apply carrier_absent]).
  int_fire ".Should().BeTrue()" pre w post s1 H1 Hpre Hpost Hne Hw.
  int_settle pre s1 H1 Hpre Hpost.
Qed.

Lemma int_false (pre post w : string) (s1 : ascii) :
  in_cset call_char s1 = false ->
  contains ".Should()" pre = false -> contains ".Should()" post = false ->
  w <> "" -> all_in word w = true ->
  FixIntegrationTests.rewrite (pre ++ String s1 (w ++ ".Should().BeFalse()" ++ post))
  = pre ++ String s1 ("Assert.False(" ++ w ++ ")" ++ post).
Proof.
  intros H1 Hpre Hpost Hne Hw.
  assert (HT : contains ".Should()" (".BeFalse()" ++ post) = false) by exact Hpost.
  open_integration.
  pose proof (word_front_settled pre w s1 H1 Hpre Hw) as HX.
  change (pre ++ String s1 (w ++ ".Should().BeFalse()" ++ post))
    with (pre ++ String s1 (w ++ ".Should()" ++ ".BeFalse()" ++ post)).
  rewrite word_call_buffer.
  skip_by_back "carrier" ".BeTrue()" (pre ++ String s1 w) (".BeFalse()" ++ post) HX HT.
  skip_by_back "" ".BeTrue()" (pre ++ String s1 w) (".BeFalse()" ++ post) HX HT.
  int_fire ".Should().BeFalse()" pre w post s1 H1 Hpre Hpost Hne Hw.
  int_settle pre s1 H1 Hpre Hpost.
Qed.

Lemma int_null (pre post w : string) (s1 : ascii) :
  in_cset call_char s1 = false ->
  contains ".Should()" pre = false -> contains ".Should()" post = false ->
  w <> "" -> all_in word w = true ->
  FixIntegrationTests.rewrite (pre ++ String s1 (w ++ ".Should().BeNull()" ++ post))
  = pre ++ String s1 ("Assert.Null(" ++ w ++ ")" ++ post).
Proof.
  intros H1 Hpre Hpost Hne Hw.
  assert (HT : contains ".Should()" (".BeNull()" ++ post) = false) by exact Hpost.
  open_integration.
  pose proof (word_front_settled pre w s1 H1 Hpre Hw) as HX.
  change (pre ++ String s1 (w ++ ".Should().BeNull()" ++ post))
    with (pre ++ String s1 (w ++ ".Should()" ++ ".BeNull()" ++ post)).
  rewrite word_call_buffer.
  skip_by_back "carrier" ".BeTrue()" (pre ++ String s1 w) (".BeNull()" ++ post) HX HT.
  skip_by_back "" ".BeTrue()" (pre ++ String s1 w) (".BeNull()" ++ post) HX HT.
  skip_by_back "" ".BeFalse()" (pre ++ String s1 w) (".BeNull()" ++ post) HX HT.
  skip_by_back "" ".NotBeNull()" (pre ++ String s1 w) (".BeNull()" ++ post) HX HT.
  int_fire ".Should().BeNull()" pre w post s1 H1 Hpre Hpost Hne Hw.
  int_settle pre s1 H1 Hpre Hpost.
Qed.

Lemma int_not_empty (pre post w : string) (s1 : ascii) :
  in_cset call_char s1 = false ->
  contains ".Should()" pre = false -> contains ".Should()" post = false ->
  w <> "" -> all_in word w = true ->
  FixIntegrationTests.rewrite (pre ++ String s1 (w ++ ".Should().NotBeEmpty()" ++ post))
  = pre ++ String s1 ("Assert.NotEmpty(" ++ w ++ ")" ++ post).
Proof.
  intros H1 Hpre Hpost Hne Hw.
  assert (HT : contains ".Should()" (".NotBeEmpty()" ++ post) = false) by exact Hpost.
  open_integration.
  pose proof (word_front_settled pre w s1 H1 Hpre Hw) as HX.
  change (pre ++ String s1 (w ++ ".Should().NotBeEmpty()" ++ post))
    with (pre ++ String s1 (w ++ ".Should()" ++ ".NotBeEmpty()" ++ post)).
  rewrite word_call_buffer.
  skip_by_back "carrier" ".BeTrue()" (pre ++ String s1 w) (".NotBeEmpty()" ++ post) HX HT.
  skip_by_back "" ".BeTrue()" (pre ++ String s1 w) (".NotBeEmpty()" ++ post) HX HT.
  skip_by_back "" ".BeFalse()" (pre ++ String s1 w) (".NotBeEmpty()" ++ post) HX HT.
  skip_by_back "" ".NotBeNull()" (pre ++ String s1 w) (".NotBeEmpty()" ++ post) HX HT.
  skip_by_back "" ".BeNull()" (pre ++ String s1 w) (".NotBeEmpty()" ++ post) HX HT.
  int_fire ".Should().NotBeEmpty()" pre w post s1 H1 Hpre Hpost Hne Hw.
  int_settle pre s1 H1 Hpre Hpost.
Qed.

Ltac int_fire_digits K1 pre w n post s1 H1 Hpre Hpost Hne Hw Hnn Hn :=
  rewrite <- word_call_buffer;
  rewrite (fire_word_plus _ _ K1 ")" digit pre w n post s1);
    [ | reflexivity | now apply call_char_word | now apply call_char_lacks
      | apply (contains_part "" ".Should()" (drop 9 K1)), Hpre
      | exact Hne | exact Hw | reflexivity | exact Hnn | exact Hn | reflexivity ];
  rewrite (re_sub_id ".Should()" _ _ post) by (first [exact eq_refl | exact Hpost]).

Lemma int_have_count (pre post w n : string) (s1 : ascii) :
  in_cset call_char s1 = false ->
  contains ".Should()" pre = false -> contains ".Should()" post = false ->
  w <> "" -> all_in word w = true -> n <> "" -> all_in digit n = true ->
  FixIntegrationTests.rewrite
    (pre ++ String s1 (w ++ ".Should().HaveCount(" ++ n ++ ")" ++ post))
  = pre ++ String s1 ("Assert.Equal(" ++ n ++ ", " ++ w ++ ".Count)" ++ post).
Proof.
  intros H1 Hpre Hpost Hne Hw Hnn Hn.
  assert (HT : contains ".Should()" (".HaveCount(" ++ n ++ ")" ++ post) = false)
    by (settle_dots; exact Hpost).
  open_integration.
  pose proof (word_front_settled pre w s1 H1 Hpre Hw) as HX.
  change (pre ++ String s1 (w ++ ".Should().HaveCount(" ++ n ++ ")" ++ post))
    with (pre ++ String s1 (w ++ ".Should()" ++ ".HaveCount(" ++ n ++ ")" ++ post)).
  rewrite word_call_buffer.
  set (X := pre ++ String s1 w) in *. set (T := ".HaveCount(" ++ n ++ ")" ++ post) in *.
  skip_by_back "carrier" ".BeTrue()" X T HX HT.
  skip_by_back "" ".BeTrue()" X T HX HT.
  skip_by_back "" ".BeFalse()" X T HX HT.
  skip_by_back "" ".NotBeNull()" X T HX HT.
  skip_by_back "" ".BeNull()" X T HX HT.
  skip_by_back "" ".NotBeEmpty()" X T HX HT.
  skip_by_back ".GetCurrentState()" (".Contain(" ++ dq) X T HX HT.
  skip_by_back ".GetCurrentState()" (".NotContain(" ++ dq) X T HX HT.
  unfold X, T.
  int_fire_digits ".Should().HaveCount(" pre w n post s1 H1 Hpre Hpost Hne Hw Hnn Hn.
  int_settle pre s1 H1 Hpre Hpost.
Qed.

Lemma int_be (pre post w n : string) (s1 : ascii) :
  in_cset call_char s1 = false ->
  contains ".Should()" pre = false -> contains ".Should()" post = false ->
  w <> "" -> all_in word w = true -> n <> "" -> all_in digit n = true ->
  FixIntegrationTests.rewrite
    (pre ++ String s1 (w ++ ".Should().Be(" ++ n ++ ")" ++ post))
  = pre ++ String s1 ("Assert.Equal(" ++ n ++ ", " ++ w ++ ")" ++ post).
Proof.
  intros H1 Hpre Hpost Hne Hw Hnn Hn.
  assert (HT : contains ".Should()" (".Be(" ++ n ++ ")" ++ post) = false)
    by (settle_dots; exact Hpost).
  open_integration.
  pose proof (word_front_settled pre w s1 H1 Hpre Hw) as HX.
  change (pre ++ String s1 (w ++ ".Should().Be(" ++ n ++ ")" ++ post))
    with (pre ++ String s1 (w ++ ".Should()" ++ ".Be(" ++ n ++ ")" ++ post)).
  rewrite word_call_buffer.
  set (X := pre ++ String s1 w) in *. set (T := ".Be(" ++ n ++ ")" ++ post) in *.
  skip_by_back "carrier" ".BeTrue()" X T HX HT.
  skip_by_back "" ".BeTrue()" X T HX HT.
  skip_by_back "" ".BeFalse()" X T HX HT.
  skip_by_back "" ".NotBeNull()" X T HX HT.
  skip_by_back "" ".BeNull()" X T HX HT.
  skip_by_back "" ".NotBeEmpty()" X T HX HT.
  skip_by_back ".GetCurrentState()" (".Contain(" ++ dq) X T HX HT.
  skip_by_back ".GetCurrentState()" (".NotContain(" ++ dq) X T HX HT.
  skip_by_back "" ".HaveCount(" X T HX HT.
  unfold X, T.
  int_fire_digits ".Should().Be(" pre w n post s1 H1 Hpre Hpost Hne Hw Hnn Hn.
  int_settle pre s1 H1 Hpre Hpost.
Qed.

Lemma ends_with_needs_char (c : ascii) (S w : string) :
  has_char c S = true -> has_char c w = false -> ends_with S w = false.
Proof.
  intros HS Hw. destruct (ends_with S w) eqn:E; [exfalso|reflexivity].
  apply ends_with_inv in E as [t ->]. rewrite has_char_app, HS, orb_true_r in Hw.
  discriminate.
Qed.

(** A rule literal [S.Should()C] is absent when the word in front of
    [.Should()] does not end in [S]. *)
Lemma front_absent (S pre w T C : string) (s1 : ascii) :
  in_cset call_char s1 = false -> all_in call_char S = true ->
  ends_with S w = false ->
  contains ".Should()" (pre ++ String s1 w) = false -> contains ".Should()" T = false ->
  contains (S ++ ".Should()" ++ C) ((pre ++ String s1 w) ++ ".Should()" ++ T) = false.
Proof.
  intros H1 HS Hw HX HT.
  destruct (contains (S ++ ".Should()" ++ C) _) eqn:E; [exfalso|reflexivity].
  apply aligned in E as [[x E] _]; try assumption; [|reflexivity].
  change (pre ++ String s1 w) with (pre ++ String s1 "" ++ w) in E.
  rewrite <- append_assoc in E.
  apply append_eq_app in E as [(z & E1 & E2)|(z & E1 & E2)].
  - destruct z as [|d z].
    + simpl in E2. subst w. pose proof (ends_with_app S "") as Q. simpl in Q. congruence.
    + apply append_eq_snoc in E1 as [[Q _]|(v' & Q & _)]; [discriminate Q|].
      assert (F : has_char s1 S = true).
      { rewrite E2, has_char_app, Q, has_char_last. reflexivity. }
      rewrite (call_char_lacks s1 S H1 HS) in F. discriminate.
  - rewrite E2, ends_with_app in Hw. discriminate.
Qed.

Ltac skip_by_front S C pre w s1 T H1 Hw HX HT :=
  rewrite (re_sub_id (S ++ ".Should()" ++ C) _ _ ((pre ++ String s1 w) ++ ".Should()" ++ T))
    by (first [ exact eq_refl
              | apply front_absent;
                [ exact H1 | reflexivity
                | apply (ends_with_needs_char "."); [reflexivity|now apply word_no_dot]
                | exact HX | exact HT ] ]).

Ltac settle_quoted :=
  repeat first
    [ rewrite contains_skip
        by (first [ assumption | now apply word_no_dot | now apply digits_no_dot
                  | now apply ident_no_dot ])
    | apply (contains_sep DQ); [reflexivity|assumption|]
    | progress simpl ].

Ltac int_settle_quoted pre s1 H1 Hpre Hpost :=
  simpl expand; flatten_text;
  match goal with
  | |- context [re_sub _ _ (pre ++ ?r)] =>
      let HO := fresh "HO" in
      assert (HO : contains ".Should()" (pre ++ r) = false)
        by (apply contains_sep; [now apply call_char_lacks|exact Hpre|];
            settle_quoted; first [exact Hpost | reflexivity]);
      skip_all ".Should()" (pre ++ r) HO
  end;
  reflexivity.

(** [w.Should().Contain("s")], the rule next to last. *)
Lemma int_contain (pre post w s : string) (s1 : ascii) :
  in_cset call_char s1 = false ->
  contains ".Should()" pre = false -> contains ".Should()" post = false ->
  w <> "" -> all_in word w = true ->
  s <> "" -> has_char DQ s = false -> contains ".Should()" s = false ->
  FixIntegrationTests.rewrite
    (pre ++ String s1 (w ++ ".Should().Contain(" ++ dq ++ s ++ dq ++ ")" ++ post))
  = pre ++ String s1 ("Assert.Contains(" ++ dq ++ s ++ dq ++ ", " ++ w ++ ")" ++ post).
Proof.
  intros H1 Hpre Hpost Hne Hw Hns Hq Hs.
  assert (HT : contains ".Should()" (".Contain(" ++ dq ++ s ++ dq ++ ")" ++ post) = false)
    by (settle_quoted; exact Hpost).
  open_integration.
  pose proof (word_front_settled pre w s1 H1 Hpre Hw) as HX.
  change (pre ++ String s1 (w ++ ".Should().Contain(" ++ dq ++ s ++ dq ++ ")" ++ post))
    with (pre ++ String s1 (w ++ ".Should()" ++ ".Contain(" ++ dq ++ s ++ dq ++ ")" ++ post)).
  rewrite word_call_buffer.
  set (T := ".Contain(" ++ dq ++ s ++ dq ++ ")" ++ post) in *.
  skip_by_back "carrier" ".BeTrue()" (pre ++ String s1 w) T HX HT.
  skip_by_back "" ".BeTrue()" (pre ++ String s1 w) T HX HT.
  skip_by_back "" ".BeFalse()" (pre ++ String s1 w) T HX HT.
  skip_by_back "" ".NotBeNull()" (pre ++ String s1 w) T HX HT.
  skip_by_back "" ".BeNull()" (pre ++ String s1 w) T HX HT.
  skip_by_back "" ".NotBeEmpty()" (pre ++ String s1 w) T HX HT.
  skip_by_front ".GetCurrentState()" (".Contain(" ++ dq) pre w s1 T H1 Hw HX HT.
  skip_by_back ".GetCurrentState()" (".NotContain(" ++ dq) (pre ++ String s1 w) T HX HT.
  skip_by_back "" ".HaveCount(" (pre ++ String s1 w) T HX HT.
  skip_by_back "" ".Be(" (pre ++ String s1 w) T HX HT.
  skip_by_front ".EventLog" (".Contain(" ++ dq) pre w s1 T H1 Hw HX HT.
  skip_by_back ".GetAllJobs()" ".HaveCount(" (pre ++ String s1 w) T HX HT.
  unfold T. rewrite <- word_call_buffer.
  rewrite (fire_word_plus _ _ (".Should().Contain(" ++ dq) (dq ++ ")") not_dq pre w s post s1);
    [ | reflexivity | now apply call_char_word | now apply call_char_lacks
      | apply (contains_part "" ".Should()" (".Contain(" ++ dq)), Hpre
      | exact Hne | exact Hw | reflexivity | exact Hns | apply (all_in_without DQ), Hq
      | reflexivity ].
  rewrite (re_sub_id ".Should()" _ _ post) by (first [exact eq_refl | exact Hpost]).
  int_settle_quoted pre s1 H1 Hpre Hpost.
Qed.

(** ** Rules that cannot fire *)

Lemma sub_from_nomatch (p : pattern) (t : list titem) (s : string) :
  (forall w1 w2, s = w1 ++ w2 -> re_match p w2 mstate0 = None) ->
  sub_from p t 0 s = s.
Proof.
  induction s as [|c s IH]; intros H.
  - simpl. now rewrite (H "" "" eq_refl).
  - rewrite sub_from_none by (apply (H "" (String c s)); reflexivity).
    f_equal. apply IH. intros w1 w2 E. apply (H (String c w1)). simpl. now f_equal.
Qed.

(** A rule with a group in front of its literal is idle on a text where
    the one occurrence of the literal's core [K] follows a character that
    the group cannot hold. *)
Lemma greedy_rule_idle (pat repl : string) (n : nat) (a b : cset) (K C : string)
      (q : pattern) (X T : string) (c : ascii) :
  compile pat = (greedy_group n a b ++ lits (K ++ C) ++ q)%list ->
  unbordered K = true ->
  contains K (X ++ String c "") = false -> contains K T = false ->
  in_cset a c = false -> in_cset b c = false ->
  re_sub pat repl ((X ++ String c "") ++ K ++ T) = (X ++ String c "") ++ K ++ T.
Proof.
  intros Hp HK HX HT Ha Hb. unfold re_sub. rewrite Hp.
  apply sub_from_nomatch. intros w1 w2 E.
  destruct (re_match _ w2 mstate0) eqn:M; [exfalso|reflexivity].
  apply greedy_group_inv in M as (r & s' & st' & -> & Hr & M).
  apply re_match_lits_inv in M as (s2 & -> & _).
  rewrite !append_assoc in E. rewrite <- (append_assoc w1 r) in E.
  rewrite <- (append_assoc X) in E.
  apply unique_occurrence in E as [E _]; try assumption.
  symmetry in E. apply append_eq_snoc in E as [[Q _]|(v' & Q & _)].
  - subst r. discriminate Hr.
  - assert (F : has_char c r = true) by (rewrite Q; apply has_char_last).
    rewrite (is_recv_lacks a b c r Ha Hb Hr) in F. discriminate.
Qed.

(** The same for the rules with a lazy receiver group. *)
Lemma lazy_rule_idle (pat repl : string) (n : nat) (a b : cset) (K C : string)
      (q : pattern) (X T : string) (c : ascii) :
  compile pat = (lazy_group n a b ++ lits (K ++ C) ++ q)%list ->
  unbordered K = true ->
  contains K (X ++ String c "") = false -> contains K T = false ->
  in_cset a c = false -> in_cset b c = false ->
  re_sub pat repl ((X ++ String c "") ++ K ++ T) = (X ++ String c "") ++ K ++ T.
Proof.
  intros Hp HK HX HT Ha Hb. unfold re_sub. rewrite Hp.
  apply sub_from_nomatch. intros w1 w2 E.
  destruct (re_match _ w2 mstate0) eqn:M; [exfalso|reflexivity].
  apply lazy_group_inv in M as (r & s' & st' & -> & Hr & M).
  apply re_match_lits_inv in M as (s2 & -> & _).
  rewrite !append_assoc in E. rewrite <- (append_assoc w1 r) in E.
  rewrite <- (append_assoc X) in E.
  apply unique_occurrence in E as [E _]; try assumption.
  symmetry in E. apply append_eq_snoc in E as [[Q _]|(v' & Q & _)].
  - subst r. discriminate Hr.
  - assert (F : has_char c r = true) by (rewrite Q; apply has_char_last).
    rewrite (is_recv_lacks a b c r Ha Hb Hr) in F. discriminate.
Qed.

(** *** Calls on a member of a word *)

Lemma member_call_buffer (pre m A T : string) (s1 : ascii) :
  pre ++ String s1 (m ++ A ++ ".Should()" ++ T)
  = (pre ++ String s1 (m ++ A)) ++ ".Should()" ++ T.
Proof. rewrite (append_assoc pre). simpl append. now rewrite (append_assoc m). Qed.

Lemma int_state_contain (pre post m s : string) (s1 : ascii) :
  in_cset call_char s1 = false ->
  contains ".Should()" pre = false -> contains ".Should()" post = false ->
  m <> "" -> all_in word m = true ->
  s <> "" -> has_char DQ s = false -> contains ".Should()" s = false ->
  FixIntegrationTests.rewrite
    (pre ++ String s1 (m ++ ".GetCurrentState().Should().Contain(" ++ dq ++ s ++ dq ++ ")"
                         ++ post))
  = pre ++ String s1 ("Assert.Contains(" ++ dq ++ s ++ dq ++ ", " ++ m
                        ++ ".GetCurrentState())" ++ post).
Proof.
  intros H1 Hpre Hpost Hne Hm Hns Hq Hs.
  assert (HT : contains ".Should()" (".Contain(" ++ dq ++ s ++ dq ++ ")" ++ post) = false)
    by (settle_quoted; exact Hpost).
  assert (HX : contains ".Should()" (pre ++ String s1 (m ++ ".GetCurrentState()")) = false)
    by (apply contains_sep; [now apply call_char_lacks|exact Hpre|];
        settle_quoted; reflexivity).
  open_integration.
  set (T := ".Contain(" ++ dq ++ s ++ dq ++ ")" ++ post) in *.
  set (X := pre ++ String s1 (m ++ ".GetCurrentState()")) in *.
  replace (pre ++ String s1 (m ++ ".GetCurrentState().Should().Contain(" ++ dq ++ s ++ dq
                               ++ ")" ++ post))
    with (X ++ ".Should()" ++ T)
    by (symmetry; exact (member_call_buffer pre m ".GetCurrentState()" _ s1)).
  skip_by_back "carrier" ".BeTrue()" X T HX HT.
  skip_by_back "" ".BeTrue()" X T HX HT.
  skip_by_back "" ".BeFalse()" X T HX HT.
  skip_by_back "" ".NotBeNull()" X T HX HT.
  skip_by_back "" ".BeNull()" X T HX HT.
  skip_by_back "" ".NotBeEmpty()" X T HX HT.
  replace (X ++ ".Should()" ++ T)
    with (pre ++ String s1 (m ++ (".GetCurrentState().Should().Contain(" ++ dq)
                              ++ s ++ (dq ++ ")") ++ post))
    by (exact (member_call_buffer pre m ".GetCurrentState()" _ s1)).
  rewrite (fire_word_plus _ _ (".GetCurrentState().Should().Contain(" ++ dq) (dq ++ ")")
             not_dq pre m s post s1);
    [ | reflexivity | now apply call_char_word | now apply call_char_lacks
      | apply (contains_part ".GetCurrentState()" ".Should()" (".Contain(" ++ dq)), Hpre
      | exact Hne | exact Hm | reflexivity | exact Hns | apply (all_in_without DQ), Hq
      | reflexivity ].
  rewrite (re_sub_id ".Should()" _ _ post) by (first [exact eq_refl | exact Hpost]).
  int_settle_quoted pre s1 H1 Hpre Hpost.
Qed.

Lemma int_state_not_contain (pre post m s : string) (s1 : ascii) :
  in_cset call_char s1 = false ->
  contains ".Should()" pre = false -> contains ".Should()" post = false ->
  m <> "" -> all_in word m = true ->
  s <> "" -> has_char DQ s = false -> contains ".Should()" s = false ->
  FixIntegrationTests.rewrite
    (pre ++ String s1 (m ++ ".GetCurrentState().Should().NotContain(" ++ dq ++ s ++ dq ++ ")"
                         ++ post))
  = pre ++ String s1 ("Assert.DoesNotContain(" ++ dq ++ s ++ dq ++ ", " ++ m
                        ++ ".GetCurrentState())" ++ post).
Proof.
  intros H1 Hpre Hpost Hne Hm Hns Hq Hs.
  assert (HT : contains ".Should()" (".NotContain(" ++ dq ++ s ++ dq ++ ")" ++ post) = false)
    by (settle_quoted; exact Hpost).
  assert (HX : contains ".Should()" (pre ++ String s1 (m ++ ".GetCurrentState()")) = false)
    by (apply contains_sep; [now apply call_char_lacks|exact Hpre|];
        settle_quoted; reflexivity).
  open_integration.
  set (T := ".NotContain(" ++ dq ++ s ++ dq ++ ")" ++ post) in *.
  set (X := pre ++ String s1 (m ++ ".GetCurrentState()")) in *.
  replace (pre ++ String s1 (m ++ ".GetCurrentState().Should().NotContain(" ++ dq ++ s ++ dq
                               ++ ")" ++ post))
    with (X ++ ".Should()" ++ T)
    by (symmetry; exact (member_call_buffer pre m ".GetCurrentState()" _ s1)).
  skip_by_back "carrier" ".BeTrue()" X T HX HT.
  skip_by_back "" ".BeTrue()" X T HX HT.
  skip_by_back "" ".BeFalse()" X T HX HT.
  skip_by_back "" ".NotBeNull()" X T HX HT.
  skip_by_back "" ".BeNull()" X T HX HT.
  skip_by_back "" ".NotBeEmpty()" X T HX HT.
  skip_by_back ".GetCurrentState()" (".Contain(" ++ dq) X T HX HT.
  replace (X ++ ".Should()" ++ T)
    with (pre ++ String s1 (m ++ (".GetCurrentState().Should().NotContain(" ++ dq)
                              ++ s ++ (dq ++ ")") ++ post))
    by (exact (member_call_buffer pre m ".GetCurrentState()" _ s1)).
  rewrite (fire_word_plus _ _ (".GetCurrentState().Should().NotContain(" ++ dq) (dq ++ ")")
             not_dq pre m s post s1);
    [ | reflexivity | now apply call_char_word | now apply call_char_lacks
      | apply (contains_part ".GetCurrentState()" ".Should()" (".NotContain(" ++ dq)), Hpre
      | exact Hne | exact Hm | reflexivity | exact Hns | apply (all_in_without DQ), Hq
      | reflexivity ].
  rewrite (re_sub_id ".Should()" _ _ post) by (first [exact eq_refl | exact Hpost]).
  int_settle_quoted pre s1 H1 Hpre Hpost.
Qed.

(** [m.EventLog.Should().Contain("s")]: the rules before the eleventh
    leave it, the eleventh rewrites it. *)
Lemma int_event_log (pre post m s : string) (s1 : ascii) :
  in_cset call_char s1 = false ->
  contains ".Should()" pre = false -> contains ".Should()" post = false ->
  m <> "" -> all_in word m = true ->
  s <> "" -> has_char DQ s = false -> contains ".Should()" s = false ->
  FixIntegrationTests.rewrite
    (pre ++ String s1 (m ++ ".EventLog.Should().Contain(" ++ dq ++ s ++ dq ++ ")" ++ post))
  = pre ++ String s1 ("Assert.Contains(" ++ dq ++ s ++ dq ++ ", " ++ m ++ ".EventLog)"
                        ++ post).
Proof.
  intros H1 Hpre Hpost Hne Hm Hns Hq Hs.
  assert (HT : contains ".Should()" (".Contain(" ++ dq ++ s ++ dq ++ ")" ++ post) = false)
    by (settle_quoted; exact Hpost).
  assert (HX : contains ".Should()" (pre ++ String s1 (m ++ ".EventLog")) = false)
    by (apply contains_sep; [now apply call_char_lacks|exact Hpre|];
        settle_quoted; reflexivity).
  open_integration.
  set (T := ".Contain(" ++ dq ++ s ++ dq ++ ")" ++ post) in *.
  replace (pre ++ String s1 (m ++ ".EventLog.Should().Contain(" ++ dq ++ s ++ dq
                               ++ ")" ++ post))
    with ((pre ++ String s1 (m ++ ".EventLog")) ++ ".Should()" ++ T)
    by (symmetry; exact (member_call_buffer pre m ".EventLog" _ s1)).
  skip_by_back "carrier" ".BeTrue()" (pre ++ String s1 (m ++ ".EventLog")) T HX HT.
  skip_by_back "" ".BeTrue()" (pre ++ String s1 (m ++ ".EventLog")) T HX HT.
  skip_by_back "" ".BeFalse()" (pre ++ String s1 (m ++ ".EventLog")) T HX HT.
  skip_by_back "" ".NotBeNull()" (pre ++ String s1 (m ++ ".EventLog")) T HX HT.
  skip_by_back "" ".BeNull()" (pre ++ String s1 (m ++ ".EventLog")) T HX HT.
  skip_by_back "" ".NotBeEmpty()" (pre ++ String s1 (m ++ ".EventLog")) T HX HT.
  rewrite (re_sub_id (".GetCurrentState()" ++ ".Should()" ++ (".Contain(" ++ dq)) _ _
             ((pre ++ String s1 (m ++ ".EventLog")) ++ ".Should()" ++ T))
    by (first [ exact eq_refl
              | apply front_absent;
                [ exact H1 | reflexivity
                | apply (ends_with_needs_char ")"); [reflexivity|];
                  rewrite has_char_app, (all_in_lacks word ")" m eq_refl Hm); reflexivity
                | exact HX | exact HT ] ]).
  skip_by_back ".GetCurrentState()" (".NotContain(" ++ dq)
    (pre ++ String s1 (m ++ ".EventLog")) T HX HT.
  skip_by_back "" ".HaveCount(" (pre ++ String s1 (m ++ ".EventLog")) T HX HT.
  skip_by_back "" ".Be(" (pre ++ String s1 (m ++ ".EventLog")) T HX HT.
  replace ((pre ++ String s1 (m ++ ".EventLog")) ++ ".Should()" ++ T)
    with (pre ++ String s1 (m ++ (".EventLog.Should().Contain(" ++ dq)
                              ++ s ++ (dq ++ ")") ++ post))
    by (exact (member_call_buffer pre m ".EventLog" _ s1)).
  rewrite (fire_word_plus _ _ (".EventLog.Should().Contain(" ++ dq) (dq ++ ")")
             not_dq pre m s post s1);
    [ | reflexivity | now apply call_char_word | now apply call_char_lacks
      | apply (contains_part ".EventLog" ".Should()" (".Contain(" ++ dq)), Hpre
      | exact Hne | exact Hm | reflexivity | exact Hns | apply (all_in_without DQ), Hq
      | reflexivity ].
  rewrite (re_sub_id ".Should()" _ _ post) by (first [exact eq_refl | exact Hpost]).
  int_settle_quoted pre s1 H1 Hpre Hpost.
Qed.

(** The buffer of a call on the result of a member call [m.A()]. *)
Lemma member_paren_buffer (pre m A T : string) (s1 : ascii) :
  pre ++ String s1 (m ++ A ++ ")" ++ ".Should()" ++ T)
  = ((pre ++ String s1 (m ++ A)) ++ String ")" "") ++ ".Should()" ++ T.
Proof.
  rewrite (append_assoc (pre ++ String s1 (m ++ A))), (append_assoc pre).
  simpl append. now rewrite (append_assoc m).
Qed.

(** [m.GetAllJobs().Should().HaveCount(n)]: the ninth rule, whose word
    would have to end in [)], is idle, and the twelfth rewrites the call. *)
Lemma int_all_jobs (pre post m n : string) (s1 : ascii) :
  in_cset call_char s1 = false ->
  contains ".Should()" pre = false -> contains ".Should()" post = false ->
  m <> "" -> all_in word m = true -> n <> "" -> all_in digit n = true ->
  FixIntegrationTests.rewrite
    (pre ++ String s1 (m ++ ".GetAllJobs().Should().HaveCount(" ++ n ++ ")" ++ post))
  = pre ++ String s1 ("Assert.Equal(" ++ n ++ ", " ++ m ++ ".GetAllJobs().Count)" ++ post).
Proof.
  intros H1 Hpre Hpost Hne Hm Hnn Hn.
  assert (HT : contains ".Should()" (".HaveCount(" ++ n ++ ")" ++ post) = false)
    by (settle_dots; exact Hpost).
  assert (HX : contains ".Should()"
                 ((pre ++ String s1 (m ++ ".GetAllJobs(")) ++ String ")" "") = false).
  { rewrite append_assoc. simpl append. rewrite append_assoc.
    apply contains_sep; [now apply call_char_lacks|exact Hpre|].
    settle_dots. reflexivity. }
  open_integration.
  set (T := ".HaveCount(" ++ n ++ ")" ++ post) in *.
  set (X := (pre ++ String s1 (m ++ ".GetAllJobs(")) ++ String ")" "") in *.
  replace (pre ++ String s1 (m ++ ".GetAllJobs().Should().HaveCount(" ++ n ++ ")" ++ post))
    with (X ++ ".Should()" ++ T)
    by (symmetry; exact (member_paren_buffer pre m ".GetAllJobs(" _ s1)).
  skip_by_back "carrier" ".BeTrue()" X T HX HT.
  skip_by_back "" ".BeTrue()" X T HX HT.
  skip_by_back "" ".BeFalse()" X T HX HT.
  skip_by_back "" ".NotBeNull()" X T HX HT.
  skip_by_back "" ".BeNull()" X T HX HT.
  skip_by_back "" ".NotBeEmpty()" X T HX HT.
  skip_by_back ".GetCurrentState()" (".Contain(" ++ dq) X T HX HT.
  skip_by_back ".GetCurrentState()" (".NotContain(" ++ dq) X T HX HT.
  rewrite (greedy_rule_idle _ _ 1 word word ".Should()" ".HaveCount("
             (plus_group 2 digit ++ lits ")" ++ [])%list
             (pre ++ String s1 (m ++ ".GetAllJobs(")) T ")");
    [ | reflexivity | reflexivity | exact HX | exact HT | reflexivity | reflexivity ].
  fold X.
  skip_by_back "" ".Be(" X T HX HT.
  skip_by_back ".EventLog" (".Contain(" ++ dq) X T HX HT.
  replace (X ++ ".Should()" ++ T)
    with (pre ++ String s1 (m ++ ".GetAllJobs().Should().HaveCount(" ++ n ++ ")" ++ post))
    by (exact (member_paren_buffer pre m ".GetAllJobs(" _ s1)).
  rewrite (fire_word_plus _ _ ".GetAllJobs().Should().HaveCount(" ")" digit pre m n post s1);
    [ | reflexivity | now apply call_char_word | now apply call_char_lacks
      | apply (contains_part ".GetAllJobs()" ".Should()" ".HaveCount("), Hpre
      | exact Hne | exact Hm | reflexivity | exact Hnn | exact Hn | reflexivity ].
  rewrite (re_sub_id ".Should()" _ _ post) by (first [exact eq_refl | exact Hpost]).
  int_settle pre s1 H1 Hpre Hpost.
Qed.




(** ** The first rule and qualified receivers *)

(** The first rule is the bare text [carrier.Should().BeTrue()]: it fires
    wherever that text stands, also behind the front of a longer name. *)
Lemma int_carrier (pre post : string) :
  contains ".Should()" pre = false -> contains ".Should()" post = false ->
  FixIntegrationTests.rewrite (pre ++ "carrier.Should().BeTrue()" ++ post)
  = pre ++ "Assert.True(carrier)" ++ post.
Proof.
  intros Hpre Hpost. open_integration.
  assert (HX : contains ".Should()" (pre ++ "carrier") = false)
    by (apply (contains_free_tail ")" ".Should(" pre "carrier"); [reflexivity|exact Hpre]).
  rewrite re_sub_copy.
  2:{ intros w1 w2 E Hw.
      destruct (re_match _ _ _) eqn:M; [exfalso|reflexivity].
      change (re_match (lits "carrier.Should().BeTrue()" ++ [])%list
                (w2 ++ "carrier.Should().BeTrue()" ++ post) mstate0 = Some p) in M.
      apply re_match_lits_inv in M as (s2 & E2 & _).
      assert (E3 : (pre ++ "carrier") ++ ".Should()" ++ ".BeTrue()" ++ post
                   = (w1 ++ "carrier") ++ ".Should()" ++ ".BeTrue()" ++ s2).
      { rewrite !append_assoc. rewrite E at 1. rewrite append_assoc. f_equal. exact E2. }
      apply unique_occurrence in E3 as [E3 _]; [ |reflexivity|exact HX|exact Hpost].
      rewrite E, append_assoc in E3. apply append_inv_head in E3.
      apply (f_equal String.length) in E3. rewrite length_append in E3.
      destruct w2; [congruence|simpl in E3; lia]. }
  rewrite (re_sub_fire _ _ "carrier.Should().BeTrue()" post mstate0);
    [ | discriminate | exact (re_match_lits "carrier.Should().BeTrue()" [] post mstate0) ].
  rewrite (re_sub_id ".Should()" _ _ post) by (first [exact eq_refl | exact Hpost]).
  simpl expand. flatten_text.
  match goal with
  | |- context [re_sub _ _ (pre ++ ?r)] =>
      assert (HO : contains ".Should()" (pre ++ r) = false)
        by (apply (contains_sep "A"); [reflexivity|exact Hpre|]; simpl; exact Hpost);
      skip_all ".Should()" (pre ++ r) HO
  end.
  reflexivity.
Qed.

(** A rule [(\w+)K...] copies the text up to the character in front of the
    word, when the core of [K] stands once in the text. *)
Lemma word_rule_copy (pat repl K C : string) (q : pattern) (pre w T : string) (s1 : ascii) :
  compile pat = (plus_group 1 word ++ lits (K ++ C) ++ q)%list ->
  unbordered K = true -> contains K (pre ++ String s1 w) = false -> contains K T = false ->
  in_cset word s1 = false ->
  re_sub pat repl (pre ++ String s1 (w ++ K ++ T))
  = pre ++ String s1 (re_sub pat repl (w ++ K ++ T)).
Proof.
  intros Hp HK HX HT H1.
  change (pre ++ String s1 (w ++ K ++ T)) with (pre ++ (String s1 "" ++ (w ++ K ++ T))).
  rewrite <- append_assoc, re_sub_copy; [now rewrite append_assoc|].
  intros w1 w2 E Hw. rewrite Hp.
  destruct (re_match _ _ _) eqn:M; [exfalso|reflexivity].
  apply (greedy_group_inv 1 word word) in M as (r & s' & st' & E2 & Hr & M).
  apply re_match_lits_inv in M as (s2 & -> & _).
  apply append_eq_snoc in E as [[Q _]|(v' & Q1 & Q2)]; [congruence|]. subst w2.
  assert (E3 : (pre ++ String s1 w) ++ K ++ T = ((w1 ++ r) ++ K ++ C ++ s2)).
  { rewrite Q2.
    replace (((w1 ++ v') ++ String s1 w) ++ K ++ T)
      with (w1 ++ ((v' ++ String s1 "") ++ w ++ K ++ T))
      by (rewrite !append_assoc; reflexivity).
    rewrite E2. now rewrite !append_assoc. }
  apply unique_occurrence in E3 as [E3 _]; try assumption.
  rewrite Q2, append_assoc in E3. apply append_inv_head in E3.
  assert (F : has_char s1 r = true).
  { rewrite E3, has_char_app. simpl. rewrite Ascii.eqb_refl. apply orb_true_r. }
  rewrite (is_recv_lacks word word s1 r H1 H1 Hr) in F. discriminate.
Qed.

Lemma ident_is_word (y : string) :
  is_recv ident_start ident_char y = true -> y <> "" /\ all_in word y = true.
Proof.
  intros H. split; [now destruct y|].
  assert (A : forall c, in_cset ident_char c = true -> in_cset word c = true).
  { intros c. unfold in_cset, ident_char, word, in_ranges. cbn -[Nat.leb nat_of_ascii].
    intros Q. repeat (apply orb_true_iff in Q as [Q|Q]);
      rewrite ?Q, ?orb_true_r; try reflexivity; discriminate. }
  assert (B : forall c, in_cset ident_start c = true -> in_cset ident_char c = true).
  { intros c. unfold in_cset, ident_char, ident_start, in_ranges.
    cbn -[Nat.leb nat_of_ascii].
    intros Q. repeat (apply orb_true_iff in Q as [Q|Q]);
      rewrite ?Q, ?orb_true_r; try reflexivity; discriminate. }
  destruct y as [|c y]; [discriminate|]. simpl in H |- *.
  apply andb_true_iff in H as [Hc Hy]. rewrite (A _ (B _ Hc)). simpl.
  induction y as [|d y IH]; [reflexivity|]. simpl in Hy |- *.
  apply andb_true_iff in Hy as [Hd Hy]. now rewrite (A _ Hd), IH.
Qed.

(** [q.y.Should().Be(n)]: the word of the rule is [y] alone, and the
    qualifier [q.] stays in front of the assertion. *)
Lemma int_be_qualified (pre post y n : string) :
  contains ".Should()" pre = false -> contains ".Should()" post = false ->
  y <> "" -> all_in word y = true -> n <> "" -> all_in digit n = true ->
  FixIntegrationTests.rewrite (pre ++ String "." (y ++ ".Should().Be(" ++ n ++ ")" ++ post))
  = pre ++ String "." ("Assert.Equal(" ++ n ++ ", " ++ y ++ ")" ++ post).
Proof.
  intros Hpre Hpost Hne Hy Hnn Hn.
  assert (HT : contains ".Should()" (".Be(" ++ n ++ ")" ++ post) = false)
    by (settle_dots; exact Hpost).
  assert (HX : contains ".Should()" (pre ++ String "." y) = false).
  { apply (contains_free_tail ")" ".Should(" pre (String "." y)); [|exact Hpre].
    simpl. now apply (all_in_lacks word). }
  open_integration.
  change (pre ++ String "." (y ++ ".Should().Be(" ++ n ++ ")" ++ post))
    with (pre ++ String "." (y ++ ".Should()" ++ ".Be(" ++ n ++ ")" ++ post)).
  rewrite word_call_buffer.
  set (X := pre ++ String "." y) in *. set (T := ".Be(" ++ n ++ ")" ++ post) in *.
  skip_by_back "carrier" ".BeTrue()" X T HX HT.
  skip_by_back "" ".BeTrue()" X T HX HT.
  skip_by_back "" ".BeFalse()" X T HX HT.
  skip_by_back "" ".NotBeNull()" X T HX HT.
  skip_by_back "" ".BeNull()" X T HX HT.
  skip_by_back "" ".NotBeEmpty()" X T HX HT.
  skip_by_back ".GetCurrentState()" (".Contain(" ++ dq) X T HX HT.
  skip_by_back ".GetCurrentState()" (".NotContain(" ++ dq) X T HX HT.
  skip_by_back "" ".HaveCount(" X T HX HT.
  unfold X. rewrite <- word_call_buffer.
  rewrite (word_rule_copy _ _ ".Should()" ".Be(" (plus_group 2 digit ++ lits ")" ++ [])%list
             pre y T ".");
    [ | reflexivity | reflexivity | exact HX | exact HT | reflexivity ].
  unfold T.
  replace (y ++ ".Should()" ++ ".Be(" ++ n ++ ")" ++ post)
    with ((y ++ ".Should().Be(" ++ n ++ ")") ++ post) by (now rewrite !append_assoc).
  rewrite (re_sub_fire _ _ (y ++ ".Should().Be(" ++ n ++ ")") post
             (captured 2 n (")" ++ post)
                (captured 1 y (".Should().Be(" ++ n ++ ")" ++ post) mstate0))).
  2:{ destruct y; [congruence|discriminate]. }
  2:{ change (compile "(\w+)\.Should\(\)\.Be\((\d+)\)")
        with (plus_group 1 word ++ lits ".Should().Be(" ++ plus_group 2 digit
                ++ lits ")" ++ [])%list.
      rewrite !append_assoc.
      apply plus_group_run; [exact Hne|exact Hy|reflexivity|].
      rewrite re_match_lits.
      apply plus_group_run; [exact Hnn|exact Hn|reflexivity|].
      now rewrite re_match_lits. }
  rewrite (re_sub_id ".Should()" _ _ post) by (first [exact eq_refl | exact Hpost]).
  simpl expand. flatten_text.
  match goal with
  | |- context [re_sub _ _ (pre ++ ?r)] =>
      assert (HO : contains ".Should()" (pre ++ r) = false)
        by (change r with (String "." "" ++ String "A" (drop 2 r));
            rewrite <- append_assoc;
            apply (contains_sep "A");
            [ reflexivity
            | apply (contains_free_tail ")" ".Should(" pre "."); [reflexivity|exact Hpre]
            | settle_dots; exact Hpost ]);
      skip_all ".Should()" (pre ++ r) HO
  end.
  reflexivity.
Qed.

(** fix_all_should.py after fix_integration_tests.py: the correction rule
    of the first puts back the qualifier that the second leaves in front. *)
Lemma int_be_then_correction (q y n : string) :
  is_recv ident_start ident_char q = true -> is_recv ident_start ident_char y = true ->
  n <> "" -> all_in digit n = true ->
  FixIntegrationTests.rewrite (q ++ String "." (y ++ ".Should().Be(" ++ n ++ ")"))
  = q ++ ".Assert.Equal(" ++ n ++ ", " ++ y ++ ")" /\
  FixAllShould.fix_all_should_patterns
    (FixIntegrationTests.rewrite (q ++ String "." (y ++ ".Should().Be(" ++ n ++ ")")))
  = "Assert.Equal(" ++ n ++ ", " ++ q ++ "." ++ y ++ ")".
Proof.
  intros Hq Hy Hnn Hn.
  destruct (ident_is_word y Hy) as [Hne Hw].
  assert (E : FixIntegrationTests.rewrite (q ++ String "." (y ++ ".Should().Be(" ++ n ++ ")"))
              = q ++ ".Assert.Equal(" ++ n ++ ", " ++ y ++ ")").
  { change (y ++ ".Should().Be(" ++ n ++ ")") with (y ++ ".Should().Be(" ++ n ++ ")" ++ "").
    rewrite (int_be_qualified q "" y n); auto.
    apply (contains_needs_char "("); [reflexivity|now apply ident_no_paren]. }
  split; [exact E|]. rewrite E.
  apply all_correct_equal; auto.
  - now apply (all_in_lacks digit).
  - apply (contains_needs_char "."); [reflexivity|now apply digits_no_dot].
  - apply (contains_needs_char "."); [reflexivity|now apply digits_no_dot].
Qed.

(** ** fix_all_should.py: the table of rewrites *)

(** No rule in front of the firing one matches [r.Should()T]. *)
Ltac absent_plain r HK T L :=
  let M := eval vm_compute in (drop 9 L) in
  apply (contains_anchor ".Should()" M r T); [reflexivity|exact HK|reflexivity].

(** The output [Assert.M(r)] is left by the rules behind the firing one. *)
Ltac all_settle_plain r HK HA :=
  rewrite re_sub_empty by reflexivity; simpl expand; rewrite append_nil_r;
  match goal with
  | |- context [re_sub _ _ (String ?c ?t)] =>
      let HO := fresh "HO" in
      let HO' := fresh "HO" in
      assert (HO : contains ".Should()." (String c t) = false)
        by (simpl; apply (contains_snoc ")" ".Should()" "."); [reflexivity|];
            apply (contains_part "" ".Should()" "."), HK);
      assert (HO' : contains ".Assert." (String c t) = false)
        by (simpl; now apply (contains_sep ")" ".Assert." r ""));
      skip_all ".Should()." (String c t) HO; skip_all ".Assert." (String c t) HO'
  end;
  reflexivity.

Ltac all_fire_plain K r Hr HK :=
  rewrite (fire_recv _ _ K ident_start recv_char r "");
    [ | reflexivity | exact Hr | reflexivity
      | apply (contains_part "" ".Should()" (drop 9 K)), HK ].

Lemma all_plain_null (r : string) :
  is_recv ident_start recv_char r = true ->
  contains ".Should()" r = false -> contains ".Assert." r = false ->
  FixAllShould.fix_all_should_patterns (r ++ ".Should().NotBeNull()")
  = "Assert.NotNull(" ++ r ++ ")" /\
  FixAllShould.fix_all_should_patterns (r ++ ".Should().BeNull()")
  = "Assert.Null(" ++ r ++ ")".
Proof.
  intros Hr HK HA. split; unfold FixAllShould.fix_all_should_patterns; cbv zeta.
  - all_fire_plain ".Should().NotBeNull()" r Hr HK.
    all_settle_plain r HK HA.
  - set (B := r ++ ".Should().BeNull()").
    do 1 skip_on B ltac:(fun L => unfold B; absent_plain r HK ".BeNull()" L).
    unfold B. all_fire_plain ".Should().BeNull()" r Hr HK.
    all_settle_plain r HK HA.
Qed.

Lemma all_plain_bool (r : string) :
  is_recv ident_start recv_char r = true ->
  contains ".Should()" r = false -> contains ".Assert." r = false ->
  FixAllShould.fix_all_should_patterns (r ++ ".Should().BeTrue()")
  = "Assert.True(" ++ r ++ ")" /\
  FixAllShould.fix_all_should_patterns (r ++ ".Should().BeFalse()")
  = "Assert.False(" ++ r ++ ")".
Proof.
  intros Hr HK HA. split; unfold FixAllShould.fix_all_should_patterns; cbv zeta.
  - set (B := r ++ ".Should().BeTrue()").
    do 3 skip_on B ltac:(fun L => unfold B; absent_plain r HK ".BeTrue()" L).
    unfold B. all_fire_plain ".Should().BeTrue()" r Hr HK.
    all_settle_plain r HK HA.
  - set (B := r ++ ".Should().BeFalse()").
    do 4 skip_on B ltac:(fun L => unfold B; absent_plain r HK ".BeFalse()" L).
    unfold B. all_fire_plain ".Should().BeFalse()" r Hr HK.
    all_settle_plain r HK HA.
Qed.

Lemma all_plain_empty (r : string) :
  is_recv ident_start recv_char r = true ->
  contains ".Should()" r = false -> contains ".Assert." r = false ->
  FixAllShould.fix_all_should_patterns (r ++ ".Should().BeEmpty()")
  = "Assert.Empty(" ++ r ++ ")" /\
  FixAllShould.fix_all_should_patterns (r ++ ".Should().NotBeEmpty()")
  = "Assert.NotEmpty(" ++ r ++ ")".
Proof.
  intros Hr HK HA. split; unfold FixAllShould.fix_all_should_patterns; cbv zeta.
  - set (B := r ++ ".Should().BeEmpty()").
    do 8 skip_on B ltac:(fun L => unfold B; absent_plain r HK ".BeEmpty()" L).
    unfold B. all_fire_plain ".Should().BeEmpty()" r Hr HK.
    all_settle_plain r HK HA.
  - set (B := r ++ ".Should().NotBeEmpty()").
    do 9 skip_on B ltac:(fun L => unfold B; absent_plain r HK ".NotBeEmpty()" L).
    unfold B. all_fire_plain ".Should().NotBeEmpty()" r Hr HK.
    all_settle_plain r HK HA.
Qed.

(** The rules with one argument whose output is [Assert.M(v, r)]. *)
Ltac all_fire_arg K r v Hr HK Hne Hv :=
  rewrite (fire_recv_plus _ _ K ident_start recv_char not_paren r v "");
    [ | reflexivity | exact Hr | reflexivity
      | apply (contains_part "" ".Should()" (drop 9 K)), HK
      | exact Hne | apply (all_in_without ")"), Hv | reflexivity ];
  rewrite re_sub_empty by reflexivity; simpl expand; rewrite append_nil_r.

Ltac all_settle_arg Hv HK HAv HA :=
  match goal with
  | |- context [re_sub _ _ (String ?c ?t)] =>
      let HO := fresh "HO" in
      let HO' := fresh "HO" in
      assert (HO : contains ".Should()." (String c t) = false)
        by (simpl; now apply output_no_should);
      assert (HO' : contains ".Assert." (String c t) = false)
        by (simpl; now apply output_no_assert);
      skip_all ".Should()." (String c t) HO; skip_all ".Assert." (String c t) HO'
  end;
  reflexivity.

Lemma all_arg_contain (r v : string) :
  is_recv ident_start recv_char r = true ->
  contains ".Should()" r = false -> contains ".Assert." r = false ->
  v <> "" -> has_char ")" v = false -> contains ".Assert." v = false ->
  FixAllShould.fix_all_should_patterns (r ++ ".Should().Contain(" ++ v ++ ")")
  = "Assert.Contains(" ++ v ++ ", " ++ r ++ ")" /\
  FixAllShould.fix_all_should_patterns (r ++ ".Should().NotContain(" ++ v ++ ")")
  = "Assert.DoesNotContain(" ++ v ++ ", " ++ r ++ ")".
Proof.
  intros Hr HK HA Hne Hv HAv. split; unfold FixAllShould.fix_all_should_patterns; cbv zeta.
  - set (B := r ++ ".Should().Contain(" ++ v ++ ")").
    do 5 skip_on B ltac:(fun L => unfold B; absent_before r v HK Hv ".Contain(" L).
    unfold B. all_fire_arg ".Should().Contain(" r v Hr HK Hne Hv.
    all_settle_arg Hv HK HAv HA.
  - set (B := r ++ ".Should().NotContain(" ++ v ++ ")").
    do 6 skip_on B ltac:(fun L => unfold B; absent_before r v HK Hv ".NotContain(" L).
    unfold B. all_fire_arg ".Should().NotContain(" r v Hr HK Hne Hv.
    all_settle_arg Hv HK HAv HA.
Qed.

Lemma all_arg_affix (r v : string) :
  is_recv ident_start recv_char r = true ->
  contains ".Should()" r = false -> contains ".Assert." r = false ->
  v <> "" -> has_char ")" v = false -> contains ".Assert." v = false ->
  FixAllShould.fix_all_should_patterns (r ++ ".Should().StartWith(" ++ v ++ ")")
  = "Assert.StartsWith(" ++ v ++ ", " ++ r ++ ")" /\
  FixAllShould.fix_all_should_patterns (r ++ ".Should().EndWith(" ++ v ++ ")")
  = "Assert.EndsWith(" ++ v ++ ", " ++ r ++ ")".
Proof.
  intros Hr HK HA Hne Hv HAv. split; unfold FixAllShould.fix_all_should_patterns; cbv zeta.
  - set (B := r ++ ".Should().StartWith(" ++ v ++ ")").
    do 13 skip_on B ltac:(fun L => unfold B; absent_before r v HK Hv ".StartWith(" L).
    unfold B. all_fire_arg ".Should().StartWith(" r v Hr HK Hne Hv.
    all_settle_arg Hv HK HAv HA.
  - set (B := r ++ ".Should().EndWith(" ++ v ++ ")").
    do 14 skip_on B ltac:(fun L => unfold B; absent_before r v HK Hv ".EndWith(" L).
    unfold B. all_fire_arg ".Should().EndWith(" r v Hr HK Hne Hv.
    all_settle_arg Hv HK HAv HA.
Qed.

Lemma all_arg_equal (r v : string) :
  is_recv ident_start recv_char r = true ->
  contains ".Should()" r = false -> contains ".Assert." r = false ->
  v <> "" -> has_char ")" v = false -> contains ".Assert." v = false ->
  FixAllShould.fix_all_should_patterns (r ++ ".Should().BeEquivalentTo(" ++ v ++ ")")
  = "Assert.Equal(" ++ v ++ ", " ++ r ++ ")" /\
  FixAllShould.fix_all_should_patterns (r ++ ".Should().NotBe(" ++ v ++ ")")
  = "Assert.NotEqual(" ++ v ++ ", " ++ r ++ ")".
Proof.
  intros Hr HK HA Hne Hv HAv. split; unfold FixAllShould.fix_all_should_patterns; cbv zeta.
  - set (B := r ++ ".Should().BeEquivalentTo(" ++ v ++ ")").
    do 15 skip_on B ltac:(fun L => unfold B; absent_before r v HK Hv ".BeEquivalentTo(" L).
    unfold B. all_fire_arg ".Should().BeEquivalentTo(" r v Hr HK Hne Hv.
    all_settle_arg Hv HK HAv HA.
  - set (B := r ++ ".Should().NotBe(" ++ v ++ ")").
    do 16 skip_on B ltac:(fun L => unfold B; absent_before r v HK Hv ".NotBe(" L).
    unfold B. all_fire_arg ".Should().NotBe(" r v Hr HK Hne Hv.
    all_settle_arg Hv HK HAv HA.
Qed.

(** The comparisons: the output is [Assert.True(r op v)]. *)
Ltac all_settle_compare r v Hv HK HAv HA :=
  match goal with
  | |- context [re_sub _ _ (String ?c ?t)] =>
      let HO := fresh "HO" in
      let HO' := fresh "HO" in
      assert (HO : contains ".Should()." (String c t) = false)
        by (simpl; apply (contains_sep " " ".Should()." r);
            [ reflexivity | apply (contains_part "" ".Should()" "."), HK | ];
            simpl; apply (contains_snoc ")" ".Should()" "."); [reflexivity|];
            apply (contains_needs_char ")"); [reflexivity|exact Hv]);
      assert (HO' : contains ".Assert." (String c t) = false)
        by (simpl; apply (contains_sep " " ".Assert." r); [reflexivity|exact HA|];
            simpl; now apply (contains_sep ")" ".Assert." v ""));
      skip_all ".Should()." (String c t) HO; skip_all ".Assert." (String c t) HO'
  end;
  reflexivity.

Lemma all_arg_compare (r v : string) :
  is_recv ident_start recv_char r = true ->
  contains ".Should()" r = false -> contains ".Assert." r = false ->
  v <> "" -> has_char ")" v = false -> contains ".Assert." v = false ->
  FixAllShould.fix_all_should_patterns (r ++ ".Should().BeGreaterThan(" ++ v ++ ")")
  = "Assert.True(" ++ r ++ " > " ++ v ++ ")" /\
  FixAllShould.fix_all_should_patterns (r ++ ".Should().BeLessThan(" ++ v ++ ")")
  = "Assert.True(" ++ r ++ " < " ++ v ++ ")" /\
  FixAllShould.fix_all_should_patterns (r ++ ".Should().BeGreaterOrEqualTo(" ++ v ++ ")")
  = "Assert.True(" ++ r ++ " >= " ++ v ++ ")".
Proof.
  intros Hr HK HA Hne Hv HAv.
  repeat split; unfold FixAllShould.fix_all_should_patterns; cbv zeta.
  - set (B := r ++ ".Should().BeGreaterThan(" ++ v ++ ")").
    do 10 skip_on B ltac:(fun L => unfold B; absent_before r v HK Hv ".BeGreaterThan(" L).
    unfold B. all_fire_arg ".Should().BeGreaterThan(" r v Hr HK Hne Hv.
    all_settle_compare r v Hv HK HAv HA.
  - set (B := r ++ ".Should().BeLessThan(" ++ v ++ ")").
    do 11 skip_on B ltac:(fun L => unfold B; absent_before r v HK Hv ".BeLessThan(" L).
    unfold B. all_fire_arg ".Should().BeLessThan(" r v Hr HK Hne Hv.
    all_settle_compare r v Hv HK HAv HA.
  - set (B := r ++ ".Should().BeGreaterOrEqualTo(" ++ v ++ ")").
    do 12 skip_on B ltac:(fun L => unfold B; absent_before r v HK Hv ".BeGreaterOrEqualTo(" L).
    unfold B. all_fire_arg ".Should().BeGreaterOrEqualTo(" r v Hr HK Hne Hv.
    all_settle_compare r v Hv HK HAv HA.
Qed.

(** ** fix_all_should.py: calls it does not rewrite *)

(** A fluent call whose receiver ends in a character outside the receiver
    class (a quote, [!], [>], a blank) is left as it is: every rule wants
    its receiver group to reach up to [.Should()]. *)
Lemma all_foreign_receiver (X T : string) (c : ascii) :
  in_cset recv_char c = false ->
  contains ".Should()" (X ++ String c "") = false -> contains ".Should()" T = false ->
  contains ".Assert." ((X ++ String c "") ++ ".Should()" ++ T) = false ->
  FixAllShould.fix_all_should_patterns ((X ++ String c "") ++ ".Should()" ++ T)
  = (X ++ String c "") ++ ".Should()" ++ T.
Proof.
  intros Hc HX HT HA. pose proof (ident_start_recv c Hc) as Ha.
  unfold FixAllShould.fix_all_should_patterns. cbv zeta.
  assert (P : forall pat repl C q,
             compile pat = (lazy_group 1 ident_start recv_char
                              ++ lits (".Should()" ++ C) ++ q)%list ->
             re_sub pat repl ((X ++ String c "") ++ ".Should()" ++ T)
             = (X ++ String c "") ++ ".Should()" ++ T).
  { intros pat repl C q Hp.
    now apply (lazy_rule_idle pat repl 1 ident_start recv_char ".Should()" C q X T c). }
  set (A := (plus_group 2 not_paren ++ [Lit ")"%char])%list).
  rewrite (P _ _ ".NotBeNull()" []%list) by reflexivity.
  rewrite (P _ _ ".BeNull()" []%list) by reflexivity.
  rewrite (P _ _ ".Be(" A) by reflexivity.
  rewrite (P _ _ ".BeTrue()" []%list) by reflexivity.
  rewrite (P _ _ ".BeFalse()" []%list) by reflexivity.
  rewrite (P _ _ ".Contain(" A) by reflexivity.
  rewrite (P _ _ ".NotContain(" A) by reflexivity.
  rewrite (P _ _ ".HaveCount(" A) by reflexivity.
  rewrite (P _ _ ".BeEmpty()" []%list) by reflexivity.
  rewrite (P _ _ ".NotBeEmpty()" []%list) by reflexivity.
  rewrite (P _ _ ".BeGreaterThan(" A) by reflexivity.
  rewrite (P _ _ ".BeLessThan(" A) by reflexivity.
  rewrite (P _ _ ".BeGreaterOrEqualTo(" A) by reflexivity.
  rewrite (P _ _ ".StartWith(" A) by reflexivity.
  rewrite (P _ _ ".EndWith(" A) by reflexivity.
  rewrite (P _ _ ".BeEquivalentTo(" A) by reflexivity.
  rewrite (P _ _ ".NotBe(" A) by reflexivity.
  skip_all ".Assert." ((X ++ String c "") ++ ".Should()" ++ T) HA.
  reflexivity.
Qed.

(** [r.Should().Be()] with no argument: the argument group of the [Be]
    rule wants one character, so no rule rewrites the call. *)
Lemma all_empty_argument (r T : string) :
  contains ".Should()" r = false -> contains ".Should()" T = false ->
  contains ".Assert." (r ++ ".Should().Be()" ++ T) = false ->
  FixAllShould.fix_all_should_patterns (r ++ ".Should().Be()" ++ T)
  = r ++ ".Should().Be()" ++ T.
Proof.
  intros HK HT HA. unfold FixAllShould.fix_all_should_patterns. cbv zeta.
  set (B := r ++ ".Should().Be()" ++ T) in *.
  assert (P : forall M, starts_with M ".Be()" = false ->
                        contains (".Should()" ++ M) (".Should()" ++ ".Be()" ++ T) = false ->
                        contains (".Should()" ++ M) B = false).
  { intros M _ H. unfold B.
    now apply (contains_anchor ".Should()" M r (".Be()" ++ T)). }
  assert (Q : forall M, contains (".Should()" ++ M) T = false)
    by (intros M; apply (contains_part "" ".Should()" M), HT).
  do 2 skip_on B ltac:(fun L => let M := eval vm_compute in (drop 9 L) in
                                apply (P M eq_refl); simpl; apply (Q M)).
  assert (E : forall repl,
             re_sub "([a-zA-Z_][a-zA-Z0-9_.\[\]()]*?)\.Should\(\)\.Be\(([^)]+)\)" repl B = B).
  { intros repl. unfold re_sub. apply sub_from_nomatch. intros w1 w2 E.
    destruct (re_match _ w2 mstate0) eqn:M; [exfalso|reflexivity].
    change (compile "([a-zA-Z_][a-zA-Z0-9_.\[\]()]*?)\.Should\(\)\.Be\(([^)]+)\)")
      with (lazy_group 1 ident_start recv_char ++ lits (".Should()" ++ ".Be(")
              ++ greedy_group 2 not_paren not_paren ++ [Lit ")"%char])%list in M.
    apply lazy_group_inv in M as (r' & s' & st' & -> & _ & M).
    apply re_match_lits_inv in M as (s2 & -> & M).
    apply greedy_group_inv in M as (v & s3 & st3 & -> & Hv & _).
    unfold B in E.
    assert (E' : r ++ ".Should()" ++ ".Be()" ++ T
                 = (w1 ++ r') ++ ".Should()" ++ ".Be(" ++ v ++ s3)
      by (etransitivity; [exact E|]; now rewrite !append_assoc).
    apply unique_occurrence in E' as [_ E']; [ |reflexivity|exact HK|exact HT].
    destruct v as [|d v]; [discriminate Hv|].
    simpl in E'. injection E' as E'. subst d. discriminate Hv. }
  rewrite E.
  do 14 skip_on B ltac:(fun L => let M := eval vm_compute in (drop 9 L) in
                                 apply (P M eq_refl); simpl; apply (Q M)).
  skip_all ".Assert." B HA.
  reflexivity.
Qed.

(** ** fix_all_should.py: the rules for [pingHits] and [pongHits] *)

Lemma fire_hits (pat repl K v : string) :
  compile pat = (lits K ++ plus_group 1 not_paren ++ [Lit ")"%char])%list ->
  K <> "" -> v <> "" -> has_char ")" v = false ->
  re_sub pat repl (K ++ v ++ ")") = expand (template repl) [(1, v)].
Proof.
  intros Hp HK Hne Hv.
  rewrite <- (append_nil_r (K ++ v ++ ")")).
  rewrite (re_sub_fire pat repl (K ++ v ++ ")") "" (captured 1 v ")" mstate0)).
  - rewrite re_sub_empty; [now rewrite append_nil_r|].
    rewrite Hp. destruct K; [congruence|reflexivity].
  - destruct K; [congruence|discriminate].
  - rewrite Hp, append_nil_r, re_match_lits.
    apply plus_group_run; [exact Hne|apply (all_in_without ")"), Hv|reflexivity|].
    reflexivity.
Qed.

Lemma all_hits (v : string) :
  v <> "" -> has_char ")" v = false -> has_char "," v = false ->
  contains ".Assert." v = false ->
  FixAllShould.fix_all_should_patterns ("pingHits.Assert.Contains(" ++ v ++ ")")
  = "Assert.Contains(" ++ v ++ ", pingHits)" /\
  FixAllShould.fix_all_should_patterns ("pongHits.Assert.Contains(" ++ v ++ ")")
  = "Assert.Contains(" ++ v ++ ", pongHits)".
Proof.
  intros Hne Hv Hc HA.
  assert (H1 : contains ".Should()." (v ++ ")") = false).
  { apply (contains_snoc ")" ".Should()" "."); [reflexivity|].
    apply (contains_needs_char ")"); [reflexivity|exact Hv]. }
  assert (H2 : contains "," (v ++ ")") = false).
  { apply (contains_needs_char ","); [reflexivity|].
    rewrite has_char_app, Hc. reflexivity. }
  assert (H3 : contains ".Assert." (v ++ ")") = false)
    by (now apply (contains_sep ")" ".Assert." v "")).
  split; unfold FixAllShould.fix_all_should_patterns; cbv zeta.
  - set (B := "pingHits.Assert.Contains(" ++ v ++ ")").
    assert (HB1 : contains ".Should()." B = false) by (unfold B; simpl; exact H1).
    assert (HB2 : contains "," B = false) by (unfold B; simpl; exact H2).
    assert (HB3 : contains ".Assert.Equal(" B = false)
      by (unfold B; simpl; apply (contains_part "" ".Assert." "Equal("), H3).
    skip_all ".Should()." B HB1.
    rewrite (re_sub_id "," _ _ B) by (first [exact eq_refl | exact HB2]).
    rewrite (re_sub_id ".Assert.Equal(" _ _ B) by (first [exact eq_refl | exact HB3]).
    unfold B. rewrite (fire_hits _ _ "pingHits.Assert.Contains(" v);
      [ | reflexivity | discriminate | exact Hne | exact Hv ].
    simpl expand. rewrite ?append_nil_r.
    match goal with
    | |- context [re_sub _ _ (String ?c ?t)] =>
        rewrite (re_sub_id ".Assert." _ _ (String c t));
          [ | exact eq_refl
            | simpl; apply (contains_sep ","); [reflexivity|exact HA|reflexivity] ]
    end.
    reflexivity.
  - set (B := "pongHits.Assert.Contains(" ++ v ++ ")").
    assert (HB1 : contains ".Should()." B = false) by (unfold B; simpl; exact H1).
    assert (HB2 : contains "," B = false) by (unfold B; simpl; exact H2).
    assert (HB3 : contains ".Assert.Equal(" B = false)
      by (unfold B; simpl; apply (contains_part "" ".Assert." "Equal("), H3).
    assert (HB4 : contains "pingHits.Assert.Contains(" B = false)
      by (unfold B; simpl; apply (contains_part "pingHits" ".Assert." "Contains("), H3).
    skip_all ".Should()." B HB1.
    rewrite (re_sub_id "," _ _ B) by (first [exact eq_refl | exact HB2]).
    rewrite (re_sub_id ".Assert.Equal(" _ _ B) by (first [exact eq_refl | exact HB3]).
    rewrite (re_sub_id "pingHits.Assert.Contains(" _ _ B)
      by (first [exact eq_refl | exact HB4]).
    unfold B. rewrite (fire_hits _ _ "pongHits.Assert.Contains(" v);
      [ | reflexivity | discriminate | exact Hne | exact Hv ].
    simpl expand. rewrite ?append_nil_r. reflexivity.
Qed.

(** ** fix_final_should.py: the comparisons *)

Ltac final_settle_compare r v Hv HK :=
  match goal with
  | |- context [re_sub _ _ (String ?c ?t)] =>
      let HO := fresh "HO" in
      assert (HO : contains ".Should()." (String c t) = false)
        by (simpl; apply (contains_sep " " ".Should()." r);
            [ reflexivity | apply (contains_part "" ".Should()" "."), HK | ];
            simpl; apply (contains_snoc ")" ".Should()" "."); [reflexivity|];
            apply (contains_needs_char ")"); [reflexivity|exact Hv]);
      skip_all ".Should()." (String c t) HO
  end;
  reflexivity.

Ltac final_fire_arg K r v Hr HK Hne Hv :=
  rewrite (fire_recv_plus _ _ K ident_start recv_bang not_paren r v "");
    [ | reflexivity | exact Hr | reflexivity
      | apply (contains_part "" ".Should()" (drop 9 K)), HK
      | exact Hne | apply (all_in_without ")"), Hv | reflexivity ];
  rewrite re_sub_empty by reflexivity; simpl expand; rewrite append_nil_r.

Lemma final_compare (r v : string) :
  is_recv ident_start recv_bang r = true -> contains ".Should()" r = false ->
  v <> "" -> has_char ")" v = false ->
  FixFinalShould.fix_all_should_patterns (r ++ ".Should().BeGreaterThan(" ++ v ++ ")")
  = "Assert.True(" ++ r ++ " > " ++ v ++ ")" /\
  FixFinalShould.fix_all_should_patterns (r ++ ".Should().BeGreaterThanOrEqualTo(" ++ v ++ ")")
  = "Assert.True(" ++ r ++ " >= " ++ v ++ ")" /\
  FixFinalShould.fix_all_should_patterns (r ++ ".Should().BeLessThan(" ++ v ++ ")")
  = "Assert.True(" ++ r ++ " < " ++ v ++ ")" /\
  FixFinalShould.fix_all_should_patterns (r ++ ".Should().BeLessThanOrEqualTo(" ++ v ++ ")")
  = "Assert.True(" ++ r ++ " <= " ++ v ++ ")".
Proof.
  intros Hr HK Hne Hv.
  repeat split; unfold FixFinalShould.fix_all_should_patterns; cbv zeta.
  - set (B := r ++ ".Should().BeGreaterThan(" ++ v ++ ")").
    do 5 skip_on B ltac:(fun L => unfold B; absent_before r v HK Hv ".BeGreaterThan(" L).
    unfold B. final_fire_arg ".Should().BeGreaterThan(" r v Hr HK Hne Hv.
    final_settle_compare r v Hv HK.
  - set (B := r ++ ".Should().BeGreaterThanOrEqualTo(" ++ v ++ ")").
    do 6 skip_on B
      ltac:(fun L => unfold B; absent_before r v HK Hv ".BeGreaterThanOrEqualTo(" L).
    unfold B. final_fire_arg ".Should().BeGreaterThanOrEqualTo(" r v Hr HK Hne Hv.
    final_settle_compare r v Hv HK.
  - set (B := r ++ ".Should().BeLessThan(" ++ v ++ ")").
    do 7 skip_on B ltac:(fun L => unfold B; absent_before r v HK Hv ".BeLessThan(" L).
    unfold B. final_fire_arg ".Should().BeLessThan(" r v Hr HK Hne Hv.
    final_settle_compare r v Hv HK.
  - set (B := r ++ ".Should().BeLessThanOrEqualTo(" ++ v ++ ")").
    do 8 skip_on B
      ltac:(fun L => unfold B; absent_before r v HK Hv ".BeLessThanOrEqualTo(" L).
    unfold B. final_fire_arg ".Should().BeLessThanOrEqualTo(" r v Hr HK Hne Hv.
    final_settle_compare r v Hv HK.
Qed.

(** fix_all_should.py has no rule for [BeGreaterThanOrEqualTo] and
    [BeLessThanOrEqualTo]: its rule for [BeGreaterThan] wants [(] behind
    the name. *)
Lemma all_or_equal_kept (r v : string) :
  contains ".Should()" r = false -> contains ".Assert" r = false ->
  has_char ")" v = false -> contains ".Assert" v = false ->
  FixAllShould.fix_all_should_patterns (r ++ ".Should().BeGreaterThanOrEqualTo(" ++ v ++ ")")
  = r ++ ".Should().BeGreaterThanOrEqualTo(" ++ v ++ ")" /\
  FixAllShould.fix_all_should_patterns (r ++ ".Should().BeLessThanOrEqualTo(" ++ v ++ ")")
  = r ++ ".Should().BeLessThanOrEqualTo(" ++ v ++ ")".
Proof.
  intros HK HA Hv HAv.
  assert (Hr : contains ".Assert" (r ++ ".") = false)
    by (apply (contains_snoc "." ".Asser" "t"); [reflexivity|exact HA]).
  assert (Hv' : contains ".Assert" (v ++ ")") = false)
    by (apply (contains_snoc ")" ".Asser" "t"); [reflexivity|exact HAv]).
  split; unfold FixAllShould.fix_all_should_patterns; cbv zeta.
  - set (B := r ++ ".Should().BeGreaterThanOrEqualTo(" ++ v ++ ")").
    assert (HB : contains ".Assert." B = false).
    { apply (contains_part "" ".Assert" "."). unfold B.
      apply (contains_sep2 "S" "." ".Assert" r); [reflexivity|exact Hr|].
      simpl. exact Hv'. }
    do 17 skip_on B
      ltac:(fun L => unfold B; absent_before r v HK Hv ".BeGreaterThanOrEqualTo(" L).
    skip_all ".Assert." B HB. reflexivity.
  - set (B := r ++ ".Should().BeLessThanOrEqualTo(" ++ v ++ ")").
    assert (HB : contains ".Assert." B = false).
    { apply (contains_part "" ".Assert" "."). unfold B.
      apply (contains_sep2 "S" "." ".Assert" r); [reflexivity|exact Hr|].
      simpl. exact Hv'. }
    do 17 skip_on B
      ltac:(fun L => unfold B; absent_before r v HK Hv ".BeLessThanOrEqualTo(" L).
    skip_all ".Assert." B HB. reflexivity.
Qed.

(** ** fix_complex_should.py: receivers with blanks and operators *)

Lemma complex_bool (r : string) :
  is_recv ident_start recv_wide r = true ->
  contains ".Should()" r = false -> contains ".Contains(" r = false ->
  FixComplexShould.fix_complex_should_patterns (r ++ ".Should().BeTrue()")
  = "Assert.True(" ++ r ++ ")" /\
  FixComplexShould.fix_complex_should_patterns (r ++ ".Should().BeFalse()")
  = "Assert.False(" ++ r ++ ")".
Proof.
  intros Hr HK HC.
  assert (HB : forall T, has_char "C" T = false ->
                         contains ".Contains(" (r ++ String "." (String "S" T)) = false).
  { intros T HT. apply (contains_sep2 "S" "." ".Contains(" r); [reflexivity| |].
    - apply (contains_snoc "." ".Contains" "("); [reflexivity|exact HC].
    - apply (contains_needs_char "C"); [reflexivity|exact HT]. }
  split; unfold FixComplexShould.fix_complex_should_patterns; cbv zeta.
  - set (B := r ++ ".Should().BeTrue()").
    rewrite (re_sub_id ".Contains(" _ _ B)
      by (first [exact eq_refl | unfold B; apply HB; reflexivity]).
    rewrite (re_sub_id ".Contains(" _ _ B)
      by (first [exact eq_refl | unfold B; apply HB; reflexivity]).
    unfold B.
    rewrite (fire_recv _ _ ".Should().BeTrue()" ident_start recv_wide r "");
      [ | reflexivity | exact Hr | reflexivity
        | apply (contains_part "" ".Should()" ".BeTrue()"), HK ].
    rewrite re_sub_empty by reflexivity. simpl expand. rewrite append_nil_r.
    name_buffer Out.
    assert (HO : contains ".Should()." Out = false).
    { unfold Out. simpl. apply (contains_snoc ")" ".Should()" "."); [reflexivity|].
      apply (contains_part "" ".Should()" "."), HK. }
    skip_all ".Should()." Out HO. reflexivity.
  - set (B := r ++ ".Should().BeFalse()").
    rewrite (re_sub_id ".Contains(" _ _ B)
      by (first [exact eq_refl | unfold B; apply HB; reflexivity]).
    rewrite (re_sub_id ".Contains(" _ _ B)
      by (first [exact eq_refl | unfold B; apply HB; reflexivity]).
    rewrite (re_sub_id ".Should().BeTrue()" _ _ B)
      by (first [exact eq_refl | unfold B; absent_plain r HK ".BeFalse()" ".Should().BeTrue()"]).
    unfold B.
    rewrite (fire_recv _ _ ".Should().BeFalse()" ident_start recv_wide r "");
      [ | reflexivity | exact Hr | reflexivity
        | apply (contains_part "" ".Should()" ".BeFalse()"), HK ].
    rewrite re_sub_empty by reflexivity. simpl expand. rewrite append_nil_r.
    name_buffer Out.
    assert (HO : contains ".Should()." Out = false).
    { unfold Out. simpl. apply (contains_snoc ")" ".Should()" "."); [reflexivity|].
      apply (contains_part "" ".Should()" "."), HK. }
    skip_all ".Should()." Out HO. reflexivity.
Qed.

(** ** fix_remaining_should.py: what its rules rewrite *)

(** X10: fix_remaining_patterns rewrites the call on the counter,
    [_contextValues["counter"].Should().Be(n)] with [n] a run of digits, to
    [Assert.Equal(n, _contextValues["counter"])] and leaves the text around
    it, which holds no [.Should()], as it is. *)
Theorem remaining_counter_rule (pre post n : string) :
  contains ".Should()" pre = false -> contains ".Should()" post = false ->
  n <> "" -> all_in digit n = true ->
  FixRemainingShould.fix_remaining_patterns
    (pre ++ context_counter ++ ".Should().Be(" ++ n ++ ")" ++ post)
  = pre ++ "Assert.Equal(" ++ n ++ ", " ++ context_counter ++ ")" ++ post.
Proof. intros. now apply remaining_counter. Qed.

Lemma remaining_counter_rule_witness :
  contains ".Should()" "var x = 1; " = false /\ contains ".Should()" ";" = false /\
  "12" <> "" /\ all_in digit "12" = true /\
  FixRemainingShould.fix_remaining_patterns
    ("var x = 1; " ++ context_counter ++ ".Should().Be(" ++ "12" ++ ")" ++ ";")
  = "var x = 1; " ++ "Assert.Equal(" ++ "12" ++ ", " ++ context_counter ++ ")" ++ ";".
Proof.
  split; [reflexivity|]. split; [reflexivity|]. split; [discriminate|].
  split; [reflexivity|].
  apply (remaining_counter_rule "var x = 1; " ";" "12");
    first [reflexivity | discriminate].
Defined.

(** X11: on [_stateMachine.ContextMap], fix_remaining_patterns rewrites
    [.Should().Be("s")] for the keys [!["value"]], [["value"]] and
    [!["data"]] to [Assert.Equal("s", receiver)]; for [["data"]] without
    the [!] it has no rule, and the call stays as it is.  Here [s] is a
    non-empty text without a double quote and without [.Should()], and
    the text before and after the call holds no [.Should()]. *)
Theorem remaining_context_map_rules (pre post s : string) :
  contains ".Should()" pre = false -> contains ".Should()" post = false ->
  s <> "" -> has_char DQ s = false -> contains ".Should()" s = false ->
  FixRemainingShould.fix_remaining_patterns
    (pre ++ context_map "!" "value" ++ ".Should().Be(" ++ dq ++ s ++ dq ++ ")" ++ post)
  = pre ++ "Assert.Equal(" ++ dq ++ s ++ dq ++ ", " ++ context_map "!" "value" ++ ")" ++ post
  /\
  FixRemainingShould.fix_remaining_patterns
    (pre ++ context_map "" "value" ++ ".Should().Be(" ++ dq ++ s ++ dq ++ ")" ++ post)
  = pre ++ "Assert.Equal(" ++ dq ++ s ++ dq ++ ", " ++ context_map "" "value" ++ ")" ++ post
  /\
  FixRemainingShould.fix_remaining_patterns
    (pre ++ context_map "!" "data" ++ ".Should().Be(" ++ dq ++ s ++ dq ++ ")" ++ post)
  = pre ++ "Assert.Equal(" ++ dq ++ s ++ dq ++ ", " ++ context_map "!" "data" ++ ")" ++ post
  /\
  FixRemainingShould.fix_remaining_patterns
    (pre ++ context_map "" "data" ++ ".Should().Be(" ++ dq ++ s ++ dq ++ ")" ++ post)
  = pre ++ context_map "" "data" ++ ".Should().Be(" ++ dq ++ s ++ dq ++ ")" ++ post.
Proof.
  intros. split; [now apply remaining_value_bang|].
  split; [now apply remaining_value|].
  split; [now apply remaining_data_bang|now apply remaining_data_plain].
Qed.

Lemma remaining_context_map_rules_witness :
  contains ".Should()" "" = false /\ contains ".Should()" ";" = false /\
  "done" <> "" /\ has_char DQ "done" = false /\ contains ".Should()" "done" = false /\
  FixRemainingShould.fix_remaining_patterns
    ("" ++ context_map "!" "data" ++ ".Should().Be(" ++ dq ++ "done" ++ dq ++ ")" ++ ";")
  = "" ++ "Assert.Equal(" ++ dq ++ "done" ++ dq ++ ", " ++ context_map "!" "data" ++ ")" ++ ";"
  /\
  FixRemainingShould.fix_remaining_patterns
    ("" ++ context_map "" "data" ++ ".Should().Be(" ++ dq ++ "done" ++ dq ++ ")" ++ ";")
  = "" ++ context_map "" "data" ++ ".Should().Be(" ++ dq ++ "done" ++ dq ++ ")" ++ ";".
Proof.
  split; [reflexivity|]. split; [reflexivity|]. split; [discriminate|].
  split; [reflexivity|]. split; [reflexivity|].
  assert (Hne : "done" <> "") by discriminate.
  destruct (remaining_context_map_rules "" ";" "done" eq_refl eq_refl Hne eq_refl eq_refl)
    as (_ & _ & H3 & H4).
  split; [exact H3|exact H4].
Defined.



(** X13: the cast rule works with back-references: when the name in
    front of [.ToObject] is not the declared [jv], or the name in the
    [(int)(...)] branch is not [x], fix_remaining_patterns leaves the whole
    call as it is. *)
Theorem remaining_cast_needs_same_names (pre post x jv jv' x' n : string) :
  contains ".Should()" pre = false -> contains is_jvalue pre = false ->
  contains ".Should()" post = false ->
  is_recv ident_start ident_char x = true -> is_recv ident_start ident_char jv = true ->
  is_recv ident_start ident_char jv' = true -> is_recv ident_start ident_char x' = true ->
  n <> "" -> all_in digit n = true -> jv' <> jv \/ x' <> x ->
  FixRemainingShould.fix_remaining_patterns
    (pre ++ "(" ++ jvalue_cast x jv jv' x' ++ ").Should().Be(" ++ n ++ ")" ++ post)
  = pre ++ "(" ++ jvalue_cast x jv jv' x' ++ ").Should().Be(" ++ n ++ ")" ++ post.
Proof. intros. now apply remaining_jvalue_mismatch. Qed.

Lemma remaining_cast_needs_same_names_witness :
  contains ".Should()" "" = false /\ contains is_jvalue "" = false /\
  contains ".Should()" ";" = false /\
  is_recv ident_start ident_char "a" = true /\ is_recv ident_start ident_char "jv" = true /\
  is_recv ident_start ident_char "jv" = true /\ is_recv ident_start ident_char "b" = true /\
  "2" <> "" /\ all_in digit "2" = true /\ ("jv" <> "jv" \/ "b" <> "a") /\
  FixRemainingShould.fix_remaining_patterns
    ("(a is Newtonsoft.Json.Linq.JValue jv ? jv.ToObject<int>() : (int)(b ?? 0)).Should().Be(2);")
  = "(a is Newtonsoft.Json.Linq.JValue jv ? jv.ToObject<int>() : (int)(b ?? 0)).Should().Be(2);".
Proof.
  split; [reflexivity|]. split; [reflexivity|]. split; [reflexivity|].
  split; [reflexivity|]. split; [reflexivity|]. split; [reflexivity|].
  split; [reflexivity|]. split; [discriminate|]. split; [reflexivity|].
  split; [right; discriminate|].
  apply (remaining_cast_needs_same_names "" ";" "a" "jv" "jv" "b" "2");
    first [reflexivity | discriminate | (right; discriminate)].
Defined.

(** ** fix_integration_tests.py: what its rules rewrite *)

(** X14: on a word [w] that follows a character outside the word,
    [.], parentheses and the quote, the rules without an argument rewrite
    [w.Should().BeTrue()], [BeFalse()], [NotBeNull()], [BeNull()] and
    [NotBeEmpty()] to [Assert.True(w)], [Assert.False(w)],
    [Assert.NotNull(w)], [Assert.Null(w)] and [Assert.NotEmpty(w)], and
    the text around the call stays; for [BeTrue] the word must not end in
    [carrier], which the first rule takes. *)
Theorem integration_plain_rules (pre post w : string) (s1 : ascii) :
  in_cset call_char s1 = false ->
  contains ".Should()" pre = false -> contains ".Should()" post = false ->
  w <> "" -> all_in word w = true ->
  (ends_with "carrier" w = false ->
   FixIntegrationTests.rewrite (pre ++ String s1 (w ++ ".Should().BeTrue()" ++ post))
   = pre ++ String s1 ("Assert.True(" ++ w ++ ")" ++ post)) /\
  FixIntegrationTests.rewrite (pre ++ String s1 (w ++ ".Should().BeFalse()" ++ post))
  = pre ++ String s1 ("Assert.False(" ++ w ++ ")" ++ post) /\
  FixIntegrationTests.rewrite (pre ++ String s1 (w ++ ".Should().NotBeNull()" ++ post))
  = pre ++ String s1 ("Assert.NotNull(" ++ w ++ ")" ++ post) /\
  FixIntegrationTests.rewrite (pre ++ String s1 (w ++ ".Should().BeNull()" ++ post))
  = pre ++ String s1 ("Assert.Null(" ++ w ++ ")" ++ post) /\
  FixIntegrationTests.rewrite (pre ++ String s1 (w ++ ".Should().NotBeEmpty()" ++ post))
  = pre ++ String s1 ("Assert.NotEmpty(" ++ w ++ ")" ++ post).
Proof.
  intros. split; [intros; now apply int_true|].
  split; [now apply int_false|]. split; [now apply int_not_null|].
  split; [now apply int_null|now apply int_not_empty].
Qed.

Lemma integration_plain_rules_witness :
  in_cset call_char " " = false /\
  contains ".Should()" "int n;" = false /\ contains ".Should()" ";" = false /\
  "ok" <> "" /\ all_in word "ok" = true /\ ends_with "carrier" "ok" = false /\
  FixIntegrationTests.rewrite "int n; ok.Should().BeTrue();" = "int n; Assert.True(ok);" /\
  FixIntegrationTests.rewrite "int n; ok.Should().BeNull();" = "int n; Assert.Null(ok);".
Proof.
  split; [reflexivity|]. split; [reflexivity|]. split; [reflexivity|].
  split; [discriminate|]. split; [reflexivity|]. split; [reflexivity|].
  assert (Hne : "ok" <> "") by discriminate.
  pose proof (integration_plain_rules "int n;" ";" "ok" " " eq_refl eq_refl eq_refl Hne
                eq_refl) as (H1 & _ & _ & H4 & _).
  split; [exact (H1 eq_refl)|exact H4].
Defined.

(** X15: the rules with a number rewrite [w.Should().HaveCount(n)] to
    [Assert.Equal(n, w.Count)], [w.Should().Be(n)] to [Assert.Equal(n, w)]
    and [w.GetAllJobs().Should().HaveCount(n)] to
    [Assert.Equal(n, w.GetAllJobs().Count)], for a word [w] and digits [n];
    on the last call the rule for [HaveCount] on a word, which stands in
    front, does not fire. *)
Theorem integration_count_rules (pre post w n : string) (s1 : ascii) :
  in_cset call_char s1 = false ->
  contains ".Should()" pre = false -> contains ".Should()" post = false ->
  w <> "" -> all_in word w = true -> n <> "" -> all_in digit n = true ->
  FixIntegrationTests.rewrite
    (pre ++ String s1 (w ++ ".Should().HaveCount(" ++ n ++ ")" ++ post))
  = pre ++ String s1 ("Assert.Equal(" ++ n ++ ", " ++ w ++ ".Count)" ++ post) /\
  FixIntegrationTests.rewrite
    (pre ++ String s1 (w ++ ".Should().Be(" ++ n ++ ")" ++ post))
  = pre ++ String s1 ("Assert.Equal(" ++ n ++ ", " ++ w ++ ")" ++ post) /\
  FixIntegrationTests.rewrite
    (pre ++ String s1 (w ++ ".GetAllJobs().Should().HaveCount(" ++ n ++ ")" ++ post))
  = pre ++ String s1 ("Assert.Equal(" ++ n ++ ", " ++ w ++ ".GetAllJobs().Count)" ++ post).
Proof.
  intros. split; [now apply int_have_count|].
  split; [now apply int_be|now apply int_all_jobs].
Qed.

Lemma integration_count_rules_witness :
  in_cset call_char " " = false /\
  contains ".Should()" "" = false /\ contains ".Should()" ";" = false /\
  "jobs" <> "" /\ all_in word "jobs" = true /\ "3" <> "" /\ all_in digit "3" = true /\
  FixIntegrationTests.rewrite " jobs.Should().HaveCount(3);"
  = " Assert.Equal(3, jobs.Count);" /\
  FixIntegrationTests.rewrite " jobs.GetAllJobs().Should().HaveCount(3);"
  = " Assert.Equal(3, jobs.GetAllJobs().Count);".
Proof.
  split; [reflexivity|]. split; [reflexivity|]. split; [reflexivity|].
  split; [discriminate|]. split; [reflexivity|]. split; [discriminate|].
  split; [reflexivity|].
  assert (Hw : "jobs" <> "") by discriminate. assert (Hn : "3" <> "") by discriminate.
  pose proof (integration_count_rules "" ";" "jobs" "3" " " eq_refl eq_refl eq_refl Hw
                eq_refl Hn eq_refl) as (H1 & _ & H3).
  split; [exact H1|exact H3].
Defined.

(** X16: the rules with a quoted text rewrite [w.Should().Contain("s")]
    to [Assert.Contains("s", w)], [w.GetCurrentState().Should().Contain("s")]
    and [NotContain("s")] to [Assert.Contains("s", w.GetCurrentState())] and
    [Assert.DoesNotContain("s", w.GetCurrentState())], and
    [w.EventLog.Should().Contain("s")] to [Assert.Contains("s", w.EventLog)],
    for a word [w] that follows a character outside [call_char] and a
    non-empty text [s] without a double quote and without [.Should()];
    the text before and after the call holds no [.Should()]. *)
Theorem integration_contain_rules (pre post w s : string) (s1 : ascii) :
  in_cset call_char s1 = false ->
  contains ".Should()" pre = false -> contains ".Should()" post = false ->
  w <> "" -> all_in word w = true ->
  s <> "" -> has_char DQ s = false -> contains ".Should()" s = false ->
  FixIntegrationTests.rewrite
    (pre ++ String s1 (w ++ ".Should().Contain(" ++ dq ++ s ++ dq ++ ")" ++ post))
  = pre ++ String s1 ("Assert.Contains(" ++ dq ++ s ++ dq ++ ", " ++ w ++ ")" ++ post) /\
  FixIntegrationTests.rewrite
    (pre ++ String s1 (w ++ ".GetCurrentState().Should().Contain(" ++ dq ++ s ++ dq ++ ")"
                         ++ post))
  = pre ++ String s1 ("Assert.Contains(" ++ dq ++ s ++ dq ++ ", " ++ w
                        ++ ".GetCurrentState())" ++ post) /\
  FixIntegrationTests.rewrite
    (pre ++ String s1 (w ++ ".GetCurrentState().Should().NotContain(" ++ dq ++ s ++ dq ++ ")"
                         ++ post))
  = pre ++ String s1 ("Assert.DoesNotContain(" ++ dq ++ s ++ dq ++ ", " ++ w
                        ++ ".GetCurrentState())" ++ post) /\
  FixIntegrationTests.rewrite
    (pre ++ String s1 (w ++ ".EventLog.Should().Contain(" ++ dq ++ s ++ dq ++ ")" ++ post))
  = pre ++ String s1 ("Assert.Contains(" ++ dq ++ s ++ dq ++ ", " ++ w ++ ".EventLog)"
                        ++ post).
Proof.
  intros. split; [now apply int_contain|].
  split; [now apply int_state_contain|].
  split; [now apply int_state_not_contain|now apply int_event_log].
Qed.

Lemma integration_contain_rules_witness :
  in_cset call_char " " = false /\
  contains ".Should()" "" = false /\ contains ".Should()" ";" = false /\
  "sm" <> "" /\ all_in word "sm" = true /\
  "idle" <> "" /\ has_char DQ "idle" = false /\ contains ".Should()" "idle" = false /\
  FixIntegrationTests.rewrite
    ("" ++ String " " ("sm" ++ ".GetCurrentState().Should().Contain(" ++ dq ++ "idle" ++ dq
                         ++ ")" ++ ";"))
  = "" ++ String " " ("Assert.Contains(" ++ dq ++ "idle" ++ dq ++ ", " ++ "sm"
                        ++ ".GetCurrentState())" ++ ";") /\
  FixIntegrationTests.rewrite
    ("" ++ String " " ("sm" ++ ".EventLog.Should().Contain(" ++ dq ++ "idle" ++ dq ++ ")"
                         ++ ";"))
  = "" ++ String " " ("Assert.Contains(" ++ dq ++ "idle" ++ dq ++ ", " ++ "sm" ++ ".EventLog)"
                        ++ ";").
Proof.
  split; [reflexivity|]. split; [reflexivity|]. split; [reflexivity|].
  split; [discriminate|]. split; [reflexivity|]. split; [discriminate|].
  split; [reflexivity|]. split; [reflexivity|].
  assert (Hw : "sm" <> "") by discriminate. assert (Hs : "idle" <> "") by discriminate.
  pose proof (integration_contain_rules "" ";" "sm" "idle" " " eq_refl eq_refl eq_refl Hw
                eq_refl Hs eq_refl eq_refl) as (_ & H2 & _ & H4).
  split; [exact H2|exact H4].
Defined.



(** X18: the first rule is the bare text [carrier.Should().BeTrue()]
    with no boundary in front: wherever that text stands, also at the end
    of a longer name such as [subcarrier], it becomes
    [Assert.True(carrier)] and the front of the name stays. *)
Theorem integration_carrier_rule (pre post : string) :
  contains ".Should()" pre = false -> contains ".Should()" post = false ->
  FixIntegrationTests.rewrite (pre ++ "carrier.Should().BeTrue()" ++ post)
  = pre ++ "Assert.True(carrier)" ++ post.
Proof. intros. now apply int_carrier. Qed.

Lemma integration_carrier_rule_witness :
  contains ".Should()" " sub" = false /\ contains ".Should()" ";" = false /\
  FixIntegrationTests.rewrite " subcarrier.Should().BeTrue();"
  = " subAssert.True(carrier);".
Proof.
  split; [reflexivity|]. split; [reflexivity|].
  exact (integration_carrier_rule " sub" ";" eq_refl eq_refl).
Defined.

(** X19: the receiver group is [\w+], which holds no dot: of a
    qualified receiver [q.y] only [y] is taken, and
    [q.y.Should().Be(n)] becomes [q.Assert.Equal(n, y)]. *)
Theorem integration_splits_qualified_receiver (pre post y n : string) :
  contains ".Should()" pre = false -> contains ".Should()" post = false ->
  y <> "" -> all_in word y = true -> n <> "" -> all_in digit n = true ->
  FixIntegrationTests.rewrite (pre ++ String "." (y ++ ".Should().Be(" ++ n ++ ")" ++ post))
  = pre ++ String "." ("Assert.Equal(" ++ n ++ ", " ++ y ++ ")" ++ post).
Proof. intros. now apply int_be_qualified. Qed.

Lemma integration_splits_qualified_receiver_witness :
  contains ".Should()" " result" = false /\ contains ".Should()" ";" = false /\
  "Count" <> "" /\ all_in word "Count" = true /\ "2" <> "" /\ all_in digit "2" = true /\
  FixIntegrationTests.rewrite " result.Count.Should().Be(2);"
  = " result.Assert.Equal(2, Count);".
Proof.
  split; [reflexivity|]. split; [reflexivity|]. split; [discriminate|].
  split; [reflexivity|]. split; [discriminate|]. split; [reflexivity|].
  assert (Hy : "Count" <> "") by discriminate. assert (Hn : "2" <> "") by discriminate.
  exact (integration_splits_qualified_receiver " result" ";" "Count" "2"
           eq_refl eq_refl Hy eq_refl Hn eq_refl).
Defined.

(** X20: fix_all_should.py run on the output of
    fix_integration_tests.py: for identifiers [q] and [y] the second turns
    [q.y.Should().Be(n)] into [q.Assert.Equal(n, y)], and the correction
    rule of the first turns that into [Assert.Equal(n, q.y)]. *)
Theorem correction_restores_qualifier (q y n : string) :
  is_recv ident_start ident_char q = true -> is_recv ident_start ident_char y = true ->
  n <> "" -> all_in digit n = true ->
  FixIntegrationTests.rewrite (q ++ String "." (y ++ ".Should().Be(" ++ n ++ ")"))
  = q ++ ".Assert.Equal(" ++ n ++ ", " ++ y ++ ")" /\
  FixAllShould.fix_all_should_patterns
    (FixIntegrationTests.rewrite (q ++ String "." (y ++ ".Should().Be(" ++ n ++ ")")))
  = "Assert.Equal(" ++ n ++ ", " ++ q ++ "." ++ y ++ ")".
Proof. intros. now apply int_be_then_correction. Qed.

Lemma correction_restores_qualifier_witness :
  is_recv ident_start ident_char "result" = true /\
  is_recv ident_start ident_char "Count" = true /\
  "2" <> "" /\ all_in digit "2" = true /\
  FixIntegrationTests.rewrite "result.Count.Should().Be(2)"
  = "result.Assert.Equal(2, Count)" /\
  FixAllShould.fix_all_should_patterns
    (FixIntegrationTests.rewrite "result.Count.Should().Be(2)")
  = "Assert.Equal(2, result.Count)".
Proof.
  split; [reflexivity|]. split; [reflexivity|]. split; [discriminate|].
  split; [reflexivity|].
  assert (Hn : "2" <> "") by discriminate.
  exact (correction_restores_qualifier "result" "Count" "2" eq_refl eq_refl Hn eq_refl).
Defined.

(** ** fix_all_should.py: what its rules rewrite, and what they leave *)

(** X21: for a receiver [r] of the receiver grammar that holds neither
    [.Should()] nor [.Assert.], fix_all_should_patterns rewrites the calls
    without an argument, [r.Should().NotBeNull()], [BeNull()], [BeTrue()],
    [BeFalse()], [BeEmpty()] and [NotBeEmpty()], to [Assert.NotNull(r)],
    [Assert.Null(r)], [Assert.True(r)], [Assert.False(r)],
    [Assert.Empty(r)] and [Assert.NotEmpty(r)]. *)
Theorem all_plain_table (r : string) :
  is_recv ident_start recv_char r = true ->
  contains ".Should()" r = false -> contains ".Assert." r = false ->
  FixAllShould.fix_all_should_patterns (r ++ ".Should().NotBeNull()")
  = "Assert.NotNull(" ++ r ++ ")" /\
  FixAllShould.fix_all_should_patterns (r ++ ".Should().BeNull()")
  = "Assert.Null(" ++ r ++ ")" /\
  FixAllShould.fix_all_should_patterns (r ++ ".Should().BeTrue()")
  = "Assert.True(" ++ r ++ ")" /\
  FixAllShould.fix_all_should_patterns (r ++ ".Should().BeFalse()")
  = "Assert.False(" ++ r ++ ")" /\
  FixAllShould.fix_all_should_patterns (r ++ ".Should().BeEmpty()")
  = "Assert.Empty(" ++ r ++ ")" /\
  FixAllShould.fix_all_should_patterns (r ++ ".Should().NotBeEmpty()")
  = "Assert.NotEmpty(" ++ r ++ ")".
Proof.
  intros Hr HK HA.
  destruct (all_plain_null r Hr HK HA) as [H1 H2].
  destruct (all_plain_bool r Hr HK HA) as [H3 H4].
  destruct (all_plain_empty r Hr HK HA) as [H5 H6].
  repeat split; assumption.
Qed.

Lemma all_plain_table_witness :
  is_recv ident_start recv_char "list[0].Items" = true /\
  contains ".Should()" "list[0].Items" = false /\
  contains ".Assert." "list[0].Items" = false /\
  FixAllShould.fix_all_should_patterns "list[0].Items.Should().BeEmpty()"
  = "Assert.Empty(list[0].Items)" /\
  FixAllShould.fix_all_should_patterns "list[0].Items.Should().BeTrue()"
  = "Assert.True(list[0].Items)".
Proof.
  split; [reflexivity|]. split; [reflexivity|]. split; [reflexivity|].
  pose proof (all_plain_table "list[0].Items" eq_refl eq_refl eq_refl)
    as (_ & _ & H3 & _ & H5 & _).
  split; [exact H5|exact H3].
Defined.

(** X22: for such a receiver [r] and a non-empty argument [v] without
    [)] and [.Assert.], fix_all_should_patterns swaps receiver and
    argument: [r.Should().Contain(v)], [NotContain(v)], [StartWith(v)],
    [EndWith(v)], [BeEquivalentTo(v)] and [NotBe(v)] become
    [Assert.Contains(v, r)], [Assert.DoesNotContain(v, r)],
    [Assert.StartsWith(v, r)], [Assert.EndsWith(v, r)], [Assert.Equal(v, r)]
    and [Assert.NotEqual(v, r)]; the rule for [Be], which stands in front,
    takes neither [BeEquivalentTo] nor [NotBe]. *)
Theorem all_argument_table (r v : string) :
  is_recv ident_start recv_char r = true ->
  contains ".Should()" r = false -> contains ".Assert." r = false ->
  v <> "" -> has_char ")" v = false -> contains ".Assert." v = false ->
  FixAllShould.fix_all_should_patterns (r ++ ".Should().Contain(" ++ v ++ ")")
  = "Assert.Contains(" ++ v ++ ", " ++ r ++ ")" /\
  FixAllShould.fix_all_should_patterns (r ++ ".Should().NotContain(" ++ v ++ ")")
  = "Assert.DoesNotContain(" ++ v ++ ", " ++ r ++ ")" /\
  FixAllShould.fix_all_should_patterns (r ++ ".Should().StartWith(" ++ v ++ ")")
  = "Assert.StartsWith(" ++ v ++ ", " ++ r ++ ")" /\
  FixAllShould.fix_all_should_patterns (r ++ ".Should().EndWith(" ++ v ++ ")")
  = "Assert.EndsWith(" ++ v ++ ", " ++ r ++ ")" /\
  FixAllShould.fix_all_should_patterns (r ++ ".Should().BeEquivalentTo(" ++ v ++ ")")
  = "Assert.Equal(" ++ v ++ ", " ++ r ++ ")" /\
  FixAllShould.fix_all_should_patterns (r ++ ".Should().NotBe(" ++ v ++ ")")
  = "Assert.NotEqual(" ++ v ++ ", " ++ r ++ ")".
Proof.
  intros Hr HK HA Hne Hv HAv.
  destruct (all_arg_contain r v Hr HK HA Hne Hv HAv) as [H1 H2].
  destruct (all_arg_affix r v Hr HK HA Hne Hv HAv) as [H3 H4].
  destruct (all_arg_equal r v Hr HK HA Hne Hv HAv) as [H5 H6].
  repeat split; assumption.
Qed.

Lemma all_argument_table_witness :
  is_recv ident_start recv_char "log" = true /\
  contains ".Should()" "log" = false /\ contains ".Assert." "log" = false /\
  "x" <> "" /\ has_char ")" "x" = false /\ contains ".Assert." "x" = false /\
  FixAllShould.fix_all_should_patterns "log.Should().NotBe(x)" = "Assert.NotEqual(x, log)" /\
  FixAllShould.fix_all_should_patterns "log.Should().BeEquivalentTo(x)"
  = "Assert.Equal(x, log)".
Proof.
  split; [reflexivity|]. split; [reflexivity|]. split; [reflexivity|].
  split; [discriminate|]. split; [reflexivity|]. split; [reflexivity|].
  assert (Hne : "x" <> "") by discriminate.
  pose proof (all_argument_table "log" "x" eq_refl eq_refl eq_refl Hne eq_refl eq_refl)
    as (_ & _ & _ & _ & H5 & H6).
  split; [exact H6|exact H5].
Defined.

(** X23: the comparisons keep the order of receiver and argument:
    [r.Should().BeGreaterThan(v)], [BeLessThan(v)] and
    [BeGreaterOrEqualTo(v)] become [Assert.True(r > v)],
    [Assert.True(r < v)] and [Assert.True(r >= v)]. *)
Theorem all_comparison_table (r v : string) :
  is_recv ident_start recv_char r = true ->
  contains ".Should()" r = false -> contains ".Assert." r = false ->
  v <> "" -> has_char ")" v = false -> contains ".Assert." v = false ->
  FixAllShould.fix_all_should_patterns (r ++ ".Should().BeGreaterThan(" ++ v ++ ")")
  = "Assert.True(" ++ r ++ " > " ++ v ++ ")" /\
  FixAllShould.fix_all_should_patterns (r ++ ".Should().BeLessThan(" ++ v ++ ")")
  = "Assert.True(" ++ r ++ " < " ++ v ++ ")" /\
  FixAllShould.fix_all_should_patterns (r ++ ".Should().BeGreaterOrEqualTo(" ++ v ++ ")")
  = "Assert.True(" ++ r ++ " >= " ++ v ++ ")".
Proof. intros. now apply all_arg_compare. Qed.

Lemma all_comparison_table_witness :
  is_recv ident_start recv_char "count" = true /\
  contains ".Should()" "count" = false /\ contains ".Assert." "count" = false /\
  "0" <> "" /\ has_char ")" "0" = false /\ contains ".Assert." "0" = false /\
  FixAllShould.fix_all_should_patterns "count.Should().BeGreaterOrEqualTo(0)"
  = "Assert.True(count >= 0)".
Proof.
  split; [reflexivity|]. split; [reflexivity|]. split; [reflexivity|].
  split; [discriminate|]. split; [reflexivity|]. split; [reflexivity|].
  assert (Hne : "0" <> "") by discriminate.
  pose proof (all_comparison_table "count" "0" eq_refl eq_refl eq_refl Hne eq_refl eq_refl)
    as (_ & _ & H3).
  exact H3.
Defined.

(** X24: a fluent call whose receiver ends in a character outside the
    receiver class, such as a quote, [!] or [>], is not rewritten by
    fix_all_should_patterns, whatever the assertion: in a text with one
    [.Should()], which follows such a character, and no [.Assert.], no rule
    fires. *)
Theorem all_keeps_foreign_receiver (X T : string) (c : ascii) :
  in_cset recv_char c = false ->
  contains ".Should()" (X ++ String c "") = false -> contains ".Should()" T = false ->
  contains ".Assert." ((X ++ String c "") ++ ".Should()" ++ T) = false ->
  FixAllShould.fix_all_should_patterns ((X ++ String c "") ++ ".Should()" ++ T)
  = (X ++ String c "") ++ ".Should()" ++ T.
Proof. intros. now apply all_foreign_receiver. Qed.

Lemma all_keeps_foreign_receiver_witness :
  in_cset recv_char "!" = false /\
  contains ".Should()" ("machine" ++ String "!" "") = false /\
  contains ".Should()" ".NotBeNull();" = false /\
  contains ".Assert." (("machine" ++ String "!" "") ++ ".Should()" ++ ".NotBeNull();") = false /\
  FixAllShould.fix_all_should_patterns "machine!.Should().NotBeNull();"
  = "machine!.Should().NotBeNull();".
Proof.
  split; [reflexivity|]. split; [reflexivity|]. split; [reflexivity|].
  split; [reflexivity|].
  exact (all_keeps_foreign_receiver "machine" ".NotBeNull();" "!"
           eq_refl eq_refl eq_refl eq_refl).
Defined.

(** X25: [r.Should().Be()] with nothing between the parentheses is not
    rewritten by fix_all_should_patterns: the argument group of the [Be]
    rule wants at least one character. *)
Theorem all_keeps_empty_argument (r T : string) :
  contains ".Should()" r = false -> contains ".Should()" T = false ->
  contains ".Assert." (r ++ ".Should().Be()" ++ T) = false ->
  FixAllShould.fix_all_should_patterns (r ++ ".Should().Be()" ++ T)
  = r ++ ".Should().Be()" ++ T.
Proof. intros. now apply all_empty_argument. Qed.

Lemma all_keeps_empty_argument_witness :
  contains ".Should()" "x" = false /\ contains ".Should()" ";" = false /\
  contains ".Assert." ("x" ++ ".Should().Be()" ++ ";") = false /\
  FixAllShould.fix_all_should_patterns "x.Should().Be();" = "x.Should().Be();".
Proof.
  split; [reflexivity|]. split; [reflexivity|]. split; [reflexivity|].
  exact (all_keeps_empty_argument "x" ";" eq_refl eq_refl eq_refl).
Defined.

(** X26: the two rules at the end of fix_all_should_patterns move the
    receivers [pingHits] and [pongHits] behind the argument:
    [pingHits.Assert.Contains(v)] becomes [Assert.Contains(v, pingHits)]
    and [pongHits.Assert.Contains(v)] becomes [Assert.Contains(v, pongHits)],
    for a non-empty [v] without [)], comma and [.Assert.]. *)
Theorem all_hits_rules (v : string) :
  v <> "" -> has_char ")" v = false -> has_char "," v = false ->
  contains ".Assert." v = false ->
  FixAllShould.fix_all_should_patterns ("pingHits.Assert.Contains(" ++ v ++ ")")
  = "Assert.Contains(" ++ v ++ ", pingHits)" /\
  FixAllShould.fix_all_should_patterns ("pongHits.Assert.Contains(" ++ v ++ ")")
  = "Assert.Contains(" ++ v ++ ", pongHits)".
Proof. intros. now apply all_hits. Qed.

Lemma all_hits_rules_witness :
  "1" <> "" /\ has_char ")" "1" = false /\ has_char "," "1" = false /\
  contains ".Assert." "1" = false /\
  FixAllShould.fix_all_should_patterns "pingHits.Assert.Contains(1)"
  = "Assert.Contains(1, pingHits)" /\
  FixAllShould.fix_all_should_patterns "pongHits.Assert.Contains(1)"
  = "Assert.Contains(1, pongHits)".
Proof.
  split; [discriminate|]. split; [reflexivity|]. split; [reflexivity|].
  split; [reflexivity|].
  assert (Hne : "1" <> "") by discriminate.
  exact (all_hits_rules "1" Hne eq_refl eq_refl eq_refl).
Defined.

(** ** fix_final_should.py and fix_complex_should.py *)

(** X27: for a receiver [r] of the receiver grammar with [!] that holds
    no [.Should()] and a non-empty argument [v] without [)],
    fix_final_should.py rewrites [r.Should().BeGreaterThan(v)],
    [BeGreaterThanOrEqualTo(v)], [BeLessThan(v)] and
    [BeLessThanOrEqualTo(v)] to [Assert.True(r > v)], [Assert.True(r >= v)],
    [Assert.True(r < v)] and [Assert.True(r <= v)]: the rule for the
    shorter name, which stands in front, does not take the longer one. *)
Theorem final_comparison_table (r v : string) :
  is_recv ident_start recv_bang r = true -> contains ".Should()" r = false ->
  v <> "" -> has_char ")" v = false ->
  FixFinalShould.fix_all_should_patterns (r ++ ".Should().BeGreaterThan(" ++ v ++ ")")
  = "Assert.True(" ++ r ++ " > " ++ v ++ ")" /\
  FixFinalShould.fix_all_should_patterns (r ++ ".Should().BeGreaterThanOrEqualTo(" ++ v ++ ")")
  = "Assert.True(" ++ r ++ " >= " ++ v ++ ")" /\
  FixFinalShould.fix_all_should_patterns (r ++ ".Should().BeLessThan(" ++ v ++ ")")
  = "Assert.True(" ++ r ++ " < " ++ v ++ ")" /\
  FixFinalShould.fix_all_should_patterns (r ++ ".Should().BeLessThanOrEqualTo(" ++ v ++ ")")
  = "Assert.True(" ++ r ++ " <= " ++ v ++ ")".
Proof. intros. now apply final_compare. Qed.

Lemma final_comparison_table_witness :
  is_recv ident_start recv_bang "list!.Count" = true /\
  contains ".Should()" "list!.Count" = false /\
  "1" <> "" /\ has_char ")" "1" = false /\
  FixFinalShould.fix_all_should_patterns "list!.Count.Should().BeGreaterThanOrEqualTo(1)"
  = "Assert.True(list!.Count >= 1)" /\
  FixFinalShould.fix_all_should_patterns "list!.Count.Should().BeLessThan(1)"
  = "Assert.True(list!.Count < 1)".
Proof.
  split; [reflexivity|]. split; [reflexivity|]. split; [discriminate|].
  split; [reflexivity|].
  assert (Hne : "1" <> "") by discriminate.
  pose proof (final_comparison_table "list!.Count" "1" eq_refl eq_refl Hne eq_refl)
    as (_ & H2 & H3 & _).
  split; [exact H2|exact H3].
Defined.

(** X28: fix_all_should.py has no rule for the names
    [BeGreaterThanOrEqualTo] and [BeLessThanOrEqualTo] (its own rule is for
    [BeGreaterOrEqualTo]): such a call alone in the buffer, with no
    [.Should()] in the receiver, no [.Assert] in receiver and argument
    and no [)] in the argument, is left as it is. *)
Theorem all_keeps_or_equal_comparisons (r v : string) :
  contains ".Should()" r = false -> contains ".Assert" r = false ->
  has_char ")" v = false -> contains ".Assert" v = false ->
  FixAllShould.fix_all_should_patterns (r ++ ".Should().BeGreaterThanOrEqualTo(" ++ v ++ ")")
  = r ++ ".Should().BeGreaterThanOrEqualTo(" ++ v ++ ")" /\
  FixAllShould.fix_all_should_patterns (r ++ ".Should().BeLessThanOrEqualTo(" ++ v ++ ")")
  = r ++ ".Should().BeLessThanOrEqualTo(" ++ v ++ ")".
Proof. intros. now apply all_or_equal_kept. Qed.

Lemma all_keeps_or_equal_comparisons_witness :
  contains ".Should()" "count" = false /\ contains ".Assert" "count" = false /\
  has_char ")" "1" = false /\ contains ".Assert" "1" = false /\
  FixAllShould.fix_all_should_patterns "count.Should().BeGreaterThanOrEqualTo(1)"
  = "count.Should().BeGreaterThanOrEqualTo(1)" /\
  FixAllShould.fix_all_should_patterns "count.Should().BeLessThanOrEqualTo(1)"
  = "count.Should().BeLessThanOrEqualTo(1)".
Proof.
  split; [reflexivity|]. split; [reflexivity|]. split; [reflexivity|].
  split; [reflexivity|].
  exact (all_keeps_or_equal_comparisons "count" "1" eq_refl eq_refl eq_refl eq_refl).
Defined.

(** X29: in fix_complex_should.py the receiver class of the [BeTrue] and
    [BeFalse] rules holds blanks, [<], [>], [=] and [!]: a receiver [r]
    that starts with a letter or [_] and goes on with such characters,
    without [.Should()] and [.Contains(], is taken whole, and
    [r.Should().BeTrue()] becomes [Assert.True(r)], [r.Should().BeFalse()]
    becomes [Assert.False(r)]. *)
Theorem complex_bool_takes_expression (r : string) :
  is_recv ident_start recv_wide r = true ->
  contains ".Should()" r = false -> contains ".Contains(" r = false ->
  FixComplexShould.fix_complex_should_patterns (r ++ ".Should().BeTrue()")
  = "Assert.True(" ++ r ++ ")" /\
  FixComplexShould.fix_complex_should_patterns (r ++ ".Should().BeFalse()")
  = "Assert.False(" ++ r ++ ")".
Proof. intros. now apply complex_bool. Qed.

Lemma complex_bool_takes_expression_witness :
  is_recv ident_start recv_wide "a.Count == b" = true /\
  contains ".Should()" "a.Count == b" = false /\
  contains ".Contains(" "a.Count == b" = false /\
  FixComplexShould.fix_complex_should_patterns "a.Count == b.Should().BeTrue()"
  = "Assert.True(a.Count == b)" /\
  FixComplexShould.fix_complex_should_patterns "a.Count == b.Should().BeFalse()"
  = "Assert.False(a.Count == b)".
Proof.
  split; [reflexivity|]. split; [reflexivity|]. split; [reflexivity|].
  exact (complex_bool_takes_expression "a.Count == b" eq_refl eq_refl eq_refl).
Defined.

(** * Second runs *)

(** ** Running replace_quotes.py twice *)

Lemma loose_item_inv (s k : string) :
  loose_item (s, k) = true ->
  contains (dq ++ dq) s = false /\ contains (dq ++ ":") s = false /\
  has_char DQ k = false /\ k <> "".
Proof.
  unfold loose_item, loose_text. simpl. intros H.
  apply andb_true_iff in H as [H H4]. apply andb_true_iff in H as [H H3].
  apply andb_true_iff in H as [H1 H2].
  apply negb_true_iff in H1, H2, H3, H4. apply String.eqb_neq in H4. auto.
Qed.

(** Inside a stretch without doubled quotes the first rule starts no match,
    also not at a quote that ends the stretch in front of a token. *)
Lemma stretch_blocked (q : pattern) (s rest : string) :
  contains (dq ++ dq) s = false ->
  rest = "" \/ (exists z, rest = dq ++ dq ++ z) ->
  forall w1 w2, s = w1 ++ w2 -> w2 <> "" ->
    re_match (lits (dq ++ dq) ++ plus_group 1 not_dq ++ q)%list (w2 ++ rest) mstate0 = None.
Proof.
  intros Hs Hr w1 w2 E Hw. destruct w2 as [|c w2]; [congruence|].
  change (re_match (Lit DQ :: Lit DQ :: plus_group 1 not_dq ++ q)%list
            (String c (w2 ++ rest)) mstate0 = None).
  change ((if Ascii.eqb DQ c
           then re_match (Lit DQ :: plus_group 1 not_dq ++ q)%list (w2 ++ rest) mstate0
           else None) = None).
  destruct (Ascii.eqb_spec DQ c) as [<-|N]; [|reflexivity].
  destruct w2 as [|d w2].
  - destruct Hr as [->|[z ->]]; reflexivity.
  - change ((if Ascii.eqb DQ d
             then re_match (plus_group 1 not_dq ++ q)%list (w2 ++ rest) mstate0
             else None) = None).
    destruct (Ascii.eqb_spec DQ d) as [<-|N]; [exfalso|reflexivity].
    subst s. change (String DQ (String DQ w2)) with ((dq ++ dq) ++ w2) in Hs.
    now rewrite contains_intro in Hs.
Qed.

Lemma first_rule_loose (items : list (string * string)) (tail : string) :
  forallb loose_item items = true -> contains (dq ++ dq) tail = false ->
  re_sub (dq ++ dq ++ "([^" ++ dq ++ "]+)" ++ dq ++ dq) "'\1'"
         (tokens (dq ++ dq) (dq ++ dq) items tail)
  = tokens "'" "'" items tail.
Proof.
  intros H Ht. induction items as [|[s k] items IH].
  - simpl tokens. apply (re_sub_id (dq ++ dq)); [reflexivity|exact Ht].
  - simpl in H. apply andb_true_iff in H as [Hi H].
    apply loose_item_inv in Hi as (Hs & _ & Hk & Hne).
    change (tokens (dq ++ dq) (dq ++ dq) ((s, k) :: items) tail)
      with (s ++ (dq ++ dq) ++ k ++ (dq ++ dq) ++ tokens (dq ++ dq) (dq ++ dq) items tail).
    change (tokens "'" "'" ((s, k) :: items) tail)
      with (s ++ "'" ++ k ++ "'" ++ tokens "'" "'" items tail).
    rewrite re_sub_copy.
    2:{ change (compile (dq ++ dq ++ "([^" ++ dq ++ "]+)" ++ dq ++ dq))
          with (lits (dq ++ dq) ++ plus_group 1 not_dq ++ lits (dq ++ dq) ++ [])%list.
        apply stretch_blocked; [exact Hs|]. right.
        exists (k ++ (dq ++ dq) ++ tokens (dq ++ dq) (dq ++ dq) items tail).
        reflexivity. }
    f_equal.
    replace ((dq ++ dq) ++ k ++ (dq ++ dq) ++ tokens (dq ++ dq) (dq ++ dq) items tail)
      with (((dq ++ dq) ++ k ++ (dq ++ dq)) ++ tokens (dq ++ dq) (dq ++ dq) items tail)
      by (now rewrite !append_assoc).
    rewrite (re_sub_fire _ _ _ _
               (captured 1 k ((dq ++ dq) ++ tokens (dq ++ dq) (dq ++ dq) items tail)
                         mstate0)).
    + rewrite (IH H). simpl expand. simpl append. now rewrite append_assoc.
    + discriminate.
    + rewrite (append_assoc (dq ++ dq)), (append_assoc k).
      change (compile (dq ++ dq ++ "([^" ++ dq ++ "]+)" ++ dq ++ dq))
        with (lits (dq ++ dq) ++ plus_group 1 not_dq ++ lits (dq ++ dq) ++ [])%list.
      rewrite re_match_lits.
      apply plus_group_run; [exact Hne|apply (all_in_without DQ), Hk|reflexivity|].
      now rewrite re_match_lits.
Qed.

(** The requoted text holds [L] nowhere, for a text [L] without ['] that
    the stretches lack and that begins with a double quote. *)
Lemma tokens_lack (L : string) (items : list (string * string)) (tail : string) :
  has_char "'" (String DQ L) = false ->
  Forall (fun sk => contains (String DQ L) (fst sk) = false
                    /\ has_char DQ (snd sk) = false) items ->
  contains (String DQ L) tail = false ->
  contains (String DQ L) (tokens "'" "'" items tail) = false.
Proof.
  intros HL H Ht. induction H as [|[s k] items [Hs Hk] H IH]; [exact Ht|].
  change (tokens "'" "'" ((s, k) :: items) tail)
    with (s ++ String "'" (k ++ String "'" (tokens "'" "'" items tail))).
  apply contains_sep; [exact HL|exact Hs|].
  apply contains_sep; [exact HL| |exact IH].
  apply (contains_needs_char DQ); [reflexivity|exact Hk].
Qed.

Lemma quotes_settle (items : list (string * string)) (tail : string) :
  forallb loose_item items = true -> loose_text tail = true ->
  ReplaceQuotes.replace_double_quotes_in_json (tokens (dq ++ dq) (dq ++ dq) items tail)
  = tokens "'" "'" items tail /\
  ReplaceQuotes.replace_double_quotes_in_json (tokens "'" "'" items tail)
  = tokens "'" "'" items tail.
Proof.
  intros H Ht. unfold loose_text in Ht. apply andb_true_iff in Ht as [Ht1 Ht2].
  apply negb_true_iff in Ht1, Ht2.
  assert (F1 : Forall (fun sk => contains (String DQ dq) (fst sk) = false
                                 /\ has_char DQ (snd sk) = false) items).
  { apply Forall_forall. intros [s k] Hin.
    rewrite forallb_forall in H. apply H, loose_item_inv in Hin as (? & ? & ? & ?). auto. }
  assert (F2 : Forall (fun sk => contains (String DQ ":") (fst sk) = false
                                 /\ has_char DQ (snd sk) = false) items).
  { apply Forall_forall. intros [s k] Hin.
    rewrite forallb_forall in H. apply H, loose_item_inv in Hin as (? & ? & ? & ?). auto. }
  assert (A : contains (dq ++ dq) (tokens "'" "'" items tail) = false)
    by (apply (tokens_lack dq); [reflexivity|exact F1|exact Ht1]).
  assert (B : contains (dq ++ ":") (tokens "'" "'" items tail) = false)
    by (apply (tokens_lack ":"); [reflexivity|exact F2|exact Ht2]).
  unfold ReplaceQuotes.replace_double_quotes_in_json. cbv zeta.
  rewrite (first_rule_loose items tail H Ht1).
  rewrite (re_sub_id (dq ++ ":") _ _ (tokens "'" "'" items tail)) by (first [exact eq_refl|exact B]).
  split; [reflexivity|].
  rewrite (re_sub_id (dq ++ dq) _ _ (tokens "'" "'" items tail)) by (first [exact eq_refl|exact A]).
  apply (re_sub_id (dq ++ ":")); [reflexivity|exact B].
Qed.

(** ** Running fix_all_should.py twice *)

(** *** The rule texts *)

Lemma methods_all (m : method) : In m methods.
Proof. destruct m; simpl; tauto. Qed.

Lemma method_eqb_eq (a b : method) : method_eqb a b = true -> a = b.
Proof. destruct a, b; intros H; first [reflexivity | discriminate H]. Qed.

Lemma method_eqb_refl (a : method) : method_eqb a a = true.
Proof. destruct a; reflexivity. Qed.

Lemma rule_text_unbordered (m : method) : unbordered (rule_text m) = true.
Proof. destruct m; reflexivity. Qed.

Lemma rule_text_recv (m : method) : all_in recv_char (rule_text m) = true.
Proof. destruct m; reflexivity. Qed.

(** A text without [.Should()] holds no rule text. *)
Lemma rule_text_needs_should (m : method) (s : string) :
  contains ".Should()" s = false -> contains (rule_text m) s = false.
Proof.
  intros H. unfold rule_text.
  exact (contains_part "" ".Should()"
           ("." ++ method_name m ++ (if takes_argument m then "(" else "()")) s H).
Qed.

Lemma rule_text_needs_dot (m : method) (s : string) :
  contains ".Should()." s = false -> contains (rule_text m) s = false.
Proof.
  intros H. unfold rule_text.
  exact (contains_part "" ".Should()."
           (method_name m ++ (if takes_argument m then "(" else "()")) s H).
Qed.

Lemma quiet_inv (q : string) :
  quiet q = true ->
  contains ".Assert." q = false /\ forall m, contains (rule_text m) q = false.
Proof.
  unfold quiet. intros H. apply andb_true_iff in H as [H1 H2].
  apply negb_true_iff in H1. split; [exact H1|]. intros m.
  rewrite forallb_forall in H2. apply negb_true_iff. apply H2, methods_all.
Qed.

Lemma quiet_intro (q : string) :
  contains ".Assert." q = false -> contains ".Should()." q = false -> quiet q = true.
Proof.
  intros H1 H2. unfold quiet. apply andb_true_iff. split; [now rewrite H1|].
  apply forallb_forall. intros m _. now rewrite rule_text_needs_dot.
Qed.

Lemma plain_receiver_inv (r : string) :
  plain_receiver r = true ->
  is_recv ident_start recv_char r = true /\ contains ".Should()" r = false
  /\ contains ".Assert" r = false.
Proof.
  unfold plain_receiver. intros H. apply andb_true_iff in H as [H H3].
  apply andb_true_iff in H as [H1 H2]. apply negb_true_iff in H2, H3. auto.
Qed.

Lemma plain_argument_inv (m : method) (v : string) :
  plain_argument m v = true -> takes_argument m = true ->
  v <> "" /\ has_char ")" v = false /\ contains ".Assert." v = false.
Proof.
  unfold plain_argument. intros H Hm. rewrite Hm in H.
  apply andb_true_iff in H as [H H3]. apply andb_true_iff in H as [H1 H2].
  apply negb_true_iff in H1, H2, H3. apply String.eqb_neq in H1. auto.
Qed.

(** The call of one assertion holds the rule text of no other. *)
Ltac absent_pair m0 m r v HK Hv :=
  let L := eval vm_compute in (rule_text m0) in
  let T := eval vm_compute in (drop 9 (rule_text m)) in
  let M := eval vm_compute in (drop 9 L) in
  lazymatch eval vm_compute in (takes_argument m) with
  | true =>
      apply (contains_anchor ".Should()" M r (T ++ v ++ ")")); [reflexivity|exact HK|];
      simpl; apply (contains_char_end ")" ".Should(" M); [exact (Hv eq_refl)|discriminate]
  | false =>
      apply (contains_anchor ".Should()" M r T); [reflexivity|exact HK|reflexivity]
  end.

Lemma other_rule_absent (m0 m : method) (r v : string) :
  method_eqb m m0 = false -> contains ".Should()" r = false ->
  (takes_argument m = true -> has_char ")" v = false) ->
  contains (rule_text m0) (fluent r m v) = false.
Proof.
  intros Hm HK Hv.
  destruct m0, m; try discriminate Hm;
    match goal with
    | |- contains (rule_text ?a) (fluent _ ?b _) = false => absent_pair a b r v HK Hv
    end.
Qed.

(** *** The assertions *)

(** A text that follows [L] with a dot ends where [L] ends. *)
Lemma contains_before_dot (L r : string) :
  contains L r = false -> contains (L ++ ".") (r ++ String "." "") = false.
Proof.
  intros H.
  destruct (contains (L ++ ".") (r ++ String "." "")) eqn:E; [exfalso|reflexivity].
  apply contains_inv in E as (a & b & E).
  apply append_eq_snoc in E as [[Q _]|(v1 & Q & ->)].
  - destruct L; discriminate Q.
  - rewrite append_assoc in Q. symmetry in Q.
    apply append_eq_snoc in Q as [[Q _]|(v2 & _ & ->)]; [discriminate Q|].
    now rewrite contains_intro in H.
Qed.

(** The four shapes of an assertion hold no rule text and no [.Assert.]. *)
Lemma shape_plain_quiet (A r : string) :
  contains ".Should()" r = false -> contains ".Assert" r = false ->
  (forall t, contains ".Should()." (A ++ t) = contains ".Should()." t) ->
  (forall t, contains ".Assert." (A ++ t) = contains ".Assert." t) ->
  quiet (A ++ r ++ ")") = true.
Proof.
  intros HK HA H1 H2. apply quiet_intro.
  - rewrite H2. apply (contains_sep ")" ".Assert." r ""); [reflexivity| |reflexivity].
    apply (contains_part "" ".Assert" "."), HA.
  - rewrite H1. apply (contains_snoc ")" ".Should()" "."); [reflexivity|].
    apply (contains_part "" ".Should()" "."), HK.
Qed.

Lemma shape_swap_quiet (A r v : string) :
  contains ".Should()" r = false -> contains ".Assert" r = false ->
  has_char ")" v = false -> contains ".Assert." v = false ->
  (forall t, contains ".Should()." (A ++ t) = contains ".Should()." t) ->
  (forall t, contains ".Assert." (A ++ t) = contains ".Assert." t) ->
  quiet (A ++ v ++ ", " ++ r ++ ")") = true.
Proof.
  intros HK HA Hv HAv H1 H2. apply quiet_intro.
  - rewrite H2. apply output_no_assert; [exact HAv|].
    apply (contains_part "" ".Assert" "."), HA.
  - rewrite H1. now apply output_no_should.
Qed.

Lemma shape_count_quiet (A r v : string) :
  contains ".Should()" r = false -> contains ".Assert" r = false ->
  has_char ")" v = false -> contains ".Assert." v = false ->
  (forall t, contains ".Should()." (A ++ t) = contains ".Should()." t) ->
  (forall t, contains ".Assert." (A ++ t) = contains ".Assert." t) ->
  quiet (A ++ v ++ ", " ++ r ++ ".Count)") = true.
Proof.
  intros HK HA Hv HAv H1 H2. apply quiet_intro.
  - rewrite H2. apply (contains_sep "," ".Assert." v); [reflexivity|exact HAv|].
    simpl. apply (contains_part "" ".Assert" ".").
    apply (contains_sep2 "C" "." ".Assert" r); [reflexivity| |reflexivity].
    apply (contains_snoc "." ".Asser" "t"); [reflexivity|exact HA].
  - rewrite H1. apply (contains_sep "," ".Should()." v); [reflexivity| |].
    + now apply (contains_needs_char ")").
    + simpl. apply (contains_sep2 "C" "." ".Should()." r); [reflexivity| |reflexivity].
      now apply (contains_before_dot ".Should()").
Qed.

Lemma shape_compare_quiet (A op r v : string) :
  contains ".Should()" r = false -> contains ".Assert" r = false ->
  has_char ")" v = false -> contains ".Assert." v = false ->
  (forall t, contains ".Should()." (A ++ t) = contains ".Should()." t) ->
  (forall t, contains ".Assert." (A ++ t) = contains ".Assert." t) ->
  (forall t, contains ".Should()." (op ++ t) = contains ".Should()." t) ->
  (forall t, contains ".Assert." (op ++ t) = contains ".Assert." t) ->
  quiet (A ++ r ++ String " " (op ++ v ++ ")")) = true.
Proof.
  intros HK HA Hv HAv H1 H2 H3 H4. apply quiet_intro.
  - rewrite H2. apply (contains_sep " " ".Assert." r); [reflexivity| |].
    + apply (contains_part "" ".Assert" "."), HA.
    + rewrite H4. now apply (contains_sep ")" ".Assert." v "").
  - rewrite H1. apply (contains_sep " " ".Should()." r); [reflexivity| |].
    + apply (contains_part "" ".Should()" "."), HK.
    + rewrite H3. apply (contains_snoc ")" ".Should()" "."); [reflexivity|].
      now apply (contains_needs_char ")").
Qed.

Lemma assertion_quiet (m : method) (r v : string) :
  plain_receiver r = true -> plain_argument m v = true ->
  quiet (assertion m r v) = true.
Proof.
  intros Hr Hv. apply plain_receiver_inv in Hr as (_ & HK & HA).
  destruct m;
    try (pose proof (plain_argument_inv _ v Hv eq_refl) as (_ & Hp & HAv));
    first
      [ apply (shape_plain_quiet _ r HK HA); reflexivity
      | apply (shape_swap_quiet _ r v HK HA Hp HAv); reflexivity
      | apply (shape_count_quiet _ r v HK HA Hp HAv); reflexivity
      | apply (shape_compare_quiet "Assert.True(" "> " r v HK HA Hp HAv); reflexivity
      | apply (shape_compare_quiet "Assert.True(" "< " r v HK HA Hp HAv); reflexivity
      | apply (shape_compare_quiet "Assert.True(" ">= " r v HK HA Hp HAv); reflexivity ].
Qed.

Lemma step_ok (m0 : method) (k : chunk) : chunk_ok k = true -> chunk_ok (step m0 k) = true.
Proof.
  destruct k as [q|r m v]; [trivial|]. simpl. intros H.
  destruct (method_eqb m m0); [|exact H].
  apply andb_true_iff in H as [H1 H2]. now apply assertion_quiet.
Qed.

Lemma settle_ok (k : chunk) : chunk_ok k = true -> chunk_ok (settle k) = true.
Proof.
  destruct k as [q|r m v]; [trivial|]. simpl. intros H.
  apply andb_true_iff in H as [H1 H2]. now apply assertion_quiet.
Qed.

Lemma buffer_ok_inv (k : chunk) (c : ascii) (front : list (chunk * ascii)) (last : chunk) :
  buffer_ok ((k, c) :: front) last = true ->
  chunk_ok k = true /\ in_cset recv_char c = false /\ buffer_ok front last = true.
Proof.
  unfold buffer_ok. simpl. intros H. apply andb_true_iff in H as [H H3].
  apply andb_true_iff in H as [H H2]. apply andb_true_iff in H as [H0 H1].
  apply negb_true_iff in H1. rewrite H2, H3. auto.
Qed.

Lemma buffer_ok_on (g : chunk -> chunk) (front : list (chunk * ascii)) (last : chunk) :
  (forall k, chunk_ok k = true -> chunk_ok (g k) = true) ->
  buffer_ok front last = true -> buffer_ok (on_pieces g front) (g last) = true.
Proof.
  intros Hg. induction front as [|[k c] front IH]; intros H.
  - unfold buffer_ok in *. simpl in *. now apply Hg.
  - apply buffer_ok_inv in H as (Hk & Hc & H). specialize (IH H).
    unfold buffer_ok in *. simpl. rewrite (Hg k Hk), Hc. simpl. exact IH.
Qed.

(** *** One rule over a buffer *)

(** The pattern of the rule for [m]. *)
Lemma rule_step (pat repl : string) (m0 : method) :
  compile pat
  = (lazy_group 1 ident_start recv_char ++ lits (rule_text m0)
       ++ (if takes_argument m0 then plus_group 2 not_paren ++ [Lit ")"%char] else []))%list ->
  (forall r v, expand (template repl)
                 (if takes_argument m0 then [(2, v); (1, r)] else [(1, r)])
               = assertion m0 r v) ->
  forall front last, buffer_ok front last = true ->
    re_sub pat repl (buffer front last)
    = buffer (on_pieces (step m0) front) (step m0 last).
Proof.
  intros Hp Hx.
  assert (Hempty : re_match (compile pat) "" mstate0 = None) by (now rewrite Hp).
  assert (Hsep : forall c s, in_cset recv_char c = false ->
                   re_sub pat repl (String c s) = String c (re_sub pat repl s)).
  { intros c s Hc.
    apply (re_sub_copy_blocked pat repl (rule_text m0) ident_start recv_char _ "" s c Hp).
    - now apply ident_start_recv.
    - exact Hc.
    - apply outside_lacks; [exact Hc|apply rule_text_recv].
    - now destruct m0. }
  assert (Hkeep : forall k, chunk_ok k = true -> step m0 k = k ->
                    contains (rule_text m0) (chunk_text k) = false).
  { intros [q|r m v] Hk Hs.
    - now apply quiet_inv in Hk as [_ Hk].
    - simpl in Hk, Hs. apply andb_true_iff in Hk as [Hr Hv].
      apply plain_receiver_inv in Hr as (_ & HK & _).
      destruct (method_eqb m m0) eqn:Em; [discriminate Hs|]. simpl.
      apply other_rule_absent; [exact Em|exact HK|].
      intros Ht. now apply (plain_argument_inv m v Hv Ht). }
  assert (Hfire : forall r v tail, chunk_ok (Fluent r m0 v) = true ->
                    re_sub pat repl (fluent r m0 v ++ tail)
                    = assertion m0 r v ++ re_sub pat repl tail).
  { intros r v tail Hk. simpl in Hk. apply andb_true_iff in Hk as [Hr Hv].
    apply plain_receiver_inv in Hr as (Hr & HK & _).
    unfold fluent. destruct (takes_argument m0) eqn:Et.
    - apply (plain_argument_inv m0 v Hv) in Et as (Hne & Hpv & _).
      rewrite !append_assoc.
      change (r ++ rule_text m0 ++ v ++ ")" ++ tail)
        with (r ++ rule_text m0 ++ v ++ String ")" tail).
      rewrite (fire_recv_plus pat repl (rule_text m0) ident_start recv_char not_paren
                 r v tail Hp Hr (rule_text_unbordered m0)
                 (rule_text_needs_should m0 r HK) Hne (all_in_without ")" v Hpv) eq_refl).
      now rewrite Hx.
    - rewrite append_nil_r, append_assoc.
      rewrite (fire_recv pat repl (rule_text m0) ident_start recv_char r tail Hp Hr
                 (rule_text_unbordered m0) (rule_text_needs_should m0 r HK)).
      now rewrite (Hx r v). }
  assert (Hone : forall k tail, chunk_ok k = true ->
                   (tail = "" \/ exists c s, tail = String c s /\ in_cset recv_char c = false) ->
                   forall rest, re_sub pat repl tail = rest ->
                   re_sub pat repl (chunk_text k ++ tail) = chunk_text (step m0 k) ++ rest).
  { intros k tail Hk Ht rest <-.
    destruct k as [q|r m v].
    - simpl step. simpl chunk_text.
      destruct Ht as [->|(c & s & -> & Hc)].
      + rewrite !append_nil_r, re_sub_empty by exact Hempty. rewrite append_nil_r.
        apply (re_sub_id (rule_text m0)); [rewrite Hp; now destruct m0|].
        now apply (Hkeep (Plain q)).
      + rewrite Hsep by exact Hc.
        rewrite (re_sub_copy_blocked pat repl (rule_text m0) ident_start recv_char _ q s c Hp);
          [ reflexivity
          | now apply ident_start_recv | exact Hc
          | apply outside_lacks; [exact Hc|apply rule_text_recv]
          | now apply (Hkeep (Plain q)) ].
    - simpl step. destruct (method_eqb m m0) eqn:Em.
      + apply method_eqb_eq in Em. subst m. simpl chunk_text. now apply Hfire.
      + assert (Hs : step m0 (Fluent r m v) = Fluent r m v) by (simpl; now rewrite Em).
        simpl chunk_text.
        destruct Ht as [->|(c & s & -> & Hc)].
        * rewrite !append_nil_r, re_sub_empty by exact Hempty. rewrite append_nil_r.
          apply (re_sub_id (rule_text m0)); [rewrite Hp; now destruct m0|].
          now apply (Hkeep (Fluent r m v)).
        * rewrite Hsep by exact Hc.
          rewrite (re_sub_copy_blocked pat repl (rule_text m0) ident_start recv_char _
                     (fluent r m v) s c Hp);
            [ reflexivity
            | now apply ident_start_recv | exact Hc
            | apply outside_lacks; [exact Hc|apply rule_text_recv]
            | now apply (Hkeep (Fluent r m v)) ]. }
  induction front as [|[k c] front IH]; intros last H.
  - unfold buffer_ok in H. simpl in H. simpl buffer.
    rewrite <- (append_nil_r (chunk_text last)), <- (append_nil_r (chunk_text (step m0 last))).
    apply Hone; [exact H|now left|now apply re_sub_empty].
  - apply buffer_ok_inv in H as (Hk & Hc & H).
    simpl buffer. simpl on_pieces.
    apply Hone; [exact Hk|right; eauto|].
    rewrite Hsep by exact Hc. f_equal. now apply IH.
Qed.

(** *** All rules over a buffer *)

Lemma on_pieces_compose (g h : chunk -> chunk) (l : list (chunk * ascii)) :
  on_pieces g (on_pieces h l) = on_pieces (fun k => g (h k)) l.
Proof. unfold on_pieces. rewrite map_map. reflexivity. Qed.

Lemma on_pieces_ext (g h : chunk -> chunk) (l : list (chunk * ascii)) :
  (forall k, g k = h k) -> on_pieces g l = on_pieces h l.
Proof. intros E. unfold on_pieces. apply map_ext. intros [k c]. simpl. now rewrite E. Qed.

Lemma settle_settle (k : chunk) : settle (settle k) = settle k.
Proof. now destruct k. Qed.

(** A buffer of settled pieces holds no [.Assert.] and no rule text. *)
Lemma settled_lacks (L : string) (front : list (chunk * ascii)) (last : chunk) :
  all_in recv_char L = true ->
  (forall q, quiet q = true -> contains L q = false) ->
  buffer_ok front last = true ->
  contains L (buffer (on_pieces settle front) (settle last)) = false.
Proof.
  intros HL Hq.
  assert (Hk : forall k, chunk_ok k = true -> contains L (chunk_text (settle k)) = false).
  { intros k Hk. apply settle_ok in Hk. destruct k; apply Hq; exact Hk. }
  induction front as [|[k c] front IH]; intros H.
  - unfold buffer_ok in H. simpl in H. now apply Hk.
  - apply buffer_ok_inv in H as (H1 & Hc & H). simpl.
    apply contains_sep; [now apply outside_lacks|now apply Hk|now apply IH].
Qed.

Ltac next_rule m :=
  match goal with
  | H : buffer_ok ?fr ?la = true |- _ =>
      rewrite (rule_step _ _ m); [ | reflexivity | intros; reflexivity | exact H ];
      let H' := fresh "Hok" in
      assert (H' : buffer_ok (on_pieces (step m) fr) (step m la) = true)
        by (apply buffer_ok_on; [apply step_ok|exact H])
  end.

Lemma all_buffer (front : list (chunk * ascii)) (last : chunk) :
  buffer_ok front last = true ->
  FixAllShould.fix_all_should_patterns (buffer front last)
  = buffer (on_pieces settle front) (settle last).
Proof.
  intros H0.
  assert (HA : contains ".Assert." (buffer (on_pieces settle front) (settle last)) = false).
  { apply settled_lacks; [reflexivity| |exact H0].
    intros q Hq. now apply quiet_inv in Hq. }
  unfold FixAllShould.fix_all_should_patterns. cbv zeta.
  next_rule NotBeNull. next_rule BeNull. next_rule Be. next_rule BeTrue.
  next_rule BeFalse. next_rule Contain. next_rule NotContain. next_rule HaveCount.
  next_rule BeEmpty. next_rule NotBeEmpty. next_rule BeGreaterThan.
  next_rule BeLessThan. next_rule BeGreaterOrEqualTo. next_rule StartWith.
  next_rule EndWith. next_rule BeEquivalentTo. next_rule NotBe.
  rewrite !on_pieces_compose.
  assert (E : forall k,
             step NotBe (step BeEquivalentTo (step EndWith (step StartWith
               (step BeGreaterOrEqualTo (step BeLessThan (step BeGreaterThan
                 (step NotBeEmpty (step BeEmpty (step HaveCount (step NotContain
                   (step Contain (step BeFalse (step BeTrue (step Be (step BeNull
                     (step NotBeNull k))))))))))))))))
             = settle k)
    by (intros [q|r m v]; [reflexivity|destruct m; reflexivity]).
  rewrite (on_pieces_ext _ settle front E), E.
  skip_all ".Assert." (buffer (on_pieces settle front) (settle last)) HA.
  reflexivity.
Qed.

Lemma all_buffer_settled (front : list (chunk * ascii)) (last : chunk) :
  buffer_ok front last = true ->
  FixAllShould.fix_all_should_patterns (buffer (on_pieces settle front) (settle last))
  = buffer (on_pieces settle front) (settle last).
Proof.
  intros H. rewrite all_buffer by (apply buffer_ok_on; [apply settle_ok|exact H]).
  rewrite on_pieces_compose, (on_pieces_ext _ settle front settle_settle), settle_settle.
  reflexivity.
Qed.

(** C1 (amended): a second run is a no-op on buffers without chained or
    nested fluent calls and on texts of doubled-quoted tokens.
    For fix_all_should.py: a buffer made of pieces, with one character
    outside the receiver class between neighbours, each piece either a text
    that holds none of the seventeen rule texts [.Should().M(] and no
    [.Assert.] (it may hold calls the script has no rule for) or one call
    [r.Should().M(v)] of a rule, [r] a receiver without [.Should()] and
    [.Assert], [v] non-empty without [)] and [.Assert.]: the first run
    rewrites every call to its assertion and keeps the rest, and the
    second run returns that text unchanged; in particular a text that
    holds no rule text and no [.Assert.] is returned as it is.
    For replace_quotes.py: a text of non-empty tokens without a double
    quote, each between doubled double quotes, and of stretches that may
    hold double quotes but no two in a row and none in front of a colon:
    the first run puts single quotes around every token, and the second
    run returns that text unchanged. *)
Theorem second_run_is_noop_on_plain_buffers
        (front : list (chunk * ascii)) (last : chunk)
        (items : list (string * string)) (tail : string) :
  buffer_ok front last = true ->
  forallb loose_item items = true -> loose_text tail = true ->
  (FixAllShould.fix_all_should_patterns (buffer front last)
   = buffer (on_pieces settle front) (settle last) /\
   FixAllShould.fix_all_should_patterns
     (FixAllShould.fix_all_should_patterns (buffer front last))
   = FixAllShould.fix_all_should_patterns (buffer front last)) /\
  (ReplaceQuotes.replace_double_quotes_in_json (tokens (dq ++ dq) (dq ++ dq) items tail)
   = tokens "'" "'" items tail /\
   ReplaceQuotes.replace_double_quotes_in_json
     (ReplaceQuotes.replace_double_quotes_in_json
        (tokens (dq ++ dq) (dq ++ dq) items tail))
   = ReplaceQuotes.replace_double_quotes_in_json
       (tokens (dq ++ dq) (dq ++ dq) items tail)).
Proof.
  intros Hb Hi Ht. split.
  - rewrite (all_buffer front last Hb). split; [reflexivity|].
    now apply all_buffer_settled.
  - destruct (quotes_settle items tail Hi Ht) as [E1 E2].
    rewrite E1. split; [reflexivity|exact E2].
Qed.

Lemma second_run_is_noop_on_plain_buffers_witness :
  buffer_ok [(Plain "x.Should().BeOfType<Foo>();", " "%char);
             (Fluent "y" BeNull "", ";"%char);
             (Plain "", LF);
             (Fluent "list.Items" HaveCount "3", ";"%char)] (Plain "") = true /\
  forallb loose_item [("var json = @" ++ dq ++ "{", "id"); (": ", "start")] = true /\
  loose_text ("}" ++ dq ++ ";") = true /\
  (FixAllShould.fix_all_should_patterns
     ("x.Should().BeOfType<Foo>(); y.Should().BeNull();"
        ++ String LF "list.Items.Should().HaveCount(3);")
   = "x.Should().BeOfType<Foo>(); Assert.Null(y);"
       ++ String LF "Assert.Equal(3, list.Items.Count);" /\
   FixAllShould.fix_all_should_patterns
     (FixAllShould.fix_all_should_patterns
        ("x.Should().BeOfType<Foo>(); y.Should().BeNull();"
           ++ String LF "list.Items.Should().HaveCount(3);"))
   = FixAllShould.fix_all_should_patterns
       ("x.Should().BeOfType<Foo>(); y.Should().BeNull();"
          ++ String LF "list.Items.Should().HaveCount(3);")) /\
  (ReplaceQuotes.replace_double_quotes_in_json
     ("var json = @" ++ dq ++ "{" ++ dq ++ dq ++ "id" ++ dq ++ dq ++ ": "
        ++ dq ++ dq ++ "start" ++ dq ++ dq ++ "}" ++ dq ++ ";")
   = "var json = @" ++ dq ++ "{'id': 'start'}" ++ dq ++ ";" /\
   ReplaceQuotes.replace_double_quotes_in_json
     (ReplaceQuotes.replace_double_quotes_in_json
        ("var json = @" ++ dq ++ "{" ++ dq ++ dq ++ "id" ++ dq ++ dq ++ ": "
           ++ dq ++ dq ++ "start" ++ dq ++ dq ++ "}" ++ dq ++ ";"))
   = ReplaceQuotes.replace_double_quotes_in_json
       ("var json = @" ++ dq ++ "{" ++ dq ++ dq ++ "id" ++ dq ++ dq ++ ": "
          ++ dq ++ dq ++ "start" ++ dq ++ dq ++ "}" ++ dq ++ ";")).
Proof.
  split; [reflexivity|]. split; [reflexivity|]. split; [reflexivity|].
  exact (second_run_is_noop_on_plain_buffers
           [(Plain "x.Should().BeOfType<Foo>();", " "%char);
            (Fluent "y" BeNull "", ";"%char);
            (Plain "", LF);
            (Fluent "list.Items" HaveCount "3", ";"%char)] (Plain "")
           [("var json = @" ++ dq ++ "{", "id"); (": ", "start")] ("}" ++ dq ++ ";")
           eq_refl eq_refl eq_refl).
Defined.
